(** * The VI filter pipeline of angrylion-rdp-plus (core/vi.c, core/parallel.cpp)

    A shallow embedding of the video-interface code: the register decode of
    [vi_process_start] and [vi_process_start_fast], the scanline loops of
    [vi_process] and [vi_process_fast], the end stages, the frame driver
    [vi_update], and the worker pool of parallel.cpp.

    C integers are [Z]; the wrap-around of [uint32_t] and [int32_t] is
    written out with [u32] and [s32].  The file-scope statics of vi.c are a
    store indexed by the variable's name. *)

From Stdlib Require Import ZArith List Bool Lia String.
Import ListNotations.
Open Scope Z_scope.

Ltac Zify.zify_post_hook ::= Z.to_euclidean_division_equations.

(** ** Machine integers *)

Infix ">>" := Z.shiftr (at level 40, left associativity).
Infix "<<" := Z.shiftl (at level 40, left associativity).
Infix ".&" := Z.land (at level 40, left associativity).
Infix ".|" := Z.lor (at level 50, left associativity).

Definition u32 (z : Z) : Z := z mod 2 ^ 32.
Definition s32 (z : Z) : Z := (z + 2 ^ 31) mod 2 ^ 32 - 2 ^ 31.

(** C truth values. *)
Definition truthy (z : Z) : bool := negb (z =? 0).
Definition of_bool (b : bool) : Z := if b then 1 else 0.

(** ** Constants of vi.c *)

Definition H_RES_NTSC : Z := 640.
Definition V_RES_NTSC : Z := 480.
Definition H_RES_PAL : Z := 768.
Definition V_RES_PAL : Z := 576.
Definition V_SYNC_NTSC : Z := 525.
Definition V_SYNC_PAL : Z := 625.
Definition PRESCALE_WIDTH : Z := H_RES_NTSC.
Definition PRESCALE_HEIGHT : Z := V_SYNC_PAL.

(** [enum vi_type] and [enum vi_aa]. *)
Definition VI_TYPE_BLANK : Z := 0.
Definition VI_TYPE_RESERVED : Z := 1.
Definition VI_TYPE_RGBA5551 : Z := 2.
Definition VI_TYPE_RGBA8888 : Z := 3.
Definition VI_AA_REPLICATE : Z := 3.

(** [enum vi_mode] (declared in vi.h). *)
Definition VI_MODE_NORMAL : Z := 0.
Definition VI_MODE_COLOR : Z := 1.
Definition VI_MODE_DEPTH : Z := 2.
Definition VI_MODE_COVERAGE : Z := 3.
Definition VI_MODE_NUM : Z := 4.

(** ** [union vi_reg_ctrl]: the bit-fields of the control word, least
    significant field first. *)
Module Ctrl.
Definition type (raw : Z) : Z := raw .& 3.
Definition gamma_dither_enable (raw : Z) : Z := (raw >> 2) .& 1.
Definition gamma_enable (raw : Z) : Z := (raw >> 3) .& 1.
Definition divot_enable (raw : Z) : Z := (raw >> 4) .& 1.
Definition vbus_clock_enable (raw : Z) : Z := (raw >> 5) .& 1.
Definition serrate (raw : Z) : Z := (raw >> 6) .& 1.
Definition test_mode (raw : Z) : Z := (raw >> 7) .& 1.
Definition aa_mode (raw : Z) : Z := (raw >> 8) .& 3.
Definition kill_we (raw : Z) : Z := (raw >> 11) .& 1.
Definition pixel_advance (raw : Z) : Z := (raw >> 12) .& 15.
Definition dither_filter_enable (raw : Z) : Z := (raw >> 16) .& 1.
End Ctrl.

(** [struct ccvg]. *)
Record ccvg : Type := { c_r : Z; c_g : Z; c_b : Z; c_cvg : Z }.

(** ** The register window

    [plugin_get_vi_registers] returns a table of pointers to the 32-bit
    registers; the code only reads through it. *)
Inductive vi_register : Type :=
| VI_STATUS | VI_ORIGIN | VI_WIDTH | VI_V_CURRENT_LINE
| VI_X_SCALE | VI_Y_SCALE | VI_H_START | VI_V_START | VI_V_SYNC.

Definition vi_regs : Type := vi_register -> Z.

(** ** Messages and the display sink *)
Inductive message : Type :=
| UnknownFramebufferFormat (t : Z)
| VbusClockWarning
| NoLerpWarning
| VresWarning (vres v_start v_video_start : Z)
| VSyncTooBig
| InvalidViMode (mode : Z)
| WritingScreenshot (path : string)   (* line 136 *)
| CantOpenScreenshot (path : string). (* line 155 *)

Inductive event : Type :=
| MsgError (m : message)
| MsgWarning (m : message)
| MsgDebug (m : message)
| TraceWriteVi
| ScreenUpload (buffer width height pitch output_height : Z)
| ScreenshotWrite (path : string) (buffer width height pitch output_height : Z)
| ScreenSwap.

(** ** The statics of vi.c

    Integer statics live in a store indexed by name; [onetimewarnings] is
    flattened to its two members. *)
Inductive gvar : Type :=
| prevvicurrent | emucontrolsvicurrent | prevserrate | oldlowerfield
| oldvstart | prevwasblank
| vactivelines | ispal | minhpass | maxhpass
| x_add | x_start_init | y_add | y_start | v_sync | vi_width_low
| frame_buffer | vi_mode | prescale_ptr | linecount
| ctrl | hres | vres | hres_raw | vres_raw | v_start | h_start
| onetimewarnings_nolerp | onetimewarnings_vbusclock
| vi_fetch_filter_ptr.

Definition gvar_eqb (a b : gvar) : bool :=
  match a, b with
  | prevvicurrent, prevvicurrent | emucontrolsvicurrent, emucontrolsvicurrent
  | prevserrate, prevserrate | oldlowerfield, oldlowerfield
  | oldvstart, oldvstart | prevwasblank, prevwasblank
  | vactivelines, vactivelines | ispal, ispal | minhpass, minhpass
  | maxhpass, maxhpass | x_add, x_add | x_start_init, x_start_init
  | y_add, y_add | y_start, y_start | v_sync, v_sync
  | vi_width_low, vi_width_low | frame_buffer, frame_buffer
  | vi_mode, vi_mode | prescale_ptr, prescale_ptr | linecount, linecount
  | ctrl, ctrl | hres, hres | vres, vres | hres_raw, hres_raw
  | vres_raw, vres_raw | v_start, v_start | h_start, h_start
  | onetimewarnings_nolerp, onetimewarnings_nolerp
  | onetimewarnings_vbusclock, onetimewarnings_vbusclock
  | vi_fetch_filter_ptr, vi_fetch_filter_ptr => true
  | _, _ => false
  end.

Definition statics : Type := gvar -> Z.

Definition upd (x : gvar) (v : Z) (s : statics) : statics :=
  fun y => if gvar_eqb x y then v else s y.

Notation "s [[ x := v ]]" := (upd x v s)
  (at level 1, left associativity, format "s [[ x  :=  v ]]").

(** The prescale buffer [int32_t prescale[PRESCALE_WIDTH * PRESCALE_HEIGHT]]
    as a map from cell index to contents. *)
Definition buffer : Type := Z -> Z.

Definition PRESCALE_SIZE : Z := PRESCALE_WIDTH * PRESCALE_HEIGHT.

Record vi_state : Type := {
  vars : statics;
  prescale : buffer;
  screenshot_path : string;
  iseed : Z;              (* state of the generator behind irand() *)
  events : list event     (* messages and sink calls, oldest first *)
}.

(** [struct core_config], the members vi.c reads. *)
Record core_config : Type := {
  num_workers : Z;
  cfg_vi_mode : Z;
  cfg_vi_widescreen : bool
}.

(** A process starts with zeroed statics; [seed] is the state of the
    generator in irand.c. *)
Definition boot_state (seed : Z) : vi_state :=
  {| vars := fun _ => 0; prescale := fun _ => 0; screenshot_path := EmptyString;
     iseed := seed; events := [] |}.

Definition setv (x : gvar) (v : Z) (st : vi_state) : vi_state :=
  {| vars := (vars st)[[x := v]]; prescale := prescale st;
     screenshot_path := screenshot_path st; iseed := iseed st;
     events := events st |}.

Definition emit (e : event) (st : vi_state) : vi_state :=
  {| vars := vars st; prescale := prescale st;
     screenshot_path := screenshot_path st; iseed := iseed st;
     events := events st ++ [e] |}.

Definition set_prescale (b : buffer) (st : vi_state) : vi_state :=
  {| vars := vars st; prescale := b;
     screenshot_path := screenshot_path st; iseed := iseed st;
     events := events st |}.

Definition set_screenshot_path (p : string) (st : vi_state) : vi_state :=
  {| vars := vars st; prescale := prescale st;
     screenshot_path := p; iseed := iseed st;
     events := events st |}.

Definition set_iseed (z : Z) (st : vi_state) : vi_state :=
  {| vars := vars st; prescale := prescale st;
     screenshot_path := screenshot_path st; iseed := z;
     events := events st |}.

Notation "st <[ x := v ]>" := (setv x v st)
  (at level 1, left associativity, format "st <[ x  :=  v ]>").
Notation "st @ x" := (vars st x) (at level 1, left associativity, format "st @ x").

(** A register read through the pointer table. *)
Definition rd (regs : vi_regs) (r : vi_register) : Z := u32 (regs r).

(** ** [vi_init] *)
Definition vi_init (st : vi_state) : vi_state :=
  let st := set_prescale (fun _ => 0) st in
  let st := st<[vi_mode := VI_MODE_NORMAL]> in
  let st := st<[prevvicurrent := 0]> in
  let st := st<[emucontrolsvicurrent := -1]> in
  let st := st<[prevserrate := 0]> in
  let st := st<[oldlowerfield := 0]> in
  let st := st<[oldvstart := 1337]> in
  st<[prevwasblank := 0]>.

(** ** [vi_process_start]

    The body is in single-assignment form: every assignment of the source
    binds a fresh name ([h_start_r] as read from the register, [h_start_a]
    after the PAL/NTSC adjustment, [h_start'] as left in the static), an
    [if] block of the source becomes one conditional per variable it
    assigns, and the statics are stored at each [return].  The block under
    [#if ENABLE_TVFADEOUT] is not compiled ([ENABLE_TVFADEOUT] is 0) and has
    no counterpart here.  [msg_error] and [msg_warning] are recorded as
    events; control continues after them as it does in this file. *)

(** Lines 257-273: which field of an interlaced frame this is.  Returns the
    new [emucontrolsvicurrent] and the local [lowerfield]. *)
Definition infer_field (regs : vi_regs) (s : statics) (validinterlace : bool)
    (v_start_r : Z) : Z * Z :=
  let emucontrolsvicurrent' :=
    if validinterlace && truthy (s prevserrate) && (s emucontrolsvicurrent <? 0)
    then of_bool (negb (rd regs VI_V_CURRENT_LINE .& 1 =? s prevvicurrent))
    else s emucontrolsvicurrent in
  let lowerfield :=
    if validinterlace then
      if emucontrolsvicurrent' =? 1
      then Z.lxor (rd regs VI_V_CURRENT_LINE .& 1) 1
      else if negb (truthy emucontrolsvicurrent') then
        if v_start_r =? s oldvstart
        then Z.lxor (s oldlowerfield) 1
        else of_bool (v_start_r <? s oldvstart)
      else 0
    else 0 in
  (emucontrolsvicurrent', lowerfield).

(** Lines 241-242 and 246-248, 300-302: the adjusted left edge and the two
    clamp tests, as functions of the registers. *)
Definition start_ispal (regs : vi_regs) : bool :=
  rd regs VI_V_SYNC .& 0x3ff >? V_SYNC_NTSC + 25.

Definition start_h_start_a (regs : vi_regs) : Z :=
  (rd regs VI_H_START >> 16) .& 0x3ff - (if start_ispal regs then 128 else 108).

Definition start_h_start_clamped (regs : vi_regs) : bool :=
  start_h_start_a regs <? 0.

Definition start_hres_a (regs : vi_regs) : Z :=
  let hres_r := rd regs VI_H_START .& 0x3ff - (rd regs VI_H_START >> 16) .& 0x3ff in
  if start_h_start_clamped regs then hres_r + start_h_start_a regs else hres_r.

Definition start_hres_clamped (regs : vi_regs) : bool :=
  start_hres_a regs + (if start_h_start_clamped regs then 0 else start_h_start_a regs)
  >? PRESCALE_WIDTH.

(** Line 257 and the local [lowerfield] of lines 261-273. *)
Definition start_validinterlace (regs : vi_regs) : bool :=
  truthy (Ctrl.type (rd regs VI_STATUS) .& 2)
  && truthy (Ctrl.serrate (rd regs VI_STATUS)).

Definition start_lowerfield (regs : vi_regs) (s : statics) : Z :=
  snd (infer_field regs s (start_validinterlace regs)
         ((rd regs VI_V_START >> 16) .& 0x3ff)).

Definition vi_process_start (regs : vi_regs) (st : vi_state) : Z * vi_state :=
  let s := vars st in
  (* 207-214 *)
  let v_start_r := (rd regs VI_V_START >> 16) .& 0x3ff in
  let h_start_r := (rd regs VI_H_START >> 16) .& 0x3ff in
  let v_end := rd regs VI_V_START .& 0x3ff in
  let h_end := rd regs VI_H_START .& 0x3ff in
  let hres_r := h_end - h_start_r in
  let vres_r := (v_end - v_start_r) >> 1 in
  (* 216-230 *)
  let ctrl' := rd regs VI_STATUS in
  let bad_type := truthy (Ctrl.type ctrl' .& Z.lnot 3) in
  let warn_vbusclock :=
    truthy (Ctrl.vbus_clock_enable ctrl')
    && negb (truthy (s onetimewarnings_vbusclock)) in
  let vi_fetch_filter_ptr' := Ctrl.type ctrl' .& 1 in
  (* 232-239 *)
  let v_sync' := rd regs VI_V_SYNC .& 0x3ff in
  let x_add' := rd regs VI_X_SCALE .& 0xfff in
  let warn_nolerp :=
    (Ctrl.aa_mode ctrl' =? VI_AA_REPLICATE)
    && (Ctrl.type ctrl' =? VI_TYPE_RGBA5551)
    && negb (truthy (s onetimewarnings_nolerp))
    && (h_start_r <? 0x80) && (x_add' <=? 0x200) in
  (* 241-255 *)
  let ispal' := start_ispal regs in
  let h_start_a := start_h_start_a regs in
  let x_start_init_r := (rd regs VI_X_SCALE >> 16) .& 0xfff in
  let h_start_clamped := start_h_start_clamped regs in
  let x_start_init' :=
    if h_start_clamped
    then u32 (x_start_init_r + x_add' * (- h_start_a)) else x_start_init_r in
  let hres_a := start_hres_a regs in
  let h_start' := if h_start_clamped then 0 else h_start_a in
  (* 257-284 *)
  let validinterlace := start_validinterlace regs in
  let emucontrolsvicurrent' := fst (infer_field regs s validinterlace v_start_r) in
  let lowerfield := start_lowerfield regs s in
  let prevserrate' := if validinterlace then 1 else 0 in
  let prevvicurrent' :=
    if validinterlace then rd regs VI_V_CURRENT_LINE .& 1 else s prevvicurrent in
  let oldvstart' := if validinterlace then v_start_r else s oldvstart in
  (* 286-298 *)
  let lineshifter := of_bool (negb (truthy (Ctrl.serrate ctrl'))) in
  let vstartoffset := if ispal' then 44 else 34 in
  let v_start_a := Z.quot (v_start_r - vstartoffset) 2 in
  let y_start_r := (rd regs VI_Y_SCALE >> 16) .& 0xfff in
  let y_add' := rd regs VI_Y_SCALE .& 0xfff in
  let y_start' :=
    if v_start_a <? 0
    then u32 (y_start_r + y_add' * u32 (- v_start_a)) else y_start_r in
  let v_start' := if v_start_a <? 0 then 0 else v_start_a in
  (* 300-312 *)
  let hres_clamped := start_hres_clamped regs in
  let hres' := if hres_clamped then PRESCALE_WIDTH - h_start' else hres_a in
  let vres_clamped := vres_r + v_start' >? PRESCALE_HEIGHT in
  let vres' := if vres_clamped then PRESCALE_HEIGHT - v_start' else vres_r in
  (* 314-322 *)
  let vactivelines_r := v_sync' - vstartoffset in
  let v_sync_too_big := vactivelines_r >? PRESCALE_HEIGHT in
  let ev :=
    events st
    ++ (if bad_type
        then [MsgError (UnknownFramebufferFormat (Ctrl.type ctrl'))] else [])
    ++ (if warn_vbusclock then [MsgWarning VbusClockWarning] else [])
    ++ (if warn_nolerp then [MsgWarning NoLerpWarning] else [])
    ++ (if vres_clamped
        then [MsgWarning (VresWarning vres' v_start' v_start_r)] else [])
    ++ (if v_sync_too_big then [MsgError VSyncTooBig] else []) in
  let s1 :=
    s[[v_start := v_start']][[h_start := h_start']][[hres := hres']]
     [[vres := vres']][[ctrl := ctrl']]
     [[onetimewarnings_vbusclock :=
         if warn_vbusclock then 1 else s onetimewarnings_vbusclock]]
     [[vi_fetch_filter_ptr := vi_fetch_filter_ptr']]
     [[v_sync := v_sync']][[x_add := x_add']]
     [[onetimewarnings_nolerp :=
         if warn_nolerp then 1 else s onetimewarnings_nolerp]]
     [[ispal := of_bool ispal']][[x_start_init := x_start_init']]
     [[emucontrolsvicurrent := emucontrolsvicurrent']]
     [[oldlowerfield := lowerfield]][[prevserrate := prevserrate']]
     [[prevvicurrent := prevvicurrent']][[oldvstart := oldvstart']]
     [[y_start := y_start']][[y_add := y_add']]
     [[vactivelines := vactivelines_r]] in
  let ret (r : Z) (s : statics) : Z * vi_state :=
    (r, {| vars := s; prescale := prescale st;
           screenshot_path := screenshot_path st; iseed := iseed st;
           events := ev |}) in
  if vactivelines_r <? 0 then ret 0 s1 else
  (* 322-337 *)
  let validh := (0 <? hres') && (h_start' <? PRESCALE_WIDTH) in
  let s2 :=
    s1[[vactivelines := vactivelines_r >> lineshifter]]
      [[minhpass := if h_start_clamped then 0 else 8]]
      [[maxhpass := if hres_clamped then hres' else hres' - 7]] in
  if negb (truthy (Ctrl.type ctrl' .& 2)) && truthy (s prevwasblank)
  then ret 0 s2 else
  (* 339-347 *)
  let linecount' :=
    if truthy (Ctrl.serrate ctrl') then PRESCALE_WIDTH << 1 else PRESCALE_WIDTH in
  let prescale_ptr' :=
    u32 (v_start' * linecount' + h_start'
         + (if truthy lowerfield then PRESCALE_WIDTH else 0)) in
  let frame_buffer' := rd regs VI_ORIGIN .& 0xffffff in
  let s3 :=
    s2[[linecount := linecount']][[prescale_ptr := prescale_ptr']]
      [[vi_width_low := rd regs VI_WIDTH .& 0xfff]]
      [[frame_buffer := frame_buffer']] in
  if negb (truthy frame_buffer') then ret 0 s3 else
  (* 445 *)
  ret (of_bool validh) s3.


(** ** The code included into vi.c

    vi/fetch.c, vi/divot.c, vi/lerp.c, vi/gamma.c and the RDRAM accessors
    are not part of this development; [vi_process] and [vi_process_fast]
    are embedded over their interface.  A fetch reads RDRAM, which the VI
    never writes, so the fetch functions are functions of their arguments.
    [fopen_wb] is the file system as [vi_screenshot_write] sees it: whether
    [fopen(path, "wb")] gives a stream.  A request is served by one call
    of the writer, which opens one file, so one answer per path is all
    that a request reads. *)
Record leaf_ops : Type := {
  (* vi_fetch_filter_func[k](res, fboffset, cur_x, ctrl, hres, fetchstate) *)
  vi_fetch_filter_func : Z -> Z -> Z -> Z -> Z -> Z -> ccvg;
  (* divot_filter(res, center, left, right) *)
  divot_filter : ccvg -> ccvg -> ccvg -> ccvg;
  (* vi_vl_lerp(up, down, frac) *)
  vi_vl_lerp : ccvg -> ccvg -> Z -> ccvg;
  (* irand(): new generator state and the value drawn *)
  irand : Z -> Z * Z;
  (* the dither applied to a pixel from one draw, and the gamma table *)
  gamma_dither : Z -> Z * Z * Z -> Z * Z * Z;
  gamma_table : Z -> Z;
  rdram_read_idx16 : Z -> Z;
  rdram_read_idx32 : Z -> Z;
  rdram_read_pair16 : Z -> Z * Z;
  rdp_get_zb_address : Z;
  fopen_wb : string -> bool
}.

(** Modelled from the spec: [gamma_filters] of vi/gamma.c, which is not
    under src/.  "If [gamma_dither_enable], apply a dither derived from a
    process-wide PRNG; if [gamma_enable], look up each channel through a
    precomputed LUT of 256 entries."  The generator, the dither and the
    table are those of [leaf_ops]; the generator state is passed in and
    out. *)
Definition gamma_filters (L : leaf_ops) (seed : Z) (rgb : Z * Z * Z) (ctrl : Z)
  : Z * (Z * Z * Z) :=
  let '(seed, rgb) :=
    if truthy (Ctrl.gamma_dither_enable ctrl)
    then let '(seed', cdith) := irand L seed in (seed', gamma_dither L cdith rgb)
    else (seed, rgb) in
  let '(r, g, b) := rgb in
  (seed,
   if truthy (Ctrl.gamma_enable ctrl)
   then (gamma_table L r, gamma_table L g, gamma_table L b)
   else (r, g, b)).

(** ** The statics [vi_process] and [vi_process_fast] read *)
Record geometry : Type := {
  g_hres : Z; g_vres : Z; g_hres_raw : Z; g_vres_raw : Z;
  g_x_add : Z; g_x_start_init : Z; g_y_add : Z; g_y_start : Z;
  g_vi_width_low : Z; g_frame_buffer : Z;
  g_prescale_ptr : Z; g_linecount : Z;
  g_minhpass : Z; g_maxhpass : Z;
  g_ctrl : Z; g_vi_fetch_filter_ptr : Z
}.

Definition geometry_of (s : statics) : geometry :=
  {| g_hres := s hres; g_vres := s vres;
     g_hres_raw := s hres_raw; g_vres_raw := s vres_raw;
     g_x_add := s x_add; g_x_start_init := s x_start_init;
     g_y_add := s y_add; g_y_start := s y_start;
     g_vi_width_low := s vi_width_low; g_frame_buffer := s frame_buffer;
     g_prescale_ptr := s prescale_ptr; g_linecount := s linecount;
     g_minhpass := s minhpass; g_maxhpass := s maxhpass;
     g_ctrl := s ctrl; g_vi_fetch_filter_ptr := s vi_fetch_filter_ptr |}.

(** ** The locals of [vi_process]

    [viaa_array] and [divot_array] hold [0xa10 << 1] samples each; a cell
    that was never written has no value.  [viaa_cache], [viaa_cache_next],
    [divot_cache] and [divot_cache_next] point into them and are kept as
    offsets.  [trace] is a ghost record of the cache accesses. *)
Inductive cache_id : Type := Viaa | ViaaNext | Divot | DivotNext.

Inductive cache_event : Type :=
| Mark (c : cache_id) (v : Z)      (* the marker of [c] is assigned [v] *)
| Fill (c : cache_id) (col : Z)    (* [c[col]] is written *)
| Read (c : cache_id) (col : Z).   (* [c[col]] is read *)

Definition CACHE_LEN : Z := 0xa10.

Record locals : Type := {
  viaa_array : Z -> option ccvg;
  divot_array : Z -> option ccvg;
  viaa_cache : Z;
  viaa_cache_next : Z;
  divot_cache : Z;
  divot_cache_next : Z;
  cache_marker : Z;
  cache_next_marker : Z;
  divot_cache_marker : Z;
  divot_cache_next_marker : Z;
  fetchbugstate : Z;
  cache_init : bool;
  trace : list cache_event
}.

Definition fresh_locals : locals :=
  {| viaa_array := fun _ => None; divot_array := fun _ => None;
     viaa_cache := 0; viaa_cache_next := CACHE_LEN;
     divot_cache := 0; divot_cache_next := CACHE_LEN;
     cache_marker := 0; cache_next_marker := 0;
     divot_cache_marker := 0; divot_cache_next_marker := 0;
     fetchbugstate := 0; cache_init := false; trace := [] |}.

Definition marker (c : cache_id) (l : locals) : Z :=
  match c with
  | Viaa => cache_marker l
  | ViaaNext => cache_next_marker l
  | Divot => divot_cache_marker l
  | DivotNext => divot_cache_next_marker l
  end.

Definition base (c : cache_id) (l : locals) : Z :=
  match c with
  | Viaa => viaa_cache l
  | ViaaNext => viaa_cache_next l
  | Divot => divot_cache l
  | DivotNext => divot_cache_next l
  end.

Definition array (c : cache_id) (l : locals) : Z -> option ccvg :=
  match c with
  | Viaa | ViaaNext => viaa_array l
  | Divot | DivotNext => divot_array l
  end.

Definition with_marker (c : cache_id) (v : Z) (l : locals) : locals :=
  {| viaa_array := viaa_array l; divot_array := divot_array l;
     viaa_cache := viaa_cache l; viaa_cache_next := viaa_cache_next l;
     divot_cache := divot_cache l; divot_cache_next := divot_cache_next l;
     cache_marker := match c with Viaa => v | _ => cache_marker l end;
     cache_next_marker := match c with ViaaNext => v | _ => cache_next_marker l end;
     divot_cache_marker := match c with Divot => v | _ => divot_cache_marker l end;
     divot_cache_next_marker :=
       match c with DivotNext => v | _ => divot_cache_next_marker l end;
     fetchbugstate := fetchbugstate l; cache_init := cache_init l;
     trace := trace l |}.

Definition with_cell (c : cache_id) (k : Z) (v : ccvg) (l : locals) : locals :=
  let put (a : Z -> option ccvg) := fun i => if i =? k then Some v else a i in
  {| viaa_array :=
       match c with Viaa | ViaaNext => put (viaa_array l) | _ => viaa_array l end;
     divot_array :=
       match c with Divot | DivotNext => put (divot_array l) | _ => divot_array l end;
     viaa_cache := viaa_cache l; viaa_cache_next := viaa_cache_next l;
     divot_cache := divot_cache l; divot_cache_next := divot_cache_next l;
     cache_marker := cache_marker l; cache_next_marker := cache_next_marker l;
     divot_cache_marker := divot_cache_marker l;
     divot_cache_next_marker := divot_cache_next_marker l;
     fetchbugstate := fetchbugstate l; cache_init := cache_init l;
     trace := trace l |}.

Definition with_fetchbugstate (v : Z) (l : locals) : locals :=
  {| viaa_array := viaa_array l; divot_array := divot_array l;
     viaa_cache := viaa_cache l; viaa_cache_next := viaa_cache_next l;
     divot_cache := divot_cache l; divot_cache_next := divot_cache_next l;
     cache_marker := cache_marker l; cache_next_marker := cache_next_marker l;
     divot_cache_marker := divot_cache_marker l;
     divot_cache_next_marker := divot_cache_next_marker l;
     fetchbugstate := v; cache_init := cache_init l; trace := trace l |}.

Definition with_cache_init (v : bool) (l : locals) : locals :=
  {| viaa_array := viaa_array l; divot_array := divot_array l;
     viaa_cache := viaa_cache l; viaa_cache_next := viaa_cache_next l;
     divot_cache := divot_cache l; divot_cache_next := divot_cache_next l;
     cache_marker := cache_marker l; cache_next_marker := cache_next_marker l;
     divot_cache_marker := divot_cache_marker l;
     divot_cache_next_marker := divot_cache_next_marker l;
     fetchbugstate := fetchbugstate l; cache_init := v; trace := trace l |}.

(** [tempccvgptr = viaa_cache; viaa_cache = viaa_cache_next;
    viaa_cache_next = tempccvgptr] and the same for the divot pointers. *)
Definition swap_viaa (l : locals) : locals :=
  {| viaa_array := viaa_array l; divot_array := divot_array l;
     viaa_cache := viaa_cache_next l; viaa_cache_next := viaa_cache l;
     divot_cache := divot_cache l; divot_cache_next := divot_cache_next l;
     cache_marker := cache_marker l; cache_next_marker := cache_next_marker l;
     divot_cache_marker := divot_cache_marker l;
     divot_cache_next_marker := divot_cache_next_marker l;
     fetchbugstate := fetchbugstate l; cache_init := cache_init l;
     trace := trace l |}.

Definition swap_divot (l : locals) : locals :=
  {| viaa_array := viaa_array l; divot_array := divot_array l;
     viaa_cache := viaa_cache l; viaa_cache_next := viaa_cache_next l;
     divot_cache := divot_cache_next l; divot_cache_next := divot_cache l;
     cache_marker := cache_marker l; cache_next_marker := cache_next_marker l;
     divot_cache_marker := divot_cache_marker l;
     divot_cache_next_marker := divot_cache_next_marker l;
     fetchbugstate := fetchbugstate l; cache_init := cache_init l;
     trace := trace l |}.

Definition record (e : cache_event) (l : locals) : locals :=
  {| viaa_array := viaa_array l; divot_array := divot_array l;
     viaa_cache := viaa_cache l; viaa_cache_next := viaa_cache_next l;
     divot_cache := divot_cache l; divot_cache_next := divot_cache_next l;
     cache_marker := cache_marker l; cache_next_marker := cache_next_marker l;
     divot_cache_marker := divot_cache_marker l;
     divot_cache_next_marker := divot_cache_next_marker l;
     fetchbugstate := fetchbugstate l; cache_init := cache_init l;
     trace := trace l ++ [e] |}.

(** ** A state-and-failure monad over the locals

    A computation fails where the source leaves defined behaviour: an index
    outside an array, a read of a cell that was never written. *)
Definition M (A : Type) : Type := locals -> option (A * locals).

Definition ret {A : Type} (a : A) : M A := fun l => Some (a, l).

Definition bind {A B : Type} (m : M A) (f : A -> M B) : M B :=
  fun l => match m l with
           | Some (a, l') => f a l'
           | None => None
           end.

Definition fail {A : Type} : M A := fun _ => None.

Notation "x <- m ;; k" := (bind m (fun x => k))
  (at level 61, m at next level, right associativity).
Notation "' p <- m ;; k" := (bind m (fun x => let 'p := x in k))
  (at level 61, p pattern, m at next level, right associativity).
Notation "m ;; k" := (bind m (fun _ => k))
  (at level 61, right associativity).

Definition in_array (k : Z) : bool := (0 <=? k) && (k <? CACHE_LEN << 1).

Definition get_marker (c : cache_id) : M Z := fun l => Some (marker c l, l).

Definition set_marker (c : cache_id) (v : Z) : M unit :=
  fun l => Some (tt, record (Mark c v) (with_marker c v l)).

(** [c[i] = v]. *)
Definition store (c : cache_id) (i : Z) (v : ccvg) : M unit :=
  fun l =>
    let k := base c l + i in
    if in_array k then Some (tt, record (Fill c i) (with_cell c k v l)) else None.

(** [c[i]]. *)
Definition load (c : cache_id) (i : Z) : M ccvg :=
  fun l =>
    let k := base c l + i in
    if in_array k then
      match array c l k with
      | Some v => Some (v, record (Read c i) l)
      | None => None
      end
    else None.

(** ** [vi_process] *)
Section ViProcess.
Variable L : leaf_ops.
Variable g : geometry.

(** [vi_fetch_filter_ptr(&c[i], frame_buffer, x, ctrl, vi_width_low,
    fetchstate)]. *)
Definition fetch (c : cache_id) (i x fetchstate : Z) : M unit :=
  store c i (vi_fetch_filter_func L (g_vi_fetch_filter_ptr g) (g_frame_buffer g)
               x (g_ctrl g) (g_vi_width_low g) fetchstate).

(** Lines 531-548 for [viaa_cache] and 550-567 for [viaa_cache_next]: the
    source writes the block once per cache. *)
Definition fill_window (c : cache_id) (prev_line_x line_x next_line_x : Z)
    (prev_x cur_x next_x fetchstate : Z) : M unit :=
  m <- get_marker c ;;
  if prev_line_x >? m then
    fetch c prev_line_x prev_x fetchstate ;;
    fetch c line_x cur_x fetchstate ;;
    fetch c next_line_x next_x fetchstate ;;
    set_marker c next_line_x
  else if line_x >? m then
    fetch c line_x cur_x fetchstate ;;
    fetch c next_line_x next_x fetchstate ;;
    set_marker c next_line_x
  else if next_line_x >? m then
    fetch c next_line_x next_x fetchstate ;;
    set_marker c next_line_x
  else ret tt.

(** Lines 571-575 and 577-581. *)
Definition fill_far (c : cache_id) (far_line_x far_x fetchstate : Z) : M unit :=
  m <- get_marker c ;;
  if far_line_x >? m then
    fetch c far_line_x far_x fetchstate ;;
    set_marker c far_line_x
  else ret tt.

(** [divot_filter(&d[i], c[center], c[left], c[right])]. *)
Definition divot_at (d c : cache_id) (i center left right : Z) : M unit :=
  vc <- load c center ;;
  vl <- load c left ;;
  vr <- load c right ;;
  store d i (divot_filter L vc vl vr).

(** Lines 583-593 for [divot_cache] and 595-605 for [divot_cache_next]. *)
Definition fill_divot (d c : cache_id)
    (prev_line_x line_x next_line_x far_line_x : Z) : M unit :=
  m <- get_marker d ;;
  if line_x >? m then
    divot_at d c line_x line_x prev_line_x next_line_x ;;
    divot_at d c next_line_x next_line_x line_x far_line_x ;;
    set_marker d next_line_x
  else if next_line_x >? m then
    divot_at d c next_line_x next_line_x line_x far_line_x ;;
    set_marker d next_line_x
  else ret tt.

(** Lines 507-632: the body of the column loop up to the colour. *)
Definition column_color (yfrac pixels nextpixels fetchstate x_start : Z)
  : M ccvg :=
  let line_x := x_start >> 10 in
  let prev_line_x := line_x - 1 in
  let next_line_x := line_x + 1 in
  let far_line_x := line_x + 2 in
  let cur_x := s32 (pixels + line_x) in
  let prev_x := s32 (pixels + prev_line_x) in
  let next_x := s32 (pixels + next_line_x) in
  let far_x := s32 (pixels + far_line_x) in
  let scan_x := s32 (nextpixels + line_x) in
  let prev_scan_x := s32 (nextpixels + prev_line_x) in
  let next_scan_x := s32 (nextpixels + next_line_x) in
  let far_scan_x := s32 (nextpixels + far_line_x) in
  (* line_x++; prev_line_x++; next_line_x++; far_line_x++; *)
  let line_x := line_x + 1 in
  let prev_line_x := prev_line_x + 1 in
  let next_line_x := next_line_x + 1 in
  let far_line_x := far_line_x + 1 in
  let xfrac := (x_start >> 5) .& 0x1f in
  let lerping :=
    negb (Ctrl.aa_mode (g_ctrl g) =? VI_AA_REPLICATE)
    && (truthy xfrac || truthy yfrac) in
  let divot := truthy (Ctrl.divot_enable (g_ctrl g)) in
  fill_window Viaa prev_line_x line_x next_line_x prev_x cur_x next_x 0 ;;
  fill_window ViaaNext prev_line_x line_x next_line_x
    prev_scan_x scan_x next_scan_x fetchstate ;;
  color <-
    (if divot then
       fill_far Viaa far_line_x far_x 0 ;;
       fill_far ViaaNext far_line_x far_scan_x fetchstate ;;
       fill_divot Divot Viaa prev_line_x line_x next_line_x far_line_x ;;
       fill_divot DivotNext ViaaNext prev_line_x line_x next_line_x far_line_x ;;
       load Divot line_x
     else load Viaa line_x) ;;
  if lerping then
    nextcolor <- load (if divot then Divot else Viaa) next_line_x ;;
    scancolor <- load (if divot then DivotNext else ViaaNext) line_x ;;
    scannextcolor <- load (if divot then DivotNext else ViaaNext) next_line_x ;;
    let color := vi_vl_lerp L color scancolor yfrac in
    let nextcolor := vi_vl_lerp L nextcolor scannextcolor yfrac in
    ret (vi_vl_lerp L color nextcolor xfrac)
  else ret color.

(** [(r << 16) | (g << 8) | b] as stored into an [int32_t]. *)
Definition pack (rgb : Z * Z * Z) : Z :=
  let '(r, g, b) := rgb in s32 ((r << 16) .| (g << 8) .| b).

(** Lines 505-644: [n] iterations of the column loop from column [i].
    [d] is the index of [d[0]] in [prescale]; the result lists the stores
    [d[i] = v] in program order, and the generator state. *)
Fixpoint columns (d yfrac pixels nextpixels fetchstate : Z) (n : nat)
    (i x_start seed : Z) : M (list (Z * Z) * Z) :=
  match n with
  | O => ret ([], seed)
  | S n' =>
      color <- column_color yfrac pixels nextpixels fetchstate x_start ;;
      let '(seed, rgb) :=
        gamma_filters L seed (c_r color, c_g color, c_b color) (g_ctrl g) in
      let v :=
        if (g_minhpass g <=? i) && (i <? g_maxhpass g) then pack rgb else 0 in
      '(ws, seed) <- columns d yfrac pixels nextpixels fetchstate n'
                       (i + 1) (u32 (x_start + g_x_add g)) seed ;;
      ret ((d + i, v) :: ws, seed)
  end.

Definition cache_marker_init : Z := s32 ((g_x_start_init g >> 10) - 1).

(** Lines 490-492. *)
Definition line_begin : M unit :=
  set_marker ViaaNext cache_marker_init ;;
  set_marker Viaa cache_marker_init ;;
  if truthy (Ctrl.divot_enable (g_ctrl g)) then
    set_marker DivotNext cache_marker_init ;;
    set_marker Divot cache_marker_init
  else ret tt.

(** Lines 500-503. *)
Definition next_fetchbugstate (j : Z) : M Z :=
  fun l =>
    let curry := u32 (g_y_start g + j * g_y_add g) in
    let nexty := u32 (g_y_start g + (j + 1) * g_y_add g) in
    let prevy := curry >> 10 in
    let v := if prevy =? nexty >> 10 then 2 else fetchbugstate l >> 1 in
    Some (v, with_fetchbugstate v l).

(** Lines 646-663. *)
Definition line_end : M unit :=
  fun l =>
    if negb (cache_init l) && (g_y_add g =? 0x400) then
      (m <- get_marker ViaaNext ;;
       set_marker Viaa m ;;
       set_marker ViaaNext cache_marker_init ;;
       (fun l => Some (tt, swap_viaa l)) ;;
       (if truthy (Ctrl.divot_enable (g_ctrl g)) then
          m <- get_marker DivotNext ;;
          set_marker Divot m ;;
          set_marker DivotNext cache_marker_init ;;
          (fun l => Some (tt, swap_divot l))
        else ret tt) ;;
       (fun l => Some (tt, with_cache_init true l))) l
    else Some (tt, l).

(** Lines 485-663: the body of the scanline loop. *)
Definition scanline (j seed : Z) : M (list (Z * Z) * Z) :=
  let x_start := g_x_start_init g in
  let curry := u32 (g_y_start g + j * g_y_add g) in
  let prevy := curry >> 10 in
  line_begin ;;
  let d := g_prescale_ptr g + g_linecount g * j in
  let yfrac := (curry >> 5) .& 0x1f in
  let pixels := u32 (g_vi_width_low g * prevy) in
  let nextpixels := u32 (g_vi_width_low g + pixels) in
  fetchstate <- next_fetchbugstate j ;;
  r <- columns d yfrac pixels nextpixels fetchstate (Z.to_nat (g_hres g))
         0 x_start seed ;;
  line_end ;;
  ret r.

(** Lines 484-664: [for (j = ...; j < j_end; j += j_add)].  The loop runs
    at most [fuel] times; if [j] is still below [j_end] then, the source
    loop has not finished either and the embedding gives no result. *)
Fixpoint scanlines (j_end j_add : Z) (fuel : nat) (j seed : Z)
  : M (list (Z * Z) * Z) :=
  match fuel with
  | O => if j <? j_end then fail else ret ([], seed)
  | S fuel' =>
      if j <? j_end then
        '(ws, seed) <- scanline j seed ;;
        '(ws', seed) <- scanlines j_end j_add fuel' (j + j_add) seed ;;
        ret (ws ++ ws', seed)
      else ret ([], seed)
  end.

(** [vi_process] as run by the worker [worker_id] of [worker_num]
    ([parallel_worker_id()], [parallel_worker_num()]).  Returns the stores
    into [prescale] and the generator state. *)
Definition vi_process (cfg : core_config) (worker_id worker_num seed : Z)
  : option (list (Z * Z) * Z) :=
  let parallel := negb (num_workers cfg =? 1) in
  let j_start := if parallel then s32 worker_id else 0 in
  let j_end := g_vres g in
  let j_add := if parallel then s32 worker_num else 1 in
  match scanlines j_end j_add (Z.to_nat (j_end - j_start)) j_start seed
          fresh_locals with
  | Some (r, _) => Some r
  | None => None
  end.
End ViProcess.

(** ** Stores into the prescale buffer

    A store outside [prescale] has no defined behaviour; the embedding
    gives no result for it. *)
Definition poke (b : buffer) (w : Z * Z) : option buffer :=
  let '(k, v) := w in
  if (0 <=? k) && (k <? PRESCALE_SIZE)
  then Some (fun i => if i =? k then v else b i)
  else None.

Fixpoint poke_all (b : buffer) (ws : list (Z * Z)) : option buffer :=
  match ws with
  | [] => Some b
  | w :: ws' =>
      match poke b w with
      | Some b' => poke_all b' ws'
      | None => None
      end
  end.

(** ** [vi_screenshot_write]: the row loops, lines 166-178

    The rows of the source rectangle in the order the two loops write them
    to the file, bottom row first.  [y * height] is an [int] product; the
    embedding gives no result where it leaves the range of [int]. *)
Definition countdown (n : Z) : list Z :=
  rev (map Z.of_nat (seq 0 (Z.to_nat n))).

Definition fits_int (z : Z) : bool := (- 2 ^ 31 <=? z) && (z <? 2 ^ 31).

Fixpoint nearest_rows (height output_height : Z) (ys : list Z) : option (list Z) :=
  match ys with
  | [] => Some []
  | y :: ys' =>
      if fits_int (y * height) then
        match nearest_rows height output_height ys' with
        | Some rows => Some (Z.quot (y * height) output_height :: rows)
        | None => None
        end
      else None
  end.

Definition screenshot_rows (height output_height : Z) : option (list Z) :=
  if negb (height =? output_height)
  then nearest_rows height output_height (countdown output_height)
  else Some (countdown height).

(** The row [buffer + pitch * row] of [width] pixels that [fwrite] reads
    lies inside [prescale].  A negative [width] becomes a huge [size_t]
    at [width * sizeof(int32_t)]. *)
Definition row_in_buffer (buffer width pitch row : Z) : bool :=
  (0 <=? width) && (0 <=? buffer + pitch * row)
  && (buffer + pitch * row + width <=? PRESCALE_SIZE).

(** ** [vi_screenshot_write], lines 134-181

    [buffer] is the index in [prescale] of the first pixel.  The two
    bitmap headers are structs of bitmap.h, which is not under src/: of
    their fields only the [int] product [width * output_height] of line 145
    is kept.  A file that was opened and written is the event
    [ScreenshotWrite]; where an [int] product overflows or a row read
    leaves [prescale] the embedding gives no result. *)
Definition vi_screenshot_write (L : leaf_ops) (path : string)
    (buffer width height pitch output_height : Z) (st : vi_state)
  : option vi_state :=
  (* 136 *)
  let st := emit (MsgDebug (WritingScreenshot path)) st in
  (* 145 *)
  if negb (fits_int (width * output_height)) then None else
  (* 152-157 *)
  if negb (fopen_wb L path)
  then Some (emit (MsgWarning (CantOpenScreenshot path)) st) else
  (* 159-180 *)
  match screenshot_rows height output_height with
  | None => None
  | Some rows =>
      if forallb (row_in_buffer buffer width pitch) rows
      then Some (emit (ScreenshotWrite path buffer width height pitch
                         output_height) st)
      else None
  end.

(** ** [vi_process_end]

    The products of lines 681 and 687 are [int32_t]: the embedding gives
    no result where one leaves the range.  [vres << 1] and
    [vres << ctrl.serrate] are the products by 2 also where [vres] is
    negative. *)
Definition vi_process_end (L : leaf_ops) (cfg : core_config) (st : vi_state)
  : option vi_state :=
  let pitch := PRESCALE_WIDTH in
  let width := st@maxhpass - st@minhpass in
  let height := st@vres << Ctrl.serrate st@ctrl in
  if st@v_sync =? 0 then None else
  if negb (fits_int ((st@vres << 1) * V_SYNC_NTSC)) then None else
  let output_height := Z.quot ((st@vres << 1) * V_SYNC_NTSC) st@v_sync in
  let x := st@h_start + st@minhpass in
  let y := (st@v_start + st@oldlowerfield) << Ctrl.serrate st@ctrl in
  let buffer := x + y * pitch in
  if cfg_vi_widescreen cfg && negb (fits_int (output_height * 9)) then None else
  let output_height :=
    if cfg_vi_widescreen cfg then Z.quot (output_height * 9) 16 else output_height in
  let st := emit (ScreenUpload buffer width height pitch output_height) st in
  (* 693-696 *)
  if negb (String.eqb (screenshot_path st) EmptyString) then
    match vi_screenshot_write L (screenshot_path st) buffer width height pitch
            output_height st with
    | Some st => Some (set_screenshot_path EmptyString st)
    | None => None
    end
  else Some st.

(** ** [vi_process_start_fast]

    [v_start] and [h_start] are locals here; the statics of that name keep
    their values. *)
Definition vi_process_start_fast (regs : vi_regs) (st : vi_state) : Z * vi_state :=
  let v_start_l := (rd regs VI_V_START >> 16) .& 0x3ff in
  let h_start_l := (rd regs VI_H_START >> 16) .& 0x3ff in
  let v_end := rd regs VI_V_START .& 0x3ff in
  let h_end := rd regs VI_H_START .& 0x3ff in
  let hres' := h_end - h_start_l in
  let vres' := (v_end - v_start_l) >> 1 in
  let st := st<[hres := hres']><[vres := vres']> in
  if (hres' <=? 0) || (vres' <=? 0) then (0, st) else
  let x_add' := rd regs VI_X_SCALE .& 0xfff in
  let y_add' := rd regs VI_Y_SCALE .& 0xfff in
  let hres_raw' := s32 (u32 (x_add' * hres') / 1024) in
  let vres_raw' := s32 (u32 (y_add' * vres') / 1024) in
  let st := st<[x_add := x_add']><[y_add := y_add']>
              <[hres_raw := hres_raw']><[vres_raw := vres_raw']> in
  if (hres_raw' <=? 0) || (vres_raw' <=? 0) then (0, st) else
  if truthy (rd regs VI_V_CURRENT_LINE .& 1) then (0, st) else
  let frame_buffer' := rd regs VI_ORIGIN .& 0xffffff in
  let st := st<[vi_width_low := rd regs VI_WIDTH .& 0xfff]>
              <[frame_buffer := frame_buffer']> in
  if negb (truthy frame_buffer') then (0, st) else
  let ctrl' := rd regs VI_STATUS in
  let st := st<[ctrl := ctrl']><[v_sync := rd regs VI_V_SYNC .& 0x3ff]> in
  if negb (truthy (Ctrl.type ctrl' .& 2)) then (0, st) else
  let st :=
    if truthy (Ctrl.type ctrl' .& Z.lnot 3)
    then emit (MsgError (UnknownFramebufferFormat (Ctrl.type ctrl'))) st
    else st in
  (1, st).

(** ** [vi_process_fast] *)
Section ViProcessFast.
Variable L : leaf_ops.
Variable cfg : core_config.
Variable g : geometry.

(** [(r << 16) | (g << 8) | b] on [uint32_t]. *)
Definition pack_u32 (rgb : Z * Z * Z) : Z :=
  let '(r, g, b) := rgb in u32 ((r << 16) .| (g << 8) .| b).

(** Lines 776-818: the colour of pixel [x] of the line at [line];
    [assert(false)] gives no result. *)
Definition fast_pixel (line x : Z) : option (Z * Z * Z) :=
  let mode := cfg_vi_mode cfg in
  if mode =? VI_MODE_COLOR then
    if Ctrl.type (g_ctrl g) =? VI_TYPE_RGBA5551 then
      let pix := rdram_read_idx16 L (u32 ((g_frame_buffer g >> 1) + line + x)) in
      Some (((pix >> 11) .& 0x1f) << 3, ((pix >> 6) .& 0x1f) << 3,
            ((pix >> 1) .& 0x1f) << 3)
    else if Ctrl.type (g_ctrl g) =? VI_TYPE_RGBA8888 then
      let pix := rdram_read_idx32 L (u32 ((g_frame_buffer g >> 2) + line + x)) in
      Some ((pix >> 24) .& 0xff, (pix >> 16) .& 0xff, (pix >> 8) .& 0xff)
    else None
  else if mode =? VI_MODE_DEPTH then
    let p := rdram_read_idx16 L (u32 ((rdp_get_zb_address L >> 1) + line + x)) >> 8 in
    Some (p, p, p)
  else if mode =? VI_MODE_COVERAGE then
    let '(pix, hval) :=
      rdram_read_pair16 L (u32 ((g_frame_buffer g >> 1) + line + x)) in
    let p := (((pix .& 1) << 2) .| hval) << 5 in
    Some (p, p, p)
  else None.

(** Lines 775-823: [n] iterations of the column loop from [x]. *)
Fixpoint fast_columns (y line : Z) (n : nat) (x seed : Z)
  : option (list (Z * Z) * Z) :=
  match n with
  | O => Some ([], seed)
  | S n' =>
      match fast_pixel line x with
      | None => None
      | Some rgb =>
          let '(seed, rgb) := gamma_filters L seed rgb (g_ctrl g) in
          match fast_columns y line n' (x + 1) seed with
          | None => None
          | Some (ws, seed) =>
              Some ((y * g_hres_raw g + x, pack_u32 rgb) :: ws, seed)
          end
      end
  end.

(** Lines 771-824, with fuel as in [scanlines]. *)
Fixpoint fast_lines (y_end y_add : Z) (fuel : nat) (y seed : Z)
  : option (list (Z * Z) * Z) :=
  match fuel with
  | O => if y <? y_end then None else Some ([], seed)
  | S fuel' =>
      if y <? y_end then
        let line := s32 (y * g_vi_width_low g) in
        match fast_columns y line (Z.to_nat (g_hres_raw g)) 0 seed with
        | None => None
        | Some (ws, seed) =>
            match fast_lines y_end y_add fuel' (y + y_add) seed with
            | None => None
            | Some (ws', seed) => Some (ws ++ ws', seed)
            end
        end
      else Some ([], seed)
  end.

Definition vi_process_fast (worker_id worker_num seed : Z)
  : option (list (Z * Z) * Z) :=
  let parallel := negb (num_workers cfg =? 1) in
  let y_start := if parallel then s32 worker_id else 0 in
  let y_end := g_vres_raw g in
  let y_add := if parallel then s32 worker_num else 1 in
  fast_lines y_end y_add (Z.to_nat (y_end - y_start)) y_start seed.
End ViProcessFast.

(** ** [vi_process_end_fast]

    The products of lines 829, 830 and 833 are [int32_t]. *)
Definition vi_process_end_fast (L : leaf_ops) (cfg : core_config)
    (st : vi_state) : option vi_state :=
  if (st@v_sync =? 0) || (st@hres =? 0) then None else
  if negb (fits_int ((st@vres << 1) * V_SYNC_NTSC)) then None else
  let filtered_height := Z.quot ((st@vres << 1) * V_SYNC_NTSC) st@v_sync in
  if negb (fits_int (st@hres_raw * filtered_height)) then None else
  let output_height := Z.quot (st@hres_raw * filtered_height) st@hres in
  if cfg_vi_widescreen cfg && negb (fits_int (output_height * 9)) then None else
  let output_height :=
    if cfg_vi_widescreen cfg then Z.quot (output_height * 9) 16 else output_height in
  let st :=
    emit (ScreenUpload 0 st@hres_raw st@vres_raw st@hres_raw output_height) st in
  (* 838-841 *)
  if negb (String.eqb (screenshot_path st) EmptyString) then
    match vi_screenshot_write L (screenshot_path st) 0 st@hres_raw st@vres_raw
            st@hres_raw output_height st with
    | Some st => Some (set_screenshot_path EmptyString st)
    | None => None
    end
  else Some st.

(** ** [parallel_run] as seen from vi.c

    Every worker runs the task once with its own locals.  The workers are
    run one after the other in the order of their ids; the generator state
    and the prescale buffer are shared. *)
Fixpoint run_workers (task : Z -> Z -> option (list (Z * Z) * Z))
    (ids : list Z) (b : buffer) (seed : Z) : option (buffer * Z) :=
  match ids with
  | [] => Some (b, seed)
  | id :: ids' =>
      match task id seed with
      | None => None
      | Some (ws, seed') =>
          match poke_all b ws with
          | None => None
          | Some b' => run_workers task ids' b' seed'
          end
      end
  end.

Definition worker_ids (worker_num : Z) : list Z :=
  map Z.of_nat (seq 0 (Z.to_nat worker_num)).

(** ** [vi_update]

    [worker_num] is the size of the pool ([parallel_worker_num()]) and
    [trace_open] the answer of [trace_write_is_open()]. *)
Definition vi_update_enter (cfg : core_config) (trace_open : bool)
    (st : vi_state) : vi_state :=
  (* 848-851 *)
  let st :=
    if negb (cfg_vi_mode cfg =? st@vi_mode)
    then (set_prescale (fun _ => 0) st)<[vi_mode := cfg_vi_mode cfg]>
    else st in
  (* 853-855 *)
  let st := if trace_open then emit TraceWriteVi st else st in
  (* 863-865 *)
  if cfg_vi_mode cfg >=? VI_MODE_NUM
  then emit (MsgError (InvalidViMode (cfg_vi_mode cfg))) st else st.

Definition vi_update (L : leaf_ops) (cfg : core_config) (worker_num : Z)
    (trace_open : bool) (regs : vi_regs) (st : vi_state) : option vi_state :=
  let st := vi_update_enter cfg trace_open st in
  (* 867-880 *)
  let normal := cfg_vi_mode cfg =? VI_MODE_NORMAL in
  let '(go, st) :=
    if normal then vi_process_start regs st else vi_process_start_fast regs st in
  if negb (truthy go) then Some st else
  (* 883-887 *)
  let gm := geometry_of (vars st) in
  let task (id seed : Z) :=
    if normal then vi_process L gm cfg id worker_num seed
    else vi_process_fast L cfg gm id worker_num seed in
  let ids := if negb (num_workers cfg =? 1) then worker_ids worker_num else [0] in
  match run_workers task ids (prescale st) (iseed st) with
  | None => None
  | Some (b, seed) =>
      let st := set_iseed seed (set_prescale b st) in
      (* 890-893 *)
      match (if normal then vi_process_end L cfg st
             else vi_process_end_fast L cfg st) with
      | None => None
      | Some st => Some (emit ScreenSwap st)
      end
  end.

(** ** Concrete inputs

    Stand-ins for the included files, and register settings, on which the
    embedding is evaluated. *)
Module Demo.

(** [dst + (((src - dst) * frac) >> 5)] per channel, the spec's
    [vi_vl_lerp]. *)
Definition lerp (a b : ccvg) (frac : Z) : ccvg :=
  {| c_r := c_r a + (((c_r b - c_r a) * frac) >> 5);
     c_g := c_g a + (((c_g b - c_g a) * frac) >> 5);
     c_b := c_b a + (((c_b b - c_b a) * frac) >> 5);
     c_cvg := c_cvg a |}.

(** A fetch whose sample shows its arguments: red is the column, green
    the fetch state.  The generator is a linear congruential one, the
    dither adds one bit of the draw to each channel below 255. *)
Definition ops : leaf_ops :=
  {| vi_fetch_filter_func := fun _ _ x _ _ fetchstate =>
       {| c_r := x mod 256; c_g := 64 * fetchstate; c_b := 0; c_cvg := 7 |};
     divot_filter := fun center _ _ => center;
     vi_vl_lerp := lerp;
     irand := fun seed =>
       let seed' := s32 (seed * 0x343fd + 0x269ec3) in
       (seed', (seed' >> 16) .& 0x7fff);
     gamma_dither := fun d rgb =>
       let '(r, g, b) := rgb in
       (if r <? 255 then r + d .& 1 else r,
        if g <? 255 then g + (d >> 1) .& 1 else g,
        if b <? 255 then b + (d >> 2) .& 1 else b);
     gamma_table := fun x => x;
     rdram_read_idx16 := fun i => i mod 65536;
     rdram_read_idx32 := fun i => i;
     rdram_read_pair16 := fun i => (i mod 65536, 3);
     rdp_get_zb_address := 0;
     fopen_wb := fun _ => true |}.

(** An NTSC frame of 16 columns and 2 lines: [h_start] 108, [v_start]
    34, one source column per output column, half a source line per
    output line. *)
Definition regs (status : Z) : vi_regs :=
  fun r =>
    match r with
    | VI_STATUS => status
    | VI_ORIGIN => 0x100000
    | VI_WIDTH => 320
    | VI_V_CURRENT_LINE => 0
    | VI_X_SCALE => 0x400
    | VI_Y_SCALE => 0x200
    | VI_H_START => (108 << 16) .| (108 + 16)
    | VI_V_START => (34 << 16) .| (34 + 4)
    | VI_V_SYNC => 525
    end.

(** The same window with [VI_V_SYNC] at its largest value. *)
Definition regs_vsync_1023 : vi_regs :=
  fun r => match r with VI_V_SYNC => 1023 | _ => regs 2 r end.

(** A window of 1000 by 500 at scale 1, for the fast path. *)
Definition regs_wide : vi_regs :=
  fun r =>
    match r with
    | VI_STATUS => 2
    | VI_ORIGIN => 0x100000
    | VI_WIDTH => 320
    | VI_V_CURRENT_LINE => 0
    | VI_X_SCALE => 0x400
    | VI_Y_SCALE => 0x400
    | VI_H_START => 1000
    | VI_V_START => 1000
    | VI_V_SYNC => 525
    end.

(** A window of 1023 by 511 with [v_sync = 1] and a raw picture of 4091
    by 1: line 830 multiplies 4091 by 536550. *)
Definition regs_line_830 : vi_regs :=
  fun r =>
    match r with
    | VI_STATUS => 2
    | VI_ORIGIN => 0x100000
    | VI_WIDTH => 320
    | VI_V_CURRENT_LINE => 0
    | VI_X_SCALE => 0xfff
    | VI_Y_SCALE => 3
    | VI_H_START => 1023
    | VI_V_START => 1023
    | VI_V_SYNC => 1
    end.

Definition cfg (workers mode : Z) : core_config :=
  {| num_workers := workers; cfg_vi_mode := mode; cfg_vi_widescreen := false |}.

(** The state after [vi_init] in a fresh process. *)
Definition st0 : vi_state := vi_init (boot_state 1).

(** Two calls of [vi_update] in a row. *)
Definition twice (L : leaf_ops) (c : core_config) (worker_num : Z)
    (r : vi_regs) (st : vi_state) : option vi_state :=
  match vi_update L c worker_num false r st with
  | Some st1 => vi_update L c worker_num false r st1
  | None => None
  end.

(** The state after one interlaced frame (type 2, [serrate] set). *)
Definition st_interlaced : vi_state :=
  match vi_update ops (cfg 1 VI_MODE_NORMAL) 1 false (regs 0x42) st0 with
  | Some st => st
  | None => st0
  end.

Definition count_uploads (evs : list event) : nat :=
  List.length (filter (fun e => match e with ScreenUpload _ _ _ _ _ => true
                                        | _ => false end) evs).
End Demo.

(** ** Readings of the claims that need a name *)

(** Lines 288 and 317: the offset and the active-line count before the
    shift of line 322. *)
Definition start_vstartoffset (regs : vi_regs) : Z :=
  if start_ispal regs then 44 else 34.

Definition start_vactivelines_r (regs : vi_regs) : Z :=
  rd regs VI_V_SYNC .& 0x3ff - start_vstartoffset regs.

Definition start_lineshifter (regs : vi_regs) : Z :=
  of_bool (negb (truthy (Ctrl.serrate (rd regs VI_STATUS)))).

(** The spec's formula for [vactivelines]:
    [(v_sync - offset) >> (serrate ? 0 : 1)]. *)
Definition spec_vactivelines (regs : vi_regs) : Z :=
  (rd regs VI_V_SYNC .& 0x3ff - start_vstartoffset regs)
  >> (if truthy (Ctrl.serrate (rd regs VI_STATUS)) then 0 else 1).

(** What one call of [vi_process_start] adds to the event log. *)
Definition start_events (regs : vi_regs) (st : vi_state) : list event :=
  skipn (List.length (events st)) (events (snd (vi_process_start regs st))).

(** Column 8 of scanline 1 of the frame [Demo.regs 2], as [vi_process]
    computes it when the next-row samples are fetched with fetch state
    [fetchstate]. *)
Definition line1_col8 (L : leaf_ops) (fetchstate : Z) : Z :=
  let f x s := vi_fetch_filter_func L 0 0x100000 x 2 320 s in
  let color := vi_vl_lerp L (f 8 0) (f 328 fetchstate) 16 in
  let nextcolor := vi_vl_lerp L (f 9 0) (f 329 fetchstate) 16 in
  let c := vi_vl_lerp L color nextcolor 0 in
  pack (c_r c, c_g c, c_b c).

(** ** The cache discipline, as a check on a trace

    The checker replays a trace of cache accesses.  It keeps, per cache,
    the current marker and the columns written so far; it rejects a marker
    assignment that lowers the marker, and a read of a column that was not
    written before or that lies above the marker. *)
Definition cache_id_eqb (a b : cache_id) : bool :=
  match a, b with
  | Viaa, Viaa | ViaaNext, ViaaNext | Divot, Divot | DivotNext, DivotNext => true
  | _, _ => false
  end.

Record ghost : Type := {
  gh_marker : cache_id -> Z;
  gh_filled : cache_id -> Z -> bool
}.

Definition gs_mark (c : cache_id) (v : Z) (gs : ghost) : ghost :=
  {| gh_marker := fun c' => if cache_id_eqb c c' then v else gh_marker gs c';
     gh_filled := gh_filled gs |}.

Definition gs_fill (c : cache_id) (col : Z) (gs : ghost) : ghost :=
  {| gh_marker := gh_marker gs;
     gh_filled := fun c' col' =>
       if cache_id_eqb c c' && (col =? col') then true else gh_filled gs c' col' |}.

Definition check_event (gs : ghost) (e : cache_event) : option ghost :=
  match e with
  | Mark c v => if gh_marker gs c <=? v then Some (gs_mark c v gs) else None
  | Fill c col => Some (gs_fill c col gs)
  | Read c col =>
      if gh_filled gs c col && (col <=? gh_marker gs c) then Some gs else None
  end.

Fixpoint check_trace (gs : ghost) (t : list cache_event) : option ghost :=
  match t with
  | [] => Some gs
  | e :: t' =>
      match check_event gs e with
      | Some gs' => check_trace gs' t'
      | None => None
      end
  end.

(** A trace keeps the discipline from the markers [init] on, with nothing
    written yet. *)
Definition trace_ok (init : cache_id -> Z) (t : list cache_event) : bool :=
  match check_trace {| gh_marker := init; gh_filled := fun _ _ => false |} t with
  | Some _ => true
  | None => false
  end.

Definition is_mark (e : cache_event) : bool :=
  match e with Mark _ _ => true | _ => false end.

(** The marker assignments of lines 490-492. *)
Definition begin_marks (g : geometry) : list cache_event :=
  [Mark ViaaNext (cache_marker_init g); Mark Viaa (cache_marker_init g)]
  ++ (if truthy (Ctrl.divot_enable (g_ctrl g))
      then [Mark DivotNext (cache_marker_init g); Mark Divot (cache_marker_init g)]
      else []).

(** The stores of one scanline as the spec lists them: column [i] goes to
    [d + i], the packed colour inside the pass band and 0 outside. *)
Fixpoint line_stores (g : geometry) (d i : Z) (rgbs : list (Z * Z * Z))
  : list (Z * Z) :=
  match rgbs with
  | [] => []
  | rgb :: rest =>
      (d + i, if (g_minhpass g <=? i) && (i <? g_maxhpass g) then pack rgb else 0)
      :: line_stores g d (i + 1) rest
  end.

(** Lines 507-639 of the column loop: the [r], [g] and [b] that line 641
    packs, for each of the [n] columns from [x_start], that is the colour
    of the column after the gamma filters. *)
Fixpoint column_rgbs (L : leaf_ops) (g : geometry)
    (yfrac pixels nextpixels fetchstate : Z) (n : nat) (x_start seed : Z)
  : M (list (Z * Z * Z)) :=
  match n with
  | O => ret []
  | S n' =>
      color <- column_color L g yfrac pixels nextpixels fetchstate x_start ;;
      let '(seed, rgb) :=
        gamma_filters L seed (c_r color, c_g color, c_b color) (g_ctrl g) in
      rgbs <- column_rgbs L g yfrac pixels nextpixels fetchstate n'
                (u32 (x_start + g_x_add g)) seed ;;
      ret (rgb :: rgbs)
  end.

(** The same for scanline [j], from the start of the scanline. *)
Definition scanline_rgbs (L : leaf_ops) (g : geometry) (j seed : Z)
  : M (list (Z * Z * Z)) :=
  let curry := u32 (g_y_start g + j * g_y_add g) in
  let prevy := curry >> 10 in
  line_begin g ;;
  let yfrac := (curry >> 5) .& 0x1f in
  let pixels := u32 (g_vi_width_low g * prevy) in
  let nextpixels := u32 (g_vi_width_low g + pixels) in
  fetchstate <- next_fetchbugstate g j ;;
  column_rgbs L g yfrac pixels nextpixels fetchstate (Z.to_nat (g_hres g))
    (g_x_start_init g) seed.

(** [lo .. marker] of cache [c] has been written. *)
Definition contig (lo : Z) (c : cache_id) (gs : ghost) : Prop :=
  forall col, lo <= col <= gh_marker gs c -> gh_filled gs c col = true.

(** Nothing but cache [c] has changed. *)
Definition same_but (c : cache_id) (gs gs' : ghost) : Prop :=
  forall c', c' <> c ->
    gh_marker gs' c' = gh_marker gs c'
    /\ forall col, gh_filled gs' c' col = gh_filled gs c' col.

(** The trace recorded since the column loop was entered (with trace [t0]
    and checker state [gs0]) passes the check and ends in [gs], and [gs]
    has the markers of the locals. *)
Definition tracked_since (t0 : list cache_event) (gs0 gs : ghost) (l : locals)
  : Prop :=
  exists t,
    trace l = t0 ++ t
    /\ check_trace gs0 t = Some gs
    /\ forall c, gh_marker gs c = marker c l.

(** What holds between two columns, [p] being the source column
    [x_start >> 10] of the column to come: both fetch caches are written
    from [p] up to their markers and, with the divot filter on, both divot
    caches from [p + 1] up to theirs. *)
Definition window_inv (g : geometry) (p : Z) (gs : ghost) : Prop :=
  contig p Viaa gs /\ contig p ViaaNext gs
  /\ (truthy (Ctrl.divot_enable (g_ctrl g)) = true ->
      contig (p + 1) Divot gs /\ contig (p + 1) DivotNext gs).

(** ** Readings for the repeated frame *)

(** [gamma_dither_enable] is clear in the control word. *)
Definition no_dither (ctrl : Z) : Prop :=
  truthy (Ctrl.gamma_dither_enable ctrl) = false.

(** The stores applied without the range check. *)
Fixpoint overlay (ws : list (Z * Z)) (b : buffer) : buffer :=
  match ws with
  | [] => b
  | (k, v) :: ws' => overlay ws' (fun i => if i =? k then v else b i)
  end.

(** The range check of [poke]. *)
Definition in_prescale (w : Z * Z) : bool :=
  (0 <=? fst w) && (fst w <? PRESCALE_SIZE).

(** The last value stored to cell [i], if any. *)
Fixpoint last_store (ws : list (Z * Z)) (i : Z) : option Z :=
  match ws with
  | [] => None
  | (k, v) :: ws' =>
      match last_store ws' i with
      | Some v' => Some v'
      | None => if i =? k then Some v else None
      end
  end.

(** The statics of the geometry that [vi_process_start_fast] never
    assigns. *)
Definition fast_unassigned (x : gvar) : bool :=
  match x with
  | x_start_init | y_start | prescale_ptr | linecount | minhpass | maxhpass
  | vi_fetch_filter_ptr => true
  | _ => false
  end.

(** Two calls of [vi_update] in a row on the same registers that leave the
    same [oldlowerfield] leave the same prescale buffer. *)
Definition repeats_picture (L : leaf_ops) (cfg : core_config) (worker_num : Z)
    (trace_open : bool) (regs : vi_regs) (st : vi_state) : Prop :=
  forall st1 st2,
    vi_update L cfg worker_num trace_open regs st = Some st1 ->
    vi_update L cfg worker_num trace_open regs st1 = Some st2 ->
    st2@oldlowerfield = st1@oldlowerfield ->
    forall i, prescale st2 i = prescale st1 i.

(** [vi_process_start_ptr] and the task handed to the workers. *)
Definition start_of (cfg : core_config) (regs : vi_regs) (st : vi_state)
  : Z * vi_state :=
  if cfg_vi_mode cfg =? VI_MODE_NORMAL
  then vi_process_start regs st else vi_process_start_fast regs st.

Definition task_of (L : leaf_ops) (cfg : core_config) (worker_num : Z)
    (gm : geometry) (id seed : Z) : option (list (Z * Z) * Z) :=
  if cfg_vi_mode cfg =? VI_MODE_NORMAL
  then vi_process L gm cfg id worker_num seed
  else vi_process_fast L cfg gm id worker_num seed.

Definition ids_of (cfg : core_config) (worker_num : Z) : list Z :=
  if negb (num_workers cfg =? 1) then worker_ids worker_num else [0].

(** ** The worker pool of [parallel.cpp]

    The threads of [Parallel] interleaved at the grain of the statements of
    the source: every step below is one statement of [do_work], [wait],
    [run] or the destructor, named by its line.  A blocking call (a mutex
    that is held, a condition variable, [join]) is a step that is not
    enabled.  Memory is sequentially consistent. *)
Module Parallel.

(** The contents of [m_task]: the lambda of line 26, or the argument of the
    call of [run] that stored it. *)
Inductive task : Type :=
| Dummy
| Task (t : nat).

Inductive thread : Type :=
| Closer            (* the thread that destroys the pool *)
| Runner            (* the thread that calls [run] *)
| Worker (k : nat). (* [m_workers[k]], running [do_work(k)] *)

(** [do_work], lines 67-75. *)
Inductive worker_pc : Type :=
| W67          (* constructing [ul]: waits for the mutex *)
| W68          (* holds the mutex, tests [m_accept_work] *)
| W69          (* holds the mutex, calls [m_signal_work.wait] *)
| W69_blocked  (* inside [wait], mutex released *)
| W69_relock   (* notified, waits for the mutex *)
| W70
| W71
| W72
| W73
| W74
| WExit.       (* [do_work] has returned *)

(** [wait], lines 79-82. *)
Inductive wait_pc : Type :=
| T79
| T80
| T81
| T81_blocked
| T81_relock.

(** The destructor, lines 22-39. *)
Inductive closer_pc : Type :=
| CWait (w : wait_pc)   (* 22 *)
| C25
| C30
| C31
| CJoin (k : nat)       (* 34-36, about to join [m_workers[k]] *)
| C39
| CReturned.

(** [run], lines 44-54; [RIdle] is between two calls. *)
Inductive runner_pc : Type :=
| RIdle
| R44 (t : nat)
| RThrown (t : nat)     (* 45: the exception has left [run] *)
| R49 (t : nat)
| R50
| R51
| RWait (w : wait_pc).  (* 54 *)

Record pool : Type := {
  m_task : option task;            (* [None]: the empty [std::function] *)
  m_workers_active : Z;
  m_accept_work : bool;
  m_mutex : bool;                  (* held *)
  workers : list worker_pc;        (* the threads of [m_workers], by id *)
  closer : closer_pc;
  runner : runner_pc;
  pending : list nat;              (* the calls of [run] still to come *)
  executed : list (nat * task);    (* ghost: the calls [m_task(worker_id)] *)
  terminated : bool                (* [std::terminate] was called *)
}.

Definition set_task (v : option task) (s : pool) : pool :=
  {| m_task := v; m_workers_active := m_workers_active s;
     m_accept_work := m_accept_work s; m_mutex := m_mutex s;
     workers := workers s; closer := closer s; runner := runner s;
     pending := pending s; executed := executed s; terminated := terminated s |}.

Definition set_active (v : Z) (s : pool) : pool :=
  {| m_task := m_task s; m_workers_active := v;
     m_accept_work := m_accept_work s; m_mutex := m_mutex s;
     workers := workers s; closer := closer s; runner := runner s;
     pending := pending s; executed := executed s; terminated := terminated s |}.

Definition set_accept (v : bool) (s : pool) : pool :=
  {| m_task := m_task s; m_workers_active := m_workers_active s;
     m_accept_work := v; m_mutex := m_mutex s;
     workers := workers s; closer := closer s; runner := runner s;
     pending := pending s; executed := executed s; terminated := terminated s |}.

Definition set_mutex (v : bool) (s : pool) : pool :=
  {| m_task := m_task s; m_workers_active := m_workers_active s;
     m_accept_work := m_accept_work s; m_mutex := v;
     workers := workers s; closer := closer s; runner := runner s;
     pending := pending s; executed := executed s; terminated := terminated s |}.

Definition set_workers (v : list worker_pc) (s : pool) : pool :=
  {| m_task := m_task s; m_workers_active := m_workers_active s;
     m_accept_work := m_accept_work s; m_mutex := m_mutex s;
     workers := v; closer := closer s; runner := runner s;
     pending := pending s; executed := executed s; terminated := terminated s |}.

Definition set_closer (v : closer_pc) (s : pool) : pool :=
  {| m_task := m_task s; m_workers_active := m_workers_active s;
     m_accept_work := m_accept_work s; m_mutex := m_mutex s;
     workers := workers s; closer := v; runner := runner s;
     pending := pending s; executed := executed s; terminated := terminated s |}.

Definition set_runner (v : runner_pc) (s : pool) : pool :=
  {| m_task := m_task s; m_workers_active := m_workers_active s;
     m_accept_work := m_accept_work s; m_mutex := m_mutex s;
     workers := workers s; closer := closer s; runner := v;
     pending := pending s; executed := executed s; terminated := terminated s |}.

Definition set_pending (v : list nat) (s : pool) : pool :=
  {| m_task := m_task s; m_workers_active := m_workers_active s;
     m_accept_work := m_accept_work s; m_mutex := m_mutex s;
     workers := workers s; closer := closer s; runner := runner s;
     pending := v; executed := executed s; terminated := terminated s |}.

Definition add_executed (e : nat * task) (s : pool) : pool :=
  {| m_task := m_task s; m_workers_active := m_workers_active s;
     m_accept_work := m_accept_work s; m_mutex := m_mutex s;
     workers := workers s; closer := closer s; runner := runner s;
     pending := pending s; executed := e :: executed s;
     terminated := terminated s |}.

Definition set_terminated (s : pool) : pool :=
  {| m_task := m_task s; m_workers_active := m_workers_active s;
     m_accept_work := m_accept_work s; m_mutex := m_mutex s;
     workers := workers s; closer := closer s; runner := runner s;
     pending := pending s; executed := executed s; terminated := true |}.

Fixpoint replace_nth (k : nat) (pc : worker_pc) (l : list worker_pc)
  : list worker_pc :=
  match l, k with
  | [], _ => []
  | _ :: l', O => pc :: l'
  | x :: l', S k' => x :: replace_nth k' pc l'
  end.

Definition set_worker (k : nat) (pc : worker_pc) (s : pool) : pool :=
  set_workers (replace_nth k pc (workers s)) s.

(** [m_signal_work.notify_all()]. *)
Definition wake_worker (pc : worker_pc) : worker_pc :=
  match pc with W69_blocked => W69_relock | _ => pc end.

Definition notify_work (s : pool) : pool :=
  set_workers (map wake_worker (workers s)) s.

(** [m_signal_done.notify_all()]. *)
Definition wake_wait (w : wait_pc) : wait_pc :=
  match w with T81_blocked => T81_relock | _ => w end.

Definition notify_done (s : pool) : pool :=
  let s := match closer s with
           | CWait w => set_closer (CWait (wake_wait w)) s
           | _ => s
           end in
  match runner s with
  | RWait w => set_runner (RWait (wake_wait w)) s
  | _ => s
  end.

(** [std::atomic_size_t], 64 bits. *)
Definition size_t (x : Z) : Z := x mod 2 ^ 64.

(** [m_workers.size()]; line 39 empties the vector. *)
Definition m_workers_size (s : pool) : Z :=
  match closer s with
  | CReturned => 0
  | _ => Z.of_nat (List.length (workers s))
  end.

(** One statement of [wait]; the result [None] in the first component
    means that [wait] has returned (the destructor of [ul] releases the
    mutex). *)
Definition wait (w : wait_pc) (s : pool) : option (option wait_pc * pool) :=
  match w with
  | T79 => if m_mutex s then None else Some (Some T80, set_mutex true s)
  | T80 =>
      if m_workers_active s =? 0 then Some (None, set_mutex false s)
      else Some (Some T81, s)
  | T81 => Some (Some T81_blocked, set_mutex false s)
  | T81_blocked => None
  | T81_relock => if m_mutex s then None else Some (Some T80, set_mutex true s)
  end.

(** One statement of [do_work(k)].  Calling an empty [m_task] throws
    [std::bad_function_call] out of the thread function. *)
Definition do_work (k : nat) (s : pool) : option pool :=
  match nth_error (workers s) k with
  | None => None
  | Some W67 =>
      if m_mutex s then None else Some (set_worker k W68 (set_mutex true s))
  | Some W68 =>
      if m_accept_work s then Some (set_worker k W69 s)
      else Some (set_worker k WExit (set_mutex false s))
  | Some W69 => Some (set_worker k W69_blocked (set_mutex false s))
  | Some W69_blocked => None
  | Some W69_relock =>
      if m_mutex s then None else Some (set_worker k W70 (set_mutex true s))
  | Some W70 => Some (set_worker k W71 (set_mutex false s))
  | Some W71 =>
      match m_task s with
      | None => Some (set_terminated s)
      | Some t => Some (set_worker k W72 (add_executed (k, t) s))
      end
  | Some W72 =>
      if m_mutex s then None else Some (set_worker k W73 (set_mutex true s))
  | Some W73 =>
      Some (set_worker k W74 (set_active (size_t (m_workers_active s - 1)) s))
  | Some W74 => Some (set_worker k W68 (notify_done s))
  | Some WExit => None
  end.

(** One statement of the destructor; [join] of a thread returns once the
    thread function has returned. *)
Definition destructor (s : pool) : option pool :=
  match closer s with
  | CWait w =>
      match wait w s with
      | None => None
      | Some (Some w', s') => Some (set_closer (CWait w') s')
      | Some (None, s') => Some (set_closer C25 s')
      end
  | C25 =>
      Some (set_closer C30
              match m_task s with
              | None => set_task (Some Dummy) s
              | Some _ => s
              end)
  | C30 => Some (set_closer C31 (set_accept false s))
  | C31 => Some (set_closer (CJoin 0) (notify_work s))
  | CJoin k =>
      match nth_error (workers s) k with
      | None => Some (set_closer C39 s)
      | Some WExit => Some (set_closer (CJoin (S k)) s)
      | Some _ => None
      end
  | C39 => Some (set_closer CReturned s)
  | CReturned => None
  end.

(** One statement of [run], or the start of the next call. *)
Definition run (s : pool) : option pool :=
  match runner s with
  | RIdle =>
      match pending s with
      | [] => None
      | t :: ts => Some (set_runner (R44 t) (set_pending ts s))
      end
  | R44 t =>
      if m_accept_work s then Some (set_runner (R49 t) s)
      else Some (set_runner (RThrown t) s)
  | RThrown _ => None
  | R49 t => Some (set_runner R50 (set_task (Some (Task t)) s))
  | R50 => Some (set_runner R51 (set_active (m_workers_size s) s))
  | R51 => Some (set_runner (RWait T79) (notify_work s))
  | RWait w =>
      match wait w s with
      | None => None
      | Some (Some w', s') => Some (set_runner (RWait w') s')
      | Some (None, s') => Some (set_runner RIdle s')
      end
  end.

(** A wait on a condition variable may also return without a
    notification. *)
Definition spurious (t : thread) (s : pool) : option pool :=
  match t with
  | Worker k =>
      match nth_error (workers s) k with
      | Some W69_blocked => Some (set_worker k W69_relock s)
      | _ => None
      end
  | Closer =>
      match closer s with
      | CWait T81_blocked => Some (set_closer (CWait T81_relock) s)
      | _ => None
      end
  | Runner =>
      match runner s with
      | RWait T81_blocked => Some (set_runner (RWait T81_relock) s)
      | _ => None
      end
  end.

Inductive move : Type :=
| Step (t : thread)
| Spurious (t : thread).

Definition step (m : move) (s : pool) : option pool :=
  if terminated s then None else
  match m with
  | Step Closer => destructor s
  | Step Runner => run s
  | Step (Worker k) => do_work k s
  | Spurious t => spurious t s
  end.

(** A schedule, run from [s]. *)
Fixpoint exec (sched : list move) (s : pool) : option pool :=
  match sched with
  | [] => Some s
  | m :: sched' =>
      match step m s with
      | None => None
      | Some s' => exec sched' s'
      end
  end.

(** The pool after the constructor: [n] threads at the top of [do_work];
    [m_workers_active] is not initialised by the constructor ([active0]).
    The runner will make the calls [run(Task t)] for [t] in [ts]; the
    closer runs the destructor. *)
Definition init (n : nat) (ts : list nat) (active0 : Z) : pool :=
  {| m_task := None; m_workers_active := size_t active0; m_accept_work := true;
     m_mutex := false; workers := repeat W67 n; closer := CWait T79;
     runner := RIdle; pending := ts; executed := []; terminated := false |}.

(** Past line 30 of the destructor. *)
Definition stopping (c : closer_pc) : bool :=
  match c with
  | C31 | CJoin _ | C39 | CReturned => true
  | _ => false
  end.

(** The number of threads the destructor has joined. *)
Definition joined (s : pool) : nat :=
  match closer s with
  | CJoin k => k
  | C39 | CReturned => List.length (workers s)
  | _ => O
  end.

Definition demo_sched : list move :=
  (* both workers reach the wait of line 69 *)
  repeat (Step (Worker 0)) 3 ++ repeat (Step (Worker 1)) 3
  (* run(Task 7) up to its wait *)
  ++ repeat (Step Runner) 8
  (* the workers call the task *)
  ++ repeat (Step (Worker 0)) 8 ++ repeat (Step (Worker 1)) 8
  (* run returns *)
  ++ repeat (Step Runner) 2
  (* the destructor up to the first join *)
  ++ repeat (Step Closer) 5
  (* the workers leave *)
  ++ repeat (Step (Worker 0)) 7 ++ repeat (Step (Worker 1)) 7
  (* the joins and the end of the destructor *)
  ++ repeat (Step Closer) 4
  (* the next call of run starts *)
  ++ [Step Runner].

Definition lost_wakeup_sched : list move :=
  (* the destructor passes its wait and line 25 *)
  repeat (Step Closer) 3
  (* the worker takes the mutex and finds m_accept_work set *)
  ++ repeat (Step (Worker 0)) 2
  (* lines 30 and 31 *)
  ++ repeat (Step Closer) 2
  (* the worker enters the wait of line 69 *)
  ++ [Step (Worker 0)].

(** What every reachable state satisfies: the threads the destructor has
    joined have left [do_work], and [m_accept_work] is cleared by line 30
    only. *)
Definition pool_inv (s : pool) : Prop :=
  (forall i, (i < joined s)%nat -> nth_error (workers s) i = Some WExit)
  /\ (m_accept_work s = false -> stopping (closer s) = true).

(** After a refused call: the runner stays where the exception left it,
    and the workers call nothing but the task stored before. *)
Definition refused (t : nat) (s0 s : pool) : Prop :=
  m_accept_work s = false
  /\ stopping (closer s) = true
  /\ (runner s = R44 t \/ runner s = RThrown t)
  /\ m_task s = m_task s0
  /\ exists calls,
       executed s = calls ++ executed s0
       /\ forall e, In e calls -> m_task s0 = Some (snd e).

End Parallel.

(** * Readings for the further properties *)

(** What one call of [vi_process_start_fast] adds to the event log. *)
Definition start_fast_events (regs : vi_regs) (st : vi_state) : list event :=
  skipn (List.length (events st)) (events (snd (vi_process_start_fast regs st))).

(** Line 289: the top edge before the clamp of lines 294-298. *)
Definition start_v_start_a (regs : vi_regs) : Z :=
  Z.quot ((rd regs VI_V_START >> 16) .& 0x3ff - start_vstartoffset regs) 2.

(** Lines 485 and 505: [x_start] at column [i], stepped as the column loop
    steps it; line 486: [curry] of scanline [j]. *)
Definition source_x (s : statics) (i : nat) : Z :=
  Nat.iter i (fun x_start => u32 (x_start + s x_add)) (s x_start_init).

Definition source_y (s : statics) (j : Z) : Z := u32 (s y_start + j * s y_add).

(** Lines 223 and 235: the tests of the two one-time warnings. *)
Definition start_warn_vbusclock (regs : vi_regs) (s : statics) : bool :=
  truthy (Ctrl.vbus_clock_enable (rd regs VI_STATUS))
  && negb (truthy (s onetimewarnings_vbusclock)).

Definition start_warn_nolerp (regs : vi_regs) (s : statics) : bool :=
  (Ctrl.aa_mode (rd regs VI_STATUS) =? VI_AA_REPLICATE)
  && (Ctrl.type (rd regs VI_STATUS) =? VI_TYPE_RGBA5551)
  && negb (truthy (s onetimewarnings_nolerp))
  && ((rd regs VI_H_START >> 16) .& 0x3ff <? 0x80)
  && (rd regs VI_X_SCALE .& 0xfff <=? 0x200).

(** A session: one [vi_update] per entry, each with the configuration and
    the registers of its moment. *)
Fixpoint vi_updates (L : leaf_ops) (worker_num : Z) (trace_open : bool)
    (frames : list (core_config * vi_regs)) (st : vi_state) : option vi_state :=
  match frames with
  | [] => Some st
  | (cfg, regs) :: frames' =>
      match vi_update L cfg worker_num trace_open regs st with
      | Some st' => vi_updates L worker_num trace_open frames' st'
      | None => None
      end
  end.

Definition is_warning (m : message) (e : event) : bool :=
  match e, m with
  | MsgWarning VbusClockWarning, VbusClockWarning => true
  | MsgWarning NoLerpWarning, NoLerpWarning => true
  | _, _ => false
  end.

Definition count_warnings (m : message) (evs : list event) : nat :=
  List.length (filter (is_warning m) evs).

(** The calls into the display sink: [screen_upload], the screenshot
    writer, [screen_swap]. *)
Definition is_sink (e : event) : bool :=
  match e with
  | ScreenUpload _ _ _ _ _ | ScreenshotWrite _ _ _ _ _ _ | ScreenSwap => true
  | _ => false
  end.

(** What one call of [vi_update] adds to the event log. *)
Definition update_events (L : leaf_ops) (cfg : core_config) (worker_num : Z)
    (trace_open : bool) (regs : vi_regs) (st : vi_state) : list event :=
  match vi_update L cfg worker_num trace_open regs st with
  | Some st' => skipn (List.length (events st)) (events st')
  | None => []
  end.

(** The flag of [onetimewarnings] that guards the warning [m]. *)
Definition warned (m : message) (st : vi_state) : Z :=
  match m with
  | VbusClockWarning => st@onetimewarnings_vbusclock
  | _ => st@onetimewarnings_nolerp
  end.

Definition one_time (m : message) : Prop :=
  m = VbusClockWarning \/ m = NoLerpWarning.

(** The statics that carry the field of an interlaced picture from one
    frame to the next, within their ranges. *)
Definition field_state_ok (s : statics) : Prop :=
  (s oldlowerfield = 0 \/ s oldlowerfield = 1)
  /\ (s emucontrolsvicurrent = -1 \/ s emucontrolsvicurrent = 0
      \/ s emucontrolsvicurrent = 1)
  /\ (s prevserrate = 0 \/ s prevserrate = 1)
  /\ (s prevvicurrent = 0 \/ s prevvicurrent = 1).

(** The statics [vi_process_start_fast] assigns. *)
Definition fast_assigned (x : gvar) : bool :=
  match x with
  | hres | vres | x_add | y_add | hres_raw | vres_raw | vi_width_low
  | frame_buffer | ctrl | v_sync => true
  | _ => false
  end.

(** ** [vi_screenshot]

    [strcpy(screenshot_path, path)]: the characters of [path] up to its
    terminator.  [screenshot_path] has [FILE_MAX_PATH] bytes; the constant
    is defined in file.h and is a parameter here.  A longer path overruns
    the array and has no result. *)
Fixpoint c_str (s : string) : string :=
  match s with
  | EmptyString => EmptyString
  | String c rest =>
      if Ascii.eqb c Ascii.zero then EmptyString else String c (c_str rest)
  end.

Definition vi_screenshot (FILE_MAX_PATH : nat) (path : string) (st : vi_state)
  : option vi_state :=
  if (String.length (c_str path) <? FILE_MAX_PATH)%nat
  then Some (set_screenshot_path (c_str path) st)
  else None.

Definition is_screenshot (e : event) : bool :=
  match e with ScreenshotWrite _ _ _ _ _ _ => true | _ => false end.

(** What [vi_screenshot_write] logs and does when it returns: the debug
    message, then the file, or the warning if the file could not be
    opened. *)
Definition write_events (L : leaf_ops) (path : string)
    (b w h p o : Z) : list event :=
  [MsgDebug (WritingScreenshot path);
   if fopen_wb L path then ScreenshotWrite path b w h p o
   else MsgWarning (CantOpenScreenshot path)].

(** Lines 693-696 and 838-841: nothing without a request. *)
Definition screenshot_events (L : leaf_ops) (path : string)
    (b w h p o : Z) : list event :=
  if String.eqb path EmptyString then [] else write_events L path b w h p o.

(** The events of [vi_screenshot_write]. *)
Definition is_attempt (e : event) : bool :=
  match e with
  | MsgDebug (WritingScreenshot _) | MsgWarning (CantOpenScreenshot _)
  | ScreenshotWrite _ _ _ _ _ _ => true
  | _ => false
  end.

(** What a session adds to the event log. *)
Definition session_events (L : leaf_ops) (worker_num : Z) (trace_open : bool)
    (frames : list (core_config * vi_regs)) (st : vi_state) : list event :=
  match vi_updates L worker_num trace_open frames st with
  | Some st' => skipn (List.length (events st)) (events st')
  | None => []
  end.

(** Lines 339-340 and 494: the row of the prescale buffer that scanline [j]
    is stored to.  With [serrate] set the two fields take alternate
    rows. *)
Definition frame_row (s : statics) (j : Z) : Z :=
  ((s v_start + j) << Ctrl.serrate (s ctrl))
  + (if truthy (s oldlowerfield) then 1 else 0).

(** ** Readings for the run of [vi_process]

    [has c l col]: the entry [c[col]] has been written.  [grows l l']: the
    cache pointers are where they were and no written entry has been
    lost. *)
Definition has (c : cache_id) (l : locals) (col : Z) : Prop :=
  array c l (base c l + col) <> None.

Definition bases_ok (l : locals) : Prop :=
  forall c, base c l = 0 \/ base c l = CACHE_LEN.

Definition grows (l l' : locals) : Prop :=
  (forall c, base c l' = base c l)
  /\ (forall c col, has c l col -> has c l' col).

(** [lo .. marker] of [c] has been written. *)
Definition written_from (lo : Z) (c : cache_id) (l : locals) : Prop :=
  forall col, lo <= col <= marker c l -> has c l col.

(** The computation [m] gives a result from [l], and the result
    satisfies [Q]. *)
Definition runs {A : Type} (m : M A) (l : locals) (Q : A -> locals -> Prop)
  : Prop :=
  exists a l', m l = Some (a, l') /\ Q a l'.

(** What holds between two columns of a scanline, [p] being the source
    column [x_start >> 10] of the column to come. *)
Definition column_inv (g : geometry) (p : Z) (l : locals) : Prop :=
  bases_ok l
  /\ written_from p Viaa l /\ written_from p ViaaNext l
  /\ (truthy (Ctrl.divot_enable (g_ctrl g)) = true ->
      written_from (p + 1) Divot l /\ written_from (p + 1) DivotNext l).

(** The last source position of a scanline stays inside a cache:
    [0xa10] entries, three of them ahead of the current one. *)
Definition caches_reach (s : statics) : Prop :=
  (s x_start_init + s x_add * (s hres - 1)) >> 10 < CACHE_LEN - 3.

(** ** The stores of a frame

    The stores of the workers of [ids], each given the task [task], in the
    order in which [run_workers] makes them. *)
Fixpoint workers_stores (task : Z -> Z -> option (list (Z * Z) * Z))
    (ids : list Z) (seed : Z) : option (list (Z * Z) * Z) :=
  match ids with
  | [] => Some ([], seed)
  | id :: ids' =>
      match task id seed with
      | None => None
      | Some (ws, seed') =>
          match workers_stores task ids' seed' with
          | None => None
          | Some (ws', seed'') => Some (ws ++ ws', seed'')
          end
      end
  end.

(** The stores that the call [vi_update] makes into [prescale] after
    lines 848-851: those of [vi_process] or [vi_process_fast] in every
    worker; none if the start stage turns the frame down. *)
Definition frame_stores (L : leaf_ops) (cfg : core_config) (worker_num : Z)
    (trace_open : bool) (regs : vi_regs) (st : vi_state)
  : option (list (Z * Z)) :=
  let r := start_of cfg regs (vi_update_enter cfg trace_open st) in
  if negb (truthy (fst r)) then Some [] else
  option_map fst
    (workers_stores (task_of L cfg worker_num (geometry_of (vars (snd r))))
       (ids_of cfg worker_num) (iseed (snd r))).

(** ** Readings for the fast path *)

(** The modes [vi_process_fast] has a case for. *)
Definition fast_mode (cfg : core_config) : Prop :=
  cfg_vi_mode cfg = VI_MODE_COLOR \/ cfg_vi_mode cfg = VI_MODE_DEPTH
  \/ cfg_vi_mode cfg = VI_MODE_COVERAGE.

(** Lines 772-822 for one pixel, with no dither drawn: what is stored for
    pixel [x] of line [y]. *)
Definition fast_value (L : leaf_ops) (cfg : core_config) (g : geometry)
    (y x : Z) : option Z :=
  match fast_pixel L cfg g (s32 (y * g_vi_width_low g)) x with
  | Some rgb => Some (pack_u32 (snd (gamma_filters L 0 rgb (g_ctrl g))))
  | None => None
  end.

(** The stand-ins of [Demo.ops] over a file system that opens no file. *)
Definition ops_no_file : leaf_ops :=
  {| vi_fetch_filter_func := vi_fetch_filter_func Demo.ops;
     divot_filter := divot_filter Demo.ops;
     vi_vl_lerp := vi_vl_lerp Demo.ops;
     irand := irand Demo.ops;
     gamma_dither := gamma_dither Demo.ops;
     gamma_table := gamma_table Demo.ops;
     rdram_read_idx16 := rdram_read_idx16 Demo.ops;
     rdram_read_idx32 := rdram_read_idx32 Demo.ops;
     rdram_read_pair16 := rdram_read_pair16 Demo.ops;
     rdp_get_zb_address := rdp_get_zb_address Demo.ops;
     fopen_wb := fun _ => false |}.

(** [Demo.st0] after [vi_screenshot("a.bmp")]. *)
Definition st_request : vi_state := set_screenshot_path "a.bmp" Demo.st0.

(** A session of two interlaced frames, and the state it leaves: the
    second frame has fixed [emucontrolsvicurrent]. *)
Definition interlaced_frames : list (core_config * vi_regs) :=
  [(Demo.cfg 1 VI_MODE_NORMAL, Demo.regs 0x42);
   (Demo.cfg 1 VI_MODE_NORMAL, Demo.regs 0x42)].

Definition st_field_known : vi_state :=
  match vi_updates Demo.ops 1 false interlaced_frames Demo.st0 with
  | Some st => st
  | None => Demo.st0
  end.

(** ** Readings for the worker pool *)
Module Pool.
Import Parallel.

(** The program points at which a thread holds [m_mutex]. *)
Definition worker_holds (pc : worker_pc) : bool :=
  match pc with
  | W68 | W69 | W70 | W73 | W74 => true
  | _ => false
  end.

Definition wait_holds (w : wait_pc) : bool :=
  match w with
  | T80 | T81 => true
  | _ => false
  end.

Definition closer_holds (c : closer_pc) : bool :=
  match c with
  | CWait w => wait_holds w
  | _ => false
  end.

Definition runner_holds (r : runner_pc) : bool :=
  match r with
  | RWait w => wait_holds w
  | _ => false
  end.

Definition count_true {A : Type} (f : A -> bool) (l : list A) : nat :=
  List.length (filter f l).

(** The number of threads that hold the mutex. *)
Definition holders (s : pool) : nat :=
  (count_true worker_holds (workers s)
   + (if closer_holds (closer s) then 1 else 0)
   + (if runner_holds (runner s) then 1 else 0))%nat.

(** A schedule in which the destructor has not started and no wait
    returns without a notification. *)
Definition quiet (m : move) : bool :=
  match m with
  | Step (Worker _) | Step Runner => true
  | _ => false
  end.

(** The tasks worker [k] has called, oldest first. *)
Definition calls_of (k : nat) (ex : list (nat * task)) : list task :=
  rev (map snd (filter (fun e => Nat.eqb (fst e) k) ex)).

(** Where a worker can be between two calls of [run]: on its way to the
    wait of line 69, or in it. *)
Definition pc_idle (pc : worker_pc) : bool :=
  match pc with
  | W67 | W68 | W69 | W69_blocked => true
  | _ => false
  end.

(** Notified, before the call of line 71. *)
Definition pc_woken (pc : worker_pc) : bool :=
  match pc with
  | W69_relock | W70 | W71 => true
  | _ => false
  end.

(** After the call, before the decrement of line 73. *)
Definition pc_called (pc : worker_pc) : bool :=
  match pc with
  | W72 | W73 => true
  | _ => false
  end.

(** After the decrement, up to the next wait. *)
Definition pc_done (pc : worker_pc) : bool :=
  match pc with
  | W74 | W68 | W69 | W69_blocked => true
  | _ => false
  end.

(** Worker state between calls of [run], [dn] being the tasks of the
    calls that have returned: it has called them, and once a call has
    returned it is inside the wait of line 69. *)
Definition idle_ok (dn : list nat) (lg : list task) (pc : worker_pc) : Prop :=
  lg = map Task dn /\ pc_idle pc = true /\ (dn <> [] -> pc = W69_blocked).

(** Worker state while [run(Task t)] waits. *)
Definition run_ok (dn : list nat) (t : nat) (lg : list task) (pc : worker_pc)
  : Prop :=
  (lg = map Task dn /\ (pc_idle pc || pc_woken pc) = true)
  \/ (lg = map Task (dn ++ [t]) /\ (pc_called pc || pc_done pc) = true).

(** The worker has not yet decremented [m_workers_active] in this call. *)
Definition owes (dn : list nat) (lg : list task) (pc : worker_pc) : bool :=
  Nat.eqb (List.length lg) (List.length dn) || pc_called pc.

Fixpoint owing (dn : list nat) (ex : list (nat * task)) (k : nat)
    (l : list worker_pc) : nat :=
  match l with
  | [] => O
  | pc :: l' =>
      ((if owes dn (calls_of k ex) pc then 1 else 0) + owing dn ex (S k) l')%nat
  end.

(** Worker [k] has missed the notification of the call of [run] that is
    waiting: it is on its way to the wait of line 69, or in it, with the
    calls [c0] behind it. *)
Definition missed (k : nat) (c0 : list task) (p0 : list nat) (s : pool) : Prop :=
  (exists w, runner s = RWait w)
  /\ (exists pc, nth_error (workers s) k = Some pc /\ pc_idle pc = true)
  /\ calls_of k (executed s) = c0 /\ pending s = p0.

Definition all_workers (P : list task -> worker_pc -> Prop) (s : pool) : Prop :=
  forall k pc, nth_error (workers s) k = Some pc -> P (calls_of k (executed s)) pc.

(** The mutex is held by exactly the threads at the points above. *)
Definition lock_inv (s : pool) : Prop :=
  holders s = if m_mutex s then 1%nat else 0%nat.

(** What every state of a quiet schedule satisfies. *)
Definition run_inv (n : nat) (ts : list nat) (s : pool) : Prop :=
  terminated s = false /\ m_accept_work s = true /\ closer s = CWait T79
  /\ List.length (workers s) = n
  /\ exists dn,
       match runner s with
       | RIdle => ts = dn ++ pending s /\ all_workers (idle_ok dn) s
       | R44 t | R49 t => ts = dn ++ t :: pending s /\ all_workers (idle_ok dn) s
       | R50 =>
           exists t,
             ts = dn ++ t :: pending s /\ m_task s = Some (Task t)
             /\ all_workers (idle_ok dn) s
       | R51 =>
           exists t,
             ts = dn ++ t :: pending s /\ m_task s = Some (Task t)
             /\ all_workers (idle_ok dn) s
             /\ m_workers_active s = Z.of_nat n
       | RWait _ =>
           exists t,
             ts = dn ++ t :: pending s /\ m_task s = Some (Task t)
             /\ all_workers (run_ok dn t) s
             /\ m_workers_active s
                = Z.of_nat (owing dn (executed s) 0 (workers s))
       | RThrown _ => False
       end.

(** Two calls of [run] served by two workers. *)
Definition two_runs_sched : list move :=
  repeat (Step (Worker 0)) 3 ++ repeat (Step (Worker 1)) 3
  ++ repeat (Step Runner) 8
  ++ repeat (Step (Worker 0)) 8 ++ repeat (Step (Worker 1)) 8
  ++ repeat (Step Runner) 2
  ++ repeat (Step Runner) 8
  ++ repeat (Step (Worker 1)) 8 ++ repeat (Step (Worker 0)) 8
  ++ repeat (Step Runner) 2.

(** A schedule of the destructor and the workers, without calls of [run]
    and without spurious wake-ups. *)
Definition closing (m : move) : bool :=
  match m with
  | Step Closer | Step (Worker _) => true
  | _ => false
  end.

(** The task the workers find in [m_task] once line 27 is passed. *)
Definition stored (s : pool) : task :=
  match m_task s with
  | Some t => t
  | None => Dummy
  end.

(** After the call of line 71, on the way out of [do_work]. *)
Definition pc_leaving (pc : worker_pc) : bool :=
  match pc with
  | W72 | W73 | W74 | W68 | WExit => true
  | _ => false
  end.

(** Worker state while the destructor runs, from a state [s0] in which
    every worker was inside the wait of line 69. *)
Definition waiting_ok (c0 lg : list task) (pc : worker_pc) : Prop :=
  lg = c0 /\ pc = W69_blocked.

Definition leaving_ok (tk : task) (c0 lg : list task) (pc : worker_pc) : Prop :=
  (lg = c0 /\ pc_woken pc = true) \/ (lg = c0 ++ [tk] /\ pc_leaving pc = true).

Definition all_since (P : list task -> list task -> worker_pc -> Prop)
    (s0 s : pool) : Prop :=
  forall k pc, nth_error (workers s) k = Some pc ->
               P (calls_of k (executed s0)) (calls_of k (executed s)) pc.

Definition close_inv (s0 s : pool) : Prop :=
  terminated s = false
  /\ match closer s with
     | CWait _ | C25 =>
         m_task s = m_task s0 /\ m_accept_work s = true
         /\ all_since waiting_ok s0 s
     | C30 =>
         m_task s = Some (stored s0) /\ m_accept_work s = true
         /\ all_since waiting_ok s0 s
     | C31 =>
         m_task s = Some (stored s0) /\ m_accept_work s = false
         /\ all_since waiting_ok s0 s
     | CJoin _ | C39 | CReturned =>
         m_task s = Some (stored s0) /\ m_accept_work s = false
         /\ all_since (leaving_ok (stored s0)) s0 s
     end.

(** The destructor, run to its end after [two_runs_sched]: lines 22-31,
    the workers' last round, the joins. *)
Definition close_sched : list move :=
  repeat (Step Closer) 5
  ++ repeat (Step (Worker 1)) 7 ++ repeat (Step (Worker 0)) 7
  ++ repeat (Step Closer) 4.

End Pool.

(** * Properties *)

Ltac bool_hyps :=
  repeat match goal with
    | H : (_ >? _) = _ |- _ => rewrite Z.gtb_ltb in H
    | H : (_ >=? _) = _ |- _ => rewrite Z.geb_leb in H
    | H : (_ <? _) = true |- _ => apply Z.ltb_lt in H
    | H : (_ <? _) = false |- _ => apply Z.ltb_ge in H
    | H : (_ <=? _) = true |- _ => apply Z.leb_le in H
    | H : (_ <=? _) = false |- _ => apply Z.leb_gt in H
    | H : (_ =? _) = true |- _ => apply Z.eqb_eq in H
    | H : (_ =? _) = false |- _ => apply Z.eqb_neq in H
    end.

Ltac case_if :=
  match goal with
  | |- context [if ?c then _ else _] => destruct c eqn:?
  end.

Ltac unfold_start :=
  unfold vi_process_start, start_lowerfield, start_validinterlace,
    start_hres_clamped, start_hres_a, start_h_start_clamped, start_h_start_a,
    start_ispal.

Ltac start_paths :=
  repeat match goal with
    | |- context [snd (if ?c then _ else _)] => destruct c eqn:?
    | |- context [fst (if ?c then _ else _)] => destruct c eqn:?
    end;
  cbn [fst snd vars upd gvar_eqb events].

Lemma land_bounds (a m : Z) : 0 <= m -> 0 <= a .& m <= m.
Proof.
  intros Hm. split.
  - apply Z.land_nonneg. now right.
  - destruct (Z.eq_dec m 0) as [->|Hne].
    + rewrite Z.land_0_r. lia.
    + assert (Hn : 0 <= a .& m) by (apply Z.land_nonneg; now right).
      destruct (Z.eq_dec (a .& m) 0) as [->|Hz]; [lia|].
      apply Z.nlt_ge. intros Hlt.
      assert (Hbits : forall n, Z.testbit (a .& m) n = true -> Z.testbit m n = true).
      { intros n. rewrite Z.land_spec. now intros [_ ?]%andb_true_iff. }
      pose proof (Z.log2_le_mono m (a .& m) ltac:(lia)) as Hlog.
      assert (Hsub : Z.ldiff (a .& m) m = 0).
      { apply Z.bits_inj'. intros n Hn0. rewrite Z.ldiff_spec, Z.bits_0.
        destruct (Z.testbit (a .& m) n) eqn:E; [|reflexivity].
        now rewrite (Hbits _ E). }
      pose proof (Z.sub_nocarry_ldiff (a .& m) m) as Hs.
      assert (Hd : Z.ldiff m (a .& m) = m - a .& m).
      { symmetry. apply Z.sub_nocarry_ldiff. exact Hsub. }
      assert (0 <= Z.ldiff m (a .& m)) by (apply Z.ldiff_nonneg; lia).
      lia.
Qed.

(** ** Register decode *)

(** C2.  Whatever the registers and the state before, and whichever way
    [vi_process_start] returns, the window it leaves lies inside the
    prescale buffer: [h_start + hres <= PRESCALE_WIDTH] and
    [v_start + vres <= PRESCALE_HEIGHT]. *)
Theorem start_within_prescale (regs : vi_regs) (st : vi_state) :
  let st' := snd (vi_process_start regs st) in
  st'@h_start + st'@hres <= PRESCALE_WIDTH
  /\ st'@v_start + st'@vres <= PRESCALE_HEIGHT.
Proof.
  unfold_start. start_paths.
  all: unfold PRESCALE_WIDTH, PRESCALE_HEIGHT, H_RES_NTSC, V_SYNC_PAL in *.
  all: split; repeat case_if; bool_hyps; lia.
Qed.

Lemma skipn_length_app {A : Type} (l k : list A) :
  skipn (List.length l) (l ++ k) = k.
Proof. induction l; simpl; auto. Qed.

Lemma type_has_two_bits (raw : Z) : truthy (Ctrl.type raw .& Z.lnot 3) = false.
Proof.
  unfold truthy, Ctrl.type.
  rewrite <- Z.land_assoc. replace (3 .& Z.lnot 3) with 0 by reflexivity.
  now rewrite Z.land_0_r.
Qed.

Lemma in_if_single {A : Type} (c : bool) (x w : A) :
  In x (if c then [w] else []) <-> c = true /\ w = x.
Proof. destruct c; simpl; intuition congruence. Qed.

(** What [vi_process_start] logs, for every way out of it: up to three
    warnings, then the error of line 319. *)
Lemma start_events_eq (regs : vi_regs) (st : vi_state) :
  exists (w1 w2 w3 : message) (c1 c2 c3 : bool),
    start_events regs st =
      (if c1 then [MsgWarning w1] else []) ++
      (if c2 then [MsgWarning w2] else []) ++
      (if c3 then [MsgWarning w3] else []) ++
      (if start_vactivelines_r regs >? PRESCALE_HEIGHT
       then [MsgError VSyncTooBig] else []).
Proof.
  unfold start_events, start_vactivelines_r, start_vstartoffset.
  unfold_start. rewrite type_has_two_bits. start_paths.
  all: rewrite skipn_length_app; cbn [app].
  all: do 6 eexists; reflexivity.
Qed.

(** C5, as the code has it.  With [u = v_sync - vstartoffset] (44 for PAL,
    34 for NTSC), [vi_process_start] reports "VI_V_SYNC_REG too big"
    exactly when [u > PRESCALE_HEIGHT], returns 0 whenever [u < 0] leaving
    [vactivelines = u], and otherwise leaves
    [vactivelines = u >> (serrate ? 0 : 1)]: both tests are made on the
    value before the shift. *)
Theorem vactivelines_checked_before_shift (regs : vi_regs) (st : vi_state) :
  let u := start_vactivelines_r regs in
  let st' := snd (vi_process_start regs st) in
  (In (MsgError VSyncTooBig) (start_events regs st) <-> PRESCALE_HEIGHT < u)
  /\ (0 <= u \/ fst (vi_process_start regs st) = 0)
  /\ st'@vactivelines = (if u <? 0 then u else u >> start_lineshifter regs).
Proof.
  cbv zeta. split; [|split].
  - destruct (start_events_eq regs st) as (w1 & w2 & w3 & c1 & c2 & c3 & ->).
    rewrite !in_app_iff, !in_if_single, Z.gtb_ltb, Z.ltb_lt.
    intuition discriminate.
  - unfold start_vactivelines_r, start_vstartoffset.
    unfold_start. start_paths; bool_hyps; auto; left; lia.
  - unfold start_vactivelines_r, start_vstartoffset, start_lineshifter.
    unfold_start. start_paths.
    all: reflexivity.
Qed.

(** C5 as stated fails: with [VI_V_SYNC = 1023] and [serrate] clear the
    error is reported, while the shifted value [(1023 - 44) >> 1 = 489]
    does not exceed [PRESCALE_HEIGHT]. *)
Lemma vsync_error_on_unshifted_value :
  In (MsgError VSyncTooBig) (start_events Demo.regs_vsync_1023 Demo.st0)
  /\ ~ PRESCALE_HEIGHT < spec_vactivelines Demo.regs_vsync_1023.
Proof.
  split.
  - vm_compute. left. reflexivity.
  - vm_compute. intros H. discriminate H.
Qed.


(** ** The frame driver *)

Lemma start_oldlowerfield (regs : vi_regs) (st : vi_state) :
  (snd (vi_process_start regs st))@oldlowerfield = start_lowerfield regs (vars st).
Proof. unfold vi_process_start. start_paths; reflexivity. Qed.

Lemma start_prevwasblank (regs : vi_regs) (st : vi_state) :
  (snd (vi_process_start regs st))@prevwasblank = st@prevwasblank.
Proof. unfold vi_process_start. start_paths; reflexivity. Qed.

Lemma start_fast_prevwasblank (regs : vi_regs) (st : vi_state) :
  (snd (vi_process_start_fast regs st))@prevwasblank = st@prevwasblank.
Proof.
  unfold vi_process_start_fast.
  repeat match goal with
    | |- context [snd (if ?c then _ else _)] => destruct c eqn:?
    end; cbn [snd vars setv emit upd gvar_eqb]; try reflexivity.
  all: case_if; reflexivity.
Qed.

Lemma enter_vars (cfg : core_config) (tr : bool) (st : vi_state) (x : gvar) :
  x <> vi_mode -> (vi_update_enter cfg tr st)@x = st@x.
Proof.
  intros Hx. unfold vi_update_enter.
  repeat case_if; cbn [vars emit setv set_prescale upd]; auto.
  all: destruct x; try reflexivity; congruence.
Qed.

Lemma enter_lowerfield (cfg : core_config) (tr : bool) (regs : vi_regs)
    (st : vi_state) :
  start_lowerfield regs (vars (vi_update_enter cfg tr st))
  = start_lowerfield regs (vars st).
Proof.
  unfold start_lowerfield, infer_field.
  rewrite !enter_vars by discriminate. reflexivity.
Qed.

(** [vi_screenshot_write] where it returns: the log grows by the debug
    message and the file or the warning; nothing else changes. *)
Lemma screenshot_write_spec (L : leaf_ops) (path : string) (b w h p o : Z)
    (st st' : vi_state) :
  vi_screenshot_write L path b w h p o st = Some st' ->
  vars st' = vars st /\ prescale st' = prescale st /\ iseed st' = iseed st
  /\ screenshot_path st' = screenshot_path st
  /\ events st' = events st ++ write_events L path b w h p o.
Proof.
  unfold vi_screenshot_write, write_events.
  destruct (negb (fits_int (w * o))); [discriminate|].
  destruct (fopen_wb L path); cbn [negb].
  - destruct (screenshot_rows h o) as [rows| ]; [|discriminate].
    destruct (forallb _ rows); [|discriminate].
    intros H; injection H as <-. cbn [vars prescale iseed screenshot_path events emit].
    rewrite <- app_assoc. repeat split.
  - intros H; injection H as <-. cbn [vars prescale iseed screenshot_path events emit].
    rewrite <- app_assoc. repeat split.
Qed.

(** The end stages where they return: one upload, then what the
    screenshot writer does if a screenshot is requested; the request is
    cleared. *)
Lemma end_spec (L : leaf_ops) (cfg : core_config) (st st' : vi_state) :
  vi_process_end L cfg st = Some st' ->
  vars st' = vars st /\ prescale st' = prescale st /\ iseed st' = iseed st
  /\ screenshot_path st' = EmptyString
  /\ st@v_sync <> 0
  /\ exists o,
       events st'
       = events st
         ++ ScreenUpload
              (st@h_start + st@minhpass
               + ((st@v_start + st@oldlowerfield) << Ctrl.serrate st@ctrl)
                 * PRESCALE_WIDTH)
              (st@maxhpass - st@minhpass) (st@vres << Ctrl.serrate st@ctrl)
              PRESCALE_WIDTH o
            :: screenshot_events L (screenshot_path st)
                 (st@h_start + st@minhpass
                  + ((st@v_start + st@oldlowerfield) << Ctrl.serrate st@ctrl)
                    * PRESCALE_WIDTH)
                 (st@maxhpass - st@minhpass) (st@vres << Ctrl.serrate st@ctrl)
                 PRESCALE_WIDTH o.
Proof.
  unfold vi_process_end, screenshot_events.
  destruct (Z.eqb_spec (st@v_sync) 0) as [|Hv]; [discriminate|].
  destruct (negb (fits_int _)); [discriminate|].
  destruct (cfg_vi_widescreen cfg && negb (fits_int _)); [discriminate|].
  cbn [screenshot_path emit].
  destruct (String.eqb (screenshot_path st) EmptyString) eqn:Ep; cbn [negb].
  - intros H; injection H as <-. cbn [vars prescale iseed screenshot_path events emit].
    apply String.eqb_eq in Ep.
    repeat (split; [auto|]). eexists. reflexivity.
  - destruct (vi_screenshot_write _ _ _ _ _ _ _ _) as [s1| ] eqn:Ew; [|discriminate].
    intros H; injection H as <-.
    apply screenshot_write_spec in Ew. destruct Ew as (H1 & H2 & H3 & H4 & H5).
    cbn [vars prescale iseed screenshot_path events emit set_screenshot_path] in *.
    repeat (split; [auto|]). eexists. rewrite H5, <- app_assoc. reflexivity.
Qed.

Lemma end_fast_spec (L : leaf_ops) (cfg : core_config) (st st' : vi_state) :
  vi_process_end_fast L cfg st = Some st' ->
  vars st' = vars st /\ prescale st' = prescale st /\ iseed st' = iseed st
  /\ screenshot_path st' = EmptyString
  /\ exists o,
       events st'
       = events st
         ++ ScreenUpload 0 st@hres_raw st@vres_raw st@hres_raw o
            :: screenshot_events L (screenshot_path st) 0 st@hres_raw st@vres_raw
                 st@hres_raw o.
Proof.
  unfold vi_process_end_fast, screenshot_events.
  destruct (_ || _); [discriminate|].
  destruct (negb (fits_int _)); [discriminate|].
  destruct (negb (fits_int _)); [discriminate|].
  destruct (cfg_vi_widescreen cfg && negb (fits_int _)); [discriminate|].
  cbn [screenshot_path emit].
  destruct (String.eqb (screenshot_path st) EmptyString) eqn:Ep; cbn [negb].
  - intros H; injection H as <-. cbn [vars prescale iseed screenshot_path events emit].
    apply String.eqb_eq in Ep.
    repeat (split; [auto|]). eexists. reflexivity.
  - destruct (vi_screenshot_write _ _ _ _ _ _ _ _) as [s1| ] eqn:Ew; [|discriminate].
    intros H; injection H as <-.
    apply screenshot_write_spec in Ew. destruct Ew as (H1 & H2 & H3 & H4 & H5).
    cbn [vars prescale iseed screenshot_path events emit set_screenshot_path] in *.
    repeat (split; [auto|]). eexists. rewrite H5, <- app_assoc. reflexivity.
Qed.

Lemma end_vars (L : leaf_ops) (cfg : core_config) (st st' : vi_state) :
  vi_process_end L cfg st = Some st' -> vars st' = vars st.
Proof. intros H. apply (end_spec L cfg st st' H). Qed.

Lemma end_fast_vars (L : leaf_ops) (cfg : core_config) (st st' : vi_state) :
  vi_process_end_fast L cfg st = Some st' -> vars st' = vars st.
Proof. intros H. apply (end_fast_spec L cfg st st' H). Qed.

Lemma end_stage_upload (L : leaf_ops) (cfg : core_config) (st st' : vi_state) :
  vi_process_end L cfg st = Some st' ->
  exists width height output_height,
    In (ScreenUpload
          (st@h_start + st@minhpass
           + ((st@v_start + st@oldlowerfield) << Ctrl.serrate st@ctrl)
             * PRESCALE_WIDTH)
          width height PRESCALE_WIDTH output_height) (events st').
Proof.
  intros H. destruct (end_spec L cfg st st' H) as (_ & _ & _ & _ & _ & o & He).
  do 3 eexists. rewrite He, in_app_iff. right. left. reflexivity.
Qed.

(** C10.  In a normal-mode frame that reaches the end stage, the
    [oldlowerfield] that [vi_process_end] adds to [v_start] for the upload
    offset is the [lowerfield] that [vi_process_start] computed for this
    very frame (line 275 stores it before any return). *)
Theorem end_stage_uses_frame_lowerfield (L : leaf_ops) (cfg : core_config)
    (worker_num : Z) (trace_open : bool) (regs : vi_regs) (st st' : vi_state) :
  cfg_vi_mode cfg = VI_MODE_NORMAL ->
  truthy (fst (vi_process_start regs (vi_update_enter cfg trace_open st))) = true ->
  vi_update L cfg worker_num trace_open regs st = Some st' ->
  st'@oldlowerfield = start_lowerfield regs (vars st)
  /\ exists width height output_height,
       In (ScreenUpload
             (st'@h_start + st'@minhpass
              + ((st'@v_start + start_lowerfield regs (vars st))
                   << Ctrl.serrate st'@ctrl) * PRESCALE_WIDTH)
             width height PRESCALE_WIDTH output_height) (events st').
Proof.
  intros Hmode Hgo. unfold vi_update. rewrite Hmode, Z.eqb_refl.
  pose proof (start_oldlowerfield regs (vi_update_enter cfg trace_open st)) as Hold.
  rewrite enter_lowerfield in Hold.
  destruct (vi_process_start regs (vi_update_enter cfg trace_open st)) as [go st1].
  cbn [fst snd] in *. cbv beta iota zeta. rewrite Hgo. cbn [negb].
  destruct (run_workers _ _ _ _) as [ [b seed] | ]; [|discriminate].
  destruct (vi_process_end L cfg _) as [st2| ] eqn:Hend; [|discriminate].
  intros H. injection H as <-.
  pose proof (end_vars _ _ _ _ Hend) as Hv.
  apply end_stage_upload in Hend. destruct Hend as (w & h & oh & Hin).
  cbn [vars emit events set_iseed set_prescale] in *.
  rewrite Hv, <- Hold. split; [reflexivity|].
  exists w, h, oh. rewrite in_app_iff. left. exact Hin.
Qed.

(** The second interlaced frame in a row: the frame before was the upper
    field, this one is the lower field, and the end stage sees 1. *)
Lemma end_stage_uses_frame_lowerfield_witness :
  Demo.st_interlaced@oldlowerfield = 0
  /\ start_lowerfield (Demo.regs 0x42) (vars Demo.st_interlaced) = 1
  /\ exists st',
       vi_update Demo.ops (Demo.cfg 1 VI_MODE_NORMAL) 1 false (Demo.regs 0x42)
         Demo.st_interlaced = Some st'
       /\ st'@oldlowerfield = start_lowerfield (Demo.regs 0x42) (vars Demo.st_interlaced).
Proof.
  split; [vm_compute; reflexivity|]. split; [vm_compute; reflexivity|].
  destruct (vi_update Demo.ops (Demo.cfg 1 VI_MODE_NORMAL) 1 false (Demo.regs 0x42)
              Demo.st_interlaced) as [st'| ] eqn:E;
    [|vm_compute in E; discriminate E].
  exists st'. split; [reflexivity|].
  apply (end_stage_uses_frame_lowerfield Demo.ops (Demo.cfg 1 VI_MODE_NORMAL) 1 false
           (Demo.regs 0x42) Demo.st_interlaced st');
    [reflexivity | vm_compute; reflexivity | exact E].
Defined.

(** No path through [vi_update] assigns [prevwasblank]: its two writers
    sit under [#if ENABLE_TVFADEOUT]. *)
Lemma update_prevwasblank (L : leaf_ops) (cfg : core_config) (worker_num : Z)
    (trace_open : bool) (regs : vi_regs) (st st' : vi_state) :
  vi_update L cfg worker_num trace_open regs st = Some st' ->
  st'@prevwasblank = st@prevwasblank.
Proof.
  unfold vi_update.
  pose proof (start_prevwasblank regs (vi_update_enter cfg trace_open st)) as Hn.
  pose proof (start_fast_prevwasblank regs (vi_update_enter cfg trace_open st)) as Hf.
  rewrite enter_vars in Hn, Hf by discriminate.
  destruct (cfg_vi_mode cfg =? VI_MODE_NORMAL).
  - destruct (vi_process_start regs _) as [go st1]. cbn [snd] in Hn.
    destruct (negb (truthy go)); [intros H; injection H as <-; exact Hn|].
    destruct (run_workers _ _ _ _) as [ [b seed] | ]; [|discriminate].
    destruct (vi_process_end L cfg _) as [st2| ] eqn:E; [|discriminate].
    intros H; injection H as <-. apply end_vars in E.
    cbn [vars emit set_iseed set_prescale] in *. now rewrite E.
  - destruct (vi_process_start_fast regs _) as [go st1]. cbn [snd] in Hf.
    destruct (negb (truthy go)); [intros H; injection H as <-; exact Hf|].
    destruct (run_workers _ _ _ _) as [ [b seed] | ]; [|discriminate].
    destruct (vi_process_end_fast L cfg _) as [st2| ] eqn:E; [|discriminate].
    intros H; injection H as <-. apply end_fast_vars in E.
    cbn [vars emit set_iseed set_prescale] in *. now rewrite E.
Qed.

(** C3 at a failing input.  Two blank frames (type 0) in a row after
    [vi_init], whatever the included filters are: [prevwasblank] is still 0
    after both, both frames are uploaded, and the second one has stored
    pixels into the prescale buffer. *)
Theorem second_blank_frame_is_processed (L : leaf_ops) :
  Ctrl.type (rd (Demo.regs 0) VI_STATUS) = VI_TYPE_BLANK
  /\ option_map (fun st => (Demo.count_uploads (events st), st@prevwasblank))
       (Demo.twice L (Demo.cfg 1 VI_MODE_NORMAL) 1 (Demo.regs 0) Demo.st0)
     = Some (2%nat, 0)
  /\ option_map (fun st => prescale st 8)
       (Demo.twice Demo.ops (Demo.cfg 1 VI_MODE_NORMAL) 1 (Demo.regs 0) Demo.st0)
     = Some 0x80000.
Proof. repeat split; vm_compute; reflexivity. Qed.

(** C1 at a failing input.  The frame [Demo.regs 2] has [y_add = 0x200], so
    scanlines 0 and 1 read the same source row.  With one worker scanline 1
    follows scanline 0 and fetches its next row with fetch state 1; with
    two workers it is the first scanline of worker 1, whose
    [fetchbugstate] is still 0.  Whatever the included filters are, the
    pixel is computed from different fetches. *)
Theorem workers_change_fetch_state (L : leaf_ops) :
  option_map (fun st => prescale st 648)
    (vi_update L (Demo.cfg 1 VI_MODE_NORMAL) 1 false (Demo.regs 2) Demo.st0)
  = Some (line1_col8 L 1)
  /\ option_map (fun st => prescale st 648)
       (vi_update L (Demo.cfg 2 VI_MODE_NORMAL) 2 false (Demo.regs 2) Demo.st0)
     = Some (line1_col8 L 0).
Proof. split; cbv -[pack]; reflexivity. Qed.

(** For a fetch that looks at its fetch state the two pixels differ. *)
Lemma workers_change_picture :
  line1_col8 Demo.ops 1 <> line1_col8 Demo.ops 0.
Proof. vm_compute. discriminate. Qed.

(** ** The fast path *)

(** The cells [vi_process_fast] stores to, when no pixel trips an
    assertion. *)
Section FastIndices.
Variable L : leaf_ops.
Variable cfg : core_config.
Variable g : geometry.
Hypothesis pixel_ok : forall line x, fast_pixel L cfg g line x <> None.

Lemma fast_columns_indices (y line : Z) (n : nat) :
  forall x seed,
  exists ws seed',
    fast_columns L cfg g y line n x seed = Some (ws, seed')
    /\ map fst ws = map (fun k => y * g_hres_raw g + (x + Z.of_nat k)) (seq 0 n).
Proof.
  induction n as [|n IH]; intros x seed; cbn [fast_columns].
  - exists [], seed. split; reflexivity.
  - destruct (fast_pixel L cfg g line x) as [rgb| ] eqn:E;
      [|exfalso; exact (pixel_ok _ _ E)].
    destruct (gamma_filters L seed rgb (g_ctrl g)) as [seed1 rgb1].
    destruct (IH (x + 1) seed1) as (ws & seed' & -> & Hidx).
    exists ((y * g_hres_raw g + x, pack_u32 rgb1) :: ws), seed'.
    split; [reflexivity|].
    cbn [map fst seq]. rewrite Hidx, <- seq_shift, map_map.
    f_equal; [f_equal; lia|].
    apply map_ext. intros k. f_equal. lia.
Qed.

Lemma fast_lines_indices (y_end : Z) (fuel : nat) :
  forall y seed,
  y_end - y <= Z.of_nat fuel ->
  exists ws seed',
    fast_lines L cfg g y_end 1 fuel y seed = Some (ws, seed')
    /\ forall y' x', y <= y' < y_end -> 0 <= x' < g_hres_raw g ->
         In (y' * g_hres_raw g + x') (map fst ws).
Proof.
  induction fuel as [|fuel IH]; intros y seed Hfuel; cbn [fast_lines].
  - destruct (y <? y_end) eqn:E; bool_hyps; [lia|].
    exists [], seed. split; [reflexivity|]. intros; lia.
  - destruct (y <? y_end) eqn:E; bool_hyps.
    + destruct (fast_columns_indices y (s32 (y * g_vi_width_low g))
                  (Z.to_nat (g_hres_raw g)) 0 seed) as (ws & seed1 & -> & Hidx).
      destruct (IH (y + 1) seed1 ltac:(lia)) as (ws' & seed' & -> & Hin).
      exists (ws ++ ws'), seed'. split; [reflexivity|].
      intros y' x' Hy Hx. rewrite map_app, in_app_iff.
      destruct (Z.eq_dec y' y) as [->|Hne].
      * left. rewrite Hidx. apply in_map_iff. exists (Z.to_nat x').
        split; [lia|]. apply in_seq. lia.
      * right. apply Hin; lia.
    + exists [], seed. split; [reflexivity|]. intros; lia.
Qed.
End FastIndices.

(** C9 at a failing input.  A window of 1000 by 500 at scale 1 passes
    [vi_process_start_fast] with [hres_raw = 1000] and [vres_raw = 500];
    [vi_process_fast] then runs to the end and one of its stores goes to
    index [PRESCALE_WIDTH * PRESCALE_HEIGHT], one past the last cell of the
    prescale buffer (pixel 0 of line 400). *)
Theorem fast_frame_stores_past_prescale (L : leaf_ops) (st : vi_state) (seed : Z) :
  let cfg := Demo.cfg 1 VI_MODE_COLOR in
  let st1 := snd (vi_process_start_fast Demo.regs_wide st) in
  fst (vi_process_start_fast Demo.regs_wide st) = 1
  /\ st1@hres_raw = 1000 /\ st1@vres_raw = 500
  /\ exists ws seed',
       vi_process_fast L cfg (geometry_of (vars st1)) 0 1 seed = Some (ws, seed')
       /\ In PRESCALE_SIZE (map fst ws).
Proof.
  cbv zeta. split; [vm_compute; reflexivity|].
  split; [vm_compute; reflexivity|]. split; [vm_compute; reflexivity|].
  set (g := geometry_of _).
  assert (Hraw : g_hres_raw g = 1000) by (vm_compute; reflexivity).
  assert (Hvraw : g_vres_raw g = 500) by (vm_compute; reflexivity).
  assert (Hctrl : g_ctrl g = 2) by (vm_compute; reflexivity).
  clearbody g.
  unfold vi_process_fast. cbn [Demo.cfg num_workers Z.eqb negb].
  destruct (fast_lines_indices L (Demo.cfg 1 VI_MODE_COLOR) g) with
    (y_end := g_vres_raw g) (fuel := Z.to_nat (g_vres_raw g - 0)) (y := 0) (seed := seed)
    as (ws & seed' & Hrun & Hin).
  - intros line x. unfold fast_pixel. rewrite Hctrl.
    change (cfg_vi_mode (Demo.cfg 1 VI_MODE_COLOR) =? VI_MODE_COLOR) with true.
    change (Ctrl.type 2 =? VI_TYPE_RGBA5551) with true.
    cbv iota. discriminate.
  - lia.
  - exists ws, seed'. split; [exact Hrun|].
    replace PRESCALE_SIZE with (400 * g_hres_raw g + 0) by (rewrite Hraw; reflexivity).
    apply Hin; lia.
Qed.

(** ** The scanline loop of [vi_process] *)

Lemma bind_some {A B : Type} (m : M A) (f : A -> M B) (l l'' : locals) (b : B) :
  bind m f l = Some (b, l'') ->
  exists a l', m l = Some (a, l') /\ f a l' = Some (b, l'').
Proof.
  unfold bind. destruct (m l) as [ [a l'] | ]; [|discriminate].
  intros H. exists a, l'. auto.
Qed.

Section ScanlineStores.
Variable L : leaf_ops.
Variable g : geometry.

Lemma columns_stores (d yfrac pixels nextpixels fetchstate : Z) (n : nat) :
  forall i x_start seed l ws seed' l',
    columns L g d yfrac pixels nextpixels fetchstate n i x_start seed l
    = Some ((ws, seed'), l') ->
    exists rgbs, List.length rgbs = n /\ ws = line_stores g d i rgbs.
Proof.
  induction n as [|n IH]; intros i x_start seed l ws seed' l' H; cbn [columns] in H.
  - injection H as <- <- <-. exists []. split; reflexivity.
  - apply bind_some in H. destruct H as (color & l1 & _ & H).
    destruct (gamma_filters L seed _ (g_ctrl g)) as [seed1 rgb].
    apply bind_some in H. destruct H as ([ws1 seed2] & l2 & Hrec & H).
    injection H as <- <- <-.
    apply IH in Hrec. destruct Hrec as (rgbs & Hlen & ->).
    exists (rgb :: rgbs). split; [cbn; now rewrite Hlen | reflexivity].
Qed.

Lemma scanline_columns (j seed : Z) (l l' : locals) (ws : list (Z * Z)) (seed' : Z) :
  scanline L g j seed l = Some ((ws, seed'), l') ->
  exists rgbs,
    List.length rgbs = Z.to_nat (g_hres g)
    /\ ws = line_stores g (g_prescale_ptr g + g_linecount g * j) 0 rgbs.
Proof.
  unfold scanline. intros H.
  apply bind_some in H. destruct H as (? & l1 & _ & H).
  apply bind_some in H. destruct H as (fs & l2 & _ & H).
  apply bind_some in H. destruct H as ([ws1 seed1] & l3 & Hcols & H).
  apply bind_some in H. destruct H as (? & l4 & _ & H).
  injection H as <- <- <-.
  eapply columns_stores; eauto.
Qed.

Lemma line_stores_fst (d : Z) (rgbs : list (Z * Z * Z)) :
  forall i,
    map fst (line_stores g d i rgbs)
    = map (fun k => d + (i + Z.of_nat k)) (seq 0 (List.length rgbs)).
Proof.
  induction rgbs as [|rgb rest IH]; intros i; [reflexivity|].
  cbn [line_stores map fst List.length seq]. rewrite IH, <- seq_shift, map_map.
  f_equal; [lia|]. apply map_ext. intros k. rewrite Nat2Z.inj_succ. lia.
Qed.

Lemma line_stores_nth (d : Z) (rgbs : list (Z * Z * Z)) :
  forall i k rgb,
    nth_error rgbs k = Some rgb ->
    nth_error (line_stores g d i rgbs) k
    = Some (d + (i + Z.of_nat k),
            if (g_minhpass g <=? i + Z.of_nat k) && (i + Z.of_nat k <? g_maxhpass g)
            then pack rgb else 0).
Proof.
  induction rgbs as [|r0 rest IH]; intros i k rgb Hk; [destruct k; discriminate|].
  destruct k as [|k]; cbn [nth_error line_stores] in *.
  - injection Hk as ->. now rewrite Z.add_0_r.
  - rewrite (IH _ _ _ Hk).
    replace (i + 1 + Z.of_nat k) with (i + Z.of_nat (S k)) by lia. reflexivity.
Qed.

Lemma line_stores_length (d i : Z) (rgbs : list (Z * Z * Z)) :
  List.length (line_stores g d i rgbs) = List.length rgbs.
Proof. revert i; induction rgbs; intros; cbn; auto. Qed.

(** The stores of the column loop are those of the filtered colours of
    its columns. *)
Lemma columns_rgbs (d yfrac pixels nextpixels fetchstate : Z) (n : nat) :
  forall i x_start seed l ws seed' l',
    columns L g d yfrac pixels nextpixels fetchstate n i x_start seed l
    = Some ((ws, seed'), l') ->
    exists rgbs,
      column_rgbs L g yfrac pixels nextpixels fetchstate n x_start seed l
      = Some (rgbs, l')
      /\ List.length rgbs = n /\ ws = line_stores g d i rgbs.
Proof.
  induction n as [|n IH]; intros i x_start seed l ws seed' l' H;
    cbn [columns column_rgbs] in *.
  - injection H as <- <- <-. exists []. repeat split.
  - apply bind_some in H. destruct H as (color & l1 & Hc & H).
    unfold bind at 1. rewrite Hc.
    destruct (gamma_filters L seed _ (g_ctrl g)) as [seed1 rgb].
    apply bind_some in H. destruct H as ([ws1 seed2] & l2 & Hrec & H).
    injection H as <- <- <-.
    apply IH in Hrec. destruct Hrec as (rgbs & Hr & Hlen & ->).
    exists (rgb :: rgbs). unfold bind. rewrite Hr.
    split; [reflexivity|]. split; [cbn; now rewrite Hlen | reflexivity].
Qed.

Lemma scanline_rgbs_stores (j seed : Z) (l l' : locals) (ws : list (Z * Z))
    (seed' : Z) :
  scanline L g j seed l = Some ((ws, seed'), l') ->
  exists rgbs l1,
    scanline_rgbs L g j seed l = Some (rgbs, l1)
    /\ List.length rgbs = Z.to_nat (g_hres g)
    /\ ws = line_stores g (g_prescale_ptr g + g_linecount g * j) 0 rgbs.
Proof.
  unfold scanline, scanline_rgbs. intros H.
  apply bind_some in H. destruct H as ([] & l1 & Hb & H).
  apply bind_some in H. destruct H as (fs & l2 & Hf & H).
  apply bind_some in H. destruct H as ([ws1 seed1] & l3 & Hcols & H).
  apply bind_some in H. destruct H as (? & l4 & _ & H).
  injection H as <- <- <-.
  apply columns_rgbs in Hcols. destruct Hcols as (rgbs & Hr & Hlen & Hws).
  exists rgbs, l3. unfold bind. rewrite Hb, Hf.
  split; [exact Hr|]. split; assumption.
Qed.
End ScanlineStores.

Lemma start_pass_band (regs : vi_regs) (st : vi_state) :
  truthy (fst (vi_process_start regs st)) = true ->
  let st' := snd (vi_process_start regs st) in
  st'@minhpass = (if start_h_start_clamped regs then 0 else 8)
  /\ st'@maxhpass = (if start_hres_clamped regs then st'@hres else st'@hres - 7).
Proof.
  unfold vi_process_start. start_paths; try discriminate.
  intros _. split; reflexivity.
Qed.

Lemma NoDup_map_offset (d : Z) (n : nat) :
  NoDup (map (fun k => d + Z.of_nat k) (seq 0 n)).
Proof.
  apply NoDup_map_inv with (f := fun z => Z.to_nat (z - d)).
  rewrite map_map. erewrite map_ext; [rewrite map_id; apply seq_NoDup|].
  intros k. cbv beta. lia.
Qed.

(** C4.  In a normal-mode frame that [vi_process_start] lets through, a
    scanline [j] that runs to its end stores once to each of the cells
    [prescale_ptr + j*linecount + i], [i] in [[0, hres)], in this order and
    to no other cell.  With [(r, g, b)] the colour of column [i] after the
    gamma filters (the [i]-th result of [scanline_rgbs], which runs the
    same fetches, divot, interpolation and gamma as the scanline), the value
    stored is [(r << 16) | (g << 8) | b] when [minhpass <= i < maxhpass],
    and 0 otherwise; [minhpass] is 0 if [h_start] was clamped and 8
    otherwise, [maxhpass] is [hres] if [hres] was clamped and [hres - 7]
    otherwise. *)
Theorem scanline_stores_each_column_once (L : leaf_ops) (regs : vi_regs)
    (st : vi_state) (j seed seed' : Z) (l l' : locals) (ws : list (Z * Z)) :
  let st1 := snd (vi_process_start regs st) in
  let g := geometry_of (vars st1) in
  let d := g_prescale_ptr g + g_linecount g * j in
  truthy (fst (vi_process_start regs st)) = true ->
  scanline L g j seed l = Some ((ws, seed'), l') ->
  g_minhpass g = (if start_h_start_clamped regs then 0 else 8)
  /\ g_maxhpass g = (if start_hres_clamped regs then g_hres g else g_hres g - 7)
  /\ map fst ws = map (fun i => d + Z.of_nat i) (seq 0 (Z.to_nat (g_hres g)))
  /\ NoDup (map fst ws)
  /\ exists rgbs l1,
       scanline_rgbs L g j seed l = Some (rgbs, l1)
       /\ List.length rgbs = Z.to_nat (g_hres g)
       /\ forall i r gr b,
            nth_error rgbs i = Some (r, gr, b) ->
            nth_error ws i
            = Some (d + Z.of_nat i,
                    if (g_minhpass g <=? Z.of_nat i) && (Z.of_nat i <? g_maxhpass g)
                    then s32 ((r << 16) .| (gr << 8) .| b) else 0).
Proof.
  intros st1 g d Hgo Hline.
  destruct (start_pass_band regs st Hgo) as [Hmin Hmax].
  apply scanline_rgbs_stores in Hline.
  destruct Hline as (rgbs & l1 & Hrgbs & Hlen & Hws).
  fold d in Hws. subst ws.
  assert (Hfst : map fst (line_stores g d 0 rgbs)
                 = map (fun i => d + Z.of_nat i) (seq 0 (Z.to_nat (g_hres g)))).
  { rewrite line_stores_fst, Hlen. reflexivity. }
  split; [exact Hmin|]. split; [exact Hmax|]. split; [exact Hfst|].
  split; [rewrite Hfst; apply NoDup_map_offset|].
  exists rgbs, l1. split; [exact Hrgbs|]. split; [exact Hlen|].
  intros i r gr b Hi. rewrite (line_stores_nth g d rgbs 0 i (r, gr, b) Hi).
  reflexivity.
Qed.

(** Scanline 1 of the frame [Demo.regs 6] (type 2 with the dither on): 16
    stores to cells 640..655, column 8 being the only one inside the pass
    band; its colour after the filters is (0x28, 1, 0), the 1 being the
    dither's, and the cell gets 0x280100. *)
Lemma scanline_stores_each_column_once_witness :
  exists ws seed' l',
    scanline Demo.ops (geometry_of (vars (snd (vi_process_start (Demo.regs 6) Demo.st0))))
      1 1 fresh_locals = Some ((ws, seed'), l')
    /\ map fst ws = map (fun i => 640 + Z.of_nat i) (seq 0 16)
    /\ nth_error ws 8 = Some (648, 0x280100)
    /\ exists rgbs l1,
         scanline_rgbs Demo.ops
           (geometry_of (vars (snd (vi_process_start (Demo.regs 6) Demo.st0))))
           1 1 fresh_locals = Some (rgbs, l1)
         /\ nth_error rgbs 8 = Some (0x28, 1, 0)
         /\ nth_error ws 8 = Some (648, s32 ((0x28 << 16) .| (1 << 8) .| 0)).
Proof.
  destruct (scanline Demo.ops
              (geometry_of (vars (snd (vi_process_start (Demo.regs 6) Demo.st0))))
              1 1 fresh_locals) as [ [ [ws seed'] l'] | ] eqn:E;
    [|vm_compute in E; discriminate E].
  exists ws, seed', l'. split; [reflexivity|].
  pose proof (scanline_stores_each_column_once Demo.ops (Demo.regs 6) Demo.st0
                1 1 seed' fresh_locals l' ws) as H.
  cbv zeta in H. specialize (H ltac:(vm_compute; reflexivity) E).
  destruct H as (_ & _ & Hfst & _ & rgbs & l1 & Hrgbs & _ & Hnth).
  split; [rewrite Hfst; vm_compute; reflexivity|].
  split; [vm_compute in E; injection E as <- _ _; reflexivity|].
  exists rgbs, l1. split; [exact Hrgbs|].
  assert (H8 : nth_error rgbs 8 = Some (0x28, 1, 0))
    by (vm_compute in Hrgbs; injection Hrgbs as <- _; reflexivity).
  split; [exact H8|].
  rewrite (Hnth 8%nat _ _ _ H8). vm_compute. reflexivity.
Defined.

(** ** The cache discipline of the column loop *)

Lemma check_trace_app (gs : ghost) (t t' : list cache_event) :
  check_trace gs (t ++ t')
  = match check_trace gs t with
    | Some gs' => check_trace gs' t'
    | None => None
    end.
Proof.
  revert gs. induction t as [|e t IH]; intros gs; cbn [app check_trace]; auto.
  destruct (check_event gs e); auto.
Qed.

Lemma cache_id_eqb_eq (a b : cache_id) : cache_id_eqb a b = true <-> a = b.
Proof. destruct a, b; cbn; split; congruence. Qed.



Lemma same_but_refl (c : cache_id) (gs : ghost) : same_but c gs gs.
Proof. intros c' _. auto. Qed.

Lemma same_but_trans (c : cache_id) (a b d : ghost) :
  same_but c a b -> same_but c b d -> same_but c a d.
Proof.
  intros H1 H2 c' Hc. destruct (H1 c' Hc) as [M1 F1], (H2 c' Hc) as [M2 F2].
  split; [congruence|]. intros col. now rewrite F2, F1.
Qed.

Lemma same_but_contig (c c' : cache_id) (lo : Z) (gs gs' : ghost) :
  same_but c gs gs' -> c' <> c -> contig lo c' gs -> contig lo c' gs'.
Proof.
  intros Hs Hc Hcon col Hcol. destruct (Hs c' Hc) as [Hm Hf].
  rewrite Hf. apply Hcon. now rewrite <- Hm.
Qed.

Lemma same_but_mark (c : cache_id) (v : Z) (gs : ghost) :
  same_but c gs (gs_mark c v gs).
Proof.
  intros c' Hc. cbn. split; auto.
  destruct (cache_id_eqb c c') eqn:E; auto.
  apply cache_id_eqb_eq in E. congruence.
Qed.

Lemma same_but_fill (c : cache_id) (col : Z) (gs : ghost) :
  same_but c gs (gs_fill c col gs).
Proof.
  intros c' Hc. cbn. split; auto. intros col'.
  destruct (cache_id_eqb c c') eqn:E; auto.
  apply cache_id_eqb_eq in E. congruence.
Qed.

Lemma filled_fill_same (c : cache_id) (col : Z) (gs : ghost) :
  gh_filled (gs_fill c col gs) c col = true.
Proof.
  cbn. replace (cache_id_eqb c c) with true by (now destruct c).
  now rewrite Z.eqb_refl.
Qed.

Lemma filled_fill_mono (c c' : cache_id) (col col' : Z) (gs : ghost) :
  gh_filled gs c' col' = true -> gh_filled (gs_fill c col gs) c' col' = true.
Proof. intros H. cbn. rewrite H. now destruct (_ && _). Qed.

Lemma marker_mark_same (c : cache_id) (v : Z) (gs : ghost) :
  gh_marker (gs_mark c v gs) c = v.
Proof. cbn. now destruct c. Qed.

Section Discipline.
Variable L : leaf_ops.
Variable g : geometry.
(** The trace and the checker state where the column loop is entered. *)
Variable t0 : list cache_event.
Variable gs0 : ghost.

Local Abbreviation tracked := (tracked_since t0 gs0).


Lemma store_tracked (c : cache_id) (i : Z) (v : ccvg) (gs : ghost) (l l' : locals) :
  tracked gs l -> store c i v l = Some (tt, l') ->
  tracked (gs_fill c i gs) l'.
Proof.
  intros (t & Ht & Hc & Hm). unfold store.
  destruct (in_array _); [|discriminate]. intros H; injection H as <-.
  exists (t ++ [Fill c i]). split; [|split].
  - cbn [trace record with_cell with_marker]. rewrite Ht. now rewrite app_assoc.
  - rewrite check_trace_app, Hc. reflexivity.
  - intros c'. cbn [gs_fill gh_marker]. rewrite Hm. now destruct c, c'.
Qed.

Lemma set_marker_tracked (c : cache_id) (v : Z) (gs : ghost) (l l' : locals) :
  tracked gs l -> gh_marker gs c <= v -> set_marker c v l = Some (tt, l') ->
  tracked (gs_mark c v gs) l'.
Proof.
  intros (t & Ht & Hc & Hm) Hle. unfold set_marker. intros H; injection H as <-.
  exists (t ++ [Mark c v]). split; [|split].
  - cbn [trace record with_cell with_marker]. rewrite Ht. now rewrite app_assoc.
  - rewrite check_trace_app, Hc. cbn [check_trace check_event].
    apply Z.leb_le in Hle. now rewrite Hle.
  - intros c'. cbn [gs_mark gh_marker]. rewrite Hm. now destruct c, c'.
Qed.

Lemma load_tracked (c : cache_id) (i : Z) (v : ccvg) (gs : ghost) (l l' : locals) :
  tracked gs l -> gh_filled gs c i = true -> i <= gh_marker gs c ->
  load c i l = Some (v, l') ->
  tracked gs l'.
Proof.
  intros (t & Ht & Hc & Hm) Hf Hle. unfold load.
  destruct (in_array _); [|discriminate].
  destruct (array c l _); [|discriminate]. intros H; injection H as _ <-.
  exists (t ++ [Read c i]). split; [|split].
  - cbn [trace record with_cell with_marker]. rewrite Ht. now rewrite app_assoc.
  - rewrite check_trace_app, Hc. cbn [check_trace check_event].
    apply Z.leb_le in Hle. now rewrite Hf, Hle.
  - intros c'. rewrite Hm. now destruct c'.
Qed.

Lemma get_marker_tracked (c : cache_id) (m : Z) (gs : ghost) (l l' : locals) :
  tracked gs l -> get_marker c l = Some (m, l') -> l' = l /\ m = gh_marker gs c.
Proof.
  intros (t & Ht & Hc & Hm). unfold get_marker. intros H; injection H as <- <-.
  split; [reflexivity|]. now rewrite Hm.
Qed.

(** A fetch into [c[i] ]. *)
Lemma fetch_tracked (c : cache_id) (i x fs : Z) (gs : ghost) (l l' : locals) :
  tracked gs l -> fetch L g c i x fs l = Some (tt, l') ->
  tracked (gs_fill c i gs) l'.
Proof. unfold fetch. apply store_tracked. Qed.


Lemma filled_fill (c : cache_id) (i col : Z) (gs : ghost) :
  col = i \/ gh_filled gs c col = true ->
  gh_filled (gs_fill c i gs) c col = true.
Proof.
  intros [->|H]; [apply filled_fill_same | now apply filled_fill_mono].
Qed.

(** Lines 531-548 and 550-567: afterwards the window [p .. p + 2] of [c]
    is written and the marker is at least [p + 2]. *)
Lemma fill_window_tracked (c : cache_id) (p px cx nx fs : Z) (gs : ghost)
    (l l' : locals) :
  tracked gs l -> contig p c gs ->
  fill_window L g c p (p + 1) (p + 2) px cx nx fs l = Some (tt, l') ->
  exists gs',
    tracked gs' l' /\ contig p c gs' /\ p + 2 <= gh_marker gs' c
    /\ same_but c gs gs'.
Proof.
  intros Ht Hcon H. unfold fill_window in H.
  apply bind_some in H. destruct H as (m & l0 & Hget & H).
  destruct (get_marker_tracked _ _ _ _ _ Ht Hget) as [-> ->].
  destruct (p >? gh_marker gs c) eqn:E1;
    [|destruct (p + 1 >? gh_marker gs c) eqn:E2;
      [|destruct (p + 2 >? gh_marker gs c) eqn:E3] ]; bool_hyps.
  - apply bind_some in H. destruct H as ([] & l1 & H1 & H).
    apply bind_some in H. destruct H as ([] & l2 & H2 & H).
    apply bind_some in H. destruct H as ([] & l3 & H3 & H).
    pose proof (fetch_tracked _ _ _ _ _ _ _ Ht H1) as T1.
    pose proof (fetch_tracked _ _ _ _ _ _ _ T1 H2) as T2.
    pose proof (fetch_tracked _ _ _ _ _ _ _ T2 H3) as T3.
    eexists. split; [|split; [|split] ].
    + eapply set_marker_tracked; [exact T3| |exact H]. cbn. lia.
    + intros col Hcol. rewrite marker_mark_same in Hcol.
      cbn [gs_mark gh_filled].
      apply filled_fill. destruct (Z.eq_dec col (p + 2)); [now left|right].
      apply filled_fill. destruct (Z.eq_dec col (p + 1)); [now left|right].
      apply filled_fill. left. lia.
    + rewrite marker_mark_same. lia.
    + repeat (eapply same_but_trans; [|apply same_but_mark || apply same_but_fill]).
      apply same_but_refl.
  - apply bind_some in H. destruct H as ([] & l2 & H2 & H).
    apply bind_some in H. destruct H as ([] & l3 & H3 & H).
    pose proof (fetch_tracked _ _ _ _ _ _ _ Ht H2) as T2.
    pose proof (fetch_tracked _ _ _ _ _ _ _ T2 H3) as T3.
    eexists. split; [|split; [|split] ].
    + eapply set_marker_tracked; [exact T3| |exact H]. cbn. lia.
    + intros col Hcol. rewrite marker_mark_same in Hcol.
      cbn [gs_mark gh_filled].
      apply filled_fill. destruct (Z.eq_dec col (p + 2)); [now left|right].
      apply filled_fill. destruct (Z.eq_dec col (p + 1)); [now left|right].
      apply Hcon. lia.
    + rewrite marker_mark_same. lia.
    + repeat (eapply same_but_trans; [|apply same_but_mark || apply same_but_fill]).
      apply same_but_refl.
  - apply bind_some in H. destruct H as ([] & l3 & H3 & H).
    pose proof (fetch_tracked _ _ _ _ _ _ _ Ht H3) as T3.
    eexists. split; [|split; [|split] ].
    + eapply set_marker_tracked; [exact T3| |exact H]. cbn. lia.
    + intros col Hcol. rewrite marker_mark_same in Hcol.
      cbn [gs_mark gh_filled].
      apply filled_fill. destruct (Z.eq_dec col (p + 2)); [now left|right].
      apply Hcon. lia.
    + rewrite marker_mark_same. lia.
    + repeat (eapply same_but_trans; [|apply same_but_mark || apply same_but_fill]).
      apply same_but_refl.
  - injection H as <-. exists gs. split; [exact Ht|]. split; [exact Hcon|].
    split; [lia|apply same_but_refl].
Qed.

(** Lines 571-575 and 577-581. *)
Lemma fill_far_tracked (c : cache_id) (p fx fs : Z) (gs : ghost) (l l' : locals) :
  tracked gs l -> contig p c gs -> p + 2 <= gh_marker gs c ->
  fill_far L g c (p + 3) fx fs l = Some (tt, l') ->
  exists gs',
    tracked gs' l' /\ contig p c gs' /\ p + 3 <= gh_marker gs' c
    /\ same_but c gs gs'.
Proof.
  intros Ht Hcon Hm H. unfold fill_far in H.
  apply bind_some in H. destruct H as (m & l0 & Hget & H).
  destruct (get_marker_tracked _ _ _ _ _ Ht Hget) as [-> ->].
  destruct (p + 3 >? gh_marker gs c) eqn:E; bool_hyps.
  - apply bind_some in H. destruct H as ([] & l1 & H1 & H).
    pose proof (fetch_tracked _ _ _ _ _ _ _ Ht H1) as T1.
    eexists. split; [|split; [|split] ].
    + eapply set_marker_tracked; [exact T1| |exact H]. cbn. lia.
    + intros col Hcol. rewrite marker_mark_same in Hcol.
      cbn [gs_mark gh_filled].
      apply filled_fill. destruct (Z.eq_dec col (p + 3)); [now left|right].
      apply Hcon. lia.
    + rewrite marker_mark_same. lia.
    + repeat (eapply same_but_trans; [|apply same_but_mark || apply same_but_fill]).
      apply same_but_refl.
  - injection H as <-. exists gs. split; [exact Ht|]. split; [exact Hcon|].
    split; [lia|apply same_but_refl].
Qed.

Lemma divot_at_tracked (d c : cache_id) (i center left right : Z) (gs : ghost)
    (l l' : locals) :
  tracked gs l ->
  (forall col, col = center \/ col = left \/ col = right ->
     gh_filled gs c col = true /\ col <= gh_marker gs c) ->
  divot_at L d c i center left right l = Some (tt, l') ->
  tracked (gs_fill d i gs) l'.
Proof.
  intros Ht Hr H. unfold divot_at in H.
  apply bind_some in H. destruct H as (vc & l1 & H1 & H).
  apply bind_some in H. destruct H as (vl & l2 & H2 & H).
  apply bind_some in H. destruct H as (vr & l3 & H3 & H).
  destruct (Hr center) as [Fc Mc]; auto.
  destruct (Hr left) as [Fl Ml]; auto.
  destruct (Hr right) as [Fr Mr]; auto.
  pose proof (load_tracked _ _ _ _ _ _ Ht Fc Mc H1) as T1.
  pose proof (load_tracked _ _ _ _ _ _ T1 Fl Ml H2) as T2.
  pose proof (load_tracked _ _ _ _ _ _ T2 Fr Mr H3) as T3.
  eapply store_tracked; eauto.
Qed.

(** Lines 583-593 and 595-605: [d] is the divot cache of the row whose
    fetched samples are in [c]. *)
Lemma fill_divot_tracked (d c : cache_id) (p : Z) (gs : ghost) (l l' : locals) :
  d <> c ->
  tracked gs l -> contig p c gs -> p + 3 <= gh_marker gs c ->
  contig (p + 1) d gs ->
  fill_divot L d c p (p + 1) (p + 2) (p + 3) l = Some (tt, l') ->
  exists gs',
    tracked gs' l' /\ contig (p + 1) d gs' /\ p + 2 <= gh_marker gs' d
    /\ same_but d gs gs'.
Proof.
  intros Hdc Ht Hc Hm Hd H. unfold fill_divot in H.
  apply bind_some in H. destruct H as (m & l0 & Hget & H).
  destruct (get_marker_tracked _ _ _ _ _ Ht Hget) as [-> ->].
  assert (Hsrc : forall col, p <= col <= p + 3 ->
                   gh_filled gs c col = true /\ col <= gh_marker gs c).
  { intros col Hcol. split; [apply Hc|]; lia. }
  destruct (p + 1 >? gh_marker gs d) eqn:E1;
    [|destruct (p + 2 >? gh_marker gs d) eqn:E2]; bool_hyps.
  - apply bind_some in H. destruct H as ([] & l1 & H1 & H).
    apply bind_some in H. destruct H as ([] & l2 & H2 & H).
    assert (T1 : tracked (gs_fill d (p + 1) gs) l1).
    { eapply divot_at_tracked; [exact Ht| |exact H1].
      intros col Hcol. apply Hsrc. lia. }
    assert (T2 : tracked (gs_fill d (p + 2) (gs_fill d (p + 1) gs)) l2).
    { eapply divot_at_tracked; [exact T1| |exact H2].
      intros col Hcol. destruct (Hsrc col ltac:(lia)) as [Hf Hle].
      split; [now apply filled_fill_mono | exact Hle]. }
    eexists. split; [|split; [|split] ].
    + eapply set_marker_tracked; [exact T2| |exact H]. cbn. lia.
    + intros col Hcol. rewrite marker_mark_same in Hcol.
      cbn [gs_mark gh_filled].
      apply filled_fill. destruct (Z.eq_dec col (p + 2)); [now left|right].
      apply filled_fill. left. lia.
    + rewrite marker_mark_same. lia.
    + repeat (eapply same_but_trans; [|apply same_but_mark || apply same_but_fill]).
      apply same_but_refl.
  - apply bind_some in H. destruct H as ([] & l2 & H2 & H).
    assert (T2 : tracked (gs_fill d (p + 2) gs) l2).
    { eapply divot_at_tracked; [exact Ht| |exact H2].
      intros col Hcol. apply Hsrc. lia. }
    eexists. split; [|split; [|split] ].
    + eapply set_marker_tracked; [exact T2| |exact H]. cbn. lia.
    + intros col Hcol. rewrite marker_mark_same in Hcol.
      cbn [gs_mark gh_filled].
      apply filled_fill. destruct (Z.eq_dec col (p + 2)); [now left|right].
      apply Hd. lia.
    + rewrite marker_mark_same. lia.
    + repeat (eapply same_but_trans; [|apply same_but_mark || apply same_but_fill]).
      apply same_but_refl.
  - injection H as <-. exists gs. split; [exact Ht|]. split; [exact Hd|].
    split; [lia|apply same_but_refl].
Qed.


Lemma contig_from (lo lo' : Z) (c : cache_id) (gs : ghost) :
  lo <= lo' -> contig lo c gs -> contig lo' c gs.
Proof. intros Hle H col Hcol. apply H. lia. Qed.


Lemma window_inv_from (p p' : Z) (gs : ghost) :
  p <= p' -> window_inv g p gs -> window_inv g p' gs.
Proof.
  intros Hle (Ha & Hb & Hd). split; [|split].
  - eapply contig_from; eauto.
  - eapply contig_from; eauto.
  - intros Hdiv. destruct (Hd Hdiv). split; eapply contig_from; eauto; lia.
Qed.

Lemma column_color_tracked (yfrac pixels nextpixels fs x_start : Z) (gs : ghost)
    (l l' : locals) (v : ccvg) :
  tracked gs l -> window_inv g (x_start >> 10) gs ->
  column_color L g yfrac pixels nextpixels fs x_start l = Some (v, l') ->
  exists gs', tracked gs' l' /\ window_inv g (x_start >> 10) gs'.
Proof.
  intros Ht (Ha & Hb & Hd) H. unfold column_color in H. cbv zeta in H.
  set (p := x_start >> 10) in *.
  replace (p - 1 + 1) with p in H by lia.
  replace (p + 1 + 1) with (p + 2) in H by lia.
  replace (p + 2 + 1) with (p + 3) in H by lia.
  apply bind_some in H. destruct H as ([] & l1 & H1 & H).
  destruct (fill_window_tracked _ _ _ _ _ _ _ _ _ Ht Ha H1)
    as (gs1 & T1 & Ca1 & Ma1 & S1).
  assert (Cb1 : contig p ViaaNext gs1)
    by (eapply same_but_contig; eauto; discriminate).
  apply bind_some in H. destruct H as ([] & l2 & H2 & H).
  destruct (fill_window_tracked _ _ _ _ _ _ _ _ _ T1 Cb1 H2)
    as (gs2 & T2 & Cb2 & Mb2 & S2).
  assert (Ca2 : contig p Viaa gs2)
    by (eapply same_but_contig; eauto; discriminate).
  assert (Ma2 : p + 2 <= gh_marker gs2 Viaa)
    by (destruct (S2 Viaa ltac:(discriminate)) as [-> _]; exact Ma1).
  apply bind_some in H. destruct H as (color & l3 & H3 & H).
  destruct (truthy (Ctrl.divot_enable (g_ctrl g))) eqn:Hdiv.
  - destruct (Hd eq_refl) as [Cd Cdn].
    assert (Cd2 : contig (p + 1) Divot gs2).
    { eapply same_but_contig; [exact S2|discriminate|].
      eapply same_but_contig; [exact S1|discriminate|exact Cd]. }
    assert (Cdn2 : contig (p + 1) DivotNext gs2).
    { eapply same_but_contig; [exact S2|discriminate|].
      eapply same_but_contig; [exact S1|discriminate|exact Cdn]. }
    apply bind_some in H3. destruct H3 as ([] & l4 & H4 & H3).
    destruct (fill_far_tracked _ _ _ _ _ _ _ T2 Ca2 Ma2 H4)
      as (gs4 & T4 & Ca4 & Ma4 & S4).
    assert (Cb4 : contig p ViaaNext gs4)
      by (eapply same_but_contig; eauto; discriminate).
    assert (Mb4 : p + 2 <= gh_marker gs4 ViaaNext)
      by (destruct (S4 ViaaNext ltac:(discriminate)) as [-> _]; exact Mb2).
    apply bind_some in H3. destruct H3 as ([] & l5 & H5 & H3).
    destruct (fill_far_tracked _ _ _ _ _ _ _ T4 Cb4 Mb4 H5)
      as (gs5 & T5 & Cb5 & Mb5 & S5).
    assert (Ca5 : contig p Viaa gs5)
      by (eapply same_but_contig; eauto; discriminate).
    assert (Ma5 : p + 3 <= gh_marker gs5 Viaa)
      by (destruct (S5 Viaa ltac:(discriminate)) as [-> _]; exact Ma4).
    assert (Cd5 : contig (p + 1) Divot gs5).
    { eapply same_but_contig; [exact S5|discriminate|].
      eapply same_but_contig; [exact S4|discriminate|exact Cd2]. }
    assert (Cdn5 : contig (p + 1) DivotNext gs5).
    { eapply same_but_contig; [exact S5|discriminate|].
      eapply same_but_contig; [exact S4|discriminate|exact Cdn2]. }
    apply bind_some in H3. destruct H3 as ([] & l6 & H6 & H3).
    destruct (fill_divot_tracked Divot Viaa _ _ _ _ ltac:(discriminate)
                T5 Ca5 Ma5 Cd5 H6) as (gs6 & T6 & Cd6 & Md6 & S6).
    assert (Ca6 : contig p Viaa gs6)
      by (eapply same_but_contig; eauto; discriminate).
    assert (Cb6 : contig p ViaaNext gs6)
      by (eapply same_but_contig; eauto; discriminate).
    assert (Mb6 : p + 3 <= gh_marker gs6 ViaaNext)
      by (destruct (S6 ViaaNext ltac:(discriminate)) as [-> _]; exact Mb5).
    assert (Cdn6 : contig (p + 1) DivotNext gs6)
      by (eapply same_but_contig; eauto; discriminate).
    apply bind_some in H3. destruct H3 as ([] & l7 & H7 & H3).
    destruct (fill_divot_tracked DivotNext ViaaNext _ _ _ _ ltac:(discriminate)
                T6 Cb6 Mb6 Cdn6 H7) as (gs7 & T7 & Cdn7 & Mdn7 & S7).
    assert (Ca7 : contig p Viaa gs7)
      by (eapply same_but_contig; eauto; discriminate).
    assert (Cb7 : contig p ViaaNext gs7)
      by (eapply same_but_contig; eauto; discriminate).
    assert (Cd7 : contig (p + 1) Divot gs7)
      by (eapply same_but_contig; eauto; discriminate).
    assert (Md7 : p + 2 <= gh_marker gs7 Divot)
      by (destruct (S7 Divot ltac:(discriminate)) as [-> _]; exact Md6).
    assert (T8 : tracked gs7 l3).
    { eapply load_tracked; [exact T7| | |exact H3]; [apply Cd7|]; lia. }
    exists gs7. split.
    + destruct (negb _ && _).
      * apply bind_some in H. destruct H as (c1 & l8 & H8 & H).
        apply bind_some in H. destruct H as (c2 & l9 & H9 & H).
        apply bind_some in H. destruct H as (c3 & l10 & H10 & H).
        injection H as _ <-.
        eapply load_tracked; [| | |exact H10]; [|apply Cdn7|]; try lia.
        eapply load_tracked; [| | |exact H9]; [|apply Cdn7|]; try lia.
        eapply load_tracked; [| | |exact H8]; [|apply Cd7|]; try lia.
        exact T8.
      * injection H as _ <-. exact T8.
    + split; [exact Ca7|]. split; [exact Cb7|]. intros _. split; assumption.
  - assert (T3 : tracked gs2 l3).
    { eapply load_tracked; [exact T2| | |exact H3]; [apply Ca2|]; lia. }
    exists gs2. split.
    + destruct (negb _ && _).
      * apply bind_some in H. destruct H as (c1 & l8 & H8 & H).
        apply bind_some in H. destruct H as (c2 & l9 & H9 & H).
        apply bind_some in H. destruct H as (c3 & l10 & H10 & H).
        injection H as _ <-.
        eapply load_tracked; [| | |exact H10]; [|apply Cb2|]; try lia.
        eapply load_tracked; [| | |exact H9]; [|apply Cb2|]; try lia.
        eapply load_tracked; [| | |exact H8]; [|apply Ca2|]; try lia.
        exact T3.
      * injection H as _ <-. exact T3.
    + split; [exact Ca2|]. split; [exact Cb2|]. intros Hd'. congruence.
Qed.

Lemma shiftr10_mono (a b : Z) : a <= b -> a >> 10 <= b >> 10.
Proof.
  intros H. rewrite !Z.shiftr_div_pow2 by lia. apply Z.div_le_mono; lia.
Qed.

(** The column loop keeps the discipline as long as [x_start] does not
    wrap. *)
Lemma columns_tracked (d yfrac pixels nextpixels fs : Z) (n : nat) :
  forall i x_start seed gs l r l',
    tracked gs l -> window_inv g (x_start >> 10) gs ->
    0 <= x_start -> 0 <= g_x_add g ->
    x_start + Z.of_nat n * g_x_add g < 2 ^ 32 ->
    columns L g d yfrac pixels nextpixels fs n i x_start seed l = Some (r, l') ->
    exists gs', tracked gs' l'.
Proof.
  induction n as [|n IH]; intros i x_start seed gs l r l' Ht Hinv Hx Ha Hb H;
    cbn [columns] in H.
  - injection H as _ <-. eauto.
  - apply bind_some in H. destruct H as (color & l1 & H1 & H).
    destruct (column_color_tracked _ _ _ _ _ _ _ _ _ Ht Hinv H1) as (gs1 & T1 & I1).
    destruct (gamma_filters L seed _ (g_ctrl g)) as [seed1 rgb].
    apply bind_some in H. destruct H as ([ws1 seed2] & l2 & Hrec & H).
    injection H as _ <-.
    assert (Hu : u32 (x_start + g_x_add g) = x_start + g_x_add g).
    { unfold u32. apply Z.mod_small. nia. }
    rewrite Hu in Hrec.
    eapply IH; [exact T1| | | | |exact Hrec]; try lia; try nia.
    eapply window_inv_from; [|exact I1]. apply shiftr10_mono. lia.
Qed.

End Discipline.

Lemma line_begin_spec (g : geometry) (l : locals) :
  exists l1,
    line_begin g l = Some (tt, l1)
    /\ trace l1 = trace l ++ begin_marks g
    /\ marker Viaa l1 = cache_marker_init g
    /\ marker ViaaNext l1 = cache_marker_init g
    /\ (truthy (Ctrl.divot_enable (g_ctrl g)) = true ->
        marker Divot l1 = cache_marker_init g
        /\ marker DivotNext l1 = cache_marker_init g).
Proof.
  unfold line_begin, begin_marks, bind, set_marker, ret.
  destruct (truthy (Ctrl.divot_enable (g_ctrl g))) eqn:E.
  - eexists. split; [reflexivity|].
    cbn [trace record with_marker marker cache_marker cache_next_marker
           divot_cache_marker divot_cache_next_marker].
    rewrite <- !app_assoc. repeat split; reflexivity.
  - eexists. split; [reflexivity|].
    cbn [trace record with_marker marker cache_marker cache_next_marker
           divot_cache_marker divot_cache_next_marker].
    rewrite <- !app_assoc. repeat split; try reflexivity; discriminate.
Qed.

Lemma next_fetchbugstate_spec (g : geometry) (j fs : Z) (l l' : locals) :
  next_fetchbugstate g j l = Some (fs, l') ->
  trace l' = trace l /\ forall c, marker c l' = marker c l.
Proof.
  unfold next_fetchbugstate. intros H; injection H as _ <-.
  split; [reflexivity|]. intros c; now destruct c.
Qed.

Lemma line_end_spec (g : geometry) (l l' : locals) :
  line_end g l = Some (tt, l') ->
  exists t_end, trace l' = trace l ++ t_end /\ forallb is_mark t_end = true.
Proof.
  unfold line_end, bind, set_marker, get_marker, ret.
  destruct (negb (cache_init l) && (g_y_add g =? 1024)).
  - destruct (truthy (Ctrl.divot_enable (g_ctrl g))); intros H; injection H as <-;
      cbn [trace record with_marker with_cache_init swap_viaa swap_divot];
      rewrite <- ?app_assoc; eexists; split; try reflexivity; reflexivity.
  - intros H; injection H as <-. exists []. now rewrite app_nil_r.
Qed.

Lemma start_scale_bounds (regs : vi_regs) (st : vi_state) :
  let st' := snd (vi_process_start regs st) in
  0 <= st'@x_add <= 4095
  /\ 0 <= st'@x_start_init <= 4095 + 4095 * 128
  /\ st'@hres <= 640.
Proof.
  pose proof (land_bounds (rd regs VI_X_SCALE) 0xfff ltac:(lia)) as Ha.
  pose proof (land_bounds (rd regs VI_X_SCALE >> 16) 0xfff ltac:(lia)) as Hs.
  pose proof (land_bounds (rd regs VI_H_START >> 16) 0x3ff ltac:(lia)) as Hh.
  unfold_start. start_paths.
  all: unfold PRESCALE_WIDTH, H_RES_NTSC in *.
  all: set (xa := rd regs VI_X_SCALE .& 4095) in *.
  all: set (xs := rd regs VI_X_SCALE >> 16 .& 4095) in *.
  all: set (hs := rd regs VI_H_START >> 16 .& 1023) in *.
  all: split; [exact Ha|]; split.
  all: repeat case_if; bool_hyps; unfold u32; try lia.
  all: try (rewrite Z.mod_small; nia).
Qed.

Lemma s32_small (z : Z) : - 2 ^ 31 <= z < 2 ^ 31 -> s32 z = z.
Proof. intros H. unfold s32. rewrite Z.mod_small; lia. Qed.

(** C6.  For every frame geometry that [vi_process_start] can leave, the
    accesses of a scanline that runs to its end are: the marker resets of
    lines 490-492, then the accesses of the column loop, then marker
    assignments only (the swap of lines 646-663).  From the reset on, the
    column loop never lowers one of the four markers, and it reads a cache
    entry only after it has written that entry in this scanline and raised
    the cache's marker to the entry's column or above. *)
Theorem scanline_cache_discipline (L : leaf_ops) (regs : vi_regs) (st : vi_state)
    (j seed : Z) (l l' : locals) (r : list (Z * Z) * Z) :
  let g := geometry_of (vars (snd (vi_process_start regs st))) in
  scanline L g j seed l = Some (r, l') ->
  exists l_begin t_columns t_end,
    line_begin g l = Some (tt, l_begin)
    /\ trace l' = trace l ++ begin_marks g ++ t_columns ++ t_end
    /\ trace_ok (fun c => marker c l_begin) t_columns = true
    /\ forallb is_mark t_end = true.
Proof.
  intros g H.
  destruct (start_scale_bounds regs st) as (Hadd & Hinit & Hres).
  change ((snd (vi_process_start regs st))@x_add) with (g_x_add g) in Hadd.
  change ((snd (vi_process_start regs st))@x_start_init) with (g_x_start_init g) in Hinit.
  change ((snd (vi_process_start regs st))@hres) with (g_hres g) in Hres.
  clearbody g.
  unfold scanline in H.
  apply bind_some in H. destruct H as ([] & l1 & H1 & H).
  apply bind_some in H. destruct H as (fs & l2 & H2 & H).
  apply bind_some in H. destruct H as (r1 & l3 & H3 & H).
  apply bind_some in H. destruct H as ([] & l4 & H4 & H).
  injection H as _ <-.
  destruct (line_begin_spec g l) as (l1' & Hb & Htr1 & Ma & Mb & Md).
  rewrite Hb in H1. injection H1 as ->.
  destruct (next_fetchbugstate_spec _ _ _ _ _ H2) as [Htr2 Hm2].
  destruct (line_end_spec _ _ _ H4) as (t_end & Htr4 & Hend).
  set (gs0 := {| gh_marker := fun c => marker c l1; gh_filled := fun _ _ => false |}).
  assert (Hp : cache_marker_init g = (g_x_start_init g >> 10) - 1).
  { unfold cache_marker_init. apply s32_small.
    pose proof (shiftr10_mono 0 (g_x_start_init g) ltac:(lia)).
    pose proof (shiftr10_mono (g_x_start_init g) (4095 + 4095 * 128) ltac:(lia)).
    change (0 >> 10) with 0 in *. change ((4095 + 4095 * 128) >> 10) with 515 in *.
    lia. }
  assert (Hcols : exists gs', tracked_since (trace l2) gs0 gs' l3).
  { eapply (columns_tracked L g (trace l2) gs0) with (gs := gs0);
      [ | | | | |exact H3].
    - exists []. split; [now rewrite app_nil_r|]. split; [reflexivity|].
      intros c. cbn. now rewrite Hm2.
    - split; [|split].
      + intros col Hcol. change (gh_marker gs0 Viaa) with (marker Viaa l1) in Hcol.
        rewrite Ma, Hp in Hcol. lia.
      + intros col Hcol. change (gh_marker gs0 ViaaNext) with (marker ViaaNext l1) in Hcol.
        rewrite Mb, Hp in Hcol. lia.
      + intros Hdiv. destruct (Md Hdiv) as [M1 M2].
        split; intros col Hcol.
        * change (gh_marker gs0 Divot) with (marker Divot l1) in Hcol.
          rewrite M1, Hp in Hcol. lia.
        * change (gh_marker gs0 DivotNext) with (marker DivotNext l1) in Hcol.
          rewrite M2, Hp in Hcol. lia.
    - lia.
    - lia.
    - nia. }
  destruct Hcols as (gs' & t & Ht & Hc & _).
  exists l1, t, t_end. split; [exact Hb|]. split; [|split].
  - rewrite Htr4, Ht, Htr2, Htr1. now rewrite <- !app_assoc.
  - unfold trace_ok. fold gs0. now rewrite Hc.
  - exact Hend.
Qed.

(** Scanline 0 of a frame with the divot filter on. *)
Lemma scanline_cache_discipline_witness :
  let g := geometry_of (vars (snd (vi_process_start (Demo.regs 0x12) Demo.st0))) in
  exists r l' l_begin t_columns t_end,
    scanline Demo.ops g 0 1 fresh_locals = Some (r, l')
    /\ line_begin g fresh_locals = Some (tt, l_begin)
    /\ trace l' = trace fresh_locals ++ begin_marks g ++ t_columns ++ t_end
    /\ trace_ok (fun c => marker c l_begin) t_columns = true
    /\ forallb is_mark t_end = true.
Proof.
  intros g.
  destruct (scanline Demo.ops g 0 1 fresh_locals) as [ [r l'] | ] eqn:E;
    [|vm_compute in E; discriminate E].
  destruct (scanline_cache_discipline Demo.ops (Demo.regs 0x12) Demo.st0 0 1
              fresh_locals l' r E) as (lb & tc & te & H).
  exists r, l', lb, tc, te. split; [reflexivity|exact H].
Defined.

(** The checker is not vacuous: it rejects a read of a column that was
    never written, a read above the marker, and a lowered marker. *)
Lemma trace_ok_rejects :
  trace_ok (fun _ => 0) [Read Viaa 0] = false
  /\ trace_ok (fun _ => 0) [Fill Viaa 1; Read Viaa 1] = false
  /\ trace_ok (fun _ => 5) [Mark Viaa 4] = false
  /\ trace_ok (fun _ => 0) [Fill Viaa 1; Mark Viaa 1; Read Viaa 1] = true.
Proof. repeat split. Qed.

(** ** Two calls on the same registers *)

(** ** Two frames in a row *)

Lemma gamma_filters_seed (L : leaf_ops) (seed : Z) (rgb : Z * Z * Z) (ctrl : Z) :
  no_dither ctrl -> fst (gamma_filters L seed rgb ctrl) = seed.
Proof.
  unfold no_dither, gamma_filters. intros ->. now destruct rgb as [ [r g] b].
Qed.

Section SeedKept.
Variable L : leaf_ops.
Variable cfg : core_config.
Variable g : geometry.
Hypothesis Hnd : no_dither (g_ctrl g).

Lemma columns_seed (d yfrac pixels nextpixels fs : Z) (n : nat) :
  forall i x_start seed l ws seed' l',
    columns L g d yfrac pixels nextpixels fs n i x_start seed l
    = Some ((ws, seed'), l') ->
    seed' = seed.
Proof.
  induction n as [|n IH]; intros i x_start seed l ws seed' l' H; cbn [columns] in H.
  - now injection H as _ <- _.
  - apply bind_some in H. destruct H as (color & l1 & _ & H).
    pose proof (gamma_filters_seed L seed (c_r color, c_g color, c_b color)
                  (g_ctrl g) Hnd) as Hs.
    destruct (gamma_filters L seed _ (g_ctrl g)) as [seed1 rgb].
    cbn [fst] in Hs. subst seed1.
    apply bind_some in H. destruct H as ([ws1 seed2] & l2 & Hrec & H).
    injection H as _ <- _. eapply IH; eauto.
Qed.

Lemma scanline_seed (j seed : Z) (l l' : locals) (ws : list (Z * Z)) (seed' : Z) :
  scanline L g j seed l = Some ((ws, seed'), l') -> seed' = seed.
Proof.
  unfold scanline. intros H.
  apply bind_some in H. destruct H as (? & l1 & _ & H).
  apply bind_some in H. destruct H as (fs & l2 & _ & H).
  apply bind_some in H. destruct H as ([ws1 seed1] & l3 & Hcols & H).
  apply bind_some in H. destruct H as (? & l4 & _ & H).
  injection H as _ <- _. eapply columns_seed; eauto.
Qed.

Lemma scanlines_seed (j_end j_add : Z) (fuel : nat) :
  forall j seed l ws seed' l',
    scanlines L g j_end j_add fuel j seed l = Some ((ws, seed'), l') ->
    seed' = seed.
Proof.
  induction fuel as [|fuel IH]; intros j seed l ws seed' l' H; cbn [scanlines] in H.
  - destruct (j <? j_end); [discriminate|]. now injection H as _ <- _.
  - destruct (j <? j_end); [|now injection H as _ <- _].
    apply bind_some in H. destruct H as ([ws1 seed1] & l1 & H1 & H).
    apply bind_some in H. destruct H as ([ws2 seed2] & l2 & H2 & H).
    injection H as _ <- _.
    apply scanline_seed in H1. apply IH in H2. congruence.
Qed.

Lemma vi_process_seed (id wn seed : Z) (ws : list (Z * Z)) (seed' : Z) :
  vi_process L g cfg id wn seed = Some (ws, seed') -> seed' = seed.
Proof.
  unfold vi_process.
  destruct (scanlines _ _ _ _ _ _ _ _) as [ [ [ws1 seed1] l1] | ] eqn:E; [|discriminate].
  intros H; injection H as _ <-. eapply scanlines_seed; eauto.
Qed.

Lemma fast_columns_seed (y line : Z) (n : nat) :
  forall x seed ws seed',
    fast_columns L cfg g y line n x seed = Some (ws, seed') -> seed' = seed.
Proof.
  induction n as [|n IH]; intros x seed ws seed' H; cbn [fast_columns] in H.
  - now injection H as _ <-.
  - destruct (fast_pixel L cfg g line x) as [rgb| ]; [|discriminate].
    pose proof (gamma_filters_seed L seed rgb (g_ctrl g) Hnd) as Hs.
    destruct (gamma_filters L seed rgb (g_ctrl g)) as [seed1 rgb1].
    cbn [fst] in Hs. subst seed1.
    destruct (fast_columns L cfg g y line n (x + 1) seed) as [ [ws1 seed2] | ] eqn:E;
      [|discriminate].
    injection H as _ <-. eapply IH; eauto.
Qed.

Lemma fast_lines_seed (y_end y_add : Z) (fuel : nat) :
  forall y seed ws seed',
    fast_lines L cfg g y_end y_add fuel y seed = Some (ws, seed') -> seed' = seed.
Proof.
  induction fuel as [|fuel IH]; intros y seed ws seed' H; cbn [fast_lines] in H.
  - destruct (y <? y_end); [discriminate|]. now injection H as _ <-.
  - destruct (y <? y_end); [|now injection H as _ <-].
    destruct (fast_columns _ _ _ _ _ _ _ _) as [ [ws1 seed1] | ] eqn:E1; [|discriminate].
    destruct (fast_lines _ _ _ _ _ _ _ _) as [ [ws2 seed2] | ] eqn:E2; [|discriminate].
    injection H as _ <-.
    apply fast_columns_seed in E1. apply IH in E2. congruence.
Qed.

Lemma vi_process_fast_seed (id wn seed : Z) (ws : list (Z * Z)) (seed' : Z) :
  vi_process_fast L cfg g id wn seed = Some (ws, seed') -> seed' = seed.
Proof. unfold vi_process_fast. apply fast_lines_seed. Qed.
End SeedKept.

(** *** Stores replayed on the buffer they produced *)

Lemma poke_all_overlay (ws : list (Z * Z)) :
  forall b,
    poke_all b ws = if forallb in_prescale ws then Some (overlay ws b) else None.
Proof.
  induction ws as [|[k v] ws IH]; intros b; cbn [poke_all forallb overlay]; auto.
  unfold poke, in_prescale at 1. cbn [fst].
  destruct ((0 <=? k) && (k <? PRESCALE_SIZE)); cbn [andb]; auto.
Qed.

Lemma overlay_last_store (ws : list (Z * Z)) :
  forall b i,
    overlay ws b i = match last_store ws i with Some v => v | None => b i end.
Proof.
  induction ws as [|[k v] ws IH]; intros b i; cbn [overlay last_store]; auto.
  rewrite IH. destruct (last_store ws i); auto. now destruct (i =? k).
Qed.

Lemma overlay_twice (ws : list (Z * Z)) (b : buffer) (i : Z) :
  overlay ws (overlay ws b) i = overlay ws b i.
Proof.
  rewrite (overlay_last_store ws (overlay ws b)), (overlay_last_store ws b).
  now destruct (last_store ws i).
Qed.

Lemma overlay_app (ws ws' : list (Z * Z)) (b : buffer) :
  overlay (ws ++ ws') b = overlay ws' (overlay ws b).
Proof.
  revert b. induction ws as [|[k v] ws IH]; intros b; cbn [app overlay]; auto.
Qed.

(** Workers whose task leaves the generator alone store a list of cells
    that does not depend on the buffer. *)
Lemma run_workers_overlay (task : Z -> Z -> option (list (Z * Z) * Z)) (seed : Z)
    (ids : list Z) :
  (forall id ws seed', task id seed = Some (ws, seed') -> seed' = seed) ->
  forall b b' seed',
    run_workers task ids b seed = Some (b', seed') ->
    seed' = seed
    /\ exists ws,
         b' = overlay ws b
         /\ forall b0, run_workers task ids b0 seed = Some (overlay ws b0, seed).
Proof.
  intros Htask. induction ids as [|id ids IH]; intros b b' seed' H;
    cbn [run_workers] in H.
  - injection H as <- <-. split; [reflexivity|]. exists []. split; reflexivity.
  - destruct (task id seed) as [ [ws1 seed1] | ] eqn:E; [|discriminate].
    pose proof (Htask _ _ _ E) as ->.
    rewrite poke_all_overlay in H.
    destruct (forallb in_prescale ws1) eqn:Hr; [|discriminate].
    destruct (IH _ _ _ H) as (-> & ws & -> & Hall).
    split; [reflexivity|]. exists (ws1 ++ ws). split; [now rewrite overlay_app|].
    intros b0. cbn [run_workers]. rewrite E, poke_all_overlay, Hr, Hall.
    now rewrite overlay_app.
Qed.

Ltac fast_paths :=
  repeat match goal with
    | |- context [snd (if ?c then _ else _)] => destruct c eqn:?
    | |- context [fst (if ?c then _ else _)] => destruct c eqn:?
    end;
  cbn [fst snd vars setv emit upd gvar_eqb prescale iseed].

Lemma start_keeps_buffers (regs : vi_regs) (st : vi_state) :
  prescale (snd (vi_process_start regs st)) = prescale st
  /\ iseed (snd (vi_process_start regs st)) = iseed st
  /\ (snd (vi_process_start regs st))@vi_mode = st@vi_mode
  /\ (snd (vi_process_start regs st))@hres_raw = st@hres_raw
  /\ (snd (vi_process_start regs st))@vres_raw = st@vres_raw.
Proof.
  unfold vi_process_start.
  repeat match goal with
    | |- context [snd (if ?c then _ else _)] => destruct c eqn:?
    end; cbn [snd prescale iseed vars upd gvar_eqb]; auto.
Qed.

Lemma start_fast_keeps_buffers (regs : vi_regs) (st : vi_state) :
  prescale (snd (vi_process_start_fast regs st)) = prescale st
  /\ iseed (snd (vi_process_start_fast regs st)) = iseed st
  /\ (snd (vi_process_start_fast regs st))@vi_mode = st@vi_mode.
Proof.
  unfold vi_process_start_fast. fast_paths; auto.
  all: case_if; cbn [prescale iseed vars emit]; auto.
Qed.

Lemma start_fast_unassigned (regs : vi_regs) (st : vi_state) (x : gvar) :
  fast_unassigned x = true -> (snd (vi_process_start_fast regs st))@x = st@x.
Proof.
  intros Hx. unfold vi_process_start_fast.
  destruct x; try discriminate Hx; clear Hx; fast_paths; try reflexivity.
  all: case_if; reflexivity.
Qed.

Lemma start_fast_again (regs : vi_regs) (sa sb : vi_state) :
  (forall x, sb@x = (snd (vi_process_start_fast regs sa))@x) ->
  fst (vi_process_start_fast regs sb) = fst (vi_process_start_fast regs sa)
  /\ (truthy (fst (vi_process_start_fast regs sa)) = true ->
      geometry_of (vars (snd (vi_process_start_fast regs sb)))
      = geometry_of (vars (snd (vi_process_start_fast regs sa)))).
Proof.
  intros H.
  assert (Hun : forall x, fast_unassigned x = true -> sb@x = sa@x).
  { intros x Hx. rewrite H. now apply start_fast_unassigned. }
  pose proof (Hun x_start_init eq_refl). pose proof (Hun y_start eq_refl).
  pose proof (Hun prescale_ptr eq_refl). pose proof (Hun linecount eq_refl).
  pose proof (Hun minhpass eq_refl). pose proof (Hun maxhpass eq_refl).
  pose proof (Hun vi_fetch_filter_ptr eq_refl).
  clear H Hun. unfold vi_process_start_fast.
  rewrite type_has_two_bits. fast_paths.
  all: split; [reflexivity|]; try discriminate.
  intros _. unfold geometry_of. cbn [vars setv emit upd gvar_eqb]. congruence.
Qed.

Lemma start_again (regs : vi_regs) (sa sb : vi_state) :
  (forall x, sb@x = (snd (vi_process_start regs sa))@x) ->
  fst (vi_process_start regs sb) = fst (vi_process_start regs sa)
  /\ (truthy (fst (vi_process_start regs sa)) = true ->
      (snd (vi_process_start regs sb))@oldlowerfield
      = (snd (vi_process_start regs sa))@oldlowerfield ->
      geometry_of (vars (snd (vi_process_start regs sb)))
      = geometry_of (vars (snd (vi_process_start regs sa)))).
Proof.
  intros H.
  assert (Hpw : sb@prevwasblank = sa@prevwasblank)
    by (rewrite H; apply start_prevwasblank).
  destruct (start_keeps_buffers regs sa) as (_ & _ & _ & Hh & Hv).
  assert (Hhr : sb@hres_raw = sa@hres_raw) by (now rewrite H).
  assert (Hvr : sb@vres_raw = sa@vres_raw) by (now rewrite H).
  rewrite !start_oldlowerfield. clear H Hh Hv.
  unfold vi_process_start. rewrite Hpw. start_paths.
  all: split; [reflexivity|]; try discriminate.
  intros _ Hlf. unfold geometry_of. cbn [vars upd gvar_eqb].
  rewrite Hlf, Hhr, Hvr. reflexivity.
Qed.

Lemma enter_buffers (cfg : core_config) (tr : bool) (st : vi_state) :
  (vi_update_enter cfg tr st)@vi_mode = cfg_vi_mode cfg
  /\ iseed (vi_update_enter cfg tr st) = iseed st
  /\ (st@vi_mode = cfg_vi_mode cfg ->
      prescale (vi_update_enter cfg tr st) = prescale st
      /\ forall x, (vi_update_enter cfg tr st)@x = st@x).
Proof.
  unfold vi_update_enter.
  destruct (cfg_vi_mode cfg =? st@vi_mode) eqn:E; bool_hyps; cbn [negb].
  - repeat case_if; cbn [vars emit iseed prescale]; auto.
  - repeat case_if; cbn [vars emit setv set_prescale iseed prescale upd gvar_eqb];
      (split; [reflexivity|]; split; [reflexivity|]; intros; congruence).
Qed.

Lemma start_of_buffers (cfg : core_config) (regs : vi_regs) (st : vi_state) :
  prescale (snd (start_of cfg regs st)) = prescale st
  /\ iseed (snd (start_of cfg regs st)) = iseed st
  /\ (snd (start_of cfg regs st))@vi_mode = st@vi_mode.
Proof.
  unfold start_of. destruct (cfg_vi_mode cfg =? VI_MODE_NORMAL).
  - destruct (start_keeps_buffers regs st) as (? & ? & ? & _). auto.
  - apply start_fast_keeps_buffers.
Qed.

(** One call of [vi_update], taken apart. *)
Lemma update_cases (L : leaf_ops) (cfg : core_config) (wn : Z) (tr : bool)
    (regs : vi_regs) (st st' : vi_state) :
  vi_update L cfg wn tr regs st = Some st' ->
  let s0 := vi_update_enter cfg tr st in
  let r := start_of cfg regs s0 in
  vars st' = vars (snd r)
  /\ (if truthy (fst r)
      then run_workers (task_of L cfg wn (geometry_of (vars (snd r))))
             (ids_of cfg wn) (prescale s0) (iseed s0)
           = Some (prescale st', iseed st')
      else prescale st' = prescale s0 /\ iseed st' = iseed s0).
Proof.
  intros H. cbv zeta. unfold vi_update in H.
  destruct (start_of_buffers cfg regs (vi_update_enter cfg tr st)) as (Hp & Hs & _).
  unfold start_of, task_of, ids_of in *.
  destruct (cfg_vi_mode cfg =? VI_MODE_NORMAL).
  - destruct (vi_process_start regs _) as [go s1]. cbn [fst snd] in *.
    destruct (truthy go); cbn [negb] in H.
    + destruct (run_workers _ _ _ _) as [ [b seed] | ] eqn:Er; [|discriminate].
      rewrite Hp, Hs in Er.
      destruct (vi_process_end L cfg _) as [s2| ] eqn:E; [|discriminate].
      injection H as <-.
      destruct (end_spec _ _ _ _ E) as (Hv & Hb & Hi & _).
      cbn [vars prescale iseed emit set_iseed set_prescale] in *.
      split; [exact Hv|]. rewrite Er, Hb, Hi. reflexivity.
    + injection H as <-. auto.
  - destruct (vi_process_start_fast regs _) as [go s1]. cbn [fst snd] in *.
    destruct (truthy go); cbn [negb] in H.
    + destruct (run_workers _ _ _ _) as [ [b seed] | ] eqn:Er; [|discriminate].
      rewrite Hp, Hs in Er.
      destruct (vi_process_end_fast L cfg _) as [s2| ] eqn:E; [|discriminate].
      injection H as <-.
      destruct (end_fast_spec _ _ _ _ E) as (Hv & Hb & Hi & _).
      cbn [vars prescale iseed emit set_iseed set_prescale] in *.
      split; [exact Hv|]. rewrite Er, Hb, Hi. reflexivity.
    + injection H as <-. auto.
Qed.

Lemma start_of_again (cfg : core_config) (regs : vi_regs) (sa sb : vi_state) :
  (forall x, sb@x = (snd (start_of cfg regs sa))@x) ->
  fst (start_of cfg regs sb) = fst (start_of cfg regs sa)
  /\ (truthy (fst (start_of cfg regs sa)) = true ->
      (snd (start_of cfg regs sb))@oldlowerfield
      = (snd (start_of cfg regs sa))@oldlowerfield ->
      geometry_of (vars (snd (start_of cfg regs sb)))
      = geometry_of (vars (snd (start_of cfg regs sa)))).
Proof.
  unfold start_of. destruct (cfg_vi_mode cfg =? VI_MODE_NORMAL); intros H.
  - apply start_again; exact H.
  - destruct (start_fast_again regs sa sb H) as [? ?]. auto.
Qed.

Lemma start_of_ctrl (cfg : core_config) (regs : vi_regs) (st : vi_state) :
  truthy (fst (start_of cfg regs st)) = true ->
  g_ctrl (geometry_of (vars (snd (start_of cfg regs st)))) = rd regs VI_STATUS.
Proof.
  unfold start_of. destruct (cfg_vi_mode cfg =? VI_MODE_NORMAL).
  - unfold vi_process_start. start_paths; try discriminate. reflexivity.
  - unfold vi_process_start_fast. rewrite type_has_two_bits.
    fast_paths; try discriminate. reflexivity.
Qed.

Lemma task_of_seed (L : leaf_ops) (cfg : core_config) (wn : Z) (gm : geometry)
    (id seed : Z) (ws : list (Z * Z)) (seed' : Z) :
  no_dither (g_ctrl gm) ->
  task_of L cfg wn gm id seed = Some (ws, seed') -> seed' = seed.
Proof.
  intros Hnd. unfold task_of. destruct (cfg_vi_mode cfg =? VI_MODE_NORMAL).
  - now apply vi_process_seed.
  - now apply vi_process_fast_seed.
Qed.

(** C7, as the code has it.  When [gamma_dither_enable] is clear in
    [VI_STATUS], two calls of [vi_update] in a row on the same registers
    that leave the same [oldlowerfield] leave the same prescale buffer, in
    either mode, for any number of workers and whatever the included
    filters are: no filter draws from the generator, so its seed and the
    list of stores are those of the first call. *)
Theorem repeats_picture_without_dither (L : leaf_ops) (cfg : core_config)
    (worker_num : Z) (trace_open : bool) (regs : vi_regs) (st : vi_state) :
  no_dither (rd regs VI_STATUS) ->
  repeats_picture L cfg worker_num trace_open regs st.
Proof.
  intros Hnd st1 st2 H1 H2 Hlf i.
  apply update_cases in H1. apply update_cases in H2. cbv zeta in H1, H2.
  destruct H1 as [Hv1 Hr1]. destruct H2 as [Hv2 Hr2].
  set (sa := vi_update_enter cfg trace_open st) in *.
  set (sb := vi_update_enter cfg trace_open st1) in *.
  destruct (enter_buffers cfg trace_open st) as (Hma & Hsa & _).
  destruct (start_of_buffers cfg regs sa) as (_ & _ & Hmode).
  assert (Hm1 : st1@vi_mode = cfg_vi_mode cfg).
  { rewrite Hv1, Hmode. exact Hma. }
  destruct (enter_buffers cfg trace_open st1) as (_ & Hsb & Hsame).
  destruct (Hsame Hm1) as [Hpb Hvb]. fold sb in Hsb, Hpb, Hvb.
  assert (Hvars : forall x, sb@x = (snd (start_of cfg regs sa))@x).
  { intros x. now rewrite Hvb, Hv1. }
  destruct (start_of_again cfg regs sa sb Hvars) as [Hgo Hgeo].
  rewrite Hgo in Hr2.
  destruct (truthy (fst (start_of cfg regs sa))) eqn:Ego.
  - rewrite Hgeo in Hr2 by (auto; now rewrite <- Hv2, <- Hv1).
    pose proof (start_of_ctrl cfg regs sa Ego) as Hctrl.
    set (gm := geometry_of _) in *.
    assert (Hnd' : no_dither (g_ctrl gm)) by (now rewrite Hctrl).
    destruct (run_workers_overlay (task_of L cfg worker_num gm) (iseed sa)
                (ids_of cfg worker_num)
                (fun id ws s' => task_of_seed L cfg worker_num gm id (iseed sa) ws s' Hnd')
                _ _ _ Hr1) as (Hseed & ws & Hb1 & Hall).
    rewrite Hsb, Hseed, Hpb, Hall in Hr2. injection Hr2 as Hb2 _.
    rewrite <- Hb2, Hb1. apply overlay_twice.
  - destruct Hr1 as [Hb1 _]. destruct Hr2 as [Hb2 _].
    now rewrite Hb2, Hpb.
Qed.

(** The frame [Demo.regs 2] has no dither; both calls draw it. *)
Lemma repeats_picture_without_dither_witness :
  repeats_picture Demo.ops (Demo.cfg 1 VI_MODE_NORMAL) 1 false (Demo.regs 2) Demo.st0
  /\ option_map (fun st => prescale st 648)
       (Demo.twice Demo.ops (Demo.cfg 1 VI_MODE_NORMAL) 1 (Demo.regs 2) Demo.st0)
     = Some 2629632.
Proof.
  split; [|vm_compute; reflexivity].
  apply (repeats_picture_without_dither Demo.ops (Demo.cfg 1 VI_MODE_NORMAL) 1 false
           (Demo.regs 2) Demo.st0).
  vm_compute. reflexivity.
Defined.

(** C7 as stated fails: with [gamma_dither_enable] set ([Demo.regs 6]) the
    first call leaves the generator's seed advanced, the second call
    starts from that seed, and cell 8 of the prescale buffer differs
    between the two calls although registers and field are the same. *)
Lemma dither_changes_picture :
  ~ repeats_picture Demo.ops (Demo.cfg 1 VI_MODE_NORMAL) 1 false (Demo.regs 6) Demo.st0
  /\ option_map (fun st => prescale st 8)
       (vi_update Demo.ops (Demo.cfg 1 VI_MODE_NORMAL) 1 false (Demo.regs 6) Demo.st0)
     = Some 524544
  /\ option_map (fun st => prescale st 8)
       (Demo.twice Demo.ops (Demo.cfg 1 VI_MODE_NORMAL) 1 (Demo.regs 6) Demo.st0)
     = Some 590081.
Proof.
  split; [|split; vm_compute; reflexivity].
  intros H. unfold repeats_picture in H.
  assert (K : match vi_update Demo.ops (Demo.cfg 1 VI_MODE_NORMAL) 1 false
                      (Demo.regs 6) Demo.st0 with
              | Some st1 =>
                  match vi_update Demo.ops (Demo.cfg 1 VI_MODE_NORMAL) 1 false
                          (Demo.regs 6) st1 with
                  | Some st2 =>
                      st2@oldlowerfield = st1@oldlowerfield
                      /\ prescale st2 8 <> prescale st1 8
                  | None => False
                  end
              | None => False
              end).
  { vm_compute. split; [reflexivity|discriminate]. }
  destruct (vi_update Demo.ops (Demo.cfg 1 VI_MODE_NORMAL) 1 false (Demo.regs 6)
              Demo.st0) as [st1| ]; [|exact K].
  specialize (H st1).
  destruct (vi_update Demo.ops (Demo.cfg 1 VI_MODE_NORMAL) 1 false (Demo.regs 6)
              st1) as [st2| ]; [|exact K].
  destruct K as [K1 K2]. apply K2. exact (H st2 eq_refl eq_refl K1 8).
Qed.

(** ** Further properties of [vi.c] *)

(** *** The rows of a screenshot *)

Lemma countdown_length (n : Z) : List.length (countdown n) = Z.to_nat n.
Proof. unfold countdown. now rewrite length_rev, length_map, length_seq. Qed.

Lemma countdown_nth (n : Z) (i : nat) :
  (i < Z.to_nat n)%nat -> nth_error (countdown n) i = Some (n - 1 - Z.of_nat i).
Proof.
  intros Hi. unfold countdown.
  rewrite nth_error_rev, length_map, length_seq.
  assert (Hlt : (i <? Z.to_nat n)%nat = true) by now apply Nat.ltb_lt.
  rewrite Hlt, nth_error_map, nth_error_seq.
  assert (Hlt' : (Z.to_nat n - S i <? Z.to_nat n)%nat = true)
    by (apply Nat.ltb_lt; lia).
  rewrite Hlt'. cbn [option_map]. f_equal. lia.
Qed.

Lemma nearest_rows_spec (height output_height : Z) (ys : list Z) :
  (forall y, In y ys -> fits_int (y * height) = true) ->
  nearest_rows height output_height ys
  = Some (map (fun y => Z.quot (y * height) output_height) ys).
Proof.
  induction ys as [|y ys IH]; intros H; cbn [nearest_rows map]; [reflexivity|].
  rewrite (H y (or_introl eq_refl)), IH; [reflexivity|].
  intros y' Hy'. apply H. now right.
Qed.

(** The row written at position [i] of the file. *)
Lemma screenshot_rows_nth (height output_height : Z) :
  0 < height -> 0 < output_height -> (output_height - 1) * height < 2 ^ 31 ->
  exists rows,
    screenshot_rows height output_height = Some rows
    /\ List.length rows = Z.to_nat output_height
    /\ forall i, (i < Z.to_nat output_height)%nat ->
         nth_error rows i
         = Some (((output_height - 1 - Z.of_nat i) * height) / output_height).
Proof.
  intros Hh Ho Hint. unfold screenshot_rows.
  destruct (height =? output_height) eqn:E; bool_hyps; cbn [negb].
  - subst. exists (countdown output_height). split; [reflexivity|].
    split; [apply countdown_length|].
    intros i Hi. rewrite (countdown_nth _ _ Hi). f_equal.
    rewrite Z.div_mul; lia.
  - rewrite nearest_rows_spec.
    + eexists. split; [reflexivity|].
      split; [now rewrite length_map, countdown_length|].
      intros i Hi. rewrite nth_error_map, (countdown_nth _ _ Hi). cbn [option_map].
      f_equal. apply Z.quot_div_nonneg; nia.
    + intros y Hy. apply In_nth_error in Hy. destruct Hy as [i Hi].
      assert (Hlt : (i < Z.to_nat output_height)%nat).
      { rewrite <- countdown_length. apply nth_error_Some. congruence. }
      rewrite (countdown_nth _ _ Hlt) in Hi. injection Hi as <-.
      unfold fits_int. apply andb_true_iff. split; [apply Z.leb_le|apply Z.ltb_lt]; nia.
Qed.

(** The rows of the writer where its loops are defined: rows of the
    rectangle. *)
Lemma screenshot_rows_range (height output_height : Z) :
  (0 < output_height -> 0 < height /\ (output_height - 1) * height < 2 ^ 31) ->
  exists rows,
    screenshot_rows height output_height = Some rows
    /\ forall r, In r rows -> 0 <= r < height.
Proof.
  intros H. destruct (Z_lt_le_dec 0 output_height) as [Ho|Ho].
  - destruct (H Ho) as [Hh Hint].
    destruct (screenshot_rows_nth height output_height Hh Ho Hint)
      as (rows & Hrows & Hlen & Hnth).
    exists rows. split; [exact Hrows|].
    intros r Hr. apply In_nth_error in Hr. destruct Hr as [i Hi].
    assert (Hlt : (i < Z.to_nat output_height)%nat).
    { rewrite <- Hlen. apply nth_error_Some. congruence. }
    rewrite (Hnth i Hlt) in Hi. injection Hi as <-.
    split; [apply Z.div_pos; nia|]. apply Z.div_lt_upper_bound; nia.
  - unfold screenshot_rows, countdown.
    destruct (height =? output_height) eqn:E; bool_hyps; cbn [negb].
    + replace (Z.to_nat height) with O by lia. exists []. split; [reflexivity|].
      intros r [].
    + replace (Z.to_nat output_height) with O by lia. exists [].
      split; [reflexivity|]. intros r [].
Qed.

(** [vi_screenshot_write] returns when its [int] products fit and the
    rows it reads lie in the buffer, or the file cannot be opened. *)
Lemma screenshot_write_defined (L : leaf_ops) (path : string) (b w h p o : Z)
    (st : vi_state) :
  fits_int (w * o) = true ->
  (0 < o -> 0 < h /\ (o - 1) * h < 2 ^ 31) ->
  fopen_wb L path = false
  \/ (forall r, 0 <= r < h -> row_in_buffer b w p r = true) ->
  exists st', vi_screenshot_write L path b w h p o st = Some st'.
Proof.
  intros Hfit Hrows Hcase. unfold vi_screenshot_write. rewrite Hfit. cbn [negb].
  destruct (fopen_wb L path) eqn:Ef; cbn [negb]; [|eauto].
  destruct Hcase as [Hc|Hc]; [discriminate|].
  destruct (screenshot_rows_range h o Hrows) as (rows & -> & Hin).
  assert (Hall : forallb (row_in_buffer b w p) rows = true).
  { apply forallb_forall. intros r Hr. apply Hc, Hin, Hr. }
  rewrite Hall. eauto.
Qed.

(** X17.  The rows of a screenshot.  For positive sizes, the file gets
    [output_height] rows, each a row of the uploaded rectangle
    ([0 <= row < height]), written bottom-up and never out of order; the
    last row written is row 0, and when the picture is not shrunk
    ([height <= output_height]) the first is row [height - 1] and every
    row of the rectangle is written at least once. *)
Theorem screenshot_rows_resample (height output_height : Z) :
  0 < height -> 0 < output_height -> (output_height - 1) * height < 2 ^ 31 ->
  exists rows,
    screenshot_rows height output_height = Some rows
    /\ List.length rows = Z.to_nat output_height
    /\ (forall r, In r rows -> 0 <= r < height)
    /\ (forall i j ri rj, (i <= j)%nat ->
          nth_error rows i = Some ri -> nth_error rows j = Some rj -> rj <= ri)
    /\ nth_error rows (Z.to_nat output_height - 1) = Some 0
    /\ (height <= output_height ->
        nth_error rows 0 = Some (height - 1)
        /\ forall r, 0 <= r < height -> In r rows).
Proof.
  intros Hh Ho Hint.
  destruct (screenshot_rows_nth height output_height Hh Ho Hint)
    as (rows & Hrows & Hlen & Hnth).
  exists rows. split; [exact Hrows|]. split; [exact Hlen|].
  assert (Hbound : forall i, (i < Z.to_nat output_height)%nat ->
            0 <= ((output_height - 1 - Z.of_nat i) * height) / output_height < height).
  { intros i Hi. split; [apply Z.div_pos; nia|].
    apply Z.div_lt_upper_bound; nia. }
  split; [|split; [|split] ].
  - intros r Hr. apply In_nth_error in Hr. destruct Hr as [i Hi].
    assert (Hlt : (i < Z.to_nat output_height)%nat).
    { rewrite <- Hlen. apply nth_error_Some. congruence. }
    rewrite (Hnth i Hlt) in Hi. injection Hi as <-. now apply Hbound.
  - intros i j ri rj Hij Hi Hj.
    assert (Hlj : (j < Z.to_nat output_height)%nat).
    { rewrite <- Hlen. apply nth_error_Some. congruence. }
    rewrite (Hnth i ltac:(lia)) in Hi. rewrite (Hnth j Hlj) in Hj.
    injection Hi as <-. injection Hj as <-.
    apply Z.div_le_mono; nia.
  - rewrite Hnth by lia.
    replace (output_height - 1 - Z.of_nat (Z.to_nat output_height - 1)) with 0 by lia.
    reflexivity.
  - intros Hle. split.
    + rewrite Hnth by lia. f_equal. change (Z.of_nat 0) with 0. rewrite Z.sub_0_r.
      symmetry. apply Z.div_unique with (r := output_height - height); lia.
    + intros r Hr.
      (* the topmost file row that shows source row [r] *)
      set (y := (r * output_height + height - 1) / height).
      assert (Hy : r * output_height <= y * height < r * output_height + height).
      { subst y. pose proof (Z.div_mod (r * output_height + height - 1) height ltac:(lia)).
        pose proof (Z.mod_pos_bound (r * output_height + height - 1) height ltac:(lia)).
        nia. }
      assert (Hy0 : 0 <= y < output_height) by nia.
      assert (Hq : (y * height) / output_height = r).
      { symmetry. apply Z.div_unique with (r := y * height - r * output_height); lia. }
      apply nth_error_In with (n := Z.to_nat (output_height - 1 - y)).
      rewrite Hnth by lia. f_equal.
      replace (output_height - 1 - Z.of_nat (Z.to_nat (output_height - 1 - y))) with y by lia.
      exact Hq.
Qed.

(** A rectangle of 3 rows written as 5. *)
Lemma screenshot_rows_resample_witness :
  screenshot_rows 3 5 = Some [2; 1; 1; 0; 0]
  /\ exists rows,
       screenshot_rows 3 5 = Some rows
       /\ List.length rows = 5%nat
       /\ forall r, In r rows -> 0 <= r < 3.
Proof.
  split; [vm_compute; reflexivity|].
  destruct (screenshot_rows_resample 3 5 ltac:(lia) ltac:(lia) ltac:(lia))
    as (rows & H1 & H2 & H3 & _).
  exists rows. split; [exact H1|]. split; [exact H2 | exact H3].
Defined.

Ltac fast_cases :=
  repeat match goal with
    | |- context [snd (if ?c then _ else _)] => destruct c eqn:?
    | |- context [fst (if ?c then _ else _)] => destruct c eqn:?
    end;
  cbn [fst snd vars setv emit upd gvar_eqb events].

(** X1.  The test of lines 219-221 and 753-755 can never fire: [ctrl.type]
    is a bit-field of two bits, so [ctrl.type & ~3] is 0.  No call of
    [vi_process_start] reports "Unknown framebuffer format", and
    [vi_process_start_fast], which has no other message, logs nothing. *)
Theorem unknown_format_never_reported (regs : vi_regs) (st : vi_state) (t : Z) :
  ~ In (MsgError (UnknownFramebufferFormat t)) (start_events regs st)
  /\ start_fast_events regs st = [].
Proof.
  split.
  - destruct (start_events_eq regs st) as (w1 & w2 & w3 & c1 & c2 & c3 & ->).
    rewrite !in_app_iff, !in_if_single. intuition discriminate.
  - unfold start_fast_events, vi_process_start_fast.
    rewrite type_has_two_bits. fast_cases.
    all: rewrite <- (app_nil_r (events st)) at 2; apply skipn_length_app.
Qed.

(** What [vi_process_start] has checked when it returns non-zero. *)
Lemma start_accepted (regs : vi_regs) (st : vi_state) :
  fst (vi_process_start regs st) <> 0 ->
  let st' := snd (vi_process_start regs st) in
  fst (vi_process_start regs st) = 1
  /\ 0 <= st'@h_start /\ 0 < st'@hres /\ st'@h_start + st'@hres <= PRESCALE_WIDTH
  /\ 0 <= st'@v_start /\ st'@v_start + st'@vres <= PRESCALE_HEIGHT
  /\ 0 < st'@frame_buffer
  /\ 34 <= st'@v_sync.
Proof.
  unfold vi_process_start. start_paths; intros Hgo; try (exfalso; apply Hgo; reflexivity).
  unfold start_hres_clamped, start_h_start_clamped, start_ispal in *.
  unfold PRESCALE_WIDTH, PRESCALE_HEIGHT, V_SYNC_NTSC, H_RES_NTSC, V_SYNC_PAL in *.
  pose proof (land_bounds (rd regs VI_ORIGIN) 0xffffff ltac:(lia)).
  unfold truthy in *. rewrite negb_false_iff, negb_true_iff in *.
  revert Hgo.
  generalize (start_hres_a regs) (start_h_start_a regs). intros hr ha.
  repeat case_if; bool_hyps; cbn [andb of_bool]; intros Hgo;
    try (exfalso; apply Hgo; reflexivity); repeat split; try lia.
  all: try (destruct (rd regs VI_V_SYNC .& 1023 >? 525 + 25) eqn:?; bool_hyps; lia).
  all: match type of Hgo with
       | of_bool ((0 <? ?a) && (?b <? 640)) <> 0 =>
           destruct (0 <? a) eqn:?, (b <? 640) eqn:?; bool_hyps; cbn [andb of_bool] in Hgo |- *;
           try reflexivity; try lia; try (exfalso; apply Hgo; reflexivity)
       end.
Qed.

(** X2.  A frame that [vi_process_start] accepts has its window inside the
    buffer: the result is 1, [0 <= h_start], [0 < hres],
    [h_start + hres <= PRESCALE_WIDTH], [0 <= v_start],
    [v_start + vres <= PRESCALE_HEIGHT], the frame buffer address is not 0
    and [v_sync] is at least 34, so that the division of line 681 is
    defined.  ([vres] itself is not tested: it may be 0 or negative.) *)
Theorem accepted_frame_window (regs : vi_regs) (st : vi_state) :
  fst (vi_process_start regs st) <> 0 ->
  let st' := snd (vi_process_start regs st) in
  fst (vi_process_start regs st) = 1
  /\ 0 <= st'@h_start /\ 0 < st'@hres /\ st'@h_start + st'@hres <= PRESCALE_WIDTH
  /\ 0 <= st'@v_start /\ st'@v_start + st'@vres <= PRESCALE_HEIGHT
  /\ 0 < st'@frame_buffer
  /\ 34 <= st'@v_sync.
Proof. exact (start_accepted regs st). Qed.

(** The frame [Demo.regs 2] is accepted. *)
Lemma accepted_frame_window_witness :
  fst (vi_process_start (Demo.regs 2) Demo.st0) <> 0
  /\ 34 <= (snd (vi_process_start (Demo.regs 2) Demo.st0))@v_sync.
Proof.
  assert (H : fst (vi_process_start (Demo.regs 2) Demo.st0) <> 0)
    by (vm_compute; discriminate).
  split; [exact H|].
  apply (accepted_frame_window (Demo.regs 2) Demo.st0 H).
Defined.

Lemma u32_add_l (a b : Z) : u32 (u32 a + b) = u32 (a + b).
Proof. unfold u32. apply Zplus_mod_idemp_l. Qed.

Lemma u32_mul_r (a b : Z) : u32 (a * u32 b) = u32 (a * b).
Proof. unfold u32. apply Zmult_mod_idemp_r. Qed.

Lemma u32_eq_mod (a b : Z) : (a - b) mod 2 ^ 32 = 0 -> u32 a = u32 b.
Proof.
  unfold u32. intros H.
  replace a with (b + (a - b)) by lia.
  rewrite Zplus_mod, H, Z.add_0_r, Z.mod_mod by lia. reflexivity.
Qed.

Lemma source_x_eq (s : statics) (i : nat) :
  s x_start_init = u32 (s x_start_init) ->
  source_x s i = u32 (s x_start_init + Z.of_nat i * s x_add).
Proof.
  intros H0. unfold source_x. induction i as [|i IH].
  - cbn. rewrite Z.add_0_r. exact H0.
  - rewrite Nat.iter_succ, IH, u32_add_l. f_equal. lia.
Qed.

Lemma u32_land (a m : Z) : 0 <= m < 2 ^ 32 -> u32 (a .& m) = a .& m.
Proof.
  intros Hm. unfold u32. apply Z.mod_small.
  pose proof (land_bounds a m ltac:(lia)). lia.
Qed.

Lemma u32_u32 (a : Z) : u32 (u32 a) = u32 a.
Proof. unfold u32. apply Z.mod_mod. lia. Qed.

Lemma start_x_start_init_u32 (regs : vi_regs) (st : vi_state) :
  let s' := vars (snd (vi_process_start regs st)) in
  s' x_start_init = u32 (s' x_start_init).
Proof.
  unfold vi_process_start. start_paths.
  all: case_if; rewrite ?u32_u32, ?u32_land; try reflexivity; lia.
Qed.

(** X3.  The clamps of lines 248-255 and 294-298 move the window, not the
    picture: the source coordinate the column loop reaches at screen column
    [h_start + i], and the one of screen row [v_start + j], are those of
    the registers' window, whether or not an edge was clamped. *)
Theorem clamp_keeps_source_position (regs : vi_regs) (st : vi_state)
    (i : nat) (j : Z) :
  let s' := vars (snd (vi_process_start regs st)) in
  source_x s' i
  = u32 ((rd regs VI_X_SCALE >> 16) .& 0xfff
         + (s' h_start + Z.of_nat i - start_h_start_a regs)
           * (rd regs VI_X_SCALE .& 0xfff))
  /\ source_y s' j
     = u32 ((rd regs VI_Y_SCALE >> 16) .& 0xfff
            + (s' v_start + j - start_v_start_a regs) * (rd regs VI_Y_SCALE .& 0xfff)).
Proof.
  cbv zeta. rewrite source_x_eq by apply start_x_start_init_u32.
  unfold source_y, start_v_start_a, start_vstartoffset.
  unfold vi_process_start, start_h_start_clamped. start_paths.
  all: split.
  all: repeat case_if; rewrite ?u32_add_l, ?u32_mul_r; apply u32_eq_mod.
  all: try match goal with
         |- (?x - ?y) mod _ = 0 => replace (x - y) with 0 by ring; reflexivity
       end.
  all: match goal with
       | |- context [u32 ?n] =>
           unfold u32; rewrite (Z.mod_eq n (2 ^ 32)) by lia;
           match goal with
           | |- ?d mod _ = 0 =>
               replace d
                 with (- ((rd regs VI_Y_SCALE .& 4095) * (n / 2 ^ 32)) * 2 ^ 32)
                 by ring
           end;
           apply Z_mod_mult
       end.
Qed.

(** The log and the two flags after [vi_process_start], for every way out
    of it. *)
Lemma start_log (regs : vi_regs) (st : vi_state) :
  let st' := snd (vi_process_start regs st) in
  (exists vw,
     events st' =
       events st
       ++ (if start_warn_vbusclock regs (vars st)
           then [MsgWarning VbusClockWarning] else [])
       ++ (if start_warn_nolerp regs (vars st) then [MsgWarning NoLerpWarning] else [])
       ++ vw
       ++ (if start_vactivelines_r regs >? PRESCALE_HEIGHT
           then [MsgError VSyncTooBig] else [])
     /\ forall e, In e vw -> exists a b c, e = MsgWarning (VresWarning a b c))
  /\ st'@onetimewarnings_vbusclock
     = (if start_warn_vbusclock regs (vars st) then 1 else st@onetimewarnings_vbusclock)
  /\ st'@onetimewarnings_nolerp
     = (if start_warn_nolerp regs (vars st) then 1 else st@onetimewarnings_nolerp)
  /\ screenshot_path st' = screenshot_path st.
Proof.
  cbv zeta. unfold start_warn_vbusclock, start_warn_nolerp, start_vactivelines_r,
    start_vstartoffset.
  unfold_start. rewrite type_has_two_bits. start_paths.
  all: (split; [|repeat split; reflexivity]).
  all: cbn [app].
  all: eexists; split; [reflexivity|].
  all: intros e He; apply in_if_single in He; destruct He as [_ <-]; eauto.
Qed.

Lemma start_fast_log (regs : vi_regs) (st : vi_state) :
  let st' := snd (vi_process_start_fast regs st) in
  events st' = events st
  /\ screenshot_path st' = screenshot_path st
  /\ st'@onetimewarnings_vbusclock = st@onetimewarnings_vbusclock
  /\ st'@onetimewarnings_nolerp = st@onetimewarnings_nolerp.
Proof.
  cbv zeta. unfold vi_process_start_fast. rewrite type_has_two_bits.
  fast_cases; repeat split; reflexivity.
Qed.

Lemma enter_log (cfg : core_config) (tr : bool) (st : vi_state) :
  let s0 := vi_update_enter cfg tr st in
  events s0 =
    events st ++ (if tr then [TraceWriteVi] else [])
    ++ (if cfg_vi_mode cfg >=? VI_MODE_NUM
        then [MsgError (InvalidViMode (cfg_vi_mode cfg))] else [])
  /\ screenshot_path s0 = screenshot_path st.
Proof.
  cbv zeta. unfold vi_update_enter.
  repeat case_if; cbn [events emit setv set_prescale screenshot_path app];
    rewrite ?app_nil_r, <- ?app_assoc; split; reflexivity.
Qed.

(** One call of [vi_update], its log taken apart. *)
Lemma update_log (L : leaf_ops) (cfg : core_config) (wn : Z) (tr : bool)
    (regs : vi_regs) (st st' : vi_state) :
  vi_update L cfg wn tr regs st = Some st' ->
  let r := start_of cfg regs (vi_update_enter cfg tr st) in
  if truthy (fst r) then
    exists b w h p o,
      events st' =
        events (snd r)
        ++ ScreenUpload b w h p o
           :: screenshot_events L (screenshot_path (snd r)) b w h p o
        ++ [ScreenSwap]
      /\ screenshot_path st' = EmptyString
  else events st' = events (snd r)
       /\ screenshot_path st' = screenshot_path (snd r).
Proof.
  intros H. cbv zeta. unfold vi_update in H. unfold start_of.
  destruct (cfg_vi_mode cfg =? VI_MODE_NORMAL).
  - destruct (vi_process_start regs _) as [go s1]. cbn [fst snd] in *.
    destruct (truthy go); cbn [negb] in H.
    + destruct (run_workers _ _ _ _) as [ [b seed] | ]; [|discriminate].
      destruct (vi_process_end L cfg _) as [s2| ] eqn:E; [|discriminate].
      injection H as <-.
      destruct (end_spec _ _ _ _ E) as (_ & _ & _ & Hp & _ & o & He).
      cbn [vars events screenshot_path emit set_iseed set_prescale] in *.
      do 5 eexists. rewrite He, <- app_assoc. split; [reflexivity | exact Hp].
    + injection H as <-. split; reflexivity.
  - destruct (vi_process_start_fast regs _) as [go s1]. cbn [fst snd] in *.
    destruct (truthy go); cbn [negb] in H.
    + destruct (run_workers _ _ _ _) as [ [b seed] | ]; [|discriminate].
      destruct (vi_process_end_fast L cfg _) as [s2| ] eqn:E; [|discriminate].
      injection H as <-.
      destruct (end_fast_spec _ _ _ _ E) as (_ & _ & _ & Hp & o & He).
      cbn [vars events screenshot_path emit set_iseed set_prescale] in *.
      do 5 eexists. rewrite He, <- app_assoc. split; [reflexivity | exact Hp].
    + injection H as <-. split; reflexivity.
Qed.

Lemma count_warnings_app (m : message) (a b : list event) :
  count_warnings m (a ++ b) = (count_warnings m a + count_warnings m b)%nat.
Proof. unfold count_warnings. now rewrite filter_app, length_app. Qed.

Lemma count_warnings_none (m : message) (l : list event) :
  (forall e, In e l -> is_warning m e = false) -> count_warnings m l = O.
Proof.
  unfold count_warnings. induction l as [|e l IH]; intros H; [reflexivity|].
  cbn [filter]. rewrite (H e (or_introl eq_refl)). apply IH.
  intros e' He'. apply H. now right.
Qed.

Lemma enter_warned (m : message) (cfg : core_config) (tr : bool) (st : vi_state) :
  warned m (vi_update_enter cfg tr st) = warned m st.
Proof. destruct m; cbn [warned]; apply enter_vars; discriminate. Qed.

Lemma start_of_warnings (m : message) (cfg : core_config) (regs : vi_regs)
    (st : vi_state) :
  one_time m ->
  exists w : bool,
    count_warnings m (events (snd (start_of cfg regs st)))
    = (count_warnings m (events st) + (if w then 1 else 0))%nat
    /\ warned m (snd (start_of cfg regs st)) = (if w then 1 else warned m st)
    /\ (w = true -> warned m st = 0).
Proof.
  intros Hm. unfold start_of. destruct (cfg_vi_mode cfg =? VI_MODE_NORMAL).
  - destruct (start_log regs st) as ((vw & Hev & Hvw) & Hf1 & Hf2 & _).
    rewrite Hev, !count_warnings_app.
    assert (Hz : count_warnings m vw = O).
    { apply count_warnings_none. intros e He.
      destruct (Hvw e He) as (a & b & c & ->). now destruct m. }
    rewrite Hz.
    destruct Hm as [-> | ->]; cbn [warned].
    + exists (start_warn_vbusclock regs (vars st)). rewrite Hf1.
      split; [|split; [reflexivity|] ].
      * destruct (start_warn_vbusclock regs (vars st)), (start_warn_nolerp regs (vars st)),
          (start_vactivelines_r regs >? PRESCALE_HEIGHT); cbn; lia.
      * unfold start_warn_vbusclock, truthy. intros H.
        apply andb_true_iff in H. destruct H as [_ H].
        rewrite negb_involutive in H. now apply Z.eqb_eq in H.
    + exists (start_warn_nolerp regs (vars st)). rewrite Hf2.
      split; [|split; [reflexivity|] ].
      * destruct (start_warn_vbusclock regs (vars st)), (start_warn_nolerp regs (vars st)),
          (start_vactivelines_r regs >? PRESCALE_HEIGHT); cbn; lia.
      * unfold start_warn_nolerp, truthy. intros H.
        repeat (apply andb_true_iff in H; destruct H as [H ?]).
        rewrite negb_involutive in *. bool_hyps. assumption.
  - destruct (start_fast_log regs st) as (Hev & _ & Hf1 & Hf2).
    exists false. rewrite Hev. split; [lia|]. split; [|discriminate].
    destruct Hm as [-> | ->]; cbn [warned]; assumption.
Qed.

Lemma screenshot_events_warnings (m : message) (L : leaf_ops) (path : string)
    (b w h p o : Z) :
  one_time m -> count_warnings m (screenshot_events L path b w h p o) = O.
Proof.
  intros Hm. unfold screenshot_events, write_events.
  destruct (String.eqb path EmptyString), (fopen_wb L path), Hm as [-> | ->];
    reflexivity.
Qed.

Lemma update_warnings (m : message) (L : leaf_ops) (cfg : core_config) (wn : Z)
    (tr : bool) (regs : vi_regs) (st st' : vi_state) :
  one_time m ->
  vi_update L cfg wn tr regs st = Some st' ->
  exists w : bool,
    count_warnings m (events st')
    = (count_warnings m (events st) + (if w then 1 else 0))%nat
    /\ warned m st' = (if w then 1 else warned m st)
    /\ (w = true -> warned m st = 0).
Proof.
  intros Hm H.
  pose proof (update_log L cfg wn tr regs st st' H) as Hlog.
  pose proof (update_cases L cfg wn tr regs st st' H) as [Hv _].
  cbv zeta in Hlog, Hv.
  destruct (start_of_warnings m cfg regs (vi_update_enter cfg tr st) Hm)
    as (w & Hc & Hf & Hw).
  destruct (enter_log cfg tr st) as [He _]. cbv zeta in He.
  assert (Hce : count_warnings m (events (vi_update_enter cfg tr st))
                = count_warnings m (events st)).
  { rewrite He, !count_warnings_app.
    destruct tr, (cfg_vi_mode cfg >=? VI_MODE_NUM), Hm as [-> | ->]; cbn; lia. }
  rewrite Hce, enter_warned in *.
  exists w. split; [|split; [|exact Hw] ].
  - destruct (truthy (fst (start_of cfg regs (vi_update_enter cfg tr st)))).
    + destruct Hlog as (b & wd & h & p & o & -> & _).
      rewrite count_warnings_app, Hc.
      change (ScreenUpload b wd h p o :: ?x) with ([ScreenUpload b wd h p o] ++ x).
      rewrite !count_warnings_app, (screenshot_events_warnings m L _ _ _ _ _ _ Hm).
      destruct Hm as [-> | ->]; cbn; lia.
    + destruct Hlog as [-> _]. exact Hc.
  - rewrite <- Hf. destruct Hm as [-> | ->]; cbn [warned]; now rewrite Hv.
Qed.

(** X4.  Over a whole session, whatever the frames and the configuration
    changes, each of the two one-time warnings is logged at most once, and
    not at all once its flag in [onetimewarnings] is set. *)
Theorem one_time_warnings_once (m : message) (L : leaf_ops) (wn : Z) (tr : bool)
    (frames : list (core_config * vi_regs)) (st st' : vi_state) :
  one_time m ->
  vi_updates L wn tr frames st = Some st' ->
  (count_warnings m (events st')
   <= count_warnings m (events st) + (if (warned m st =? 0)%Z then 1 else 0))%nat.
Proof.
  intros Hm. revert st.
  induction frames as [| [cfg regs] frames IH]; intros st H; cbn [vi_updates] in H.
  - injection H as <-. lia.
  - destruct (vi_update L cfg wn tr regs st) as [st1| ] eqn:E; [|discriminate].
    specialize (IH st1 H).
    destruct (update_warnings m L cfg wn tr regs st st1 Hm E) as (w & Hc & Hf & Hw).
    destruct w.
    + rewrite (Hw eq_refl). rewrite Hf in IH. cbn in IH |- *. lia.
    + rewrite Hf in IH. lia.
Qed.

(** Two frames with [vbus_clock_enable] set: one warning. *)
Lemma one_time_warnings_once_witness :
  exists st',
    vi_updates Demo.ops 1 false
      [(Demo.cfg 1 VI_MODE_NORMAL, Demo.regs 34);
       (Demo.cfg 1 VI_MODE_NORMAL, Demo.regs 34)] Demo.st0 = Some st'
    /\ count_warnings VbusClockWarning (events st') = 1%nat
    /\ (count_warnings VbusClockWarning (events st')
        <= count_warnings VbusClockWarning (events Demo.st0)
           + (if (warned VbusClockWarning Demo.st0 =? 0)%Z then 1 else 0))%nat.
Proof.
  destruct (vi_updates Demo.ops 1 false
              [(Demo.cfg 1 VI_MODE_NORMAL, Demo.regs 34);
               (Demo.cfg 1 VI_MODE_NORMAL, Demo.regs 34)] Demo.st0)
    as [st'| ] eqn:E; [|vm_compute in E; discriminate E].
  exists st'. split; [reflexivity|]. split.
  - vm_compute in E. injection E as <-. vm_compute. reflexivity.
  - apply (one_time_warnings_once VbusClockWarning Demo.ops 1 false _ _ _
             (or_introl eq_refl) E).
Defined.

Lemma land_1_cases (a : Z) : a .& 1 = 0 \/ a .& 1 = 1.
Proof. pose proof (land_bounds a 1 ltac:(lia)). lia. Qed.

(** The field statics after [vi_process_start], for every way out of it. *)
Lemma start_field_vars (regs : vi_regs) (st : vi_state) :
  let s := vars st in
  let s' := vars (snd (vi_process_start regs st)) in
  let vi := start_validinterlace regs in
  let v_start_r := (rd regs VI_V_START >> 16) .& 0x3ff in
  s' emucontrolsvicurrent = fst (infer_field regs s vi v_start_r)
  /\ s' oldlowerfield = snd (infer_field regs s vi v_start_r)
  /\ s' prevserrate = (if vi then 1 else 0)
  /\ s' prevvicurrent = (if vi then rd regs VI_V_CURRENT_LINE .& 1 else s prevvicurrent)
  /\ s' oldvstart = (if vi then v_start_r else s oldvstart).
Proof.
  cbv zeta. unfold vi_process_start, start_lowerfield. start_paths.
  all: repeat split; reflexivity.
Qed.

Lemma start_field_state (regs : vi_regs) (st : vi_state) :
  field_state_ok (vars st) -> field_state_ok (vars (snd (vi_process_start regs st))).
Proof.
  intros (Hl & He & Hs & Hc). unfold field_state_ok.
  destruct (start_field_vars regs st) as (-> & -> & -> & -> & _).
  unfold infer_field, of_bool. cbn [fst snd].
  pose proof (land_1_cases (rd regs VI_V_CURRENT_LINE)) as Hcur.
  repeat split.
  - repeat case_if; auto.
    + destruct Hcur as [-> | ->]; cbn; auto.
    + destruct Hl as [-> | ->]; cbn; auto.
  - repeat case_if; auto.
  - case_if; auto.
  - case_if; auto.
Qed.

Lemma start_fast_others (regs : vi_regs) (st : vi_state) (x : gvar) :
  fast_assigned x = false -> (snd (vi_process_start_fast regs st))@x = st@x.
Proof.
  intros Hx. unfold vi_process_start_fast. rewrite type_has_two_bits.
  destruct x; try discriminate Hx; clear Hx; fast_cases; reflexivity.
Qed.

Lemma update_field_state (L : leaf_ops) (cfg : core_config) (wn : Z) (tr : bool)
    (regs : vi_regs) (st st' : vi_state) :
  vi_update L cfg wn tr regs st = Some st' ->
  field_state_ok (vars st) -> field_state_ok (vars st').
Proof.
  intros H Hok.
  pose proof (update_cases L cfg wn tr regs st st' H) as [Hv _]. cbv zeta in Hv.
  rewrite Hv. unfold start_of.
  assert (Hok0 : field_state_ok (vars (vi_update_enter cfg tr st))).
  { unfold field_state_ok. rewrite !enter_vars by discriminate. exact Hok. }
  destruct (cfg_vi_mode cfg =? VI_MODE_NORMAL).
  - now apply start_field_state.
  - unfold field_state_ok. rewrite !start_fast_others by reflexivity. exact Hok0.
Qed.

(** X5.  Through a whole session after [vi_init], whatever the frames and
    the configuration changes, the statics that carry the field from frame
    to frame stay in their ranges: [oldlowerfield], [prevserrate] and
    [prevvicurrent] are 0 or 1, [emucontrolsvicurrent] is -1, 0 or 1. *)
Theorem session_field_state (L : leaf_ops) (wn : Z) (tr : bool)
    (frames : list (core_config * vi_regs)) (st0 st' : vi_state) :
  vi_updates L wn tr frames (vi_init st0) = Some st' ->
  field_state_ok (vars st').
Proof.
  assert (Hgen : forall st, field_state_ok (vars st) ->
            vi_updates L wn tr frames st = Some st' -> field_state_ok (vars st')).
  { induction frames as [| [cfg regs] frames IH]; intros st Hok H; cbn [vi_updates] in H.
    - injection H as <-. exact Hok.
    - destruct (vi_update L cfg wn tr regs st) as [st1| ] eqn:E; [|discriminate].
      apply (IH st1); [|exact H]. apply (update_field_state L cfg wn tr regs st st1 E Hok). }
  apply Hgen. unfold field_state_ok, vi_init.
  cbn [vars setv set_prescale upd gvar_eqb]. auto 10.
Qed.

Lemma session_field_state_witness :
  exists st',
    vi_updates Demo.ops 1 false interlaced_frames (vi_init (boot_state 1))
    = Some st'
    /\ field_state_ok (vars st').
Proof.
  destruct (vi_updates Demo.ops 1 false interlaced_frames (vi_init (boot_state 1)))
    as [st'| ] eqn:E; [|vm_compute in E; discriminate E].
  exists st'. split; [reflexivity|].
  apply (session_field_state Demo.ops 1 false interlaced_frames (boot_state 1) st' E).
Defined.

(** X6.  Two interlaced frames in a row with the same [VI_V_START], once the
    field is known not to follow [VI_V_CURRENT_LINE]
    ([emucontrolsvicurrent = 0]): the second frame is the other field. *)
Theorem interlaced_fields_alternate (regs1 regs2 : vi_regs) (st : vi_state) :
  let st1 := snd (vi_process_start regs1 st) in
  let st2 := snd (vi_process_start regs2 st1) in
  start_validinterlace regs1 = true ->
  start_validinterlace regs2 = true ->
  (rd regs2 VI_V_START >> 16) .& 0x3ff = (rd regs1 VI_V_START >> 16) .& 0x3ff ->
  st@emucontrolsvicurrent = 0 ->
  field_state_ok (vars st) ->
  st2@emucontrolsvicurrent = 0
  /\ st2@oldlowerfield = 1 - st1@oldlowerfield.
Proof.
  intros st1 st2 Hv1 Hv2 Hsame Hemu Hok.
  pose proof (start_field_state regs1 st Hok) as (Hl1 & _).
  destruct (start_field_vars regs1 st) as (He1 & _ & _ & _ & Ho1).
  destruct (start_field_vars regs2 st1) as (He2 & Hl2 & _).
  cbv zeta in *. fold st1 in He1, Ho1, Hl1. fold st2 in He2, Hl2.
  rewrite Hv1 in *. rewrite Hv2 in *.
  assert (He1' : st1@emucontrolsvicurrent = 0).
  { rewrite He1. unfold infer_field. cbn [fst]. rewrite Hemu.
    now rewrite andb_false_r. }
  unfold infer_field in He2, Hl2. cbn [fst snd] in He2, Hl2.
  rewrite He1' in He2, Hl2. rewrite andb_false_r in He2, Hl2.
  rewrite Ho1, Hsame, Z.eqb_refl in Hl2. cbn in Hl2.
  split; [exact He2|]. rewrite Hl2.
  destruct Hl1 as [-> | ->]; reflexivity.
Qed.

(** After two interlaced frames the third and the fourth alternate. *)
Lemma interlaced_fields_alternate_witness :
  st_field_known@emucontrolsvicurrent = 0
  /\ (snd (vi_process_start (Demo.regs 0x42) st_field_known))@oldlowerfield = 0
  /\ (snd (vi_process_start (Demo.regs 0x42)
             (snd (vi_process_start (Demo.regs 0x42) st_field_known))))@oldlowerfield
     = 1 - (snd (vi_process_start (Demo.regs 0x42) st_field_known))@oldlowerfield.
Proof.
  split; [vm_compute; reflexivity|]. split; [vm_compute; reflexivity|].
  apply (interlaced_fields_alternate (Demo.regs 0x42) (Demo.regs 0x42) st_field_known).
  - vm_compute. reflexivity.
  - vm_compute. reflexivity.
  - reflexivity.
  - vm_compute. reflexivity.
  - vm_compute. repeat split; auto.
Defined.

(** What the start stage logs: no sink call and no message of the
    screenshot writer. *)
Lemma start_of_log (cfg : core_config) (regs : vi_regs) (st : vi_state) :
  exists msgs,
    events (snd (start_of cfg regs st)) = events st ++ msgs
    /\ (forall e, In e msgs -> is_sink e = false /\ is_attempt e = false)
    /\ screenshot_path (snd (start_of cfg regs st)) = screenshot_path st.
Proof.
  unfold start_of. destruct (cfg_vi_mode cfg =? VI_MODE_NORMAL).
  - destruct (start_log regs st) as ((vw & Hev & Hvw) & _ & _ & Hp).
    eexists. split; [exact Hev|]. split; [|exact Hp].
    intros e. rewrite !in_app_iff, !in_if_single.
    intros [ [_ <-]|[ [_ <-]|[He|[_ <-] ] ] ]; try (split; reflexivity).
    destruct (Hvw e He) as (a & b & c & ->). split; reflexivity.
  - destruct (start_fast_log regs st) as (Hev & Hp & _).
    exists []. rewrite app_nil_r. split; [exact Hev|]. split; [|exact Hp].
    intros e [].
Qed.

(** One call of [vi_update]: what it logs and what it leaves of a
    screenshot request. *)
Lemma update_appends (L : leaf_ops) (cfg : core_config) (wn : Z) (tr : bool)
    (regs : vi_regs) (st st' : vi_state) :
  vi_update L cfg wn tr regs st = Some st' ->
  exists msgs,
    (forall e, In e msgs -> is_sink e = false /\ is_attempt e = false)
    /\ if truthy (fst (start_of cfg regs (vi_update_enter cfg tr st))) then
         exists b w h p o,
           events st' =
             events st ++ msgs
             ++ ScreenUpload b w h p o
                :: screenshot_events L (screenshot_path st) b w h p o
             ++ [ScreenSwap]
           /\ screenshot_path st' = EmptyString
       else events st' = events st ++ msgs
            /\ screenshot_path st' = screenshot_path st.
Proof.
  intros H. pose proof (update_log L cfg wn tr regs st st' H) as Hlog.
  cbv zeta in Hlog.
  destruct (start_of_log cfg regs (vi_update_enter cfg tr st)) as (sm & Hsm & Hns & Hp).
  destruct (enter_log cfg tr st) as [He Hpe]. cbv zeta in He, Hpe.
  rewrite Hp, Hpe, Hsm, He in Hlog.
  eexists
    ((if tr then [TraceWriteVi] else [])
     ++ (if cfg_vi_mode cfg >=? VI_MODE_NUM
         then [MsgError (InvalidViMode (cfg_vi_mode cfg))] else []) ++ sm).
  split.
  - intros e. rewrite !in_app_iff, !in_if_single.
    intros [ [_ <-]|[ [_ <-]|He' ] ]; try (split; reflexivity). now apply Hns.
  - destruct (truthy _).
    + destruct Hlog as (b & w & h & p & o & -> & Hp').
      exists b, w, h, p, o. split; [|exact Hp'].
      rewrite <- !app_assoc. reflexivity.
    + destruct Hlog as [-> ->]. split; [|reflexivity].
      rewrite <- !app_assoc. reflexivity.
Qed.

Lemma filter_none {A : Type} (f : A -> bool) (l : list A) :
  (forall e, In e l -> f e = false) -> filter f l = [].
Proof.
  induction l as [|e l IH]; intros H; [reflexivity|].
  cbn [filter]. rewrite (H e (or_introl eq_refl)). apply IH.
  intros e' He'. apply H. now right.
Qed.

(** X7.  The display sink sees a frame whole or not at all.  A call of
    [vi_update] that returns makes either no sink call (the start stage
    turned the frame down; the prescale buffer and the generator are left
    as the call found them after the mode check), or exactly this: the
    call of [screen_upload]; then, only if a screenshot is requested,
    what [vi_screenshot_write] does, that is its debug message followed by
    the file written from the rectangle of the upload or, if the file
    could not be opened, by the warning; then [screen_swap].  What the
    call logs before holds no sink call and no message of the writer. *)
Theorem update_sink_calls (L : leaf_ops) (cfg : core_config) (wn : Z) (tr : bool)
    (regs : vi_regs) (st st' : vi_state) :
  vi_update L cfg wn tr regs st = Some st' ->
  exists msgs rest,
    update_events L cfg wn tr regs st = msgs ++ rest
    /\ filter is_sink msgs = [] /\ filter is_attempt msgs = []
    /\ ((rest = []
         /\ prescale st' = prescale (vi_update_enter cfg tr st)
         /\ iseed st' = iseed st)
        \/ exists b w h p o,
             rest = ScreenUpload b w h p o
                    :: (if String.eqb (screenshot_path st) EmptyString then []
                        else [MsgDebug (WritingScreenshot (screenshot_path st));
                              if fopen_wb L (screenshot_path st)
                              then ScreenshotWrite (screenshot_path st) b w h p o
                              else MsgWarning
                                     (CantOpenScreenshot (screenshot_path st))])
                    ++ [ScreenSwap]).
Proof.
  intros H. unfold update_events. rewrite H.
  destruct (update_appends L cfg wn tr regs st st' H) as (msgs & Hns & Hsh).
  pose proof (update_cases L cfg wn tr regs st st' H) as [_ Hb]. cbv zeta in Hb.
  destruct (enter_buffers cfg tr st) as (_ & Hseed & _).
  assert (Hs : filter is_sink msgs = [])
    by (apply filter_none; intros e He; apply (Hns e He)).
  assert (Ha : filter is_attempt msgs = [])
    by (apply filter_none; intros e He; apply (Hns e He)).
  destruct (truthy _).
  - destruct Hsh as (b & w & h & p & o & -> & _).
    exists msgs. eexists. rewrite skipn_length_app.
    split; [reflexivity|]. split; [exact Hs|]. split; [exact Ha|].
    right. exists b, w, h, p, o. reflexivity.
  - destruct Hsh as [-> _]. destruct Hb as [Hb1 Hb2].
    exists msgs, []. rewrite skipn_length_app, app_nil_r.
    split; [reflexivity|]. split; [exact Hs|]. split; [exact Ha|].
    left. split; [reflexivity|]. split; [exact Hb1|]. now rewrite Hb2.
Qed.

(** A frame with a request pending: with a file system that opens the
    file, with one that does not, and on the fast path. *)
Lemma update_sink_calls_witness :
  update_events Demo.ops (Demo.cfg 1 VI_MODE_NORMAL) 1 false (Demo.regs 2) st_request
  = [ScreenUpload 8 1 2 640 4; MsgDebug (WritingScreenshot "a.bmp");
     ScreenshotWrite "a.bmp" 8 1 2 640 4; ScreenSwap]
  /\ update_events ops_no_file (Demo.cfg 1 VI_MODE_NORMAL) 1 false (Demo.regs 2)
       st_request
     = [ScreenUpload 8 1 2 640 4; MsgDebug (WritingScreenshot "a.bmp");
        MsgWarning (CantOpenScreenshot "a.bmp"); ScreenSwap]
  /\ update_events Demo.ops (Demo.cfg 1 VI_MODE_COLOR) 1 false (Demo.regs 2)
       st_request
     = [ScreenUpload 0 16 1 16 4; MsgDebug (WritingScreenshot "a.bmp");
        ScreenshotWrite "a.bmp" 0 16 1 16 4; ScreenSwap]
  /\ exists st' msgs rest,
       vi_update Demo.ops (Demo.cfg 1 VI_MODE_NORMAL) 1 false (Demo.regs 2)
         st_request = Some st'
       /\ update_events Demo.ops (Demo.cfg 1 VI_MODE_NORMAL) 1 false (Demo.regs 2)
            st_request = msgs ++ rest
       /\ filter is_sink msgs = [] /\ filter is_attempt msgs = [].
Proof.
  split; [vm_compute; reflexivity|]. split; [vm_compute; reflexivity|].
  split; [vm_compute; reflexivity|].
  destruct (vi_update Demo.ops (Demo.cfg 1 VI_MODE_NORMAL) 1 false (Demo.regs 2)
              st_request) as [st'| ] eqn:E; [|vm_compute in E; discriminate E].
  destruct (update_sink_calls Demo.ops (Demo.cfg 1 VI_MODE_NORMAL) 1 false
              (Demo.regs 2) st_request st' E) as (msgs & rest & H1 & H2 & H3 & _).
  exists st', msgs, rest. split; [reflexivity|]. split; [exact H1|].
  split; assumption.
Defined.

Lemma write_events_attempts (L : leaf_ops) (path : string) (b w h p o : Z) :
  filter is_attempt (write_events L path b w h p o) = write_events L path b w h p o.
Proof. unfold write_events. destruct (fopen_wb L path); reflexivity. Qed.

(** A session from a state in which the path [screenshot_path st] is
    pending. *)
Lemma session_screenshots (L : leaf_ops) (wn : Z) (tr : bool)
    (frames : list (core_config * vi_regs)) :
  forall st st',
    vi_updates L wn tr frames st = Some st' ->
    exists new,
      events st' = events st ++ new
      /\ ((filter is_attempt new = [] /\ screenshot_path st' = screenshot_path st)
          \/ (screenshot_path st <> EmptyString
              /\ screenshot_path st' = EmptyString
              /\ exists b w h p o,
                   filter is_attempt new
                   = write_events L (screenshot_path st) b w h p o
                   /\ In (ScreenUpload b w h p o) new)).
Proof.
  induction frames as [| [cfg regs] frames IH]; intros st st' H; cbn [vi_updates] in H.
  - injection H as <-. exists []. rewrite app_nil_r. split; [reflexivity|].
    left. split; reflexivity.
  - destruct (vi_update L cfg wn tr regs st) as [st1| ] eqn:E; [|discriminate].
    destruct (IH st1 st' H) as (new' & Hev' & Hcase).
    destruct (update_appends L cfg wn tr regs st st1 E) as (msgs & Hns & Hsh).
    assert (Hnone : filter is_attempt msgs = [])
      by (apply filter_none; intros e He; apply (Hns e He)).
    destruct (truthy _).
    + destruct Hsh as (b & w & h & p & o & Hev1 & Hp1).
      destruct Hcase as [ [Hf Hp'] | (Hne & _) ]; [|congruence].
      rewrite Hev1 in Hev'. rewrite <- !app_assoc in Hev'.
      eexists. split; [exact Hev'|].
      rewrite !filter_app, Hnone, Hf, app_nil_r. cbn [app filter is_attempt].
      rewrite filter_app. cbn [app filter is_attempt]. rewrite app_nil_r.
      unfold screenshot_events.
      destruct (String.eqb (screenshot_path st) EmptyString) eqn:Eq.
      * left. apply String.eqb_eq in Eq. split; [reflexivity|congruence].
      * right. apply String.eqb_neq in Eq. split; [exact Eq|].
        split; [congruence|]. exists b, w, h, p, o.
        split; [apply write_events_attempts|]. rewrite in_app_iff. right. now left.
    + destruct Hsh as [Hev1 Hp1]. rewrite Hev1 in Hev'. rewrite <- app_assoc in Hev'.
      eexists. split; [exact Hev'|]. rewrite filter_app, Hnone. cbn [app].
      rewrite <- Hp1.
      destruct Hcase as [ [Hf Hp'] | (Hne & Hp' & b & w & h & p & o & Hf & Hin) ].
      * left. split; assumption.
      * right. split; [exact Hne|]. split; [exact Hp'|].
        exists b, w, h, p, o. split; [exact Hf|].
        rewrite in_app_iff. now right.
Qed.



Lemma serrate_bit (raw : Z) : Ctrl.serrate raw = 0 \/ Ctrl.serrate raw = 1.
Proof.
  unfold Ctrl.serrate. pose proof (land_bounds (raw >> 6) 1 ltac:(lia)). lia.
Qed.

Lemma lowerfield_needs_serrate (regs : vi_regs) (s : statics) :
  Ctrl.serrate (rd regs VI_STATUS) = 0 -> start_lowerfield regs s = 0.
Proof.
  intros H. unfold start_lowerfield, infer_field, start_validinterlace.
  rewrite H. cbn [truthy Z.eqb negb]. rewrite andb_false_r. reflexivity.
Qed.

(** The layout [vi_process_start] leaves for a frame it accepts. *)
Lemma start_layout (regs : vi_regs) (st : vi_state) :
  truthy (fst (vi_process_start regs st)) = true ->
  let s' := vars (snd (vi_process_start regs st)) in
  s' linecount = PRESCALE_WIDTH << Ctrl.serrate (s' ctrl)
  /\ s' prescale_ptr
     = s' v_start * s' linecount + s' h_start
       + (if truthy (s' oldlowerfield) then PRESCALE_WIDTH else 0)
  /\ (Ctrl.serrate (s' ctrl) = 0 -> s' oldlowerfield = 0)
  /\ 0 <= s' v_start <= 494 /\ 0 <= s' h_start /\ 0 < s' hres
  /\ s' h_start + s' hres <= PRESCALE_WIDTH
  /\ s' v_start + s' vres <= PRESCALE_HEIGHT.
Proof.
  pose proof (land_bounds (rd regs VI_V_START >> 16) 0x3ff ltac:(lia)) as Hv.
  pose proof (serrate_bit (rd regs VI_STATUS)) as Hs.
  pose proof (lowerfield_needs_serrate regs (vars st)) as Hlf.
  unfold vi_process_start. start_paths; try discriminate.
  unfold start_hres_clamped, start_h_start_clamped, start_ispal.
  unfold PRESCALE_WIDTH, PRESCALE_HEIGHT, V_SYNC_NTSC, H_RES_NTSC, V_SYNC_PAL in *.
  revert Hlf.
  generalize (start_hres_a regs) (start_h_start_a regs) (start_lowerfield regs (vars st)).
  intros hr ha lf Hlf Hgo.
  set (vs := rd regs VI_V_START >> 16 .& 1023) in *.
  set (va := (vs - (if rd regs VI_V_SYNC .& 1023 >? 525 + 25 then 44 else 34)) ÷ 2).
  assert (Hva : -22 <= va <= 494).
  { subst va. case_if; lia. }
  clearbody va.
  unfold truthy in *.
  assert (Hgo' : 0 < (if hr + (if ha <? 0 then 0 else ha) >? 640
                      then 640 - (if ha <? 0 then 0 else ha) else hr)
                 /\ (if ha <? 0 then 0 else ha) < 640).
  { match type of Hgo with
    | negb (of_bool ((0 <? ?a) && (?b <? 640)) =? 0) = true =>
        destruct (0 <? a) eqn:E1, (b <? 640) eqn:E2; try discriminate Hgo
    end.
    bool_hyps. split; assumption. }
  clear Hgo.
  split; [|split; [|split; [|split; [|split; [|split; [|split] ] ] ] ] ].
  - destruct Hs as [-> | ->]; reflexivity.
  - unfold u32. rewrite Z.mod_small; [reflexivity|].
    destruct Hs as [-> | ->]; cbn [Z.eqb negb]; repeat case_if; bool_hyps;
      change (640 << 1) with 1280; lia.
  - exact Hlf.
  - case_if; bool_hyps; lia.
  - case_if; bool_hyps; lia.
  - tauto.
  - revert Hgo'. repeat case_if; bool_hyps; lia.
  - repeat case_if; bool_hyps; lia.
Qed.

(** The ranges of the statics the end stage computes with. *)
Lemma start_end_ranges (regs : vi_regs) (st : vi_state) :
  truthy (fst (vi_process_start regs st)) = true ->
  let s' := vars (snd (vi_process_start regs st)) in
  -512 <= s' vres <= 625 /\ 34 <= s' v_sync <= 1023.
Proof.
  pose proof (land_bounds (rd regs VI_V_START >> 16) 0x3ff ltac:(lia)) as Hv.
  pose proof (land_bounds (rd regs VI_V_START) 0x3ff ltac:(lia)) as He.
  pose proof (land_bounds (rd regs VI_V_SYNC) 0x3ff ltac:(lia)) as Hs.
  unfold vi_process_start. start_paths; try discriminate. intros _.
  unfold start_ispal, PRESCALE_WIDTH, PRESCALE_HEIGHT, V_SYNC_NTSC, H_RES_NTSC,
    V_SYNC_PAL in *.
  rewrite ?Z.shiftr_div_pow2 in * by lia. change (2 ^ 1) with 2 in *.
  repeat case_if;
    repeat match goal with
           | H : context [if ?c then _ else _] |- _ => destruct c eqn:?
           end;
    bool_hyps; lia.
Qed.

Section ScanlineCells.
Variable L : leaf_ops.
Variable g : geometry.

Lemma scanlines_cells (j_end j_add : Z) (fuel : nat) :
  forall j seed l ws seed' l',
    0 <= j_add ->
    scanlines L g j_end j_add fuel j seed l = Some ((ws, seed'), l') ->
    forall k, In k (map fst ws) ->
      exists j' i,
        j <= j' < j_end /\ 0 <= i < g_hres g
        /\ k = g_prescale_ptr g + g_linecount g * j' + i.
Proof.
  induction fuel as [|fuel IH]; intros j seed l ws seed' l' Hadd H k Hk;
    cbn [scanlines] in H.
  - destruct (j <? j_end); [discriminate|]. injection H as <- _ _. destruct Hk.
  - destruct (j <? j_end) eqn:E; bool_hyps.
    + apply bind_some in H. destruct H as ([ws1 seed1] & l1 & H1 & H).
      apply bind_some in H. destruct H as ([ws2 seed2] & l2 & H2 & H).
      injection H as <- _ _.
      rewrite map_app, in_app_iff in Hk. destruct Hk as [Hk|Hk].
      * apply scanline_columns in H1. destruct H1 as (rgbs & Hlen & ->).
        rewrite line_stores_fst, Hlen in Hk. apply in_map_iff in Hk.
        destruct Hk as (n & <- & Hn). apply in_seq in Hn.
        exists j, (Z.of_nat n). split; [lia|]. split; [lia|]. lia.
      * destruct (IH _ _ _ _ _ _ Hadd H2 k Hk) as (j' & i & Hj & Hi & ->).
        exists j', i. split; [lia|]. split; [exact Hi|reflexivity].
    + injection H as <- _ _. destruct Hk.
Qed.
End ScanlineCells.

(** The cells [vi_process] stores to. *)
Lemma normal_stores_cells (L : leaf_ops) (cfg : core_config)
    (regs : vi_regs) (st : vi_state) (worker_id worker_num seed seed' : Z)
    (ws : list (Z * Z)) :
  let s' := vars (snd (vi_process_start regs st)) in
  truthy (fst (vi_process_start regs st)) = true ->
  0 <= worker_id < 2 ^ 31 -> 0 <= worker_num < 2 ^ 31 ->
  vi_process L (geometry_of s') cfg worker_id worker_num seed = Some (ws, seed') ->
  forall k, In k (map fst ws) ->
    (exists j i,
       0 <= j < s' vres /\ 0 <= i < s' hres
       /\ s' h_start + i < PRESCALE_WIDTH
       /\ k = frame_row s' j * PRESCALE_WIDTH + s' h_start + i)
    /\ (Ctrl.serrate (s' ctrl) = 0 \/ 2 * (s' v_start + s' vres) <= PRESCALE_HEIGHT ->
        0 <= k < PRESCALE_SIZE).
Proof.
  intros s' Hgo Hid Hwn Hrun k Hk.
  destruct (start_layout regs st Hgo)
    as (Hlc & Hptr & Hlf & Hvs & Hhs & Hhres & Hw & Hh).
  fold s' in Hlc, Hptr, Hlf, Hvs, Hhs, Hhres, Hw, Hh.
  unfold vi_process in Hrun.
  destruct (scanlines _ _ _ _ _ _ _ _) as [ [ [ws0 seed0] l']| ] eqn:E; [|discriminate].
  injection Hrun as -> ->.
  assert (Hadd : 0 <= (if negb (num_workers cfg =? 1) then s32 worker_num else 1)).
  { case_if; [rewrite s32_small|]; lia. }
  destruct (scanlines_cells L _ _ _ _ _ _ _ _ _ _ Hadd E k Hk) as (j & i & Hj & Hi & ->).
  cbn [geometry_of g_hres g_vres g_prescale_ptr g_linecount] in *.
  assert (Hj0 : 0 <= j).
  { destruct Hj as [Hj _]. revert Hj. case_if; [rewrite s32_small|]; lia. }
  assert (Hrow : s' prescale_ptr + s' linecount * j + i
                 = frame_row s' j * PRESCALE_WIDTH + s' h_start + i).
  { rewrite Hptr, Hlc. unfold frame_row.
    rewrite !Z.shiftl_mul_pow2 by (destruct (serrate_bit (s' ctrl)); lia).
    case_if; ring. }
  split.
  - exists j, i. split; [lia|]. split; [exact Hi|]. split; [lia|exact Hrow].
  - rewrite Hptr, Hlc. unfold PRESCALE_SIZE, PRESCALE_WIDTH, PRESCALE_HEIGHT,
      H_RES_NTSC, V_SYNC_PAL in *.
    destruct (serrate_bit (s' ctrl)) as [Hs|Hs]; rewrite Hs in *.
    + intros _. rewrite (Hlf eq_refl). cbn [truthy Z.eqb negb].
      change (640 << 0) with 640. nia.
    + intros [Hc|Hc]; [discriminate|]. change (640 << 1) with 1280.
      case_if; nia.
Qed.

(** X9.  Where [vi_process] stores.  In a frame that [vi_process_start]
    accepts, every store of every worker goes to a cell
    [row * PRESCALE_WIDTH + h_start + i] with [i] a column of the window
    (so never past the end of its row) and [row] the row of a scanline
    [j] of the window: [v_start + j], or with [serrate] set
    [2 * (v_start + j)] plus one for the lower field.  The cell lies inside
    the prescale buffer when [serrate] is clear, and with [serrate] set when
    [2 * (v_start + vres)] does not exceed [PRESCALE_HEIGHT]. *)
Theorem normal_stores_placement (L : leaf_ops) (cfg : core_config)
    (regs : vi_regs) (st : vi_state) (worker_id worker_num seed seed' : Z)
    (ws : list (Z * Z)) :
  let s' := vars (snd (vi_process_start regs st)) in
  truthy (fst (vi_process_start regs st)) = true ->
  0 <= worker_id < 2 ^ 31 -> 0 <= worker_num < 2 ^ 31 ->
  vi_process L (geometry_of s') cfg worker_id worker_num seed = Some (ws, seed') ->
  forall k, In k (map fst ws) ->
    (exists j i,
       0 <= j < s' vres /\ 0 <= i < s' hres
       /\ s' h_start + i < PRESCALE_WIDTH
       /\ k = frame_row s' j * PRESCALE_WIDTH + s' h_start + i)
    /\ (Ctrl.serrate (s' ctrl) = 0 \/ 2 * (s' v_start + s' vres) <= PRESCALE_HEIGHT ->
        0 <= k < PRESCALE_SIZE).
Proof. exact (normal_stores_cells L cfg regs st worker_id worker_num seed seed' ws). Qed.

(** Worker 1 of 2 draws line 1 of [Demo.regs 2]: row 1, columns 0 to 15. *)
Lemma normal_stores_placement_witness :
  option_map (fun r => map fst (fst r))
    (vi_process Demo.ops
       (geometry_of (vars (snd (vi_process_start (Demo.regs 2) Demo.st0))))
       (Demo.cfg 2 VI_MODE_NORMAL) 1 2 5)
  = Some [640; 641; 642; 643; 644; 645; 646; 647;
          648; 649; 650; 651; 652; 653; 654; 655]
  /\ exists ws seed',
       vi_process Demo.ops
         (geometry_of (vars (snd (vi_process_start (Demo.regs 2) Demo.st0))))
         (Demo.cfg 2 VI_MODE_NORMAL) 1 2 5 = Some (ws, seed')
       /\ forall k, In k (map fst ws) -> 0 <= k < PRESCALE_SIZE.
Proof.
  split; [vm_compute; reflexivity|].
  destruct (vi_process Demo.ops
              (geometry_of (vars (snd (vi_process_start (Demo.regs 2) Demo.st0))))
              (Demo.cfg 2 VI_MODE_NORMAL) 1 2 5) as [ [ws seed']| ] eqn:E;
    [|vm_compute in E; discriminate E].
  exists ws, seed'. split; [reflexivity|]. intros k Hk.
  apply (normal_stores_placement Demo.ops (Demo.cfg 2 VI_MODE_NORMAL)
           (Demo.regs 2) Demo.st0 1 2 5 seed' ws); try assumption.
  - vm_compute. reflexivity.
  - lia.
  - lia.
  - left. vm_compute. reflexivity.
Defined.

Lemma runs_bind {A B : Type} (m : M A) (f : A -> M B) (l : locals)
    (Q : B -> locals -> Prop) :
  runs m l (fun a l1 => runs (f a) l1 Q) -> runs (bind m f) l Q.
Proof.
  intros (a & l1 & Hm & b & l2 & Hf & HQ). exists b, l2. split; [|exact HQ].
  unfold bind. now rewrite Hm.
Qed.

Lemma runs_weaken {A : Type} (m : M A) (l : locals) (P Q : A -> locals -> Prop) :
  runs m l P -> (forall a l', P a l' -> Q a l') -> runs m l Q.
Proof. intros (a & l' & Hm & HP) H. exists a, l'. auto. Qed.

Lemma runs_ret {A : Type} (a : A) (l : locals) (Q : A -> locals -> Prop) :
  Q a l -> runs (ret a) l Q.
Proof. intros H. exists a, l. split; [reflexivity|exact H]. Qed.

Lemma grows_refl (l : locals) : grows l l.
Proof. split; auto. Qed.

Lemma grows_trans (a b c : locals) : grows a b -> grows b c -> grows a c.
Proof.
  intros [Hb1 Hh1] [Hb2 Hh2]. split.
  - intros x. now rewrite Hb2.
  - auto.
Qed.

Lemma grows_bases (l l' : locals) : grows l l' -> bases_ok l -> bases_ok l'.
Proof. intros [Hb _] H c. rewrite Hb. apply H. Qed.

Lemma written_grows (lo : Z) (c : cache_id) (l l' : locals) :
  grows l l' -> marker c l' = marker c l -> written_from lo c l ->
  written_from lo c l'.
Proof.
  intros [_ Hh] Hm H col Hcol. apply Hh, H. now rewrite <- Hm.
Qed.

Lemma in_array_ok (l : locals) (c : cache_id) (i : Z) :
  bases_ok l -> 0 <= i < CACHE_LEN -> in_array (base c l + i) = true.
Proof.
  intros Hb Hi. unfold in_array, CACHE_LEN in *. change (2576 << 1) with 5152.
  destruct (Hb c) as [-> | ->]; apply andb_true_iff;
    (split; [apply Z.leb_le|apply Z.ltb_lt]); unfold CACHE_LEN; lia.
Qed.

(** The three accesses. *)
Lemma store_runs (c : cache_id) (i : Z) (v : ccvg) (l : locals) :
  bases_ok l -> 0 <= i < CACHE_LEN ->
  runs (store c i v) l
    (fun _ l' => grows l l' /\ has c l' i /\ forall c', marker c' l' = marker c' l).
Proof.
  intros Hb Hi. exists tt. eexists. unfold store.
  rewrite (in_array_ok l c i Hb Hi). split; [reflexivity|].
  split; [|split].
  - split.
    + intros c'. now destruct c, c'.
    + intros c' col Hh. unfold has in *.
      destruct c, c'; cbn [array base record with_cell viaa_array divot_array
                           viaa_cache viaa_cache_next divot_cache divot_cache_next] in *;
        try exact Hh; case_if; congruence.
  - unfold has.
    destruct c; cbn [array base record with_cell viaa_array divot_array
                     viaa_cache viaa_cache_next divot_cache divot_cache_next];
      rewrite Z.eqb_refl; discriminate.
  - intros c'. now destruct c, c'.
Qed.

Lemma load_runs (c : cache_id) (i : Z) (l : locals) :
  bases_ok l -> 0 <= i < CACHE_LEN -> has c l i ->
  runs (load c i) l
    (fun _ l' => grows l l' /\ forall c', marker c' l' = marker c' l).
Proof.
  intros Hb Hi Hh. unfold load, runs. rewrite (in_array_ok l c i Hb Hi).
  unfold has in Hh. destruct (array c l (base c l + i)) as [v| ]; [|congruence].
  exists v. eexists. split; [reflexivity|]. split.
  - split; [intros c'; now destruct c'|]. intros c' col H. exact H.
  - intros c'. now destruct c'.
Qed.

Lemma set_marker_runs (c : cache_id) (v : Z) (l : locals) :
  runs (set_marker c v) l
    (fun _ l' => grows l l' /\ marker c l' = v
                 /\ forall c', c' <> c -> marker c' l' = marker c' l).
Proof.
  exists tt. eexists. split; [reflexivity|]. split; [|split].
  - split; [intros c'; now destruct c, c'|]. intros c' col H.
    unfold has in *. now destruct c, c'.
  - now destruct c.
  - intros c' Hne. destruct c, c'; try reflexivity; congruence.
Qed.

Lemma get_marker_runs (c : cache_id) (l : locals) (Q : Z -> locals -> Prop) :
  Q (marker c l) l -> runs (get_marker c) l Q.
Proof. intros H. exists (marker c l), l. split; [reflexivity|exact H]. Qed.

Ltac run_step lem :=
  apply runs_bind; eapply runs_weaken; [eapply lem | cbv beta].

Section Runs.
Variable L : leaf_ops.
Variable g : geometry.

Lemma fetch_runs (c : cache_id) (i x fs : Z) (l : locals) :
  bases_ok l -> 0 <= i < CACHE_LEN ->
  runs (fetch L g c i x fs) l
    (fun _ l' => grows l l' /\ has c l' i /\ forall c', marker c' l' = marker c' l).
Proof. unfold fetch. apply store_runs. Qed.

(** Lines 531-548 and 550-567. *)
Lemma fill_window_runs (c : cache_id) (p px cx nx fs : Z) (l : locals) :
  bases_ok l -> 0 <= p -> p + 3 < CACHE_LEN -> written_from p c l ->
  runs (fill_window L g c p (p + 1) (p + 2) px cx nx fs) l
    (fun _ l' => grows l l' /\ written_from p c l' /\ p + 2 <= marker c l'
                 /\ forall c', c' <> c -> marker c' l' = marker c' l).
Proof.
  intros Hb Hp0 Hp Hw. unfold fill_window.
  apply runs_bind, get_marker_runs.
  destruct (p >? marker c l) eqn:E1;
    [|destruct (p + 1 >? marker c l) eqn:E2;
      [|destruct (p + 2 >? marker c l) eqn:E3] ]; bool_hyps.
  - run_step fetch_runs; [assumption|lia|]. intros [] l1 (G1 & H1 & M1).
    pose proof (grows_bases _ _ G1 Hb) as Hb1.
    run_step fetch_runs; [assumption|lia|]. intros [] l2 (G2 & H2 & M2).
    pose proof (grows_bases _ _ G2 Hb1) as Hb2.
    run_step fetch_runs; [assumption|lia|]. intros [] l3 (G3 & H3 & M3).
    eapply runs_weaken; [apply set_marker_runs|]. intros [] l4 (G4 & Hm & Mo).
    split; [|split; [|split] ].
    + eauto using grows_trans.
    + intros col Hcol. rewrite Hm in Hcol.
      assert (Hc : col = p \/ col = p + 1 \/ col = p + 2) by lia.
      destruct Hc as [-> |[-> | ->] ].
      * apply G4, G3, G2, H1.
      * apply G4, G3, H2.
      * apply G4, H3.
    + lia.
    + intros c' Hne. now rewrite (Mo c' Hne), M3, M2, M1.
  - run_step fetch_runs; [assumption|lia|]. intros [] l2 (G2 & H2 & M2).
    pose proof (grows_bases _ _ G2 Hb) as Hb2.
    run_step fetch_runs; [assumption|lia|]. intros [] l3 (G3 & H3 & M3).
    eapply runs_weaken; [apply set_marker_runs|]. intros [] l4 (G4 & Hm & Mo).
    split; [|split; [|split] ].
    + eauto using grows_trans.
    + intros col Hcol. rewrite Hm in Hcol.
      assert (Hc : col = p \/ col = p + 1 \/ col = p + 2) by lia.
      destruct Hc as [-> |[-> | ->] ].
      * apply G4, G3, G2, Hw. lia.
      * apply G4, G3, H2.
      * apply G4, H3.
    + lia.
    + intros c' Hne. now rewrite (Mo c' Hne), M3, M2.
  - run_step fetch_runs; [assumption|lia|]. intros [] l3 (G3 & H3 & M3).
    eapply runs_weaken; [apply set_marker_runs|]. intros [] l4 (G4 & Hm & Mo).
    split; [|split; [|split] ].
    + eauto using grows_trans.
    + intros col Hcol. rewrite Hm in Hcol.
      assert (Hc : col = p \/ col = p + 1 \/ col = p + 2) by lia.
      destruct Hc as [-> |[-> | ->] ].
      * apply G4, G3, Hw. lia.
      * apply G4, G3, Hw. lia.
      * apply G4, H3.
    + lia.
    + intros c' Hne. now rewrite (Mo c' Hne), M3.
  - apply runs_ret. split; [apply grows_refl|]. split; [exact Hw|].
    split; [lia|reflexivity].
Qed.

(** Lines 571-575 and 577-581. *)
Lemma fill_far_runs (c : cache_id) (p fx fs : Z) (l : locals) :
  bases_ok l -> 0 <= p -> p + 3 < CACHE_LEN ->
  written_from p c l -> p + 2 <= marker c l ->
  runs (fill_far L g c (p + 3) fx fs) l
    (fun _ l' => grows l l' /\ written_from p c l' /\ p + 3 <= marker c l'
                 /\ forall c', c' <> c -> marker c' l' = marker c' l).
Proof.
  intros Hb Hp0 Hp Hw Hm. unfold fill_far.
  apply runs_bind, get_marker_runs.
  destruct (p + 3 >? marker c l) eqn:E; bool_hyps.
  - run_step fetch_runs; [assumption|lia|]. intros [] l1 (G1 & H1 & M1).
    eapply runs_weaken; [apply set_marker_runs|]. intros [] l2 (G2 & Hm2 & Mo).
    split; [|split; [|split] ].
    + eauto using grows_trans.
    + intros col Hcol. rewrite Hm2 in Hcol.
      destruct (Z.eq_dec col (p + 3)) as [-> |Hne].
      * apply G2, H1.
      * apply G2, G1, Hw. lia.
    + lia.
    + intros c' Hne. now rewrite (Mo c' Hne), M1.
  - apply runs_ret. split; [apply grows_refl|]. split; [exact Hw|].
    split; [lia|reflexivity].
Qed.

(** [divot_filter(&d[i], c[center], c[left], c[right])]. *)
Lemma divot_at_runs (d c : cache_id) (i center left right : Z) (l : locals) :
  bases_ok l ->
  0 <= i < CACHE_LEN -> 0 <= center < CACHE_LEN -> 0 <= left < CACHE_LEN ->
  0 <= right < CACHE_LEN ->
  has c l center -> has c l left -> has c l right ->
  runs (divot_at L d c i center left right) l
    (fun _ l' => grows l l' /\ has d l' i /\ forall c', marker c' l' = marker c' l).
Proof.
  intros Hb Hi Hc Hl Hr Hhc Hhl Hhr. unfold divot_at.
  run_step load_runs; [assumption..|]. intros vc l1 (G1 & M1).
  pose proof (grows_bases _ _ G1 Hb) as Hb1.
  run_step load_runs; [assumption|assumption|apply G1, Hhl|]. intros vl l2 (G2 & M2).
  pose proof (grows_bases _ _ G2 Hb1) as Hb2.
  run_step load_runs; [assumption|assumption|apply G2, G1, Hhr|]. intros vr l3 (G3 & M3).
  pose proof (grows_bases _ _ G3 Hb2) as Hb3.
  eapply runs_weaken; [apply store_runs; assumption|].
  intros [] l4 (G4 & H4 & M4). split; [|split].
  - eauto using grows_trans.
  - exact H4.
  - intros c'. now rewrite M4, M3, M2, M1.
Qed.

(** Lines 583-593 and 595-605. *)
Lemma fill_divot_runs (d c : cache_id) (p : Z) (l : locals) :
  bases_ok l -> 0 <= p -> p + 3 < CACHE_LEN -> d <> c ->
  written_from p c l -> p + 3 <= marker c l -> written_from (p + 1) d l ->
  runs (fill_divot L d c p (p + 1) (p + 2) (p + 3)) l
    (fun _ l' => grows l l' /\ written_from (p + 1) d l' /\ p + 2 <= marker d l'
                 /\ forall c', c' <> d -> marker c' l' = marker c' l).
Proof.
  intros Hb Hp0 Hp Hdc Hw Hm Hwd. unfold fill_divot.
  apply runs_bind, get_marker_runs.
  assert (Hc : forall col, p <= col <= p + 3 -> has c l col).
  { intros col Hcol. apply Hw. lia. }
  destruct (p + 1 >? marker d l) eqn:E1;
    [|destruct (p + 2 >? marker d l) eqn:E2]; bool_hyps.
  - run_step divot_at_runs; [assumption|lia|lia|lia|lia|apply Hc; lia..|].
    intros [] l1 (G1 & H1 & M1). pose proof (grows_bases _ _ G1 Hb) as Hb1.
    run_step divot_at_runs; [assumption|lia|lia|lia|lia|apply G1, Hc; lia..|].
    intros [] l2 (G2 & H2 & M2).
    eapply runs_weaken; [apply set_marker_runs|]. intros [] l3 (G3 & Hm3 & Mo).
    split; [|split; [|split] ].
    + eauto using grows_trans.
    + intros col Hcol. rewrite Hm3 in Hcol.
      assert (Hcc : col = p + 1 \/ col = p + 2) by lia.
      destruct Hcc as [-> | ->]; [apply G3, G2, H1|apply G3, H2].
    + lia.
    + intros c' Hne. now rewrite (Mo c' Hne), M2, M1.
  - run_step divot_at_runs; [assumption|lia|lia|lia|lia|apply Hc; lia..|].
    intros [] l2 (G2 & H2 & M2).
    eapply runs_weaken; [apply set_marker_runs|]. intros [] l3 (G3 & Hm3 & Mo).
    split; [|split; [|split] ].
    + eauto using grows_trans.
    + intros col Hcol. rewrite Hm3 in Hcol.
      assert (Hcc : col = p + 1 \/ col = p + 2) by lia.
      destruct Hcc as [-> | ->]; [apply G3, G2, Hwd; lia|apply G3, H2].
    + lia.
    + intros c' Hne. now rewrite (Mo c' Hne), M2.
  - apply runs_ret. split; [apply grows_refl|]. split; [exact Hwd|].
    split; [lia|reflexivity].
Qed.
End Runs.

Section RunsColumn.
Variable L : leaf_ops.
Variable g : geometry.

Lemma column_inv_grows (p : Z) (l l' : locals) :
  grows l l' -> (forall c, marker c l' = marker c l) ->
  column_inv g p l -> column_inv g p l'.
Proof.
  intros G M (Hb & Wa & Wb & Wd).
  split; [eapply grows_bases; eauto|].
  split; [eapply written_grows; eauto|].
  split; [eapply written_grows; eauto|].
  intros Hd. destruct (Wd Hd). split; eapply written_grows; eauto.
Qed.

Lemma column_inv_from (p p' : Z) (l : locals) :
  p <= p' -> column_inv g p l -> column_inv g p' l.
Proof.
  intros Hle (Hb & Wa & Wb & Wd).
  split; [exact Hb|].
  split; [intros col Hc; apply Wa; lia|].
  split; [intros col Hc; apply Wb; lia|].
  intros Hd. destruct (Wd Hd) as [W1 W2].
  split; intros col Hc; [apply W1|apply W2]; lia.
Qed.

(** Lines 614-632. *)
Lemma lerp_runs (ca cb : cache_id) (color : ccvg) (yfrac xfrac p : Z)
    (lerping : bool) (l : locals) :
  bases_ok l -> 0 <= p -> p + 3 < CACHE_LEN ->
  has ca l (p + 2) -> has cb l (p + 1) -> has cb l (p + 2) ->
  runs (if lerping then
          nextcolor <- load ca (p + 2) ;;
          scancolor <- load cb (p + 1) ;;
          scannextcolor <- load cb (p + 2) ;;
          let color := vi_vl_lerp L color scancolor yfrac in
          let nextcolor := vi_vl_lerp L nextcolor scannextcolor yfrac in
          ret (vi_vl_lerp L color nextcolor xfrac)
        else ret color) l
    (fun _ l' => grows l l' /\ forall c, marker c l' = marker c l).
Proof.
  intros Hb Hp0 Hp H1 H2 H3. destruct lerping.
  - run_step load_runs; [assumption|lia|assumption|]. intros v1 l1 (G1 & M1).
    pose proof (grows_bases _ _ G1 Hb) as Hb1.
    run_step load_runs; [assumption|lia|apply G1, H2|]. intros v2 l2 (G2 & M2).
    pose proof (grows_bases _ _ G2 Hb1) as Hb2.
    run_step load_runs; [assumption|lia|apply G2, G1, H3|]. intros v3 l3 (G3 & M3).
    apply runs_ret. split; [eauto using grows_trans|].
    intros c. now rewrite M3, M2, M1.
  - apply runs_ret. split; [apply grows_refl|reflexivity].
Qed.

(** Lines 507-632: one column runs, and leaves what the next one needs. *)
Lemma column_color_runs (yfrac pixels nextpixels fs x_start : Z) (l : locals) :
  0 <= x_start >> 10 -> (x_start >> 10) + 3 < CACHE_LEN ->
  column_inv g (x_start >> 10) l ->
  runs (column_color L g yfrac pixels nextpixels fs x_start) l
    (fun _ l' => column_inv g (x_start >> 10) l').
Proof.
  intros Hp0 Hp (Hb & Wa & Wb & Wd). unfold column_color. cbv zeta.
  set (p := x_start >> 10) in *.
  replace (p - 1 + 1) with p by lia.
  replace (p + 1 + 1) with (p + 2) by lia.
  replace (p + 2 + 1) with (p + 3) by lia.
  run_step fill_window_runs; [assumption..|]. intros [] l1 (G1 & Wa1 & Ma1 & O1).
  pose proof (grows_bases _ _ G1 Hb) as Hb1.
  assert (Wb1 : written_from p ViaaNext l1)
    by (eapply written_grows; eauto; apply O1; discriminate).
  run_step fill_window_runs; [assumption..|]. intros [] l2 (G2 & Wb2 & Mb2 & O2).
  pose proof (grows_bases _ _ G2 Hb1) as Hb2.
  assert (Wa2 : written_from p Viaa l2)
    by (eapply written_grows; eauto; apply O2; discriminate).
  assert (Ma2 : p + 2 <= marker Viaa l2)
    by (rewrite O2 by discriminate; exact Ma1).
  destruct (truthy (Ctrl.divot_enable (g_ctrl g))) eqn:Hdiv.
  - destruct (Wd eq_refl) as [Wd0 Wdn0].
    assert (Wd2 : written_from (p + 1) Divot l2).
    { eapply written_grows; [exact G2|apply O2; discriminate|].
      eapply written_grows; [exact G1|apply O1; discriminate|exact Wd0]. }
    assert (Wdn2 : written_from (p + 1) DivotNext l2).
    { eapply written_grows; [exact G2|apply O2; discriminate|].
      eapply written_grows; [exact G1|apply O1; discriminate|exact Wdn0]. }
    apply runs_bind.
    run_step fill_far_runs; [assumption..|]. intros [] l3 (G3 & Wa3 & Ma3 & O3).
    pose proof (grows_bases _ _ G3 Hb2) as Hb3.
    assert (Wb3 : written_from p ViaaNext l3)
      by (eapply written_grows; eauto; apply O3; discriminate).
    assert (Mb3 : p + 2 <= marker ViaaNext l3)
      by (rewrite O3 by discriminate; exact Mb2).
    run_step fill_far_runs; [assumption..|]. intros [] l4 (G4 & Wb4 & Mb4 & O4).
    pose proof (grows_bases _ _ G4 Hb3) as Hb4.
    assert (Wa4 : written_from p Viaa l4)
      by (eapply written_grows; eauto; apply O4; discriminate).
    assert (Ma4 : p + 3 <= marker Viaa l4)
      by (rewrite O4 by discriminate; exact Ma3).
    assert (Wd4 : written_from (p + 1) Divot l4).
    { eapply written_grows; [exact G4|apply O4; discriminate|].
      eapply written_grows; [exact G3|apply O3; discriminate|exact Wd2]. }
    assert (Wdn4 : written_from (p + 1) DivotNext l4).
    { eapply written_grows; [exact G4|apply O4; discriminate|].
      eapply written_grows; [exact G3|apply O3; discriminate|exact Wdn2]. }
    run_step fill_divot_runs; [assumption|assumption|assumption|discriminate|
                           exact Wa4|exact Ma4|exact Wd4|].
    intros [] l5 (G5 & Wd5 & Md5 & O5).
    pose proof (grows_bases _ _ G5 Hb4) as Hb5.
    assert (Wa5 : written_from p Viaa l5)
      by (eapply written_grows; eauto; apply O5; discriminate).
    assert (Wb5 : written_from p ViaaNext l5)
      by (eapply written_grows; eauto; apply O5; discriminate).
    assert (Mb5 : p + 3 <= marker ViaaNext l5)
      by (rewrite O5 by discriminate; exact Mb4).
    assert (Wdn5 : written_from (p + 1) DivotNext l5)
      by (eapply written_grows; eauto; apply O5; discriminate).
    run_step fill_divot_runs; [assumption|assumption|assumption|discriminate|
                           exact Wb5|exact Mb5|exact Wdn5|].
    intros [] l6 (G6 & Wdn6 & Mdn6 & O6).
    pose proof (grows_bases _ _ G6 Hb5) as Hb6.
    assert (Wa6 : written_from p Viaa l6)
      by (eapply written_grows; eauto; apply O6; discriminate).
    assert (Wb6 : written_from p ViaaNext l6)
      by (eapply written_grows; eauto; apply O6; discriminate).
    assert (Wd6 : written_from (p + 1) Divot l6)
      by (eapply written_grows; eauto; apply O6; discriminate).
    assert (Md6 : p + 2 <= marker Divot l6)
      by (rewrite O6 by discriminate; exact Md5).
    assert (I6 : column_inv g p l6).
    { split; [exact Hb6|]. split; [exact Wa6|]. split; [exact Wb6|].
      intros _. split; assumption. }
    eapply runs_weaken; [apply load_runs; [assumption|lia|apply Wd6; lia] |].
    intros color l7 (G7 & M7).
    eapply runs_weaken;
      [apply lerp_runs; [eapply grows_bases; eauto|assumption|assumption|..] |].
    + apply G7, Wd6. lia.
    + apply G7, Wdn6. lia.
    + apply G7, Wdn6. lia.
    + intros v l8 (G8 & M8). cbv beta.
      eapply column_inv_grows; [exact G8|exact M8|].
      eapply column_inv_grows; [exact G7|exact M7|exact I6].
  - assert (I2 : column_inv g p l2).
    { split; [exact Hb2|]. split; [exact Wa2|]. split; [exact Wb2|].
      intros Hd. congruence. }
    apply runs_bind.
    eapply runs_weaken; [apply load_runs; [assumption|lia|apply Wa2; lia] |].
    intros color l7 (G7 & M7).
    eapply runs_weaken;
      [apply lerp_runs; [eapply grows_bases; eauto|assumption|assumption|..] |].
    + apply G7, Wa2. lia.
    + apply G7, Wb2. lia.
    + apply G7, Wb2. lia.
    + intros v l8 (G8 & M8). cbv beta.
      eapply column_inv_grows; [exact G8|exact M8|].
      eapply column_inv_grows; [exact G7|exact M7|exact I2].
Qed.
End RunsColumn.

Section RunsLine.
Variable L : leaf_ops.
Variable g : geometry.

(** Lines 505-644. *)
Lemma columns_runs (d yfrac pixels nextpixels fs : Z) (n : nat) :
  forall i x_start seed l,
    0 <= x_start -> 0 <= g_x_add g ->
    (x_start + (Z.of_nat n - 1) * g_x_add g) >> 10 < CACHE_LEN - 3 ->
    x_start + Z.of_nat n * g_x_add g < 2 ^ 32 ->
    column_inv g (x_start >> 10) l ->
    runs (columns L g d yfrac pixels nextpixels fs n i x_start seed) l
      (fun _ l' => bases_ok l').
Proof.
  induction n as [|n IH]; intros i x_start seed l Hx Ha Hlast Hwrap Hinv;
    cbn [columns].
  - apply runs_ret. apply Hinv.
  - assert (Hp0 : 0 <= x_start >> 10) by (apply Z.shiftr_nonneg; lia).
    assert (Hp : (x_start >> 10) + 3 < CACHE_LEN).
    { pose proof (shiftr10_mono x_start (x_start + (Z.of_nat (S n) - 1) * g_x_add g)
                    ltac:(nia)). lia. }
    run_step column_color_runs; [assumption..|]. intros color l1 I1.
    destruct (gamma_filters L seed _ (g_ctrl g)) as [seed1 rgb].
    assert (Hu : u32 (x_start + g_x_add g) = x_start + g_x_add g).
    { unfold u32. apply Z.mod_small. nia. }
    rewrite Hu.
    apply runs_bind. eapply runs_weaken.
    + apply IH; try lia; try nia.
      * replace (x_start + g_x_add g + (Z.of_nat n - 1) * g_x_add g)
          with (x_start + (Z.of_nat (S n) - 1) * g_x_add g) by lia.
        exact Hlast.
      * eapply column_inv_from; [|exact I1]. apply shiftr10_mono. lia.
    + intros [ws seed2] l2 Hb2. apply runs_ret. exact Hb2.
Qed.

(** Lines 490-492. *)
Lemma line_begin_runs (l : locals) :
  bases_ok l ->
  runs (line_begin g) l
    (fun _ l' =>
       bases_ok l'
       /\ marker Viaa l' = cache_marker_init g
       /\ marker ViaaNext l' = cache_marker_init g
       /\ (truthy (Ctrl.divot_enable (g_ctrl g)) = true ->
           marker Divot l' = cache_marker_init g
           /\ marker DivotNext l' = cache_marker_init g)).
Proof.
  intros Hb. unfold line_begin.
  run_step set_marker_runs. intros [] l1 (G1 & M1 & O1).
  run_step set_marker_runs. intros [] l2 (G2 & M2 & O2).
  destruct (truthy (Ctrl.divot_enable (g_ctrl g))).
  - run_step set_marker_runs. intros [] l3 (G3 & M3 & O3).
    eapply runs_weaken; [apply set_marker_runs|]. intros [] l4 (G4 & M4 & O4).
    split; [eauto using grows_bases|].
    split; [now rewrite O4, O3 by discriminate|].
    split; [now rewrite O4, O3, O2 by discriminate|].
    intros _. split; [exact M4|]. now rewrite O4 by discriminate.
  - apply runs_ret. split; [eauto using grows_bases|].
    split; [exact M2|]. split; [now rewrite O2 by discriminate|discriminate].
Qed.

(** Lines 646-663. *)
Lemma line_end_runs (l : locals) :
  bases_ok l -> runs (line_end g) l (fun _ l' => bases_ok l').
Proof.
  intros Hb.
  assert (Hswap : runs
            (m <- get_marker ViaaNext ;;
             set_marker Viaa m ;;
             set_marker ViaaNext (cache_marker_init g) ;;
             (fun l => Some (tt, swap_viaa l)) ;;
             (if truthy (Ctrl.divot_enable (g_ctrl g)) then
                m <- get_marker DivotNext ;;
                set_marker Divot m ;;
                set_marker DivotNext (cache_marker_init g) ;;
                (fun l => Some (tt, swap_divot l))
              else ret tt) ;;
             (fun l => Some (tt, with_cache_init true l))) l
            (fun _ l' => bases_ok l')).
  { apply runs_bind, get_marker_runs.
    run_step set_marker_runs. intros [] l1 (G1 & _).
    run_step set_marker_runs. intros [] l2 (G2 & _).
    pose proof (grows_bases _ _ G2 (grows_bases _ _ G1 Hb)) as Hb2.
    apply runs_bind. exists tt, (swap_viaa l2). split; [reflexivity|].
    assert (Hb3 : bases_ok (swap_viaa l2)).
    { intros c. destruct c; cbn; [apply (Hb2 ViaaNext)|apply (Hb2 Viaa)|
                               apply (Hb2 Divot)|apply (Hb2 DivotNext)]. }
    apply runs_bind.
    assert (Hdiv : runs
              (if truthy (Ctrl.divot_enable (g_ctrl g))
               then
                 m <- get_marker DivotNext;;
                 set_marker Divot m;;
                 set_marker DivotNext (cache_marker_init g);;
                 (fun l0 : locals => Some (tt, swap_divot l0))
               else ret tt) (swap_viaa l2) (fun _ l' => bases_ok l')).
    { destruct (truthy _); [|apply runs_ret; exact Hb3].
      apply runs_bind, get_marker_runs.
      run_step set_marker_runs. intros [] l4 (G4 & _).
      run_step set_marker_runs. intros [] l5 (G5 & _).
      pose proof (grows_bases _ _ G5 (grows_bases _ _ G4 Hb3)) as Hb5.
      exists tt, (swap_divot l5). split; [reflexivity|].
      intros c. destruct c; cbn; [apply (Hb5 Viaa)|apply (Hb5 ViaaNext)|
                               apply (Hb5 DivotNext)|apply (Hb5 Divot)]. }
    eapply runs_weaken; [exact Hdiv|]. intros [] l6 Hb6.
    exists tt, (with_cache_init true l6). split; [reflexivity|].
    intros c. destruct c; cbn; [apply (Hb6 Viaa)|apply (Hb6 ViaaNext)|
                             apply (Hb6 Divot)|apply (Hb6 DivotNext)]. }
  unfold runs in *. unfold line_end.
  destruct (negb (cache_init l) && (g_y_add g =? 0x400)); [exact Hswap|].
  exists tt, l. split; [reflexivity|exact Hb].
Qed.

(** Lines 485-663: a scanline runs to its end when the last source column
    of the line stays inside the caches. *)
Lemma scanline_runs (j seed : Z) (l : locals) :
  0 <= g_x_start_init g -> 0 <= g_x_add g ->
  g_x_start_init g + Z.of_nat (Z.to_nat (g_hres g)) * g_x_add g < 2 ^ 32 ->
  (g_x_start_init g + (Z.of_nat (Z.to_nat (g_hres g)) - 1) * g_x_add g) >> 10
  < CACHE_LEN - 3 ->
  bases_ok l ->
  runs (scanline L g j seed) l (fun _ l' => bases_ok l').
Proof.
  intros Hx Ha Hwrap Hlast Hb. unfold scanline.
  run_step line_begin_runs; [assumption|]. intros [] l1 (Hb1 & Ma & Mb & Md).
  apply runs_bind.
  exists (if (u32 (g_y_start g + j * g_y_add g) >> 10)
             =? (u32 (g_y_start g + (j + 1) * g_y_add g) >> 10)
          then 2 else fetchbugstate l1 >> 1).
  eexists. split; [reflexivity|].
  assert (Hcmi : cache_marker_init g = (g_x_start_init g >> 10) - 1).
  { unfold cache_marker_init. apply s32_small.
    assert (0 <= g_x_start_init g >> 10) by (apply Z.shiftr_nonneg; lia).
    pose proof (shiftr10_mono (g_x_start_init g) (2 ^ 32) ltac:(nia)).
    change (2 ^ 32 >> 10) with 4194304 in *. lia. }
  run_step columns_runs; [assumption|assumption|assumption|assumption| |].
  - split; [intros c; destruct c;
             [apply (Hb1 Viaa)|apply (Hb1 ViaaNext)|apply (Hb1 Divot)|apply (Hb1 DivotNext)]|].
    split; [intros col Hc; change (marker Viaa (with_fetchbugstate _ l1))
                             with (marker Viaa l1) in Hc; lia|].
    split; [intros col Hc; change (marker ViaaNext (with_fetchbugstate _ l1))
                             with (marker ViaaNext l1) in Hc; lia|].
    intros Hd. destruct (Md Hd) as [M1 M2].
    split; intros col Hc;
      [change (marker Divot (with_fetchbugstate _ l1)) with (marker Divot l1) in Hc
      |change (marker DivotNext (with_fetchbugstate _ l1))
         with (marker DivotNext l1) in Hc]; lia.
  - intros r l3 Hb3.
    run_step line_end_runs; [assumption|]. intros [] l4 Hb4.
    apply runs_ret. exact Hb4.
Qed.

(** Lines 484-664. *)
Lemma scanlines_runs (j_end j_add : Z) (fuel : nat) :
  forall j seed l,
    0 <= g_x_start_init g -> 0 <= g_x_add g ->
    g_x_start_init g + Z.of_nat (Z.to_nat (g_hres g)) * g_x_add g < 2 ^ 32 ->
    (g_x_start_init g + (Z.of_nat (Z.to_nat (g_hres g)) - 1) * g_x_add g) >> 10
    < CACHE_LEN - 3 ->
    1 <= j_add -> j_end - j <= Z.of_nat fuel ->
    bases_ok l ->
    runs (scanlines L g j_end j_add fuel j seed) l (fun _ l' => bases_ok l').
Proof.
  induction fuel as [|fuel IH]; intros j seed l Hx Ha Hwrap Hlast Hadd Hfuel Hb;
    cbn [scanlines].
  - destruct (j <? j_end) eqn:E; bool_hyps; [lia|]. apply runs_ret. exact Hb.
  - destruct (j <? j_end) eqn:E; bool_hyps; [|apply runs_ret; exact Hb].
    run_step scanline_runs; [assumption..|]. intros [ws seed1] l1 Hb1.
    apply runs_bind. eapply runs_weaken; [apply IH; try assumption; lia|].
    intros [ws' seed2] l2 Hb2. apply runs_ret. exact Hb2.
Qed.
End RunsLine.

Lemma fresh_bases : bases_ok fresh_locals.
Proof. intros c. destruct c; cbn; auto. Qed.

(** [vi_process] on a geometry whose lines stay inside the caches. *)
Lemma vi_process_runs (L : leaf_ops) (g : geometry) (cfg : core_config)
    (id wn seed : Z) :
  0 <= g_x_start_init g -> 0 <= g_x_add g -> 0 < g_hres g ->
  g_x_start_init g + g_hres g * g_x_add g < 2 ^ 32 ->
  (g_x_start_init g + g_x_add g * (g_hres g - 1)) >> 10 < CACHE_LEN - 3 ->
  num_workers cfg = 1 \/ (0 <= id < 2 ^ 31 /\ 1 <= wn < 2 ^ 31) ->
  exists ws seed', vi_process L g cfg id wn seed = Some (ws, seed').
Proof.
  intros Hx Ha Hres Hwrap Hlast Hw. unfold vi_process.
  destruct (scanlines_runs L g (g_vres g)
              (if negb (num_workers cfg =? 1) then s32 wn else 1)
              (Z.to_nat (g_vres g - (if negb (num_workers cfg =? 1) then s32 id else 0)))
              (if negb (num_workers cfg =? 1) then s32 id else 0) seed fresh_locals)
    as ([ws seed'] & l' & Hrun & _); try assumption.
  - rewrite Z2Nat.id by lia. exact Hwrap.
  - rewrite Z2Nat.id by lia. replace ((g_hres g - 1) * g_x_add g)
      with (g_x_add g * (g_hres g - 1)) by ring. exact Hlast.
  - destruct (num_workers cfg =? 1) eqn:E; bool_hyps; cbn [negb]; [lia|].
    destruct Hw as [Hw|[_ Hw] ]; [congruence|]. rewrite s32_small; lia.
  - lia.
  - apply fresh_bases.
  - rewrite Hrun. exists ws, seed'. reflexivity.
Qed.

Lemma start_unclamped_x (regs : vi_regs) (st : vi_state) :
  start_h_start_clamped regs = false ->
  (snd (vi_process_start regs st))@x_start_init <= 4095.
Proof.
  intros Hc. pose proof (land_bounds (rd regs VI_X_SCALE >> 16) 0xfff ltac:(lia)).
  unfold vi_process_start. rewrite Hc. start_paths; lia.
Qed.

Lemma start_reach (regs : vi_regs) (st : vi_state) :
  truthy (fst (vi_process_start regs st)) = true ->
  let s' := vars (snd (vi_process_start regs st)) in
  start_h_start_clamped regs = false \/ caches_reach s' ->
  0 <= s' x_start_init /\ 0 <= s' x_add /\ 0 < s' hres
  /\ s' x_start_init + s' hres * s' x_add < 2 ^ 32
  /\ caches_reach s'.
Proof.
  intros Hgo s' Hr.
  destruct (start_scale_bounds regs st) as (Ha & Hi & Hres).
  destruct (start_layout regs st Hgo) as (_ & _ & _ & _ & _ & Hpos & _).
  fold s' in Ha, Hi, Hres, Hpos.
  split; [lia|]. split; [lia|]. split; [lia|]. split; [nia|].
  destruct Hr as [Hc|Hr]; [|exact Hr].
  pose proof (start_unclamped_x regs st Hc) as Hx. fold s' in Hx.
  unfold caches_reach, CACHE_LEN.
  pose proof (shiftr10_mono (s' x_start_init + s' x_add * (s' hres - 1))
                (4095 + 4095 * 639) ltac:(nia)) as Hm.
  change ((4095 + 4095 * 639) >> 10) with 2559 in Hm. lia.
Qed.

(** X10.  [vi_process] runs to its end.  In a frame that [vi_process_start]
    accepts and whose left edge was not clamped (or, more generally, whose
    last source column [(x_start_init + x_add * (hres - 1)) >> 10] stays
    below [0xa10 - 3]), every worker's call of [vi_process] returns: no
    access leaves [viaa_array] or [divot_array], and no cache entry is
    read before it was written. *)
Theorem vi_process_runs_to_its_end (L : leaf_ops) (cfg : core_config)
    (regs : vi_regs) (st : vi_state) (worker_id worker_num seed : Z) :
  let s' := vars (snd (vi_process_start regs st)) in
  truthy (fst (vi_process_start regs st)) = true ->
  start_h_start_clamped regs = false \/ caches_reach s' ->
  num_workers cfg = 1 \/ (0 <= worker_id < 2 ^ 31 /\ 1 <= worker_num < 2 ^ 31) ->
  exists ws seed',
    vi_process L (geometry_of s') cfg worker_id worker_num seed = Some (ws, seed').
Proof.
  intros s' Hgo Hr Hw.
  destruct (start_reach regs st Hgo Hr) as (Hx & Ha & Hres & Hwrap & Hlast).
  apply vi_process_runs; assumption.
Qed.

Lemma vi_process_runs_to_its_end_witness :
  start_h_start_clamped (Demo.regs 2) = false
  /\ exists ws seed',
       vi_process Demo.ops
         (geometry_of (vars (snd (vi_process_start (Demo.regs 2) Demo.st0))))
         (Demo.cfg 2 VI_MODE_NORMAL) 1 2 5 = Some (ws, seed').
Proof.
  split; [vm_compute; reflexivity|].
  apply (vi_process_runs_to_its_end Demo.ops (Demo.cfg 2 VI_MODE_NORMAL)
           (Demo.regs 2) Demo.st0 1 2 5).
  - vm_compute. reflexivity.
  - left. vm_compute. reflexivity.
  - right. lia.
Defined.

(** The stores of a run of the workers, put together. *)
Lemma run_workers_stores (task : Z -> Z -> option (list (Z * Z) * Z)) (ids : list Z) :
  forall b seed b' seed',
    run_workers task ids b seed = Some (b', seed') ->
    exists ws,
      workers_stores task ids seed = Some (ws, seed')
      /\ b' = overlay ws b
      /\ forallb in_prescale ws = true
      /\ (forall k, In k (map fst ws) ->
          exists id s ws1 s',
            In id ids /\ task id s = Some (ws1, s') /\ In k (map fst ws1))
      /\ (forall id, In id ids ->
          exists s ws1 s',
            task id s = Some (ws1, s') /\ incl (map fst ws1) (map fst ws)).
Proof.
  induction ids as [|id ids IH]; intros b seed b' seed' H;
    cbn [run_workers workers_stores] in *.
  - injection H as <- <-. exists []. split; [reflexivity|].
    split; [reflexivity|]. split; [reflexivity|].
    split; [intros k Hk; destruct Hk|intros id Hid; destruct Hid].
  - destruct (task id seed) as [ [ws1 seed1] | ] eqn:E; [|discriminate].
    rewrite poke_all_overlay in H.
    destruct (forallb in_prescale ws1) eqn:Hr; [|discriminate].
    destruct (IH _ _ _ _ H) as (ws & Hws & -> & Hin & Hfrom & Hall).
    exists (ws1 ++ ws). rewrite Hws. split; [reflexivity|].
    split; [now rewrite overlay_app|].
    split; [rewrite forallb_app, Hr, Hin; reflexivity|]. split.
    + intros k Hk. rewrite map_app, in_app_iff in Hk. destruct Hk as [Hk|Hk].
      * exists id, seed, ws1, seed1. split; [now left|]. split; assumption.
      * destruct (Hfrom k Hk) as (id' & s & ws' & s' & Hid & Ht & Hk').
        exists id', s, ws', s'. split; [now right|]. split; assumption.
    + intros id' [<-|Hid].
      * exists seed, ws1, seed1. split; [exact E|].
        intros k Hk. rewrite map_app, in_app_iff. now left.
      * destruct (Hall id' Hid) as (s & ws' & s' & Ht & Hincl).
        exists s, ws', s'. split; [exact Ht|].
        intros k Hk. rewrite map_app, in_app_iff. right. now apply Hincl.
Qed.

Lemma last_store_in (ws : list (Z * Z)) (k : Z) :
  In k (map fst ws) <-> last_store ws k <> None.
Proof.
  induction ws as [|[k0 v] ws IH]; cbn [map fst In last_store].
  - split; [intros []|congruence].
  - destruct (last_store ws k) eqn:E.
    + split; [discriminate|]. intros _. right. apply IH. discriminate.
    + destruct (Z.eqb_spec k k0) as [->|Hne].
      * split; [discriminate|]. intros _. now left.
      * split; [|congruence]. intros [Heq|Hin]; [congruence|].
        apply IH in Hin. congruence.
Qed.

(** The stores of a call that returns. *)
Lemma update_frame_stores (L : leaf_ops) (cfg : core_config) (wn : Z) (tr : bool)
    (regs : vi_regs) (st st' : vi_state) :
  vi_update L cfg wn tr regs st = Some st' ->
  exists ws,
    frame_stores L cfg wn tr regs st = Some ws
    /\ forallb in_prescale ws = true
    /\ prescale st' = overlay ws (prescale (vi_update_enter cfg tr st))
    /\ (truthy (fst (start_of cfg regs (vi_update_enter cfg tr st))) = true ->
        exists seed',
          workers_stores
            (task_of L cfg wn
               (geometry_of (vars (snd (start_of cfg regs (vi_update_enter cfg tr st))))))
            (ids_of cfg wn) (iseed (vi_update_enter cfg tr st)) = Some (ws, seed')
          /\ run_workers
               (task_of L cfg wn
                  (geometry_of (vars (snd (start_of cfg regs (vi_update_enter cfg tr st))))))
               (ids_of cfg wn) (prescale (vi_update_enter cfg tr st))
               (iseed (vi_update_enter cfg tr st))
             = Some (prescale st', seed')).
Proof.
  intros H.
  pose proof (update_cases L cfg wn tr regs st st' H) as [_ Hb]. cbv zeta in Hb.
  destruct (start_of_buffers cfg regs (vi_update_enter cfg tr st)) as (_ & Hs & _).
  unfold frame_stores. rewrite Hs.
  destruct (truthy (fst (start_of cfg regs (vi_update_enter cfg tr st)))); cbn [negb].
  - destruct (run_workers_stores _ _ _ _ _ _ Hb) as (ws & Hws & Hov & Hin & _).
    exists ws. split; [rewrite Hws; reflexivity|]. split; [exact Hin|].
    split; [exact Hov|]. intros _. exists (iseed st'). split; [exact Hws | exact Hb].
  - destruct Hb as [Hb _]. exists []. split; [reflexivity|]. split; [reflexivity|].
    split; [exact Hb | discriminate].
Qed.

(** X11.  What a call of [vi_update] leaves in the prescale buffer.
    With [ws] the stores that the workers of this call make, in order
    ([frame_stores]: those of [vi_process] or [vi_process_fast] in every
    worker, none if the frame is turned down), every store is inside the
    buffer, every cell that was stored to holds the value of its last
    store, and every other cell keeps what it had, or is 0 if the call
    found [vi_mode] different from the configured mode (lines 848-851). *)
Theorem update_prescale (L : leaf_ops) (cfg : core_config) (wn : Z) (tr : bool)
    (regs : vi_regs) (st st' : vi_state) :
  vi_update L cfg wn tr regs st = Some st' ->
  st'@vi_mode = cfg_vi_mode cfg
  /\ exists ws,
       frame_stores L cfg wn tr regs st = Some ws
       /\ forallb in_prescale ws = true
       /\ (truthy (fst (start_of cfg regs (vi_update_enter cfg tr st))) = false ->
           ws = [])
       /\ forall k,
            prescale st' k =
              match last_store ws k with
              | Some v => v
              | None => if cfg_vi_mode cfg =? st@vi_mode then prescale st k else 0
              end.
Proof.
  intros H.
  pose proof (update_cases L cfg wn tr regs st st' H) as [Hv _]. cbv zeta in Hv.
  destruct (enter_buffers cfg tr st) as (Hm & _ & _).
  destruct (start_of_buffers cfg regs (vi_update_enter cfg tr st)) as (_ & _ & Hm').
  split; [now rewrite Hv, Hm', Hm|].
  assert (He : forall k, prescale (vi_update_enter cfg tr st) k
                         = if cfg_vi_mode cfg =? st@vi_mode then prescale st k else 0).
  { intros k. unfold vi_update_enter.
    destruct (cfg_vi_mode cfg =? st@vi_mode); cbn [negb];
      repeat case_if; reflexivity. }
  destruct (update_frame_stores L cfg wn tr regs st st' H) as (ws & Hfs & Hin & Hov & _).
  exists ws. split; [exact Hfs|]. split; [exact Hin|]. split.
  - intros Hgo. unfold frame_stores in Hfs. rewrite Hgo in Hfs.
    cbn [negb] in Hfs. congruence.
  - intros k. rewrite Hov, overlay_last_store, He. reflexivity.
Qed.

(** Two workers on [Demo.regs 2]: 32 stores, none to cell 16; cell 648
    holds the value worker 1 stored there. *)
Lemma update_prescale_witness :
  option_map (fun ws => (List.length ws, last_store ws 648, last_store ws 16))
    (frame_stores Demo.ops (Demo.cfg 2 VI_MODE_NORMAL) 2 false (Demo.regs 2) Demo.st0)
  = Some (32%nat, Some 2621440, None)
  /\ exists st' ws,
       vi_update Demo.ops (Demo.cfg 2 VI_MODE_NORMAL) 2 false (Demo.regs 2) Demo.st0
       = Some st'
       /\ frame_stores Demo.ops (Demo.cfg 2 VI_MODE_NORMAL) 2 false (Demo.regs 2)
            Demo.st0 = Some ws
       /\ prescale st' 648 = 2621440
       /\ st'@vi_mode = VI_MODE_NORMAL.
Proof.
  split; [vm_compute; reflexivity|].
  destruct (vi_update Demo.ops (Demo.cfg 2 VI_MODE_NORMAL) 2 false (Demo.regs 2)
              Demo.st0) as [st'| ] eqn:E; [|vm_compute in E; discriminate E].
  destruct (update_prescale Demo.ops (Demo.cfg 2 VI_MODE_NORMAL) 2 false
              (Demo.regs 2) Demo.st0 st' E) as (Hm & ws & Hfs & _ & _ & Hk).
  exists st', ws. split; [reflexivity|]. split; [exact Hfs|]. split; [|exact Hm].
  rewrite Hk. vm_compute in Hfs. injection Hfs as <-. vm_compute. reflexivity.
Defined.

(** The rectangle a normal-mode call hands to [screen_upload]. *)
Lemma update_upload_normal (L : leaf_ops) (cfg : core_config) (wn : Z) (tr : bool)
    (regs : vi_regs) (st st' : vi_state) :
  cfg_vi_mode cfg = VI_MODE_NORMAL ->
  vi_update L cfg wn tr regs st = Some st' ->
  forall b w h p o,
    In (ScreenUpload b w h p o) (update_events L cfg wn tr regs st) ->
    truthy (fst (vi_process_start regs (vi_update_enter cfg tr st))) = true
    /\ b = st'@h_start + st'@minhpass
           + ((st'@v_start + st'@oldlowerfield) << Ctrl.serrate st'@ctrl)
             * PRESCALE_WIDTH
    /\ w = st'@maxhpass - st'@minhpass
    /\ h = st'@vres << Ctrl.serrate st'@ctrl
    /\ p = PRESCALE_WIDTH.
Proof.
  intros Hmode H b w h p o Hin.
  unfold update_events in Hin. rewrite H in Hin.
  destruct (start_of_log cfg regs (vi_update_enter cfg tr st)) as (sm & Hsm & Hns & _).
  destruct (enter_log cfg tr st) as [He _]. cbv zeta in He.
  unfold start_of in Hsm. unfold vi_update in H. rewrite Hmode in *.
  change (VI_MODE_NORMAL =? VI_MODE_NORMAL) with true in *. cbv iota in *.
  destruct (vi_process_start regs _) as [go s1]. cbn [fst snd] in *.
  destruct (truthy go); cbn [negb] in H.
  - destruct (run_workers _ _ _ _) as [ [bf seed] | ]; [|discriminate].
    destruct (vi_process_end L cfg _) as [s2| ] eqn:E; [|discriminate].
    injection H as <-.
    destruct (end_spec _ _ _ _ E) as (Hv & _ & _ & _ & _ & o' & Hev).
    cbn [vars events screenshot_path emit set_iseed set_prescale] in Hv, Hev, Hin |- *.
    rewrite Hv. split; [reflexivity|].
    revert Hin.
    rewrite Hev, Hsm, He, <- !app_assoc, skipn_length_app, !in_app_iff, !in_if_single.
    cbn [In]. unfold screenshot_events, write_events.
    (destruct (String.eqb _ _); [|destruct (fopen_wb L _)]); cbn [In app];
      intros Hx; repeat (destruct Hx as [Hx|Hx]);
      try match type of Hx with
          | _ /\ _ => destruct Hx as [_ Hx]; discriminate Hx
          | In _ sm => apply Hns in Hx; destruct Hx as [Hx _]; discriminate Hx
          | False => contradiction
          end;
      try discriminate Hx;
      injection Hx as <- <- <- <- <-; repeat split; reflexivity.
  - injection H as <-. exfalso. revert Hin.
    rewrite Hsm, He, <- !app_assoc, skipn_length_app, !in_app_iff, !in_if_single.
    intros [ [_ Hx]|[ [_ Hx]|Hx] ]; try discriminate.
    apply Hns in Hx. destruct Hx as [Hx _]. discriminate Hx.
Qed.

Section ScanlineCover.
Variable L : leaf_ops.
Variable g : geometry.

(** The loop of lines 484-664 visits [j], [j + j_add], ... below [j_end]
    and stores every column of each. *)
Lemma scanlines_covers (j_end j_add : Z) (fuel : nat) :
  forall j seed l ws seed' l',
    1 <= j_add ->
    scanlines L g j_end j_add fuel j seed l = Some ((ws, seed'), l') ->
    forall m i, 0 <= m -> j + m * j_add < j_end -> 0 <= i < g_hres g ->
      In (g_prescale_ptr g + g_linecount g * (j + m * j_add) + i) (map fst ws).
Proof.
  induction fuel as [|fuel IH]; intros j seed l ws seed' l' Hadd H m i Hm Hj Hi;
    cbn [scanlines] in H.
  - destruct (j <? j_end) eqn:E; [discriminate|]. bool_hyps. nia.
  - destruct (j <? j_end) eqn:E; bool_hyps; [|nia].
    apply bind_some in H. destruct H as ([ws1 seed1] & l1 & H1 & H).
    apply bind_some in H. destruct H as ([ws2 seed2] & l2 & H2 & H).
    injection H as <- _ _. rewrite map_app, in_app_iff.
    destruct (Z.eq_dec m 0) as [->|Hne].
    + left. apply scanline_columns in H1. destruct H1 as (rgbs & Hlen & ->).
      rewrite line_stores_fst, Hlen. apply in_map_iff.
      exists (Z.to_nat i). split; [lia|]. apply in_seq. lia.
    + right.
      replace (j + m * j_add) with (j + j_add + (m - 1) * j_add) by ring.
      eapply IH; [exact Hadd|exact H2|lia| |exact Hi].
      replace (j + j_add + (m - 1) * j_add) with (j + m * j_add) by ring. exact Hj.
Qed.
End ScanlineCover.

Lemma in_worker_ids (wn id : Z) : In id (worker_ids wn) <-> 0 <= id < wn.
Proof.
  unfold worker_ids. rewrite in_map_iff. split.
  - intros (n & <- & Hn). apply in_seq in Hn. lia.
  - intros H. exists (Z.to_nat id). split; [lia|]. apply in_seq. lia.
Qed.

(** The workers of a frame store every column of every scanline. *)
Lemma workers_cover (L : leaf_ops) (cfg : core_config) (g : geometry) (wn : Z)
    (b : buffer) (seed : Z) (b' : buffer) (seed' : Z) :
  num_workers cfg = 1 \/ 1 <= wn < 2 ^ 31 ->
  run_workers (task_of L cfg wn g) (ids_of cfg wn) b seed = Some (b', seed') ->
  cfg_vi_mode cfg = VI_MODE_NORMAL ->
  exists ws,
    workers_stores (task_of L cfg wn g) (ids_of cfg wn) seed = Some (ws, seed')
    /\ b' = overlay ws b
    /\ forallb in_prescale ws = true
    /\ forall j i, 0 <= j < g_vres g -> 0 <= i < g_hres g ->
         In (g_prescale_ptr g + g_linecount g * j + i) (map fst ws).
Proof.
  intros Hw H Hmode.
  destruct (run_workers_stores _ _ _ _ _ _ H) as (ws & Hws & Hov & Hinp & _ & Hall).
  exists ws. split; [exact Hws|]. split; [exact Hov|]. split; [exact Hinp|].
  intros j i Hj Hi.
  unfold ids_of, task_of in *. rewrite Hmode in *.
  change (VI_MODE_NORMAL =? VI_MODE_NORMAL) with true in *. cbv iota in *.
  destruct (num_workers cfg =? 1) eqn:E; bool_hyps; cbn [negb] in *.
  - destruct (Hall 0 (or_introl eq_refl)) as (s & ws1 & s' & Ht & Hincl).
    apply Hincl. unfold vi_process in Ht. rewrite E in Ht.
    change (1 =? 1) with true in Ht. cbn [negb] in Ht.
    destruct (scanlines _ _ _ _ _ _ _ _) as [ [ [ws0 seed0] l']| ] eqn:Es;
      [|discriminate].
    injection Ht as -> ->.
    replace j with (0 + j * 1) by lia.
    eapply scanlines_covers; [|exact Es| | |exact Hi]; lia.
  - destruct Hw as [Hw|Hw]; [congruence|].
    assert (Hid : In (j mod wn) (worker_ids wn)).
    { apply in_worker_ids. apply Z.mod_pos_bound. lia. }
    destruct (Hall _ Hid) as (s & ws1 & s' & Ht & Hincl).
    apply Hincl. unfold vi_process in Ht.
    apply Z.eqb_neq in E. rewrite E in Ht. cbn [negb] in Ht.
    destruct (scanlines _ _ _ _ _ _ _ _) as [ [ [ws0 seed0] l']| ] eqn:Es;
      [|discriminate].
    injection Ht as -> ->.
    pose proof (Z.mod_pos_bound j wn ltac:(lia)) as Hmod.
    rewrite !s32_small in Es by lia.
    replace j with (j mod wn + (j / wn) * wn) at 1
      by (rewrite (Z.div_mod j wn) at 3 by lia; ring).
    eapply scanlines_covers; [|exact Es| | |exact Hi]; try lia.
    apply Z.div_pos; lia.
Qed.

Lemma in_prescale_cell (ws : list (Z * Z)) (k : Z) :
  forallb in_prescale ws = true -> In k (map fst ws) -> 0 <= k < PRESCALE_SIZE.
Proof.
  intros Hall Hk. apply in_map_iff in Hk. destruct Hk as ([k' v] & <- & Hin).
  rewrite forallb_forall in Hall. specialize (Hall _ Hin).
  unfold in_prescale in Hall. cbn [fst] in *.
  apply andb_true_iff in Hall. destruct Hall. bool_hyps. lia.
Qed.

(** X12.  A progressive frame is shown as it was just drawn.  In normal
    mode with [serrate] clear, with [ws] the stores that the workers of
    this call make ([frame_stores]), every cell of the rectangle that the
    call hands to [screen_upload] lies inside the prescale buffer, was
    stored to by a worker during this very call, and holds the value of
    the last such store. *)
Theorem uploaded_picture_is_this_frame (L : leaf_ops) (cfg : core_config)
    (wn : Z) (tr : bool) (regs : vi_regs) (st st' : vi_state) :
  cfg_vi_mode cfg = VI_MODE_NORMAL ->
  num_workers cfg = 1 \/ 1 <= wn < 2 ^ 31 ->
  Ctrl.serrate (rd regs VI_STATUS) = 0 ->
  vi_update L cfg wn tr regs st = Some st' ->
  forall b w h p o,
    In (ScreenUpload b w h p o) (update_events L cfg wn tr regs st) ->
    exists ws,
      frame_stores L cfg wn tr regs st = Some ws
      /\ forall r c, 0 <= r < h -> 0 <= c < w ->
           0 <= b + r * p + c < PRESCALE_SIZE
           /\ In (b + r * p + c) (map fst ws)
           /\ exists v,
                last_store ws (b + r * p + c) = Some v
                /\ prescale st' (b + r * p + c) = v.
Proof.
  intros Hmode Hw Hser H b w h p o Hin.
  destruct (update_upload_normal L cfg wn tr regs st st' Hmode H b w h p o Hin)
    as (Hgo & -> & -> & -> & ->).
  pose proof (update_cases L cfg wn tr regs st st' H) as [Hv _]. cbv zeta in Hv.
  destruct (update_frame_stores L cfg wn tr regs st st' H)
    as (ws & Hfs & _ & _ & Hrun).
  unfold start_of in Hv, Hrun. rewrite Hmode in Hv, Hrun.
  change (VI_MODE_NORMAL =? VI_MODE_NORMAL) with true in Hv, Hrun.
  cbv iota in Hv, Hrun.
  destruct (Hrun Hgo) as (seed' & Hws & Hb).
  destruct (workers_cover L cfg _ wn _ _ _ _ Hw Hb Hmode)
    as (ws' & Hws' & Hov & Hinp & Hcov).
  rewrite Hws in Hws'. injection Hws' as <-.
  destruct (start_layout regs _ Hgo) as (Hlc & Hptr & Hlf & Hvs & Hhs & Hhres & Hwd & Hht).
  destruct (start_pass_band regs _ Hgo) as [Hmin Hmax].
  assert (Hctrl : st'@ctrl = rd regs VI_STATUS).
  { rewrite Hv. unfold vi_process_start in Hgo |- *. revert Hgo.
    start_paths; try discriminate. reflexivity. }
  cbv zeta in *. cbn [geometry_of g_vres g_hres g_prescale_ptr g_linecount] in Hcov.
  rewrite <- Hv in *. rewrite Hctrl, Hser in *.
  rewrite (Hlf eq_refl) in *. cbn [truthy Z.eqb negb] in Hptr.
  change (PRESCALE_WIDTH << 0) with PRESCALE_WIDTH in *.
  rewrite !Z.shiftl_0_r. rewrite Z.add_0_r in *.
  exists ws. split; [exact Hfs|]. intros r c Hr Hc.
  assert (Hcell : st'@h_start + st'@minhpass + st'@v_start * PRESCALE_WIDTH
                  + r * PRESCALE_WIDTH + c
                  = st'@prescale_ptr + st'@linecount * r + (st'@minhpass + c)).
  { rewrite Hptr, Hlc. ring. }
  rewrite Hcell.
  assert (Hi : 0 <= st'@minhpass + c < st'@hres).
  { rewrite Hmin in *. rewrite Hmax in Hc. revert Hc. repeat case_if; lia. }
  specialize (Hcov r (st'@minhpass + c) Hr Hi).
  split; [eapply in_prescale_cell; eauto|]. split; [exact Hcov|].
  pose proof (proj1 (last_store_in ws _) Hcov) as Hls.
  destruct (last_store ws _) as [v| ] eqn:E; [|congruence].
  exists v. split; [reflexivity|]. rewrite Hov, overlay_last_store, E. reflexivity.
Qed.

(** Two workers on [Demo.regs 2]: the rectangle is column 8 of rows 0 and 1;
    worker 0 stored row 0 and worker 1 row 1. *)
Lemma uploaded_picture_is_this_frame_witness :
  option_map (fun ws => (last_store ws 8, last_store ws 648))
    (frame_stores Demo.ops (Demo.cfg 2 VI_MODE_NORMAL) 2 false (Demo.regs 2) Demo.st0)
  = Some (Some 524288, Some 2621440)
  /\ exists st',
       vi_update Demo.ops (Demo.cfg 2 VI_MODE_NORMAL) 2 false (Demo.regs 2) Demo.st0
       = Some st'
       /\ In (ScreenUpload 8 1 2 640 4)
            (update_events Demo.ops (Demo.cfg 2 VI_MODE_NORMAL) 2 false (Demo.regs 2)
               Demo.st0)
       /\ exists ws,
            frame_stores Demo.ops (Demo.cfg 2 VI_MODE_NORMAL) 2 false (Demo.regs 2)
              Demo.st0 = Some ws
            /\ forall r c, 0 <= r < 2 -> 0 <= c < 1 ->
                 0 <= 8 + r * 640 + c < PRESCALE_SIZE
                 /\ In (8 + r * 640 + c) (map fst ws)
                 /\ exists v,
                      last_store ws (8 + r * 640 + c) = Some v
                      /\ prescale st' (8 + r * 640 + c) = v.
Proof.
  split; [vm_compute; reflexivity|].
  destruct (vi_update Demo.ops (Demo.cfg 2 VI_MODE_NORMAL) 2 false (Demo.regs 2)
              Demo.st0) as [st'| ] eqn:E; [|vm_compute in E; discriminate E].
  exists st'. split; [reflexivity|].
  assert (Hin : In (ScreenUpload 8 1 2 640 4)
                  (update_events Demo.ops (Demo.cfg 2 VI_MODE_NORMAL) 2 false
                     (Demo.regs 2) Demo.st0))
    by (vm_compute; left; reflexivity).
  split; [exact Hin|].
  assert (Hw : num_workers (Demo.cfg 2 VI_MODE_NORMAL) = 1 \/ 1 <= 2 < 2 ^ 31)
    by (right; lia).
  apply (uploaded_picture_is_this_frame Demo.ops (Demo.cfg 2 VI_MODE_NORMAL) 2
           false (Demo.regs 2) Demo.st0 st' eq_refl Hw eq_refl E 8 1 2 640 4 Hin).
Defined.

Lemma run_workers_total (task : Z -> Z -> option (list (Z * Z) * Z)) (ids : list Z) :
  (forall id s, In id ids ->
     exists ws s', task id s = Some (ws, s') /\ forallb in_prescale ws = true) ->
  forall b s, exists b' s', run_workers task ids b s = Some (b', s').
Proof.
  induction ids as [|id ids IH]; intros Ht b s; cbn [run_workers].
  - eauto.
  - destruct (Ht id s (or_introl eq_refl)) as (ws & s' & -> & Hin).
    rewrite poke_all_overlay, Hin. apply IH. intros id' s0 Hid. apply Ht. now right.
Qed.

Lemma forallb_in_prescale (ws : list (Z * Z)) :
  (forall k, In k (map fst ws) -> 0 <= k < PRESCALE_SIZE) ->
  forallb in_prescale ws = true.
Proof.
  intros H. apply forallb_forall. intros [k v] Hin. unfold in_prescale. cbn [fst].
  specialize (H k (in_map fst _ _ Hin)). cbn [fst] in H.
  apply andb_true_iff. split; [apply Z.leb_le|apply Z.ltb_lt]; lia.
Qed.

Lemma quot_abs_le (a b : Z) : b <> 0 -> Z.abs (a ÷ b) <= Z.abs a.
Proof.
  intros Hb. rewrite <- Z.quot_abs by exact Hb.
  apply Z.quot_le_upper_bound; nia.
Qed.

Lemma quot_pos_num (a b : Z) : 0 < b -> 0 < a ÷ b -> 0 < a.
Proof.
  intros Hb Hq. destruct (Z_lt_le_dec 0 a) as [Ha|Ha]; [exact Ha|].
  pose proof (Z.quot_opp_l a b ltac:(lia)) as Ho.
  pose proof (Z.quot_pos (- a) b ltac:(lia) Hb). lia.
Qed.

Lemma fits_int_iff (z : Z) : fits_int z = true <-> - 2 ^ 31 <= z < 2 ^ 31.
Proof.
  unfold fits_int. rewrite andb_true_iff, Z.leb_le, Z.ltb_lt. reflexivity.
Qed.

(** [vi_process_end] returns for the ranges a frame that was let through
    has, when no screenshot is requested, or the file cannot be opened, or
    the rows of the rectangle lie in the buffer. *)
Lemma end_defined (L : leaf_ops) (cfg : core_config) (st : vi_state) :
  -512 <= st@vres <= 625 -> 34 <= st@v_sync ->
  -640 <= st@maxhpass - st@minhpass <= 640 ->
  Ctrl.serrate st@ctrl = 0 \/ Ctrl.serrate st@ctrl = 1 ->
  screenshot_path st = EmptyString
  \/ fopen_wb L (screenshot_path st) = false
  \/ (forall r, 0 <= r < st@vres << Ctrl.serrate st@ctrl ->
        row_in_buffer
          (st@h_start + st@minhpass
           + ((st@v_start + st@oldlowerfield) << Ctrl.serrate st@ctrl)
             * PRESCALE_WIDTH)
          (st@maxhpass - st@minhpass) PRESCALE_WIDTH r = true) ->
  exists st', vi_process_end L cfg st = Some st'.
Proof.
  intros Hvres Hvs Hw Hser Hshot. unfold vi_process_end.
  destruct (Z.eqb_spec (st@v_sync) 0) as [|_]; [lia|].
  rewrite Z.shiftl_mul_pow2 by lia. change (2 ^ 1) with 2.
  unfold V_SYNC_NTSC.
  set (o := (st@vres * 2 * 525) ÷ st@v_sync).
  assert (Ho : Z.abs o <= 656250).
  { pose proof (quot_abs_le (st@vres * 2 * 525) (st@v_sync) ltac:(lia)). lia. }
  assert (Hpos : 0 < o -> 0 < st@vres).
  { intros Hq. apply quot_pos_num in Hq; lia. }
  assert (Hf1 : fits_int (st@vres * 2 * 525) = true) by (apply fits_int_iff; lia).
  rewrite Hf1. cbn [negb].
  assert (Hf2 : fits_int (o * 9) = true) by (apply fits_int_iff; lia).
  rewrite Hf2. cbn [negb]. rewrite andb_false_r.
  set (o' := if cfg_vi_widescreen cfg then (o * 9) ÷ 16 else o).
  assert (Ho' : Z.abs o' <= 656250 /\ (0 < o' -> 0 < o)).
  { subst o'. destruct (cfg_vi_widescreen cfg); lia. }
  cbn [screenshot_path emit].
  destruct (String.eqb (screenshot_path st) EmptyString) eqn:Ep; cbn [negb];
    [eauto|].
  apply String.eqb_neq in Ep.
  destruct Hshot as [Hs|Hs]; [contradiction|].
  assert (Hh : Z.abs (st@vres << Ctrl.serrate st@ctrl) <= 1250
               /\ (0 < st@vres -> 0 < st@vres << Ctrl.serrate st@ctrl)).
  { destruct Hser as [-> | ->]; rewrite ?Z.shiftl_0_r, ?Z.shiftl_mul_pow2 by lia;
      change (2 ^ 1) with 2; lia. }
  destruct (screenshot_write_defined L (screenshot_path st)
              (st@h_start + st@minhpass
               + ((st@v_start + st@oldlowerfield) << Ctrl.serrate st@ctrl)
                 * PRESCALE_WIDTH)
              (st@maxhpass - st@minhpass) (st@vres << Ctrl.serrate st@ctrl)
              PRESCALE_WIDTH o'
              (emit (ScreenUpload
                       (st@h_start + st@minhpass
                        + ((st@v_start + st@oldlowerfield) << Ctrl.serrate st@ctrl)
                          * PRESCALE_WIDTH)
                       (st@maxhpass - st@minhpass)
                       (st@vres << Ctrl.serrate st@ctrl) PRESCALE_WIDTH o') st))
    as [st1 Hst1].
  - apply fits_int_iff. nia.
  - intros Hq. split; [apply Hh, Hpos, Ho', Hq | nia].
  - exact Hs.
  - rewrite Hst1. eauto.
Qed.



Lemma gamma_filters_nodither (L : leaf_ops) (seed : Z) (rgb : Z * Z * Z) (ctrl : Z) :
  no_dither ctrl ->
  gamma_filters L seed rgb ctrl = (seed, snd (gamma_filters L 0 rgb ctrl)).
Proof.
  unfold no_dither, gamma_filters. intros ->. now destruct rgb as [ [r g] b].
Qed.

Section FastCells.
Variable L : leaf_ops.
Variable cfg : core_config.
Variable g : geometry.

(** Lines 775-823: the stores of one line. *)
Lemma fast_columns_cells (y line : Z) (n : nat) :
  forall x seed ws seed',
    fast_columns L cfg g y line n x seed = Some (ws, seed') ->
    map fst ws = map (fun k => y * g_hres_raw g + (x + Z.of_nat k)) (seq 0 n)
    /\ (no_dither (g_ctrl g) ->
        forall e, In e ws ->
          exists x' rgb,
            fst e = y * g_hres_raw g + x'
            /\ fast_pixel L cfg g line x' = Some rgb
            /\ snd e = pack_u32 (snd (gamma_filters L 0 rgb (g_ctrl g)))).
Proof.
  induction n as [|n IH]; intros x seed ws seed' H; cbn [fast_columns] in H.
  - injection H as <- _. split; [reflexivity|]. intros _ e [].
  - destruct (fast_pixel L cfg g line x) as [rgb| ] eqn:Ep; [|discriminate].
    destruct (gamma_filters L seed rgb (g_ctrl g)) as [seed1 rgb1] eqn:Eg.
    destruct (fast_columns L cfg g y line n (x + 1) seed1) as [ [ws1 seed2] | ] eqn:E;
      [|discriminate].
    injection H as <- _. destruct (IH _ _ _ _ E) as [Hfst Hent]. split.
    + cbn [map fst seq]. rewrite Hfst, <- seq_shift, map_map.
      f_equal; [f_equal; lia|]. apply map_ext. intros k. f_equal. lia.
    + intros Hnd e [<-|He]; [|now apply Hent].
      exists x, rgb. cbn [fst snd]. split; [reflexivity|]. split; [exact Ep|].
      rewrite (gamma_filters_nodither L seed rgb _ Hnd) in Eg.
      now injection Eg as _ <-.
Qed.

Lemma fast_columns_total (y line : Z) (n : nat) :
  (forall x, fast_pixel L cfg g line x <> None) ->
  forall x seed, exists ws seed', fast_columns L cfg g y line n x seed = Some (ws, seed').
Proof.
  intros Hp. induction n as [|n IH]; intros x seed; cbn [fast_columns]; [eauto|].
  destruct (fast_pixel L cfg g line x) as [rgb| ] eqn:Ep; [|now apply Hp in Ep].
  destruct (gamma_filters L seed rgb (g_ctrl g)) as [seed1 rgb1].
  destruct (IH (x + 1) seed1) as (ws & seed' & ->). eauto.
Qed.

(** Lines 771-824: the loop visits [y], [y + y_add], ... below [y_end]. *)
Lemma fast_lines_cells (y_end y_add : Z) (fuel : nat) :
  forall y seed ws seed',
    1 <= y_add ->
    fast_lines L cfg g y_end y_add fuel y seed = Some (ws, seed') ->
    (forall e, In e ws ->
       exists m x',
         0 <= m /\ y + m * y_add < y_end /\ 0 <= x' < g_hres_raw g
         /\ fst e = (y + m * y_add) * g_hres_raw g + x'
         /\ (no_dither (g_ctrl g) ->
             fast_value L cfg g (y + m * y_add) x' = Some (snd e)))
    /\ (forall m x', 0 <= m -> y + m * y_add < y_end -> 0 <= x' < g_hres_raw g ->
        In ((y + m * y_add) * g_hres_raw g + x') (map fst ws)).
Proof.
  induction fuel as [|fuel IH]; intros y seed ws seed' Hadd H; cbn [fast_lines] in H.
  - destruct (y <? y_end) eqn:E; [discriminate|]. bool_hyps. injection H as <- _.
    split; [intros e []|intros; nia].
  - destruct (y <? y_end) eqn:E; bool_hyps;
      [|injection H as <- _; split; [intros e []|intros; nia] ].
    destruct (fast_columns _ _ _ _ _ _ _ _) as [ [ws1 seed1] | ] eqn:E1; [|discriminate].
    destruct (fast_lines _ _ _ _ _ _ _ _) as [ [ws2 seed2] | ] eqn:E2; [|discriminate].
    injection H as <- _.
    destruct (fast_columns_cells _ _ _ _ _ _ _ E1) as [Hfst Hent].
    destruct (IH _ _ _ _ Hadd E2) as [Hin Hcov]. split.
    + intros e He. apply in_app_iff in He. destruct He as [He|He].
      * assert (Hf : In (fst e) (map fst ws1)) by now apply in_map.
        rewrite Hfst in Hf. apply in_map_iff in Hf. destruct Hf as (k & Hk & Hks).
        apply in_seq in Hks.
        exists 0, (Z.of_nat k). split; [lia|]. split; [lia|]. split; [lia|].
        split; [rewrite <- Hk; ring|].
        intros Hnd. destruct (Hent Hnd e He) as (x' & rgb & Hx' & Hp & Hv).
        assert (x' = Z.of_nat k).
        { rewrite Hx' in Hk. lia. }
        subst x'. unfold fast_value.
        replace (y + 0 * y_add) with y by ring. rewrite Hp, Hv. reflexivity.
      * destruct (Hin e He) as (m & x' & Hm & Hy & Hx & Hf & Hv).
        exists (m + 1), x'. split; [lia|].
        replace (y + (m + 1) * y_add) with (y + y_add + m * y_add) by ring.
        auto.
    + intros m x' Hm Hy Hx. rewrite map_app, in_app_iff.
      destruct (Z.eq_dec m 0) as [->|Hne].
      * left. rewrite Hfst. apply in_map_iff. exists (Z.to_nat x').
        split; [lia|]. apply in_seq. lia.
      * right. replace (y + m * y_add) with (y + y_add + (m - 1) * y_add) by ring.
        apply Hcov; [lia| |exact Hx].
        replace (y + y_add + (m - 1) * y_add) with (y + m * y_add) by ring. exact Hy.
Qed.

Lemma fast_lines_total (y_end y_add : Z) (fuel : nat) :
  (forall line x, fast_pixel L cfg g line x <> None) ->
  forall y seed,
    1 <= y_add -> y_end - y <= Z.of_nat fuel ->
    exists ws seed', fast_lines L cfg g y_end y_add fuel y seed = Some (ws, seed').
Proof.
  intros Hp. induction fuel as [|fuel IH]; intros y seed Hadd Hfuel; cbn [fast_lines].
  - destruct (y <? y_end) eqn:E; bool_hyps; [lia|eauto].
  - destruct (y <? y_end) eqn:E; bool_hyps; [|eauto].
    destruct (fast_columns_total y (s32 (y * g_vi_width_low g))
                (Z.to_nat (g_hres_raw g)) (Hp _) 0 seed) as (ws1 & seed1 & ->).
    destruct (IH (y + y_add) seed1 Hadd ltac:(lia)) as (ws2 & seed2 & ->). eauto.
Qed.
End FastCells.

(** What [vi_process_start_fast] has checked when it returns non-zero. *)
Lemma start_fast_accepted (regs : vi_regs) (st : vi_state) :
  truthy (fst (vi_process_start_fast regs st)) = true ->
  let s' := vars (snd (vi_process_start_fast regs st)) in
  fst (vi_process_start_fast regs st) = 1
  /\ 0 < s' hres /\ 0 < s' vres
  /\ 0 < s' hres_raw < 4 * s' hres /\ 0 < s' vres_raw < 4 * s' vres
  /\ (Ctrl.type (s' ctrl) = VI_TYPE_RGBA5551 \/ Ctrl.type (s' ctrl) = VI_TYPE_RGBA8888)
  /\ s' ctrl = rd regs VI_STATUS
  /\ 0 < s' frame_buffer
  /\ s' v_sync = rd regs VI_V_SYNC .& 0x3ff
  /\ rd regs VI_V_CURRENT_LINE .& 1 = 0.
Proof.
  pose proof (land_bounds (rd regs VI_X_SCALE) 0xfff ltac:(lia)) as Hxa.
  pose proof (land_bounds (rd regs VI_Y_SCALE) 0xfff ltac:(lia)) as Hya.
  pose proof (land_bounds (rd regs VI_H_START) 0x3ff ltac:(lia)) as Hhe.
  pose proof (land_bounds (rd regs VI_H_START >> 16) 0x3ff ltac:(lia)) as Hhs.
  pose proof (land_bounds (rd regs VI_V_START) 0x3ff ltac:(lia)) as Hve.
  pose proof (land_bounds (rd regs VI_V_START >> 16) 0x3ff ltac:(lia)) as Hvs.
  pose proof (land_bounds (rd regs VI_ORIGIN) 0xffffff ltac:(lia)) as Hfb.
  pose proof (land_bounds (rd regs VI_STATUS) 3 ltac:(lia)) as Hty.
  unfold vi_process_start_fast. rewrite type_has_two_bits.
  fast_cases; try discriminate. intros _.
  set (hr := rd regs VI_H_START .& 1023 - rd regs VI_H_START >> 16 .& 1023) in *.
  set (vr := (rd regs VI_V_START .& 1023 - rd regs VI_V_START >> 16 .& 1023) >> 1) in *.
  set (xa := rd regs VI_X_SCALE .& 4095) in *.
  set (ya := rd regs VI_Y_SCALE .& 4095) in *.
  repeat match goal with
         | H : (_ || _) = false |- _ =>
             apply orb_false_iff in H; destruct H
         end.
  unfold truthy in *. rewrite ?negb_false_iff, ?negb_true_iff in *. bool_hyps.
  assert (Hvr : vr < 512).
  { subst vr. rewrite Z.shiftr_div_pow2 by lia. change (2 ^ 1) with 2.
    apply Z.div_lt_upper_bound; lia. }
  assert (Hh : s32 (u32 (xa * hr) / 1024) = xa * hr / 1024).
  { unfold u32. rewrite Z.mod_small by nia. apply s32_small.
    split; [apply Z.le_trans with 0; [lia|apply Z.div_pos; nia]|].
    apply Z.div_lt_upper_bound; nia. }
  assert (Hv : s32 (u32 (ya * vr) / 1024) = ya * vr / 1024).
  { unfold u32. rewrite Z.mod_small by nia. apply s32_small.
    split; [apply Z.le_trans with 0; [lia|apply Z.div_pos; nia]|].
    apply Z.div_lt_upper_bound; nia. }
  rewrite Hh, Hv in *.
  split; [reflexivity|]. split; [lia|]. split; [lia|].
  split; [split; [lia|apply Z.div_lt_upper_bound; nia] |].
  split; [split; [lia|apply Z.div_lt_upper_bound; nia] |].
  split.
  { unfold Ctrl.type, VI_TYPE_RGBA5551, VI_TYPE_RGBA8888 in *.
    assert (Hb : (rd regs VI_STATUS .& 3) .& 2 <> 0) by assumption.
    set (t := rd regs VI_STATUS .& 3) in *.
    assert (Ht : t = 0 \/ t = 1 \/ t = 2 \/ t = 3) by lia.
    destruct Ht as [Ht|[Ht|[Ht|Ht] ] ]; rewrite Ht in *; cbn in Hb; auto; congruence. }
  repeat split; try reflexivity; lia.
Qed.

Lemma fast_pixel_defined (L : leaf_ops) (cfg : core_config) (g : geometry)
    (line x : Z) :
  fast_mode cfg ->
  Ctrl.type (g_ctrl g) = VI_TYPE_RGBA5551 \/ Ctrl.type (g_ctrl g) = VI_TYPE_RGBA8888 ->
  fast_pixel L cfg g line x <> None.
Proof.
  intros Hm Ht. unfold fast_pixel.
  destruct Hm as [-> |[-> | ->] ];
    cbn [Z.eqb VI_MODE_COLOR VI_MODE_DEPTH VI_MODE_COVERAGE].
  - destruct Ht as [-> | ->]; cbn; discriminate.
  - cbn. discriminate.
  - cbn. destruct (rdram_read_pair16 L _). discriminate.
Qed.

Lemma run_workers_entries (task : Z -> Z -> option (list (Z * Z) * Z)) (ids : list Z) :
  forall b seed b' seed',
    run_workers task ids b seed = Some (b', seed') ->
    exists ws,
      b' = overlay ws b
      /\ forallb in_prescale ws = true
      /\ (forall e, In e ws ->
          exists id s ws1 s', In id ids /\ task id s = Some (ws1, s') /\ In e ws1)
      /\ (forall id, In id ids ->
          exists s ws1 s', task id s = Some (ws1, s') /\ incl ws1 ws).
Proof.
  induction ids as [|id ids IH]; intros b seed b' seed' H; cbn [run_workers] in H.
  - injection H as <- <-. exists []. split; [reflexivity|]. split; [reflexivity|].
    split; [intros e He; destruct He|intros id Hid; destruct Hid].
  - destruct (task id seed) as [ [ws1 seed1] | ] eqn:E; [|discriminate].
    rewrite poke_all_overlay in H.
    destruct (forallb in_prescale ws1) eqn:Hr; [|discriminate].
    destruct (IH _ _ _ _ H) as (ws & -> & Hin & Hfrom & Hall).
    exists (ws1 ++ ws). split; [now rewrite overlay_app|].
    split; [rewrite forallb_app, Hr, Hin; reflexivity|]. split.
    + intros e He. rewrite in_app_iff in He. destruct He as [He|He].
      * exists id, seed, ws1, seed1. split; [now left|]. split; assumption.
      * destruct (Hfrom e He) as (id' & s & ws' & s' & Hid & Ht & He').
        exists id', s, ws', s'. split; [now right|]. split; assumption.
    + intros id' [<-|Hid].
      * exists seed, ws1, seed1. split; [exact E|].
        intros e He. rewrite in_app_iff. now left.
      * destruct (Hall id' Hid) as (s & ws' & s' & Ht & Hincl).
        exists s, ws', s'. split; [exact Ht|].
        intros e He. rewrite in_app_iff. right. now apply Hincl.
Qed.

(** The stores of the workers of a fast-path frame. *)
Lemma fast_workers_cells (L : leaf_ops) (cfg : core_config) (g : geometry) (wn : Z)
    (b : buffer) (seed : Z) (b' : buffer) (seed' : Z) :
  cfg_vi_mode cfg <> VI_MODE_NORMAL ->
  num_workers cfg = 1 \/ 1 <= wn < 2 ^ 31 ->
  run_workers (task_of L cfg wn g) (ids_of cfg wn) b seed = Some (b', seed') ->
  exists ws,
    b' = overlay ws b
    /\ forallb in_prescale ws = true
    /\ (forall e, In e ws ->
        exists y x,
          0 <= y < g_vres_raw g /\ 0 <= x < g_hres_raw g
          /\ fst e = y * g_hres_raw g + x
          /\ (no_dither (g_ctrl g) -> fast_value L cfg g y x = Some (snd e)))
    /\ (forall y x, 0 <= y < g_vres_raw g -> 0 <= x < g_hres_raw g ->
        In (y * g_hres_raw g + x) (map fst ws)).
Proof.
  intros Hmode Hw H.
  destruct (run_workers_entries _ _ _ _ _ _ H) as (ws & Hov & Hinp & Hfrom & Hall).
  exists ws. split; [exact Hov|]. split; [exact Hinp|].
  apply Z.eqb_neq in Hmode.
  unfold ids_of, task_of in *. rewrite Hmode in *.
  assert (Hstart : forall id, In id (if negb (num_workers cfg =? 1)
                                     then worker_ids wn else [0]) ->
            0 <= (if negb (num_workers cfg =? 1) then s32 id else 0)
            /\ (if negb (num_workers cfg =? 1) then s32 id else 0) = 
               (if negb (num_workers cfg =? 1) then id else 0)).
  { intros id Hid. destruct (num_workers cfg =? 1) eqn:E; bool_hyps; cbn [negb] in *.
    - lia.
    - destruct Hw as [Hw|Hw]; [congruence|]. apply in_worker_ids in Hid.
      rewrite s32_small by lia. lia. }
  assert (Hadd : 1 <= (if negb (num_workers cfg =? 1) then s32 wn else 1)).
  { destruct (num_workers cfg =? 1) eqn:E; bool_hyps; cbn [negb]; [lia|].
    destruct Hw as [Hw|Hw]; [congruence|]. rewrite s32_small; lia. }
  split.
  - intros e He. destruct (Hfrom e He) as (id & s & ws1 & s' & Hid & Ht & He1).
    unfold vi_process_fast in Ht.
    destruct (fast_lines_cells L cfg g _ _ _ _ _ _ _ Hadd Ht) as [Hent _].
    destruct (Hent e He1) as (m & x & Hm & Hy & Hx & Hf & Hv).
    destruct (Hstart id Hid) as [H0 _].
    eexists; exists x. split; [|split; [exact Hx|split; [exact Hf|exact Hv] ] ].
    nia.
  - intros y x Hy Hx.
    destruct (num_workers cfg =? 1) eqn:E; bool_hyps; cbn [negb] in *.
    + destruct (Hall 0 (or_introl eq_refl)) as (s & ws1 & s' & Ht & Hincl).
      unfold vi_process_fast in Ht. rewrite E in Ht.
      change (1 =? 1) with true in Ht. cbn [negb] in Ht.
      destruct (fast_lines_cells L cfg g (g_vres_raw g) 1 _ 0 s ws1 s' ltac:(lia) Ht)
        as [_ Hcov].
      specialize (Hcov y x ltac:(lia) ltac:(lia) Hx).
      replace (0 + y * 1) with y in Hcov by ring.
      apply in_map_iff in Hcov. destruct Hcov as (e & He & Hin).
      apply in_map_iff. exists e. split; [exact He|]. now apply Hincl.
    + destruct Hw as [Hw|Hw]; [congruence|].
      assert (Hid : In (y mod wn) (worker_ids wn)).
      { apply in_worker_ids. apply Z.mod_pos_bound. lia. }
      destruct (Hall _ Hid) as (s & ws1 & s' & Ht & Hincl).
      unfold vi_process_fast in Ht. apply Z.eqb_neq in E. rewrite E in Ht.
      cbn [negb] in Ht.
      pose proof (Z.mod_pos_bound y wn ltac:(lia)) as Hmod.
      rewrite !s32_small in Ht by lia.
      destruct (fast_lines_cells L cfg g (g_vres_raw g) wn _ (y mod wn) s ws1 s'
                  ltac:(lia) Ht) as [_ Hcov].
      specialize (Hcov (y / wn) x).
      replace (y mod wn + y / wn * wn) with y in Hcov
        by (rewrite (Z.div_mod y wn) at 1 by lia; ring).
      specialize (Hcov ltac:(apply Z.div_pos; lia) ltac:(lia) Hx).
      apply in_map_iff in Hcov. destruct Hcov as (e & He & Hin).
      apply in_map_iff. exists e. split; [exact He|]. now apply Hincl.
Qed.

(** X14.  A frame that [vi_process_start_fast] accepts: the result is 1, the
    window and the raw picture have positive sizes, the raw picture is
    less than four times the window each way ([x_add] and [y_add] have 12
    bits), the type is one of the two colour formats, the frame buffer
    address is not 0 and [VI_V_CURRENT_LINE] is even. *)
Theorem fast_accepted_frame (regs : vi_regs) (st : vi_state) :
  truthy (fst (vi_process_start_fast regs st)) = true ->
  let s' := vars (snd (vi_process_start_fast regs st)) in
  fst (vi_process_start_fast regs st) = 1
  /\ 0 < s' hres /\ 0 < s' vres
  /\ 0 < s' hres_raw < 4 * s' hres /\ 0 < s' vres_raw < 4 * s' vres
  /\ (Ctrl.type (s' ctrl) = VI_TYPE_RGBA5551 \/ Ctrl.type (s' ctrl) = VI_TYPE_RGBA8888)
  /\ s' ctrl = rd regs VI_STATUS
  /\ 0 < s' frame_buffer
  /\ s' v_sync = rd regs VI_V_SYNC .& 0x3ff
  /\ rd regs VI_V_CURRENT_LINE .& 1 = 0.
Proof. exact (start_fast_accepted regs st). Qed.

Lemma fast_accepted_frame_witness :
  truthy (fst (vi_process_start_fast (Demo.regs 2) Demo.st0)) = true
  /\ 0 < (snd (vi_process_start_fast (Demo.regs 2) Demo.st0))@frame_buffer.
Proof.
  assert (H : truthy (fst (vi_process_start_fast (Demo.regs 2) Demo.st0)) = true)
    by (vm_compute; reflexivity).
  split; [exact H|].
  apply (fast_accepted_frame (Demo.regs 2) Demo.st0 H).
Defined.

Lemma fast_mode_not_normal (cfg : core_config) :
  fast_mode cfg -> cfg_vi_mode cfg <> VI_MODE_NORMAL.
Proof. intros [-> |[-> | ->] ]; discriminate. Qed.

Lemma start_fast_ranges (regs : vi_regs) (st : vi_state) :
  truthy (fst (vi_process_start_fast regs st)) = true ->
  let s' := vars (snd (vi_process_start_fast regs st)) in
  s' hres <= 1023 /\ s' vres <= 511 /\ 0 <= s' v_sync <= 1023.
Proof.
  pose proof (land_bounds (rd regs VI_H_START) 0x3ff ltac:(lia)) as Hhe.
  pose proof (land_bounds (rd regs VI_H_START >> 16) 0x3ff ltac:(lia)) as Hhs.
  pose proof (land_bounds (rd regs VI_V_START) 0x3ff ltac:(lia)) as Hve.
  pose proof (land_bounds (rd regs VI_V_START >> 16) 0x3ff ltac:(lia)) as Hvs.
  pose proof (land_bounds (rd regs VI_V_SYNC) 0x3ff ltac:(lia)) as Hsy.
  unfold vi_process_start_fast. rewrite type_has_two_bits.
  fast_cases; try discriminate. intros _.
  set (vr := (rd regs VI_V_START .& 1023 - rd regs VI_V_START >> 16 .& 1023) >> 1) in *.
  assert (Hvr : vr < 512).
  { subst vr. rewrite Z.shiftr_div_pow2 by lia. change (2 ^ 1) with 2.
    apply Z.div_lt_upper_bound; lia. }
  split; [lia|]. split; lia.
Qed.

Lemma nearest_rows_fits (height output_height : Z) (ys rows : list Z) :
  nearest_rows height output_height ys = Some rows ->
  forall y, In y ys -> fits_int (y * height) = true.
Proof.
  revert rows. induction ys as [|y0 ys IH]; intros rows H y Hy; [destruct Hy|].
  cbn [nearest_rows] in H.
  destruct (fits_int (y0 * height)) eqn:E; [|discriminate].
  destruct (nearest_rows height output_height ys) as [rows'| ] eqn:E';
    [|discriminate].
  destruct Hy as [<-|Hy]; [exact E|]. exact (IH rows' eq_refl y Hy).
Qed.

(** The writer on the raw picture of the fast path: [buffer] is
    [prescale], [width] and [pitch] are [hres_raw], [height] is
    [vres_raw]. *)
Lemma screenshot_write_fast_iff (L : leaf_ops) (path : string) (w h o : Z)
    (st : vi_state) :
  0 < w -> 0 < h <= 2044 -> w * h <= PRESCALE_SIZE -> 0 <= o ->
  (exists st', vi_screenshot_write L path 0 w h w o st = Some st')
  <-> w * o < 2 ^ 31 /\ (fopen_wb L path = true -> (o - 1) * h < 2 ^ 31).
Proof.
  intros Hw Hh Hsz Ho. unfold vi_screenshot_write. split.
  - intros [st' H].
    destruct (fits_int (w * o)) eqn:Ef; cbn [negb] in H; [|discriminate].
    apply fits_int_iff in Ef. split; [lia|]. intros Hopen.
    rewrite Hopen in H. cbn [negb] in H.
    destruct (screenshot_rows h o) as [rows| ] eqn:Er; [|discriminate].
    unfold screenshot_rows in Er.
    destruct (h =? o) eqn:E; bool_hyps; cbn [negb] in Er; [subst; nia|].
    destruct (Z.eq_dec o 0) as [->|Hne]; [lia|].
    assert (Hin : In (o - 1) (countdown o)).
    { apply nth_error_In with (n := O). rewrite countdown_nth by lia.
      f_equal. lia. }
    pose proof (nearest_rows_fits _ _ _ _ Er _ Hin) as Hf.
    apply fits_int_iff in Hf. lia.
  - intros [Hwo Hrows].
    assert (Hf : fits_int (w * o) = true) by (apply fits_int_iff; nia).
    rewrite Hf. cbn [negb].
    destruct (fopen_wb L path); cbn [negb]; [|eauto].
    destruct (screenshot_rows_range h o) as (rows & -> & Hin).
    { intros _. split; [lia|now apply Hrows]. }
    assert (Hall : forallb (row_in_buffer 0 w w) rows = true).
    { apply forallb_forall. intros r Hr. apply Hin in Hr. unfold row_in_buffer.
      apply andb_true_iff. split; [apply andb_true_iff; split|];
        [apply Z.leb_le|apply Z.leb_le|apply Z.leb_le]; nia. }
    rewrite Hall. eauto.
Qed.

(** [vi_process_end_fast] on the sizes an accepted frame has. *)
Lemma end_fast_defined_iff (L : leaf_ops) (cfg : core_config) (st : vi_state) :
  0 < st@hres -> 0 < st@vres <= 511 -> 0 <= st@v_sync <= 1023 ->
  0 < st@hres_raw < 4 * st@hres -> 0 < st@vres_raw < 4 * st@vres ->
  st@hres_raw * st@vres_raw <= PRESCALE_SIZE ->
  let filtered_height := ((st@vres << 1) * V_SYNC_NTSC) ÷ st@v_sync in
  let o0 := (st@hres_raw * filtered_height) ÷ st@hres in
  let output_height := if cfg_vi_widescreen cfg then (o0 * 9) ÷ 16 else o0 in
  (exists st', vi_process_end_fast L cfg st = Some st')
  <-> st@v_sync <> 0
      /\ st@hres_raw * filtered_height < 2 ^ 31
      /\ (screenshot_path st <> EmptyString ->
          st@hres_raw * output_height < 2 ^ 31
          /\ (fopen_wb L (screenshot_path st) = true ->
              (output_height - 1) * st@vres_raw < 2 ^ 31)).
Proof.
  intros Hh Hv Hs Hhr Hvr Hsz. cbv zeta. unfold vi_process_end_fast.
  destruct (Z.eqb_spec (st@v_sync) 0) as [E0|E0]; cbn [orb].
  { split; [intros [? ?]; discriminate | intros [? _]; contradiction]. }
  destruct (Z.eqb_spec (st@hres) 0) as [E1|_]; [lia|].
  assert (Hv2 : st@vres << 1 = st@vres * 2).
  { rewrite Z.shiftl_mul_pow2 by lia. reflexivity. }
  assert (Hf1 : fits_int ((st@vres << 1) * V_SYNC_NTSC) = true).
  { apply fits_int_iff. rewrite Hv2. unfold V_SYNC_NTSC. lia. }
  rewrite Hf1. cbn [negb].
  set (fh := ((st@vres << 1) * V_SYNC_NTSC) ÷ st@v_sync).
  assert (Hfh : 0 <= fh <= 536550).
  { subst fh. rewrite Hv2. unfold V_SYNC_NTSC. split.
    - apply Z.quot_pos; lia.
    - pose proof (quot_abs_le (st@vres * 2 * 525) (st@v_sync) E0). lia. }
  destruct (fits_int (st@hres_raw * fh)) eqn:Ef; cbn [negb].
  2:{ assert (Hno : ~ st@hres_raw * fh < 2 ^ 31).
      { intros Hlt. assert (Ht : fits_int (st@hres_raw * fh) = true)
          by (apply fits_int_iff; nia). congruence. }
      split; [intros [? ?]; discriminate | intros (_ & ? & _); contradiction]. }
  apply fits_int_iff in Ef.
  set (o0 := (st@hres_raw * fh) ÷ st@hres).
  assert (Ho0 : 0 <= o0 <= 4 * fh).
  { subst o0. split; [apply Z.quot_pos; nia|].
    rewrite Z.quot_div_nonneg by nia. apply Z.div_le_upper_bound; nia. }
  assert (Hf2 : fits_int (o0 * 9) = true) by (apply fits_int_iff; lia).
  rewrite Hf2. cbn [negb]. rewrite andb_false_r.
  set (o := if cfg_vi_widescreen cfg then (o0 * 9) ÷ 16 else o0).
  assert (Ho : 0 <= o).
  { subst o. destruct (cfg_vi_widescreen cfg); [apply Z.quot_pos; lia|lia]. }
  set (st1 := emit (ScreenUpload 0 st@hres_raw st@vres_raw st@hres_raw o) st).
  change (screenshot_path st1) with (screenshot_path st).
  change (vars st1) with (vars st).
  destruct (String.eqb (screenshot_path st) EmptyString) eqn:Ep; cbn [negb].
  - apply String.eqb_eq in Ep. split; [|eauto].
    intros _. split; [exact E0|]. split; [lia|]. intros Hne. contradiction.
  - apply String.eqb_neq in Ep.
    pose proof (screenshot_write_fast_iff L (screenshot_path st) st@hres_raw
                  st@vres_raw o st1 ltac:(lia) ltac:(lia) Hsz Ho) as Hiff.
    split.
    + intros [st' H]. split; [exact E0|]. split; [lia|]. intros _.
      apply Hiff.
      destruct (vi_screenshot_write _ _ _ _ _ _ _ _) as [st2| ]; [eauto|discriminate].
    + intros (_ & _ & Hc). destruct (proj2 Hiff (Hc Ep)) as [st2 Hst2].
      rewrite Hst2. eauto.
Qed.



Lemma last_store_entry (ws : list (Z * Z)) (k v : Z) :
  last_store ws k = Some v -> In (k, v) ws.
Proof.
  induction ws as [|[k0 v0] ws IH]; cbn [last_store]; [discriminate|].
  destruct (last_store ws k) as [v'| ] eqn:E.
  - intros H; injection H as ->. right. now apply IH.
  - destruct (Z.eqb_spec k k0) as [->|Hne]; [|discriminate].
    intros H; injection H as ->. now left.
Qed.

Lemma fast_value_mode (L : leaf_ops) (c1 c2 : core_config) (g : geometry) (y x : Z) :
  cfg_vi_mode c1 = cfg_vi_mode c2 -> fast_value L c1 g y x = fast_value L c2 g y x.
Proof. intros H. unfold fast_value, fast_pixel. now rewrite H. Qed.

Lemma enter_mode (c1 c2 : core_config) (tr : bool) (st : vi_state) :
  cfg_vi_mode c1 = cfg_vi_mode c2 ->
  vi_update_enter c1 tr st = vi_update_enter c2 tr st.
Proof. intros H. unfold vi_update_enter. now rewrite H. Qed.

(** Cells of a raw picture of width [w] are told apart by line and
    pixel. *)
Lemma cell_unique (w y x y' x' : Z) :
  0 <= x < w -> 0 <= x' < w -> y * w + x = y' * w + x' -> y = y' /\ x = x'.
Proof. intros Hx Hx' H. assert (y = y') by nia. subst. lia. Qed.

(** X16.  On the fast path the number of workers does not show.  With the
    dither off, a call of [vi_update] in a mode other than NORMAL leaves
    the same prescale buffer whether the frame is processed by the caller
    alone ([num_workers = 1]) or by a pool of [worker_num] workers. *)
Theorem fast_workers_agree (L : leaf_ops) (cfgN cfg1 : core_config) (wn : Z)
    (tr : bool) (regs : vi_regs) (st stN st1 : vi_state) :
  cfg_vi_mode cfgN = cfg_vi_mode cfg1 ->
  cfg_vi_mode cfg1 <> VI_MODE_NORMAL ->
  num_workers cfg1 = 1 -> 1 <= wn < 2 ^ 31 ->
  no_dither (rd regs VI_STATUS) ->
  vi_update L cfgN wn tr regs st = Some stN ->
  vi_update L cfg1 wn tr regs st = Some st1 ->
  forall k, prescale stN k = prescale st1 k.
Proof.
  intros Hsame Hmode H1 Hwn Hnd HN HS k.
  pose proof (update_cases L cfgN wn tr regs st stN HN) as [_ HbN].
  pose proof (update_cases L cfg1 wn tr regs st st1 HS) as [_ HbS].
  cbv zeta in HbN, HbS. unfold start_of in HbN, HbS.
  rewrite (enter_mode cfgN cfg1 tr st Hsame), Hsame in HbN.
  assert (HmodeN : cfg_vi_mode cfgN <> VI_MODE_NORMAL) by congruence.
  apply Z.eqb_neq in Hmode. rewrite Hmode in HbN, HbS. apply Z.eqb_neq in Hmode.
  set (s0 := vi_update_enter cfg1 tr st) in *.
  destruct (truthy (fst (vi_process_start_fast regs s0))) eqn:Hgo.
  - destruct (start_fast_accepted regs s0 Hgo)
      as (_ & _ & _ & Hhr & _ & _ & Hctrl & _).
    set (g := geometry_of (vars (snd (vi_process_start_fast regs s0)))) in *.
    assert (Hndg : no_dither (g_ctrl g)) by (unfold g; cbn [geometry_of g_ctrl];
                                             now rewrite Hctrl).
    destruct (fast_workers_cells L cfgN g wn _ _ _ _ HmodeN (or_intror Hwn) HbN)
      as (wsN & HovN & _ & HentN & HcovN).
    destruct (fast_workers_cells L cfg1 g wn _ _ _ _ Hmode (or_introl H1) HbS)
      as (wsS & HovS & _ & HentS & HcovS).
    rewrite HovN, HovS, !overlay_last_store.
    destruct (last_store wsN k) as [vN| ] eqn:EN.
    + apply last_store_entry in EN.
      destruct (HentN _ EN) as (y & x & Hy & Hx & Hk & Hv). cbn [fst snd] in Hk, Hv.
      specialize (HcovS y x Hy Hx). rewrite <- Hk in HcovS.
      apply last_store_in in HcovS.
      destruct (last_store wsS k) as [vS| ] eqn:ES; [|congruence].
      apply last_store_entry in ES.
      destruct (HentS _ ES) as (y' & x' & Hy' & Hx' & Hk' & Hv'). cbn [fst snd] in Hk', Hv'.
      destruct (cell_unique (g_hres_raw g) y x y' x' Hx Hx' ltac:(congruence))
        as [<- <-].
      specialize (Hv Hndg). specialize (Hv' Hndg).
      rewrite (fast_value_mode L cfgN cfg1 g y x Hsame) in Hv. congruence.
    + destruct (last_store wsS k) as [vS| ] eqn:ES; [|reflexivity].
      apply last_store_entry in ES.
      destruct (HentS _ ES) as (y & x & Hy & Hx & Hk & _). cbn [fst] in Hk.
      specialize (HcovN y x Hy Hx). rewrite <- Hk in HcovN.
      apply last_store_in in HcovN. congruence.
  - destruct HbN as [-> _]. destruct HbS as [-> _]. reflexivity.
Qed.

Lemma fast_workers_agree_witness :
  exists stN st1,
    vi_update Demo.ops (Demo.cfg 2 VI_MODE_COLOR) 2 false (Demo.regs 2) Demo.st0
    = Some stN
    /\ vi_update Demo.ops (Demo.cfg 1 VI_MODE_COLOR) 2 false (Demo.regs 2) Demo.st0
       = Some st1
    /\ prescale stN 8 = 32
    /\ forall k, prescale stN k = prescale st1 k.
Proof.
  destruct (vi_update Demo.ops (Demo.cfg 2 VI_MODE_COLOR) 2 false (Demo.regs 2)
              Demo.st0) as [stN| ] eqn:EN; [|vm_compute in EN; discriminate EN].
  destruct (vi_update Demo.ops (Demo.cfg 1 VI_MODE_COLOR) 2 false (Demo.regs 2)
              Demo.st0) as [st1| ] eqn:E1; [|vm_compute in E1; discriminate E1].
  exists stN, st1. split; [reflexivity|]. split; [reflexivity|]. split.
  - vm_compute in EN. injection EN as <-. vm_compute. reflexivity.
  - apply (fast_workers_agree Demo.ops (Demo.cfg 2 VI_MODE_COLOR)
             (Demo.cfg 1 VI_MODE_COLOR) 2 false (Demo.regs 2) Demo.st0 stN st1);
      try assumption.
    + reflexivity.
    + vm_compute. discriminate.
    + reflexivity.
    + lia.
    + vm_compute. reflexivity.
Defined.

(** ** The worker pool *)

Import Parallel.

Ltac step_cases H :=
  unfold step, destructor, run, do_work, spurious, wait in H;
  repeat match type of H with
         | context [match ?x with _ => _ end] =>
             lazymatch x with
             | match _ with _ => _ end => fail
             | _ => destruct x eqn:?
             end
         end;
  try discriminate H; injection H as <-.

Lemma replace_nth_length (k : nat) (pc : worker_pc) (l : list worker_pc) :
  List.length (replace_nth k pc l) = List.length l.
Proof.
  revert k; induction l as [|x l IH]; intros [|k]; cbn; auto.
Qed.

Lemma nth_error_replace_nth (k i : nat) (pc : worker_pc) (l : list worker_pc) :
  nth_error (replace_nth k pc l) i
  = if Nat.eqb i k then option_map (fun _ => pc) (nth_error l i)
    else nth_error l i.
Proof.
  revert k i; induction l as [|x l IH]; intros [|k] [|i]; cbn; auto.
  - destruct (Nat.eqb i k); reflexivity.
Qed.

Lemma notify_done_fields (s : pool) :
  workers (notify_done s) = workers s
  /\ m_task (notify_done s) = m_task s
  /\ m_accept_work (notify_done s) = m_accept_work s
  /\ executed (notify_done s) = executed s
  /\ terminated (notify_done s) = terminated s
  /\ stopping (closer (notify_done s)) = stopping (closer s)
  /\ joined (notify_done s) = joined s
  /\ (forall t, runner s = R44 t \/ runner s = RThrown t ->
      runner (notify_done s) = runner s).
Proof.
  unfold notify_done, joined.
  destruct (closer s) eqn:Ec; cbn; rewrite ?Ec;
    destruct (runner s) eqn:Er; cbn; rewrite ?Ec;
    repeat split; intros ? [?|?]; congruence.
Qed.

Lemma step_length (m : move) (s s' : pool) :
  step m s = Some s' -> List.length (workers s') = List.length (workers s).
Proof.
  intros H. destruct (notify_done_fields s) as (Hw & _).
  step_cases H; cbn; rewrite ?replace_nth_length, ?length_map, ?Hw; reflexivity.
Qed.

Lemma step_exited (m : move) (s s' : pool) (i : nat) :
  step m s = Some s' ->
  nth_error (workers s) i = Some WExit -> nth_error (workers s') i = Some WExit.
Proof.
  intros H Hi. destruct (notify_done_fields s) as (Hw & _).
  step_cases H; cbn; rewrite ?nth_error_replace_nth, ?nth_error_map, ?Hw, ?Hi;
    try reflexivity;
    destruct (Nat.eqb_spec i k); subst; congruence.
Qed.

Lemma step_joined (m : move) (s s' : pool) (i : nat) :
  step m s = Some s' -> (i < joined s')%nat ->
  (i < joined s)%nat \/ nth_error (workers s) i = Some WExit.
Proof.
  intros H. destruct (notify_done_fields s) as (_ & _ & _ & _ & _ & _ & Hj & _).
  assert (Hl := step_length m s s' H). revert Hl.
  step_cases H; unfold joined in *; cbn;
    try rewrite !replace_nth_length; try rewrite !length_map;
    repeat match goal with E : closer _ = _ |- _ => rewrite E in * end;
    intros Hl Hi; try (left; lia); try (left; exact Hi).
  - destruct (Nat.eq_dec i k) as [->|Hne]; [right; assumption | left; lia].
  - left. match goal with E : nth_error _ _ = None |- _ =>
                    apply nth_error_None in E end. lia.
Qed.

Lemma step_stopping (m : move) (s s' : pool) :
  step m s = Some s' ->
  (m_accept_work s = false -> stopping (closer s) = true) ->
  m_accept_work s' = false -> stopping (closer s') = true.
Proof.
  intros H. destruct (notify_done_fields s) as (_ & _ & Ha & _ & _ & Hs & _).
  step_cases H; cbn; rewrite ?Ha, ?Hs;
    repeat match goal with E : closer _ = _ |- _ => rewrite E in * end;
    cbn; auto; try congruence.
Qed.

Lemma step_inv (m : move) (s s' : pool) :
  step m s = Some s' -> pool_inv s -> pool_inv s'.
Proof.
  intros H [Hj Hs]. split.
  - intros i Hi. destruct (step_joined m s s' i H Hi) as [Hlt|He].
    + apply (step_exited m s s' i H). auto.
    + apply (step_exited m s s' i H He).
  - apply (step_stopping m s s' H Hs).
Qed.

Lemma exec_inv (sched : list move) (s s' : pool) :
  exec sched s = Some s' -> pool_inv s -> pool_inv s'.
Proof.
  revert s; induction sched as [|m sched IH]; cbn; intros s H Hinv.
  - injection H as <-. exact Hinv.
  - destruct (step m s) as [s1| ] eqn:E; [|discriminate].
    apply (IH s1 H). apply (step_inv m s s1 E Hinv).
Qed.

Lemma exec_length (sched : list move) (s s' : pool) :
  exec sched s = Some s' -> List.length (workers s') = List.length (workers s).
Proof.
  revert s; induction sched as [|m sched IH]; cbn; intros s H.
  - injection H as <-. reflexivity.
  - destruct (step m s) as [s1| ] eqn:E; [|discriminate].
    rewrite (IH s1 H). apply (step_length m s s1 E).
Qed.

Lemma init_inv (n : nat) (ts : list nat) (active0 : Z) :
  pool_inv (init n ts active0).
Proof.
  split; cbn; [intros i Hi; inversion Hi | discriminate].
Qed.

Lemma step_refused (t : nat) (m : move) (s0 s s' : pool) :
  step m s = Some s' -> refused t s0 s -> refused t s0 s'.
Proof.
  intros H (Ha & Hs & Hr & Ht & calls & Hc & Hin).
  destruct (notify_done_fields s) as (_ & Ht' & Ha' & He' & _ & Hs' & _ & Hr').
  specialize (Hr' t Hr).
  unfold refused.
  step_cases H; cbn; rewrite ?Ht', ?Ha', ?He', ?Hs', ?Hr';
    repeat match goal with E : closer _ = _ |- _ => rewrite E in * end;
    repeat match goal with E : runner _ = _ |- _ => rewrite E in * end;
    try discriminate; try (destruct Hr; discriminate); try congruence;
    try (split; [|split; [|split; [|split] ] ]; auto; exists calls; split; auto; fail).
  - split; [|split; [|split; [|split] ] ]; auto.
    + right. destruct Hr as [Hr|Hr]; [injection Hr as ->; reflexivity | discriminate].
    + exists calls; auto.
  - split; [|split; [|split; [|split] ] ]; auto; try congruence.
    exists ((k, t1) :: calls). split.
    + rewrite Hc. reflexivity.
    + intros e [<-|He]; [cbn; congruence | auto].
  - split; [|split; [|split; [|split] ] ]; auto; try congruence.
    exists calls; auto.
Qed.

Lemma exec_refused (t : nat) (sched : list move) (s0 s s' : pool) :
  exec sched s = Some s' -> refused t s0 s -> refused t s0 s'.
Proof.
  revert s; induction sched as [|m sched IH]; cbn; intros s H Hr.
  - injection H as <-. exact Hr.
  - destruct (step m s) as [s1| ] eqn:E; [|discriminate].
    apply (IH s1 H). apply (step_refused t m s0 s s1 E Hr).
Qed.



(** The destructor can also wait for ever.  A worker that has tested
    [m_accept_work] at line 68 before line 30 cleared it, and enters the
    wait of line 69 after the [notify_all] of line 31, is never notified
    again: the destructor is blocked in [join], and no thread has a step. *)
Lemma close_can_block :
  exists s,
    exec lost_wakeup_sched (init 1 [] 0) = Some s
    /\ closer s = CJoin 0 /\ workers s = [W69_blocked]
    /\ forall t, step (Step t) s = None.
Proof.
  eexists. split; [vm_compute; reflexivity|].
  split; [reflexivity|]. split; [reflexivity|].
  intros [ | |[|[|k] ] ]; reflexivity.
Qed.

(** ** Further properties of the worker pool *)

Import Pool.

Lemma count_true_replace (f : worker_pc -> bool) (k : nat) (pc pc' : worker_pc)
    (l : list worker_pc) :
  nth_error l k = Some pc ->
  (count_true f (replace_nth k pc' l) + (if f pc then 1 else 0)
   = count_true f l + (if f pc' then 1 else 0))%nat.
Proof.
  unfold count_true.
  revert k; induction l as [|x l IH]; intros [|k] H; cbn in *; try discriminate.
  - injection H as ->. destruct (f pc), (f pc'); cbn; lia.
  - specialize (IH k H). destruct (f x); cbn; lia.
Qed.

Lemma count_true_wake (l : list worker_pc) :
  count_true worker_holds (map wake_worker l) = count_true worker_holds l.
Proof.
  unfold count_true.
  induction l as [|x l IH]; cbn; [reflexivity|].
  destruct x; cbn; rewrite ?IH; reflexivity.
Qed.

Lemma notify_done_holds (s : pool) :
  closer_holds (closer (notify_done s)) = closer_holds (closer s)
  /\ runner_holds (runner (notify_done s)) = runner_holds (runner s)
  /\ m_mutex (notify_done s) = m_mutex s
  /\ m_workers_active (notify_done s) = m_workers_active s
  /\ pending (notify_done s) = pending s.
Proof.
  unfold notify_done.
  destruct (closer s) as [ [ ] | | | | | | ] eqn:Ec; cbn; rewrite ?Ec;
    destruct (runner s) as [ | | | | | | [ ] ] eqn:Er; cbn; rewrite ?Ec, ?Er;
    repeat split.
Qed.

Lemma step_lock (m : move) (s s' : pool) :
  step m s = Some s' -> lock_inv s -> lock_inv s'.
Proof.
  intros H. destruct (notify_done_fields s) as (Hw & _).
  destruct (notify_done_holds s) as (Hc & Hr & Hm & _).
  unfold lock_inv, holders, count_true.
  step_cases H; cbn; rewrite ?Hw, ?Hc, ?Hr, ?Hm;
    try (rewrite (count_true_wake (workers s) : List.length (filter _ (map _ _)) = _));
    repeat match goal with E : closer _ = _ |- _ => rewrite E in * end;
    repeat match goal with E : runner _ = _ |- _ => rewrite E in * end;
    repeat match goal with E : m_mutex _ = _ |- _ => rewrite E in * end;
    repeat match goal with E : wait_holds _ = _ |- _ => rewrite E in * end;
    cbn;
    try match goal with
        | E : nth_error (workers s) ?k = Some ?pc
          |- context [replace_nth ?k ?pc' _] =>
            pose proof (count_true_replace worker_holds k pc pc' _ E) as Hcnt;
            unfold count_true in Hcnt; cbn in Hcnt
        end;
    intros Hl; unfold count_true; try lia; try (destruct (m_mutex s); lia).
Qed.

Lemma exec_lock (sched : list move) (s s' : pool) :
  exec sched s = Some s' -> lock_inv s -> lock_inv s'.
Proof.
  revert s; induction sched as [|m sched IH]; cbn; intros s H Hinv.
  - injection H as <-. exact Hinv.
  - destruct (step m s) as [s1| ] eqn:E; [|discriminate].
    apply (IH s1 H). apply (step_lock m s s1 E Hinv).
Qed.

Lemma init_lock (n : nat) (ts : list nat) (active0 : Z) :
  lock_inv (init n ts active0).
Proof.
  unfold lock_inv, holders, count_true. cbn.
  induction n as [|n IH]; cbn; [reflexivity | exact IH].
Qed.

Lemma calls_of_cons (j k : nat) (t : task) (ex : list (nat * task)) :
  calls_of j ((k, t) :: ex)
  = if Nat.eqb k j then calls_of j ex ++ [t] else calls_of j ex.
Proof.
  unfold calls_of. cbn. destruct (Nat.eqb k j); reflexivity.
Qed.

Lemma owing_frame (dn : list nat) (ex ex' : list (nat * task))
    (l : list worker_pc) (i : nat) :
  (forall j, (i <= j)%nat -> calls_of j ex' = calls_of j ex) ->
  owing dn ex' i l = owing dn ex i l.
Proof.
  revert i; induction l as [|pc l IH]; intros i H; cbn; [reflexivity|].
  rewrite (H i), (IH (S i)); auto. intros j Hj. apply H. lia.
Qed.

Lemma owing_change (dn : list nat) (ex ex' : list (nat * task)) (k : nat)
    (pc pc' : worker_pc) (l : list worker_pc) (i : nat) :
  nth_error l k = Some pc ->
  (forall j, j <> (i + k)%nat -> calls_of j ex' = calls_of j ex) ->
  (owing dn ex' i (replace_nth k pc' l)
   + (if owes dn (calls_of (i + k) ex) pc then 1 else 0)
   = owing dn ex i l
     + (if owes dn (calls_of (i + k) ex') pc' then 1 else 0))%nat.
Proof.
  revert k i; induction l as [|x l IH]; intros [|k] i Hk H; cbn in *;
    try discriminate.
  - injection Hk as ->. rewrite Nat.add_0_r in *.
    rewrite (owing_frame dn ex ex' l (S i)) by (intros j Hj; apply H; lia).
    lia.
  - rewrite (H i) by lia.
    specialize (IH k (S i) Hk).
    replace (S i + k)%nat with (i + S k)%nat in IH by lia.
    specialize (IH H). lia.
Qed.

Lemma owing_le (dn : list nat) (ex : list (nat * task)) (l : list worker_pc)
    (i : nat) :
  (owing dn ex i l <= List.length l)%nat.
Proof.
  revert i; induction l as [|pc l IH]; intros i; cbn; [lia|].
  specialize (IH (S i)). destruct (owes _ _ _); lia.
Qed.

Lemma owing_all (dn : list nat) (ex : list (nat * task)) (l : list worker_pc)
    (i : nat) :
  (forall j pc, nth_error l j = Some pc ->
                owes dn (calls_of (i + j) ex) pc = true) ->
  owing dn ex i l = List.length l.
Proof.
  revert i; induction l as [|pc l IH]; intros i H; cbn; [reflexivity|].
  rewrite (IH (S i)).
  - specialize (H O pc eq_refl). rewrite Nat.add_0_r in H. rewrite H. reflexivity.
  - intros j pc' Hj. specialize (H (S j) pc' Hj).
    replace (S i + j)%nat with (i + S j)%nat by lia. exact H.
Qed.

Lemma owing_zero (dn : list nat) (ex : list (nat * task)) (l : list worker_pc)
    (i j : nat) (pc : worker_pc) :
  owing dn ex i l = O -> nth_error l j = Some pc ->
  owes dn (calls_of (i + j) ex) pc = false.
Proof.
  revert i j; induction l as [|x l IH]; intros i [|j] H Hj; cbn in *;
    try discriminate.
  - injection Hj as ->. rewrite Nat.add_0_r.
    destruct (owes dn (calls_of i ex) pc); [lia | reflexivity].
  - replace (i + S j)%nat with (S i + j)%nat by lia.
    apply IH; [|exact Hj]. destruct (owes dn (calls_of i ex) x); lia.
Qed.

Lemma owing_pos (dn : list nat) (ex : list (nat * task)) (l : list worker_pc)
    (i j : nat) (pc : worker_pc) :
  nth_error l j = Some pc -> owes dn (calls_of (i + j) ex) pc = true ->
  (1 <= owing dn ex i l)%nat.
Proof.
  intros Hj Ho.
  destruct (owing dn ex i l) eqn:E; [|lia].
  rewrite (owing_zero dn ex l i j pc E Hj) in Ho. discriminate.
Qed.

Lemma all_workers_set (P : list task -> worker_pc -> Prop) (s s' : pool)
    (k : nat) (pc' : worker_pc) :
  all_workers P s ->
  workers s' = replace_nth k pc' (workers s) ->
  executed s' = executed s ->
  P (calls_of k (executed s)) pc' ->
  all_workers P s'.
Proof.
  intros H Hw He Hk j pc Hj.
  rewrite Hw, nth_error_replace_nth in Hj. rewrite He.
  destruct (Nat.eqb_spec j k) as [->|Hne].
  - destruct (nth_error (workers s) k); cbn in Hj; [|discriminate].
    injection Hj as <-. exact Hk.
  - apply H. exact Hj.
Qed.

Lemma count_true_zero (f : worker_pc -> bool) (l : list worker_pc) (k : nat)
    (pc : worker_pc) :
  count_true f l = O -> nth_error l k = Some pc -> f pc = false.
Proof.
  unfold count_true.
  revert k; induction l as [|x l IH]; intros [|k] H Hk; cbn in *;
    try discriminate.
  - injection Hk as ->. destruct (f pc); [discriminate | reflexivity].
  - apply (IH k); [|exact Hk]. destruct (f x); [discriminate | exact H].
Qed.

Lemma notify_done_run (s : pool) (w : wait_pc) :
  closer s = CWait T79 -> runner s = RWait w ->
  notify_done s = set_runner (RWait (wake_wait w)) (set_closer (CWait T79) s).
Proof.
  intros Hc Hr. unfold notify_done. rewrite Hc. cbn. rewrite Hr. reflexivity.
Qed.

Lemma do_work_idle (dn : list nat) (k : nat) (s s' : pool) :
  do_work k s = Some s' -> m_accept_work s = true ->
  all_workers (idle_ok dn) s ->
  all_workers (idle_ok dn) s'
  /\ runner s' = runner s /\ pending s' = pending s /\ m_task s' = m_task s
  /\ m_workers_active s' = m_workers_active s /\ closer s' = closer s
  /\ m_accept_work s' = true /\ terminated s' = terminated s
  /\ List.length (workers s') = List.length (workers s).
Proof.
  intros H Ha Hall. unfold do_work in H.
  destruct (nth_error (workers s) k) as [pc| ] eqn:Ek; [|discriminate].
  destruct (Hall k pc Ek) as (Hlg & Hidle & Hb).
  rewrite Ha in H.
  destruct pc; cbn in Hidle; try discriminate Hidle; try discriminate H;
    try (destruct (m_mutex s); [discriminate H|]);
    injection H as <-; cbn; rewrite replace_nth_length;
    (split; [|repeat split; auto]);
    (eapply all_workers_set with (k := k); [exact Hall | reflexivity | reflexivity |]);
    (split; [exact Hlg | split; [reflexivity|] ]);
    intros Hne; specialize (Hb Hne); discriminate Hb.
Qed.

Lemma length_map_task (dn : list nat) (t : nat) :
  Nat.eqb (List.length (map Task (dn ++ [t]))) (List.length dn) = false.
Proof.
  rewrite length_map, length_app. cbn. apply Nat.eqb_neq. lia.
Qed.

Lemma do_work_run (n : nat) (dn : list nat) (t k : nat) (s s' : pool)
    (w : wait_pc) :
  Z.of_nat n < 2 ^ 64 -> List.length (workers s) = n ->
  do_work k s = Some s' ->
  m_accept_work s = true -> m_task s = Some (Task t) ->
  closer s = CWait T79 -> runner s = RWait w -> terminated s = false ->
  all_workers (run_ok dn t) s ->
  m_workers_active s = Z.of_nat (owing dn (executed s) 0 (workers s)) ->
  all_workers (run_ok dn t) s'
  /\ m_workers_active s' = Z.of_nat (owing dn (executed s') 0 (workers s'))
  /\ (exists w', runner s' = RWait w')
  /\ pending s' = pending s /\ m_task s' = m_task s
  /\ closer s' = closer s /\ m_accept_work s' = true
  /\ terminated s' = false
  /\ List.length (workers s') = List.length (workers s).
Proof.
  intros Hn Hl H Ha Ht Hc Hr Hterm Hall Hact. unfold do_work in H.
  destruct (nth_error (workers s) k) as [pc| ] eqn:Ek; [|discriminate].
  pose proof (Hall k pc Ek) as Hk.
  rewrite Ha, Ht in H.
  assert (Hplain : forall pc' s1,
    workers s1 = replace_nth k pc' (workers s) -> executed s1 = executed s ->
    m_workers_active s1 = m_workers_active s ->
    pc_called pc' = pc_called pc ->
    run_ok dn t (calls_of k (executed s)) pc' ->
    all_workers (run_ok dn t) s1
    /\ m_workers_active s1 = Z.of_nat (owing dn (executed s1) 0 (workers s1))).
  { intros pc' s1 Hw He Hm Hcall Hok. split.
    - apply (all_workers_set _ s s1 k pc' Hall Hw He Hok).
    - rewrite Hm, Hact, Hw, He. f_equal.
      pose proof (owing_change dn (executed s) (executed s) k pc pc'
                    (workers s) O Ek (fun _ _ => eq_refl)) as Ho.
      unfold owes in Ho. rewrite Hcall in Ho. lia. }
  destruct pc; try discriminate H;
    try (destruct (m_mutex s); [discriminate H|]);
    injection H as <-.
  - (* W67 *)
    destruct (Hplain W68 (set_worker k W68 (set_mutex true s)))
      as [H1 H2]; try reflexivity.
    { destruct Hk as [ [Hlg Hpc]|[Hlg Hpc] ]; [left|right]; split; auto.
      all: try discriminate Hpc. }
    cbn. rewrite replace_nth_length. repeat split; eauto.
  - (* W68 *)
    destruct (Hplain W69 (set_worker k W69 s)) as [H1 H2]; try reflexivity.
    { destruct Hk as [ [Hlg Hpc]|[Hlg Hpc] ]; [left|right]; split; auto. }
    cbn. rewrite replace_nth_length. repeat split; eauto.
  - (* W69 *)
    destruct (Hplain W69_blocked (set_worker k W69_blocked (set_mutex false s)))
      as [H1 H2]; try reflexivity.
    { destruct Hk as [ [Hlg Hpc]|[Hlg Hpc] ]; [left|right]; split; auto. }
    cbn. rewrite replace_nth_length. repeat split; eauto.
  - (* W69_relock *)
    destruct (Hplain W70 (set_worker k W70 (set_mutex true s)))
      as [H1 H2]; try reflexivity.
    { destruct Hk as [ [Hlg Hpc]|[Hlg Hpc] ]; [left|right]; split; auto.
      all: try discriminate Hpc. }
    cbn. rewrite replace_nth_length. repeat split; eauto.
  - (* W70 *)
    destruct (Hplain W71 (set_worker k W71 (set_mutex false s)))
      as [H1 H2]; try reflexivity.
    { destruct Hk as [ [Hlg Hpc]|[Hlg Hpc] ]; [left|right]; split; auto.
      all: try discriminate Hpc. }
    cbn. rewrite replace_nth_length. repeat split; eauto.
  - (* W71: the call *)
    destruct Hk as [ [Hlg Hpc]|[Hlg Hpc] ]; [|discriminate Hpc].
    cbn. rewrite replace_nth_length.
    split; [|split; [|repeat split; eauto] ].
    + intros j pc Hj.
      change (nth_error (replace_nth k W72 (workers s)) j = Some pc) in Hj.
      change (run_ok dn t (calls_of j ((k, Task t) :: executed s)) pc).
      rewrite nth_error_replace_nth in Hj. rewrite calls_of_cons.
      destruct (Nat.eqb_spec j k) as [->|Hne].
      * rewrite Ek in Hj. cbn in Hj. injection Hj as <-.
        rewrite Nat.eqb_refl. right. split; [|reflexivity].
        rewrite Hlg, map_app. reflexivity.
      * destruct (Nat.eqb_spec k j) as [->|_]; [congruence|].
        apply Hall. exact Hj.
    + rewrite Hact. f_equal.
      pose proof (owing_change dn (executed s) ((k, Task t) :: executed s) k
                    W71 W72 (workers s) O Ek) as Ho.
      cbn [Nat.add] in Ho.
      assert (Hf : forall j, j <> k ->
                calls_of j ((k, Task t) :: executed s) = calls_of j (executed s)).
      { intros j Hne. rewrite calls_of_cons.
        destruct (Nat.eqb_spec k j) as [->|_]; [congruence | reflexivity]. }
      specialize (Ho Hf). unfold owes in Ho.
      rewrite Hlg, length_map, Nat.eqb_refl in Ho. cbn in Ho.
      rewrite orb_true_r in Ho. lia.
  - (* W72 *)
    destruct (Hplain W73 (set_worker k W73 (set_mutex true s)))
      as [H1 H2]; try reflexivity.
    { destruct Hk as [ [Hlg Hpc]|[Hlg Hpc] ]; [left|right]; split; auto. }
    cbn. rewrite replace_nth_length. repeat split; eauto.
  - (* W73: the decrement *)
    destruct Hk as [ [Hlg Hpc]|[Hlg Hpc] ]; [discriminate Hpc|].
    cbn. rewrite replace_nth_length.
    split; [|split; [|repeat split; eauto] ].
    + eapply all_workers_set with (k := k); [exact Hall | reflexivity | reflexivity |].
      right. split; [exact Hlg | reflexivity].
    + pose proof (owing_change dn (executed s) (executed s) k W73 W74
                    (workers s) O Ek (fun _ _ => eq_refl)) as Ho.
      cbn [Nat.add] in Ho. unfold owes in Ho.
      rewrite Hlg, length_map_task in Ho. cbn in Ho.
      pose proof (owing_le dn (executed s) (replace_nth k W74 (workers s)) O) as Hle.
      rewrite replace_nth_length in Hle.
      unfold size_t. rewrite Hact. rewrite Z.mod_small; lia.
  - (* W74: the notification *)
    rewrite (notify_done_run s w Hc Hr).
    destruct (Hplain W68 (set_worker k W68
                (set_runner (RWait (wake_wait w)) (set_closer (CWait T79) s))))
      as [H1 H2]; try reflexivity.
    { destruct Hk as [ [Hlg Hpc]|[Hlg Hpc] ]; [left|right]; split; auto. }
    cbn. rewrite replace_nth_length. repeat split; eauto.
Qed.

Lemma run_keeps_inv (n : nat) (ts : list nat) (s s' : pool) :
  run s = Some s' -> lock_inv s -> run_inv n ts s -> run_inv n ts s'.
Proof.
  intros H Hlock (Ht & Ha & Hc & Hl & dn & Hinv).
  unfold run in H. unfold run_inv.
  destruct (runner s) as [ |t|t|t| | |w] eqn:Er.
  - (* between two calls *)
    destruct (pending s) as [|t p] eqn:Ep; [discriminate|]. injection H as <-.
    cbn. repeat (split; [assumption|]). exists dn. exact Hinv.
  - (* 44 *)
    rewrite Ha in H. injection H as <-.
    cbn. repeat (split; [assumption|]). exists dn. exact Hinv.
  - destruct Hinv.
  - (* 49 *)
    injection H as <-.
    cbn. repeat (split; [assumption|]). exists dn, t.
    destruct Hinv as [Hts Hall]. split; [|split]; [assumption|reflexivity|assumption].
  - (* 50 *)
    injection H as <-.
    cbn. repeat (split; [assumption|]). exists dn.
    destruct Hinv as (t & Hts & Htask & Hall). exists t.
    repeat (split; [assumption|]).
    unfold m_workers_size. rewrite Hc, Hl. reflexivity.
  - (* 51: the notification *)
    injection H as <-.
    cbn. rewrite length_map. repeat (split; [assumption|]). exists dn.
    destruct Hinv as (t & Hts & Htask & Hall & Hact). exists t.
    repeat (split; [assumption|]).
    assert (Hrun : forall j pc',
      nth_error (map wake_worker (workers s)) j = Some pc' ->
      run_ok dn t (calls_of j (executed s)) pc'
      /\ owes dn (calls_of j (executed s)) pc' = true).
    { intros j pc' Hj. rewrite nth_error_map in Hj.
      destruct (nth_error (workers s) j) as [pc| ] eqn:Ej; [|discriminate].
      cbn in Hj. injection Hj as <-.
      destruct (Hall j pc Ej) as (Hlg & Hidle & _). split.
      - left. split; [exact Hlg|]. destruct pc; try discriminate; reflexivity.
      - unfold owes. rewrite Hlg, length_map, Nat.eqb_refl. reflexivity. }
    split.
    + intros j pc' Hj. apply (Hrun j pc' Hj).
    + rewrite Hact, owing_all, length_map, Hl; [reflexivity|].
      intros j pc' Hj. apply (Hrun j pc' Hj).
  - (* 54: wait *)
    destruct Hinv as (t & Hts & Htask & Hall & Hact).
    unfold wait in H.
    destruct w; try discriminate H.
    + destruct (m_mutex s); [discriminate|]. injection H as <-.
      cbn. repeat (split; [assumption|]). exists dn, t. split; [|split; [|split] ]; assumption.
    + destruct (m_workers_active s =? 0) eqn:E0; injection H as <-.
      * (* the call returns *)
        apply Z.eqb_eq in E0.
        cbn. repeat (split; [assumption|]). exists (dn ++ [t]).
        split; [rewrite <- app_assoc; exact Hts|].
        assert (Hnone : count_true worker_holds (workers s) = O).
        { unfold lock_inv, holders in Hlock. rewrite Er, Hc in Hlock.
          cbn in Hlock. destruct (m_mutex s); lia. }
        assert (Hzero : owing dn (executed s) 0 (workers s) = O) by lia.
        intros j pc Hj.
        pose proof (owing_zero dn _ _ O j pc Hzero Hj) as Ho.
        pose proof (count_true_zero _ _ j pc Hnone Hj) as Hh.
        cbn [Nat.add] in Ho. unfold owes in Ho.
        apply orb_false_iff in Ho. destruct Ho as [Hlen Hcall].
        destruct (Hall j pc Hj) as [ [Hlg _]|[Hlg Hpc] ].
        { rewrite Hlg, length_map, Nat.eqb_refl in Hlen. discriminate. }
        assert (Hb : pc = W69_blocked)
          by (destruct pc; try discriminate; reflexivity).
        subst pc. split; [exact Hlg|]. split; reflexivity.
      * cbn. repeat (split; [assumption|]). exists dn, t. split; [|split; [|split] ]; assumption.
    + injection H as <-.
      cbn. repeat (split; [assumption|]). exists dn, t. split; [|split; [|split] ]; assumption.
    + destruct (m_mutex s); [discriminate|]. injection H as <-.
      cbn. repeat (split; [assumption|]). exists dn, t. split; [|split; [|split] ]; assumption.
Qed.

Lemma do_work_keeps_inv (n : nat) (ts : list nat) (k : nat) (s s' : pool) :
  Z.of_nat n < 2 ^ 64 ->
  do_work k s = Some s' -> run_inv n ts s -> run_inv n ts s'.
Proof.
  intros Hn H (Ht & Ha & Hc & Hl & dn & Hinv). unfold run_inv.
  destruct (runner s) as [ |t|t|t| | |w] eqn:Er.
  - destruct Hinv as [Hts Hall].
    destruct (do_work_idle dn k s s' H Ha Hall)
      as (H1 & H2 & H3 & H4 & H5 & H6 & H7 & H8 & H9).
    rewrite H2, H3, H6, H7, H8, H9, Er. repeat (split; [auto|]). exists dn. split; assumption.
  - destruct Hinv as [Hts Hall].
    destruct (do_work_idle dn k s s' H Ha Hall)
      as (H1 & H2 & H3 & H4 & H5 & H6 & H7 & H8 & H9).
    rewrite H2, H3, H6, H7, H8, H9, Er. repeat (split; [auto|]). exists dn. split; assumption.
  - destruct Hinv.
  - destruct Hinv as [Hts Hall].
    destruct (do_work_idle dn k s s' H Ha Hall)
      as (H1 & H2 & H3 & H4 & H5 & H6 & H7 & H8 & H9).
    rewrite H2, H3, H6, H7, H8, H9, Er. repeat (split; [auto|]). exists dn. split; assumption.
  - destruct Hinv as (t & Hts & Htask & Hall).
    destruct (do_work_idle dn k s s' H Ha Hall)
      as (H1 & H2 & H3 & H4 & H5 & H6 & H7 & H8 & H9).
    rewrite H2, H3, H4, H6, H7, H8, H9, Er. repeat (split; [auto|]).
    exists dn, t. split; [|split]; assumption.
  - destruct Hinv as (t & Hts & Htask & Hall & Hact).
    destruct (do_work_idle dn k s s' H Ha Hall)
      as (H1 & H2 & H3 & H4 & H5 & H6 & H7 & H8 & H9).
    rewrite H2, H3, H4, H5, H6, H7, H8, H9, Er. repeat (split; [auto|]).
    exists dn, t. split; [|split; [|split] ]; assumption.
  - destruct Hinv as (t & Hts & Htask & Hall & Hact).
    destruct (do_work_run n dn t k s s' w Hn Hl H Ha Htask Hc Er Ht Hall Hact)
      as (H1 & H2 & [w' H3] & H4 & H5 & H6 & H7 & H8 & H9).
    rewrite H3, H4, H5, H6, H7, H8, H9. repeat (split; [auto|]).
    exists dn, t. split; [|split; [|split] ]; assumption.
Qed.

Lemma quiet_step_inv (n : nat) (ts : list nat) (m : move) (s s' : pool) :
  Z.of_nat n < 2 ^ 64 -> quiet m = true -> step m s = Some s' ->
  lock_inv s /\ run_inv n ts s -> lock_inv s' /\ run_inv n ts s'.
Proof.
  intros Hn Hq H [Hlock Hinv]. split; [apply (step_lock m s s' H Hlock)|].
  unfold step in H. destruct (terminated s); [discriminate|].
  destruct m as [ [ | |k]|]; try discriminate Hq.
  - apply (run_keeps_inv n ts s s' H Hlock Hinv).
  - apply (do_work_keeps_inv n ts k s s' Hn H Hinv).
Qed.

Lemma quiet_exec_inv (n : nat) (ts : list nat) (sched : list move)
    (s s' : pool) :
  Z.of_nat n < 2 ^ 64 -> forallb quiet sched = true -> exec sched s = Some s' ->
  lock_inv s /\ run_inv n ts s -> lock_inv s' /\ run_inv n ts s'.
Proof.
  intros Hn. revert s; induction sched as [|m sched IH]; cbn; intros s Hq H Hinv.
  - injection H as <-. exact Hinv.
  - apply andb_true_iff in Hq. destruct Hq as [Hm Hq].
    destruct (step m s) as [s1| ] eqn:E; [|discriminate].
    apply (IH s1 Hq H). apply (quiet_step_inv n ts m s s1 Hn Hm E Hinv).
Qed.

Lemma init_run_inv (n : nat) (ts : list nat) (active0 : Z) :
  run_inv n ts (init n ts active0).
Proof.
  unfold run_inv. cbn. rewrite repeat_length.
  repeat (split; [reflexivity|]). exists []. split; [reflexivity|].
  intros k pc Hk. cbn in Hk.
  apply nth_error_In, repeat_spec in Hk. subst pc.
  split; [|split; [reflexivity | intros Hne; congruence] ].
  unfold calls_of. reflexivity.
Qed.

Lemma do_work_other (j k : nat) (s s' : pool) :
  do_work j s = Some s' -> k <> j ->
  nth_error (workers s') k = nth_error (workers s) k
  /\ calls_of k (executed s') = calls_of k (executed s).
Proof.
  intros H Hne. unfold do_work in H.
  destruct (notify_done_fields s) as (Hw & _ & _ & He & _).
  destruct (nth_error (workers s) j) as [pc| ] eqn:Ej; [|discriminate].
  assert (Hk : forall pc' l, nth_error (replace_nth j pc' l) k = nth_error l k).
  { intros pc' l. rewrite nth_error_replace_nth.
    destruct (Nat.eqb_spec k j); [contradiction | reflexivity]. }
  destruct pc; try discriminate H;
    try (destruct (m_mutex s); [discriminate H|]);
    try (destruct (m_accept_work s));
    try (destruct (m_task s) as [tk| ]);
    injection H as <-; cbn [workers executed set_worker set_workers set_mutex
                            set_active add_executed set_terminated];
    rewrite ?Hk, ?Hw, ?He; split; try reflexivity.
  all: rewrite calls_of_cons.
  all: destruct (Nat.eqb_spec j k); [congruence | reflexivity].
Qed.

Lemma do_work_self_idle (k : nat) (s s' : pool) (pc : worker_pc) :
  do_work k s = Some s' -> m_accept_work s = true ->
  nth_error (workers s) k = Some pc -> pc_idle pc = true ->
  (exists pc', nth_error (workers s') k = Some pc' /\ pc_idle pc' = true)
  /\ executed s' = executed s.
Proof.
  intros H Ha Ek Hidle. unfold do_work in H. rewrite Ek, Ha in H.
  destruct pc; try discriminate Hidle; try discriminate H;
    try (destruct (m_mutex s); [discriminate H|]);
    injection H as <-; cbn; rewrite nth_error_replace_nth, Nat.eqb_refl, Ek; cbn;
    (split; [eexists; split; reflexivity | reflexivity]).
Qed.

Lemma quiet_step_missed (n : nat) (ts : list nat) (k : nat) (c0 : list task)
    (p0 : list nat) (m : move) (s s' : pool) :
  Z.of_nat n < 2 ^ 64 ->
  (List.length c0 + 1 + List.length p0 = List.length ts)%nat ->
  quiet m = true -> step m s = Some s' ->
  run_inv n ts s -> missed k c0 p0 s -> missed k c0 p0 s'.
Proof.
  intros Hn Hlen Hq H (Ht & Ha & Hc & Hl & dn & Hinv)
    ([w Er] & (pc & Ek & Hidle) & Hc0 & Hp0).
  rewrite Er in Hinv. destruct Hinv as (t & Hts & Htask & Hall & Hact).
  assert (Hdn : List.length dn = List.length c0).
  { apply (f_equal (@List.length nat)) in Hts.
    rewrite length_app in Hts. cbn in Hts. rewrite Hp0 in Hts. lia. }
  unfold step in H. rewrite Ht in H.
  destruct m as [ [ | |j]|]; try discriminate Hq.
  - (* the runner stays in its wait *)
    assert (Hpos : m_workers_active s <> 0).
    { rewrite Hact.
      pose proof (owing_pos dn (executed s) (workers s) O k pc Ek) as Ho.
      cbn [Nat.add] in Ho. unfold owes in Ho.
      rewrite Hc0, <- Hdn, Nat.eqb_refl in Ho. specialize (Ho eq_refl). lia. }
    unfold run in H. rewrite Er in H. unfold wait in H.
    destruct w; try discriminate H;
      try (destruct (m_mutex s); [discriminate H|]);
      try (destruct (Z.eqb_spec (m_workers_active s) 0); [contradiction|]);
      injection H as <-; cbn;
      (split; [eexists; reflexivity|]); (split; [exists pc; auto|]); auto.
  - (* a worker *)
    destruct (do_work_run n dn t j s s' w Hn Hl H Ha Htask Hc Er Ht Hall Hact)
      as (_ & _ & Hr' & Hp' & _).
    split; [exact Hr'|]. rewrite Hp'.
    destruct (Nat.eq_dec k j) as [->|Hne].
    + destruct (do_work_self_idle j s s' pc H Ha Ek Hidle) as [Hpc' He'].
      rewrite He'. auto.
    + destruct (do_work_other j k s s' H Hne) as [Hw' He'].
      rewrite Hw', He'. split; [exists pc; auto | auto].
Qed.

Lemma quiet_exec_missed (n : nat) (ts : list nat) (k : nat) (c0 : list task)
    (p0 : list nat) (sched : list move) (s s' : pool) :
  Z.of_nat n < 2 ^ 64 ->
  (List.length c0 + 1 + List.length p0 = List.length ts)%nat ->
  forallb quiet sched = true -> exec sched s = Some s' ->
  lock_inv s /\ run_inv n ts s -> missed k c0 p0 s -> missed k c0 p0 s'.
Proof.
  intros Hn Hlen. revert s; induction sched as [|m sched IH]; cbn;
    intros s Hq H Hinv Hm.
  - injection H as <-. exact Hm.
  - apply andb_true_iff in Hq. destruct Hq as [Hqm Hq].
    destruct (step m s) as [s1| ] eqn:E; [|discriminate].
    apply (IH s1 Hq H).
    + apply (quiet_step_inv n ts m s s1 Hn Hqm E Hinv).
    + apply (quiet_step_missed n ts k c0 p0 m s s1 Hn Hlen Hqm E (proj2 Hinv) Hm).
Qed.

(** X18.  Under any schedule of the threads, spurious wake-ups and the
    destructor included, [m_mutex] is held exactly when one thread is at a
    point of the code that needs it, and then by that thread alone: lines
    68-70 and 73-74 of [do_work] and lines 80-81 of [wait].  So every
    unlock, every wait on a condition variable and every test or decrement
    of [m_workers_active] under the lock is made by the holder, and the
    task of line 71 is called without the lock. *)
Theorem mutex_held_by_one_thread (n : nat) (ts : list nat) (active0 : Z)
    (sched : list move) (s : pool) :
  exec sched (init n ts active0) = Some s ->
  holders s = (if m_mutex s then 1 else 0)%nat.
Proof.
  intros H. apply (exec_lock sched _ s H (init_lock n ts active0)).
Qed.

Lemma mutex_held_by_one_thread_witness :
  exists s,
    exec demo_sched (init 2 [7; 8]%nat 0) = Some s
    /\ holders s = (if m_mutex s then 1 else 0)%nat.
Proof.
  destruct (exec demo_sched (init 2 [7; 8]%nat 0)) as [s| ] eqn:E;
    [|vm_compute in E; discriminate E].
  exists s. split; [reflexivity|].
  apply (mutex_held_by_one_thread 2 [7; 8]%nat 0 demo_sched s E).
Defined.

(** X19.  While the destructor has not started and no wait returns without
    a notification, the calls [run(Task t)] are served in order: with [dn]
    the tasks of the calls that have returned and [cur] the task of the
    call in progress, if any, every worker has called [m_task] for exactly
    the tasks of [dn], or of [dn] and [cur], each once and in that order,
    and no call of an empty [m_task] has happened.  Between two calls
    every worker has called the tasks of all calls made so far, and once
    a call has returned every worker is inside the wait of line 69. *)
Theorem run_serves_calls_in_order (n : nat) (ts : list nat) (active0 : Z)
    (sched : list move) (s : pool) :
  Z.of_nat n < 2 ^ 64 -> forallb quiet sched = true ->
  exec sched (init n ts active0) = Some s ->
  terminated s = false
  /\ exists dn cur,
       ts = dn ++ cur ++ pending s /\ (List.length cur <= 1)%nat
       /\ (forall k, (k < n)%nat ->
           calls_of k (executed s) = map Task dn
           \/ calls_of k (executed s) = map Task (dn ++ cur))
       /\ (runner s = RIdle ->
           cur = []
           /\ (dn <> [] ->
               forall k, (k < n)%nat ->
                         nth_error (workers s) k = Some W69_blocked)).
Proof.
  intros Hn Hq H.
  destruct (quiet_exec_inv n ts sched _ s Hn Hq H
              (conj (init_lock n ts active0) (init_run_inv n ts active0)))
    as [_ (Ht & Ha & Hc & Hl & dn & Hinv)].
  split; [exact Ht|].
  assert (Hk : forall k, (k < n)%nat ->
                         exists pc, nth_error (workers s) k = Some pc).
  { intros k Hlt. destruct (nth_error (workers s) k) as [pc| ] eqn:E; [eauto|].
    apply nth_error_None in E. lia. }
  assert (Hidle : forall cur,
    all_workers (idle_ok dn) s ->
    forall k, (k < n)%nat ->
      calls_of k (executed s) = map Task dn
      \/ calls_of k (executed s) = map Task (dn ++ cur)).
  { intros cur Hall k Hlt. destruct (Hk k Hlt) as [pc Ek].
    left. apply (Hall k pc Ek). }
  destruct (runner s) as [ |t|t|t| | |w] eqn:Er.
  - destruct Hinv as [Hts Hall]. exists dn, [].
    split; [exact Hts|]. split; [cbn; lia|]. split; [apply Hidle, Hall|].
    intros _. split; [reflexivity|]. intros Hne k Hlt.
    destruct (Hk k Hlt) as [pc Ek]. destruct (Hall k pc Ek) as (_ & _ & Hb).
    rewrite Ek, (Hb Hne). reflexivity.
  - destruct Hinv as [Hts Hall]. exists dn, [t].
    split; [exact Hts|]. split; [cbn; lia|]. split; [apply Hidle, Hall|].
    discriminate.
  - destruct Hinv.
  - destruct Hinv as [Hts Hall]. exists dn, [t].
    split; [exact Hts|]. split; [cbn; lia|]. split; [apply Hidle, Hall|].
    discriminate.
  - destruct Hinv as (t & Hts & _ & Hall). exists dn, [t].
    split; [exact Hts|]. split; [cbn; lia|]. split; [apply Hidle, Hall|].
    discriminate.
  - destruct Hinv as (t & Hts & _ & Hall & _). exists dn, [t].
    split; [exact Hts|]. split; [cbn; lia|]. split; [apply Hidle, Hall|].
    discriminate.
  - destruct Hinv as (t & Hts & _ & Hall & _). exists dn, [t].
    split; [exact Hts|]. split; [cbn; lia|]. split; [|discriminate].
    intros k Hlt. destruct (Hk k Hlt) as [pc Ek].
    destruct (Hall k pc Ek) as [ [Hlg _]|[Hlg _] ]; auto.
Qed.

Lemma run_serves_calls_in_order_witness :
  exists s,
    exec two_runs_sched (init 2 [7; 8]%nat 0) = Some s
    /\ runner s = RIdle /\ pending s = []
    /\ calls_of 0 (executed s) = [Task 7; Task 8]%nat
    /\ calls_of 1 (executed s) = [Task 7; Task 8]%nat
    /\ terminated s = false
    /\ exists dn cur,
         [7; 8]%nat = dn ++ cur ++ pending s /\ (List.length cur <= 1)%nat
         /\ (forall k, (k < 2)%nat ->
             calls_of k (executed s) = map Task dn
             \/ calls_of k (executed s) = map Task (dn ++ cur))
         /\ (runner s = RIdle ->
             cur = []
             /\ (dn <> [] ->
                 forall k, (k < 2)%nat ->
                           nth_error (workers s) k = Some W69_blocked)).
Proof.
  destruct (exec two_runs_sched (init 2 [7; 8]%nat 0)) as [s| ] eqn:E;
    [|vm_compute in E; discriminate E].
  exists s.
  pose proof (run_serves_calls_in_order 2 [7; 8]%nat 0 two_runs_sched s
                ltac:(vm_compute; reflexivity) ltac:(reflexivity) E) as [Ht Hex].
  vm_compute in E. injection E as <-.
  split; [reflexivity|]. split; [reflexivity|]. split; [reflexivity|].
  split; [reflexivity|]. split; [reflexivity|].
  split; [exact Ht | exact Hex].
Defined.

(** X20.  A notification that finds a worker outside the wait of line 69 is
    lost.  If line 51 of [run] executes while worker [k] has not yet
    entered that wait, then, as long as the destructor has not started
    and no wait returns without a notification, the call of [run] never
    returns and worker [k] never calls the task, whatever the threads do.
    After a call of [run] has returned this cannot happen (every worker is
    inside the wait), so only the first call is exposed. *)
Theorem missed_notification_blocks_run (n : nat) (ts : list nat) (active0 : Z)
    (sched1 sched2 : list move) (s1 s2 : pool) (k : nat) (pc : worker_pc) :
  Z.of_nat n < 2 ^ 64 -> forallb quiet sched1 = true ->
  exec sched1 (init n ts active0) = Some s1 ->
  runner s1 = R51 -> nth_error (workers s1) k = Some pc -> pc <> W69_blocked ->
  forallb quiet sched2 = true -> exec (Step Runner :: sched2) s1 = Some s2 ->
  (exists w, runner s2 = RWait w)
  /\ pending s2 = pending s1
  /\ calls_of k (executed s2) = calls_of k (executed s1)
  /\ exists pc', nth_error (workers s2) k = Some pc' /\ pc_idle pc' = true.
Proof.
  intros Hn Hq1 H1 Er Ek Hpc Hq2 H2.
  pose proof (quiet_exec_inv n ts sched1 _ s1 Hn Hq1 H1
                (conj (init_lock n ts active0) (init_run_inv n ts active0)))
    as Hinv1.
  cbn [exec] in H2.
  destruct (step (Step Runner) s1) as [s| ] eqn:E; [|discriminate].
  pose proof (quiet_step_inv n ts (Step Runner) s1 s Hn eq_refl E Hinv1) as Hinv.
  destruct Hinv1 as [_ (Ht & Ha & Hc & Hl & dn & Hi)].
  rewrite Er in Hi. destruct Hi as (t & Hts & Htask & Hall & Hact).
  destruct (Hall k pc Ek) as (Hlg & Hidle & _).
  assert (Hm : missed k (calls_of k (executed s1)) (pending s1) s).
  { unfold step in E. rewrite Ht in E. unfold run in E. rewrite Er in E.
    injection E as <-. unfold missed.
    cbn [runner workers executed pending set_runner notify_work set_workers].
    split; [eexists; reflexivity|]. split; [|split; reflexivity].
    exists pc. split; [|exact Hidle].
    rewrite nth_error_map, Ek. cbn. f_equal.
    destruct pc; try reflexivity. congruence. }
  assert (Hlen : (List.length (calls_of k (executed s1)) + 1
                  + List.length (pending s1) = List.length ts)%nat).
  { rewrite Hlg, length_map, Hts, length_app. cbn. lia. }
  destruct (quiet_exec_missed n ts k _ _ sched2 s s2 Hn Hlen Hq2 H2 Hinv Hm)
    as (Hr & Hw & Hc0 & Hp0).
  auto.
Qed.

(** The runner calls [run] before the worker has taken the mutex for the
    first time. *)
Lemma missed_notification_blocks_run_witness :
  exists s1 s2,
    exec (repeat (Step Runner) 4) (init 1 [7]%nat 0) = Some s1
    /\ exec (Step Runner :: repeat (Step (Worker 0)) 3
             ++ repeat (Step Runner) 3) s1 = Some s2
    /\ runner s2 = RWait T81_blocked /\ workers s2 = [W69_blocked]
    /\ step (Step Runner) s2 = None
    /\ (forall j, step (Step (Worker j)) s2 = None)
    /\ (exists w, runner s2 = RWait w)
    /\ pending s2 = pending s1
    /\ calls_of 0 (executed s2) = calls_of 0 (executed s1)
    /\ exists pc', nth_error (workers s2) 0 = Some pc' /\ pc_idle pc' = true.
Proof.
  destruct (exec (repeat (Step Runner) 4) (init 1 [7]%nat 0)) as [s1| ] eqn:E1;
    [|vm_compute in E1; discriminate E1].
  destruct (exec (Step Runner :: repeat (Step (Worker 0)) 3
                  ++ repeat (Step Runner) 3) s1) as [s2| ] eqn:E2;
    [|vm_compute in E1; injection E1 as <-; vm_compute in E2; discriminate E2].
  exists s1, s2. split; [reflexivity|]. split; [exact E2|].
  assert (Hr1 : runner s1 = R51)
    by (vm_compute in E1; injection E1 as <-; reflexivity).
  assert (Hk1 : nth_error (workers s1) 0 = Some W67)
    by (vm_compute in E1; injection E1 as <-; reflexivity).
  pose proof (missed_notification_blocks_run 1 [7]%nat 0
                (repeat (Step Runner) 4)
                (repeat (Step (Worker 0)) 3 ++ repeat (Step Runner) 3)
                s1 s2 0 W67 ltac:(vm_compute; reflexivity) ltac:(reflexivity)
                E1 Hr1 Hk1 ltac:(discriminate) ltac:(reflexivity) E2) as Hthm.
  vm_compute in E1. injection E1 as <-.
  vm_compute in E2. injection E2 as <-.
  split; [reflexivity|]. split; [reflexivity|].
  split; [reflexivity|]. split; [intros [|[|j] ]; reflexivity|].
  exact Hthm.
Defined.

Lemma notify_done_closer (s : pool) :
  (forall w, closer s <> CWait w) -> closer (notify_done s) = closer s.
Proof.
  intros H. unfold notify_done.
  destruct (closer s) as [w| | | | | | ] eqn:Ec; [destruct (H w eq_refl)|..];
    destruct (runner s) eqn:Er; cbn; rewrite ?Ec; reflexivity.
Qed.

Lemma all_since_set (P : list task -> list task -> worker_pc -> Prop)
    (s0 s s' : pool) (k : nat) (pc' : worker_pc) :
  all_since P s0 s ->
  workers s' = replace_nth k pc' (workers s) ->
  executed s' = executed s ->
  P (calls_of k (executed s0)) (calls_of k (executed s)) pc' ->
  all_since P s0 s'.
Proof.
  intros H Hw He Hk j pc Hj.
  rewrite Hw, nth_error_replace_nth in Hj. rewrite He.
  destruct (Nat.eqb_spec j k) as [->|Hne].
  - destruct (nth_error (workers s) k); cbn in Hj; [|discriminate].
    injection Hj as <-. exact Hk.
  - apply H. exact Hj.
Qed.

Lemma destructor_keeps_inv (s0 s s' : pool) :
  destructor s = Some s' -> close_inv s0 s -> close_inv s0 s'.
Proof.
  intros H [Ht Hinv]. unfold destructor in H. unfold close_inv.
  destruct (closer s) as [w| | | |j| | ] eqn:Ec.
  - (* the wait of line 22 *)
    destruct Hinv as (Htask & Ha & Hall). unfold wait in H.
    destruct w; try discriminate H;
      try (destruct (m_mutex s); [discriminate H|]);
      try (destruct (m_workers_active s =? 0));
      injection H as <-; cbn; (split; [exact Ht|]);
      (split; [exact Htask|]); (split; [exact Ha | exact Hall]).
  - (* 25 *)
    destruct Hinv as (Htask & Ha & Hall).
    assert (Hst : stored s0 = stored s) by (unfold stored; rewrite Htask; reflexivity).
    rewrite Hst. unfold stored.
    destruct (m_task s) as [tk| ] eqn:Em; injection H as <-; cbn;
      (split; [exact Ht|]); (split; [auto|]); (split; [exact Ha | exact Hall]).
  - (* 30 *)
    destruct Hinv as (Htask & Ha & Hall). injection H as <-. cbn.
    split; [exact Ht|]. split; [exact Htask|]. split; [reflexivity | exact Hall].
  - (* 31: the notification *)
    destruct Hinv as (Htask & Ha & Hall). injection H as <-. cbn.
    split; [exact Ht|]. split; [exact Htask|]. split; [exact Ha|].
    intros k pc Hk.
    change (nth_error (map wake_worker (workers s)) k = Some pc) in Hk.
    change (leaving_ok (stored s0) (calls_of k (executed s0))
              (calls_of k (executed s)) pc).
    rewrite nth_error_map in Hk.
    destruct (nth_error (workers s) k) as [pc0| ] eqn:Ek; [|discriminate].
    cbn in Hk. injection Hk as <-.
    destruct (Hall k pc0 Ek) as [Hlg ->]. left. split; [exact Hlg | reflexivity].
  - (* the joins *)
    destruct (nth_error (workers s) j) as [ [ ]| ]; try discriminate H;
      injection H as <-; cbn; (split; [exact Ht | exact Hinv]).
  - injection H as <-. cbn. split; [exact Ht | exact Hinv].
  - discriminate H.
Qed.

Lemma do_work_keeps_close_inv (s0 s s' : pool) (k : nat) :
  do_work k s = Some s' -> close_inv s0 s -> close_inv s0 s'.
Proof.
  intros H [Ht Hinv]. unfold do_work in H.
  destruct (nth_error (workers s) k) as [pc| ] eqn:Ek; [|discriminate].
  assert (Hwait : all_since waiting_ok s0 s -> False).
  { intros Hall. destruct (Hall k pc Ek) as [_ ->]. discriminate H. }
  assert (Hleave : forall j,
    closer s = CJoin j \/ closer s = C39 \/ closer s = CReturned ->
    m_task s = Some (stored s0) -> m_accept_work s = false ->
    all_since (leaving_ok (stored s0)) s0 s ->
    terminated s' = false /\ closer s' = closer s
    /\ m_task s' = Some (stored s0) /\ m_accept_work s' = false
    /\ all_since (leaving_ok (stored s0)) s0 s').
  { intros j Hc Htask Ha Hall.
    pose proof (Hall k pc Ek) as Hk.
    destruct (notify_done_fields s) as (Hw & Htk & Hacc & He & Hterm & _).
    assert (Hnc : closer (notify_done s) = closer s).
    { apply notify_done_closer. intros w.
      destruct Hc as [Hc|[Hc|Hc] ]; rewrite Hc; discriminate. }
    rewrite Ha, Htask in H.
    destruct pc; try discriminate H;
      try (destruct (m_mutex s); [discriminate H|]);
      injection H as <-;
      cbn [terminated closer m_task m_accept_work set_worker set_workers
           set_mutex set_active add_executed];
      rewrite ?Hnc, ?Htk, ?Hacc, ?Hterm;
      (split; [exact Ht|]); (split; [reflexivity|]);
      (split; [exact Htask|]); (split; [exact Ha|]).
    - (* W67 *)
      destruct Hk as [ [_ Hpc]|[_ Hpc] ]; discriminate Hpc.
    - (* W68: leaves *)
      eapply all_since_set with (k := k); [exact Hall | reflexivity | reflexivity |].
      destruct Hk as [ [_ Hpc]|[Hlg _] ]; [discriminate Hpc|].
      right. split; [exact Hlg | reflexivity].
    - (* W69 *)
      destruct Hk as [ [_ Hpc]|[_ Hpc] ]; discriminate Hpc.
    - (* W69_relock *)
      eapply all_since_set with (k := k); [exact Hall | reflexivity | reflexivity |].
      destruct Hk as [ [Hlg _]|[_ Hpc] ]; [|discriminate Hpc].
      left. split; [exact Hlg | reflexivity].
    - (* W70 *)
      eapply all_since_set with (k := k); [exact Hall | reflexivity | reflexivity |].
      destruct Hk as [ [Hlg _]|[_ Hpc] ]; [|discriminate Hpc].
      left. split; [exact Hlg | reflexivity].
    - (* W71: the call *)
      destruct Hk as [ [Hlg _]|[_ Hpc] ]; [|discriminate Hpc].
      intros i pc Hi.
      change (nth_error (replace_nth k W72 (workers s)) i = Some pc) in Hi.
      change (leaving_ok (stored s0) (calls_of i (executed s0))
                (calls_of i ((k, stored s0) :: executed s)) pc).
      rewrite nth_error_replace_nth in Hi. rewrite calls_of_cons.
      destruct (Nat.eqb_spec i k) as [->|Hne].
      + rewrite Ek in Hi. cbn in Hi. injection Hi as <-.
        rewrite Nat.eqb_refl. right. split; [rewrite Hlg; reflexivity | reflexivity].
      + destruct (Nat.eqb_spec k i) as [->|_]; [congruence|].
        apply Hall. exact Hi.
    - (* W72 *)
      eapply all_since_set with (k := k); [exact Hall | reflexivity | reflexivity |].
      destruct Hk as [ [_ Hpc]|[Hlg _] ]; [discriminate Hpc|].
      right. split; [exact Hlg | reflexivity].
    - (* W73 *)
      eapply all_since_set with (k := k); [exact Hall | reflexivity | reflexivity |].
      destruct Hk as [ [_ Hpc]|[Hlg _] ]; [discriminate Hpc|].
      right. split; [exact Hlg | reflexivity].
    - (* W74 *)
      eapply all_since_set with (k := k); [exact Hall | | exact He |].
      { cbn. rewrite Hw. reflexivity. }
      destruct Hk as [ [_ Hpc]|[Hlg _] ]; [discriminate Hpc|].
      right. split; [exact Hlg | reflexivity]. }
  unfold close_inv.
  destruct (closer s) as [w| | | |j| | ] eqn:Ec;
    try (destruct Hinv as (_ & _ & Hall); destruct (Hwait Hall)).
  - destruct Hinv as (Htask & Ha & Hall).
    destruct (Hleave j (or_introl eq_refl) Htask Ha Hall)
      as (H1 & H2 & H3 & H4 & H5).
    rewrite H2. auto.
  - destruct Hinv as (Htask & Ha & Hall).
    destruct (Hleave O (or_intror (or_introl eq_refl)) Htask Ha Hall)
      as (H1 & H2 & H3 & H4 & H5).
    rewrite H2. auto.
  - destruct Hinv as (Htask & Ha & Hall).
    destruct (Hleave O (or_intror (or_intror eq_refl)) Htask Ha Hall)
      as (H1 & H2 & H3 & H4 & H5).
    rewrite H2. auto.
Qed.

Lemma closing_exec_inv (s0 : pool) (sched : list move) (s s' : pool) :
  forallb closing sched = true -> exec sched s = Some s' ->
  close_inv s0 s -> close_inv s0 s'.
Proof.
  revert s; induction sched as [|m sched IH]; cbn; intros s Hq H Hinv.
  - injection H as <-. exact Hinv.
  - apply andb_true_iff in Hq. destruct Hq as [Hm Hq].
    destruct (step m s) as [s1| ] eqn:E; [|discriminate].
    apply (IH s1 Hq H).
    unfold step in E. destruct (terminated s); [discriminate|].
    destruct m as [ [ | |k]|]; try discriminate Hm.
    + apply (destructor_keeps_inv s0 s s1 E Hinv).
    + apply (do_work_keeps_close_inv s0 s s1 k E Hinv).
Qed.

Lemma exec_app (sched1 sched2 : list move) (s : pool) :
  exec (sched1 ++ sched2) s
  = match exec sched1 s with
    | Some s1 => exec sched2 s1
    | None => None
    end.
Proof.
  revert s; induction sched1 as [|m sched1 IH]; intros s; cbn; [reflexivity|].
  destruct (step m s); [apply IH | reflexivity].
Qed.

(** X21.  The destructor makes every waiting worker call the task once
    more.  If the destructor starts while every worker is inside the wait
    of line 69 (as after any call of [run] that has returned) and runs to
    its end with no further call of [run] and no spurious wake-up, then
    each worker has called the stored task exactly one more time before
    leaving: the task of the last call of [run], or the dummy of line 26
    when there was none. *)
Theorem close_calls_task_once_more (n : nat) (ts : list nat) (active0 : Z)
    (sched1 sched2 : list move) (s0 s : pool) :
  exec sched1 (init n ts active0) = Some s0 ->
  closer s0 = CWait T79 -> terminated s0 = false ->
  Forall (fun pc => pc = W69_blocked) (workers s0) ->
  forallb closing sched2 = true -> exec sched2 s0 = Some s ->
  closer s = CReturned ->
  terminated s = false
  /\ forall k, (k < n)%nat ->
       calls_of k (executed s) = calls_of k (executed s0) ++ [stored s0].
Proof.
  intros H1 Hc Ht Hall Hq H2 Hret.
  assert (Ha : m_accept_work s0 = true).
  { destruct (exec_inv sched1 _ s0 H1 (init_inv n ts active0)) as [_ Hs].
    destruct (m_accept_work s0); [reflexivity|].
    specialize (Hs eq_refl). rewrite Hc in Hs. discriminate. }
  assert (Hinv0 : close_inv s0 s0).
  { split; [exact Ht|]. rewrite Hc. split; [reflexivity|]. split; [exact Ha|].
    intros k pc Hk. split; [reflexivity|].
    rewrite Forall_forall in Hall. apply Hall. apply (nth_error_In _ _ Hk). }
  destruct (closing_exec_inv s0 sched2 s0 s Hq H2 Hinv0) as [Ht' Hinv].
  split; [exact Ht'|]. intros k Hlt.
  rewrite Hret in Hinv. destruct Hinv as (_ & _ & Hl).
  assert (H12 : exec (sched1 ++ sched2) (init n ts active0) = Some s)
    by (rewrite exec_app, H1; exact H2).
  destruct (exec_inv _ _ s H12 (init_inv n ts active0)) as [Hj _].
  pose proof (exec_length _ _ s H12) as Hlen.
  cbn in Hlen. rewrite repeat_length in Hlen.
  assert (Hk : nth_error (workers s) k = Some WExit).
  { apply Hj. unfold joined. rewrite Hret. lia. }
  destruct (Hl k WExit Hk) as [ [_ Hpc]|[Hlg _] ]; [discriminate Hpc | exact Hlg].
Qed.

Lemma close_calls_task_once_more_witness :
  exists s0 s,
    exec two_runs_sched (init 2 [7; 8]%nat 0) = Some s0
    /\ exec close_sched s0 = Some s
    /\ calls_of 0 (executed s0) = [Task 7; Task 8]%nat
    /\ calls_of 0 (executed s) = [Task 7; Task 8; Task 8]%nat
    /\ calls_of 1 (executed s) = [Task 7; Task 8; Task 8]%nat
    /\ m_workers_active s = 2 ^ 64 - 2
    /\ terminated s = false
    /\ forall k, (k < 2)%nat ->
         calls_of k (executed s) = calls_of k (executed s0) ++ [stored s0].
Proof.
  destruct (exec two_runs_sched (init 2 [7; 8]%nat 0)) as [s0| ] eqn:E1;
    [|vm_compute in E1; discriminate E1].
  destruct (exec close_sched s0) as [s| ] eqn:E2;
    [|vm_compute in E1; injection E1 as <-; vm_compute in E2; discriminate E2].
  exists s0, s. split; [reflexivity|]. split; [exact E2|].
  assert (Hc0 : closer s0 = CWait T79)
    by (vm_compute in E1; injection E1 as <-; reflexivity).
  assert (Ht0 : terminated s0 = false)
    by (vm_compute in E1; injection E1 as <-; reflexivity).
  assert (Hw0 : Forall (fun pc => pc = W69_blocked) (workers s0))
    by (vm_compute in E1; injection E1 as <-; repeat constructor).
  assert (Hr : closer s = CReturned)
    by (vm_compute in E1; injection E1 as <-;
        vm_compute in E2; injection E2 as <-; reflexivity).
  pose proof (close_calls_task_once_more 2 [7; 8]%nat 0 two_runs_sched
                close_sched s0 s E1 Hc0 Ht0 Hw0 ltac:(reflexivity) E2 Hr)
    as [Ht Hthm].
  vm_compute in E1. injection E1 as <-.
  vm_compute in E2. injection E2 as <-.
  split; [reflexivity|]. split; [reflexivity|]. split; [reflexivity|].
  split; [reflexivity|]. split; [exact Ht | exact Hthm].
Defined.
